(** * CareMap track service: goal tracking and conditional questionnaires

    A shallow embedding of [src/services/core/TrackService.ts] together with
    the part of the JavaScript runtime the service relies on (strings,
    [parseInt], [Date], [JSON.parse], [String.prototype.replace]).

    Conventions of the embedding.
    - A JavaScript string is a [string] holding the UTF-8 bytes of its code
      units; every pattern the service searches for is ASCII, so searching,
      splitting and comparing bytes agrees with the code-unit operations.
    - An integral [Number] is a [Z]; [NaN] is [None].  A [Date] object is
      its time value in milliseconds since the epoch, or [None] when the
      date is invalid.
    - The local time zone is a fixed offset [tz] (milliseconds, local minus
      UTC).  Strings that [Date.parse] does not read as the date-only form
      [YYYY-MM-DD] are read by [Date_parse_other], a parameter: the standard
      leaves most of them to the engine. *)

From Stdlib Require Import ZArith List String Ascii Bool Lia.
From Stdlib Require Import DecimalString DecimalZ DecimalPos DecimalN.
From Stdlib Require Import Floats.
From stdpp Require Import gmap.

Import ListNotations.

(** ** The JavaScript runtime *)

Module Js.

Local Open Scope string_scope.

(** *** Strings *)

Definition is_digit (c : ascii) : bool :=
  let n := nat_of_ascii c in (Nat.leb 48 n) && (Nat.leb n 57).

Definition digit_val (c : ascii) : Z := (Z.of_nat (nat_of_ascii c) - 48)%Z.

Fixpoint drop (n : nat) (s : string) : string :=
  match n, s with
  | S n', String _ s' => drop n' s'
  | _, _ => s
  end.

Fixpoint rev_append (s acc : string) : string :=
  match s with
  | EmptyString => acc
  | String c s' => rev_append s' (String c acc)
  end.

Definition rev (s : string) : string := rev_append s "".

(** [s.startsWith(p)] *)
Definition startsWith (s p : string) : bool := String.prefix p s.

(** The first occurrence of [pat] in [s]: the text before it and the text
    after it. *)
Fixpoint split_at_first (pat s : string) : option (string * string) :=
  if String.prefix pat s then Some ("", drop (String.length pat) s)
  else match s with
       | EmptyString => None
       | String c s' =>
           match split_at_first pat s' with
           | Some (b, a) => Some (String c b, a)
           | None => None
           end
       end.

(** [GetSubstitution] for a string pattern (no captures): in the
    replacement text [$$] stands for a dollar sign, [$&] for the matched
    text, [$`] for the text before the match and [$'] for the text after
    it; every other character is copied. *)
Fixpoint GetSubstitution (matched before after repl : string) : string :=
  match repl with
  | EmptyString => ""
  | String c t =>
      if Ascii.eqb c "$" then
        match t with
        | String d t' =>
            if Ascii.eqb d "$" then String "$" (GetSubstitution matched before after t')
            else if Ascii.eqb d "&" then matched ++ GetSubstitution matched before after t'
            else if Ascii.eqb d "`" then before ++ GetSubstitution matched before after t'
            else if Ascii.eqb d "'" then after ++ GetSubstitution matched before after t'
            else String c (GetSubstitution matched before after t)
        | EmptyString => String c ""
        end
      else String c (GetSubstitution matched before after t)
  end.

(** [s.replace(pat, repl)] with a string pattern: the first occurrence
    only. *)
Definition replace (s pat repl : string) : string :=
  match split_at_first pat s with
  | Some (b, a) => b ++ GetSubstitution pat b a repl ++ a
  | None => s
  end.

(** [s.split(sep)] with a one-character separator. *)
Fixpoint split (sep : ascii) (s : string) : list string :=
  match s with
  | EmptyString => [""]
  | String c s' =>
      if Ascii.eqb c sep then "" :: split sep s'
      else match split sep s' with
           | [] => [String c ""]
           | h :: t => String c h :: t
           end
  end.

(** [s.padStart(2, '0')] *)
Definition padStart2 (s : string) : string :=
  match s with
  | EmptyString => "00"
  | String c EmptyString => String "0" s
  | _ => s
  end.

(** [l.join(sep)] on strings. *)
Fixpoint join (sep : string) (l : list string) : string :=
  match l with
  | [] => ""
  | [x] => x
  | x :: t => x ++ sep ++ join sep t
  end.

(** White space and line terminators ([StrWhiteSpaceChar]), as UTF-8:
    U+0009..U+000D, U+0020, U+00A0, U+1680, U+2000..U+200A, U+2028,
    U+2029, U+202F, U+205F, U+3000, U+FEFF. *)
Definition byte (n : nat) : ascii := ascii_of_nat n.

Definition quote : ascii := byte 34.

Definition backslash : ascii := byte 92.

(** A text with every apostrophe turned into a double quote, to write
    JSON texts down. *)
Fixpoint dq (s : string) : string :=
  match s with
  | EmptyString => EmptyString
  | String c r => String (if Ascii.eqb c "'" then quote else c) (dq r)
  end.

Definition white_space : list string :=
  map (fun n => String (byte n) "") [9; 10; 11; 12; 13; 32]%nat
  ++ [String (byte 194) (String (byte 160) "")]
  ++ [String (byte 225) (String (byte 154) (String (byte 128) ""))]
  ++ map (fun n => String (byte 226) (String (byte 128) (String (byte n) "")))
       [128; 129; 130; 131; 132; 133; 134; 135; 136; 137; 138; 168; 169; 175]%nat
  ++ [String (byte 226) (String (byte 129) (String (byte 159) ""))]
  ++ [String (byte 227) (String (byte 128) (String (byte 128) ""))]
  ++ [String (byte 239) (String (byte 187) (String (byte 191) ""))].

Definition ws_prefix (s : string) : option string :=
  match find (fun w => String.prefix w s) white_space with
  | Some w => Some (drop (String.length w) s)
  | None => None
  end.

Definition ws_suffix_rev (r : string) : option string :=
  match find (fun w => String.prefix (rev w) r) white_space with
  | Some w => Some (drop (String.length w) r)
  | None => None
  end.

Fixpoint strip (step : string -> option string) (fuel : nat) (s : string) : string :=
  match fuel with
  | O => s
  | S fuel' =>
      match step s with
      | Some r => strip step fuel' r
      | None => s
      end
  end.

Definition trimStart (s : string) : string := strip ws_prefix (String.length s) s.

(** [s.trim()] *)
Definition trim (s : string) : string :=
  let s1 := trimStart s in
  rev (strip ws_suffix_rev (String.length s1) (rev s1)).

(** *** Numbers *)

(** The value of the longest prefix of decimal digits, and whether there
    was one. *)
Fixpoint digits_value (s : string) (acc : Z) (seen : bool) : option Z :=
  match s with
  | String c s' =>
      if is_digit c then digits_value s' (10 * acc + digit_val c)%Z true
      else if seen then Some acc else None
  | EmptyString => if seen then Some acc else None
  end.

(** [parseInt(s, 10)]: leading white space, an optional sign, then digits;
    [None] is [NaN]. *)
Definition parseInt10 (s : string) : option Z :=
  match trimStart s with
  | String c r =>
      if Ascii.eqb c "-" then option_map Z.opp (digits_value r 0 false)
      else if Ascii.eqb c "+" then digits_value r 0 false
      else digits_value (String c r) 0 false
  | EmptyString => None
  end.

(** [String(n)] for an integral number. *)
Definition Z_toString (n : Z) : string := NilZero.string_of_int (Z.to_int n).

(** [String(x)] for a number that may be [NaN]. *)
Definition num_toString (x : option Z) : string :=
  match x with
  | Some n => Z_toString n
  | None => "NaN"
  end.

(** *** Dates

    Day numbers and calendar fields, as the language standard defines
    them ([Day], [DayFromYear], [YearFromTime], [MonthFromTime],
    [DateFromTime], [WeekDay], [MakeDay], [MakeDate], [TimeClip]). *)

Local Open Scope Z_scope.

Definition msPerDay : Z := 86400000.

Definition Day (t : Z) : Z := t / msPerDay.

Definition TimeWithinDay (t : Z) : Z := t mod msPerDay.

Definition DayFromYear (y : Z) : Z :=
  365 * (y - 1970) + (y - 1969) / 4 - (y - 1901) / 100 + (y - 1601) / 400.

Definition DaysInYear (y : Z) : Z :=
  if (y mod 4 =? 0) && (negb (y mod 100 =? 0) || (y mod 400 =? 0)) then 366 else 365.

Definition InLeapYear (y : Z) : Z := if DaysInYear y =? 366 then 1 else 0.

(** The largest year whose first day is not after day number [d]: an
    estimate from the mean length of a year, corrected by at most one. *)
Definition YearFromDay (d : Z) : Z :=
  let y0 := 1970 + (400 * d) / 146097 in
  if DayFromYear (y0 + 1) <=? d then y0 + 1
  else if DayFromYear y0 <=? d then y0
  else y0 - 1.

(** Number of days of the year before month [m] (0 = January). *)
Definition DaysBeforeMonth (leap m : Z) : Z :=
  match m with
  | 0 => 0 | 1 => 31 | 2 => 59 + leap | 3 => 90 + leap | 4 => 120 + leap
  | 5 => 151 + leap | 6 => 181 + leap | 7 => 212 + leap | 8 => 243 + leap
  | 9 => 273 + leap | 10 => 304 + leap | _ => 334 + leap
  end.

(** Month (0..11) of the day [dwy] within a year. *)
Definition MonthFromDayWithinYear (leap dwy : Z) : Z :=
  if dwy <? 31 then 0
  else if dwy <? 59 + leap then 1
  else if dwy <? 90 + leap then 2
  else if dwy <? 120 + leap then 3
  else if dwy <? 151 + leap then 4
  else if dwy <? 181 + leap then 5
  else if dwy <? 212 + leap then 6
  else if dwy <? 243 + leap then 7
  else if dwy <? 273 + leap then 8
  else if dwy <? 304 + leap then 9
  else if dwy <? 334 + leap then 10
  else 11.

Definition YearFromTime (t : Z) : Z := YearFromDay (Day t).

Definition DayWithinYear (t : Z) : Z := Day t - DayFromYear (YearFromTime t).

Definition MonthFromTime (t : Z) : Z :=
  MonthFromDayWithinYear (InLeapYear (YearFromTime t)) (DayWithinYear t).

Definition DateFromTime (t : Z) : Z :=
  DayWithinYear t
  - DaysBeforeMonth (InLeapYear (YearFromTime t)) (MonthFromTime t) + 1.

Definition WeekDay (t : Z) : Z := (Day t + 4) mod 7.

(** [MakeDay(year, month, date)]: months outside 0..11 carry into the
    year, days outside the month carry into the neighbouring months. *)
Definition MakeDay (year month date : Z) : Z :=
  let ym := year + month / 12 in
  let mn := month mod 12 in
  DayFromYear ym + DaysBeforeMonth (InLeapYear ym) mn + date - 1.

Definition MakeDate (day time : Z) : Z := day * msPerDay + time.

Definition TimeClip (t : Z) : option Z :=
  if Z.abs t <=? 8640000000000000 then Some t else None.

(** Length of month [m] (0 = January) of year [y]. *)
Definition DaysInMonth (y m : Z) : Z :=
  match m with
  | 1 => 28 + InLeapYear y
  | 3 | 5 | 8 | 10 => 30
  | _ => 31
  end.

(** [/^\d{4}-\d{2}-\d{2}/.test(s)] *)
Definition iso_date_prefix (s : string) : bool :=
  match s with
  | String y1 (String y2 (String y3 (String y4 (String h1
      (String m1 (String m2 (String h2 (String d1 (String d2 _))))))))) =>
      is_digit y1 && is_digit y2 && is_digit y3 && is_digit y4
      && Ascii.eqb h1 "-" && is_digit m1 && is_digit m2
      && Ascii.eqb h2 "-" && is_digit d1 && is_digit d2
  | _ => false
  end.

(** The fields of a string that is exactly a date [YYYY-MM-DD] of the
    calendar. *)
Definition iso_date_only (s : string) : option (Z * Z * Z) :=
  if iso_date_prefix s && Nat.eqb (String.length s) 10 then
    match digits_value (String.substring 0 4 s) 0 false,
          digits_value (String.substring 5 2 s) 0 false,
          digits_value (String.substring 8 2 s) 0 false with
    | Some y, Some m, Some d =>
        if (1 <=? m) && (m <=? 12) && (1 <=? d) && (d <=? DaysInMonth y (m - 1))
        then Some (y, m, d) else None
    | _, _, _ => None
    end
  else None.

(** A date object: its time value, [None] when invalid. *)
Definition JsDate : Type := option Z.

(** [a + b] and [a || 1] on numbers that may be [NaN]. *)
Definition num_add (a b : option Z) : option Z :=
  match a, b with
  | Some x, Some y => Some (x + y)
  | _, _ => None
  end.

Definition or_one (a : option Z) : Z :=
  match a with
  | Some 0 | None => 1
  | Some x => x
  end.

Section LocalTime.

(** Offset of local time from UTC, in milliseconds. *)
Variable tz : Z.

(** [Date.parse] on strings that are not a date of the form
    [YYYY-MM-DD]. *)
Variable Date_parse_other : string -> option Z.

Definition LocalTime (t : Z) : Z := t + tz.

Definition UTC (t : Z) : Z := t - tz.

(** [new Date(s)]: the date-only form is UTC midnight of that date. *)
Definition Date_of_string (s : string) : JsDate :=
  match iso_date_only s with
  | Some (y, m, d) => TimeClip (MakeDate (MakeDay y (m - 1) d) 0)
  | None =>
      match Date_parse_other s with
      | Some t => TimeClip t
      | None => None
      end
  end.

(** [new Date(year, month, date)]: local midnight; a year from 0 to 99
    means 1900 + year. *)
Definition Date_of_fields (year month date : option Z) : JsDate :=
  match year, month, date with
  | Some y, Some m, Some d =>
      let yr := if (0 <=? y) && (y <=? 99) then 1900 + y else y in
      TimeClip (UTC (MakeDate (MakeDay yr m d) 0))
  | _, _, _ => None
  end.

Definition getFullYear (d : JsDate) : option Z :=
  option_map (fun t => YearFromTime (LocalTime t)) d.

Definition getMonth (d : JsDate) : option Z :=
  option_map (fun t => MonthFromTime (LocalTime t)) d.

Definition getDate (d : JsDate) : option Z :=
  option_map (fun t => DateFromTime (LocalTime t)) d.

Definition getDay (d : JsDate) : option Z :=
  option_map (fun t => WeekDay (LocalTime t)) d.

(** [d.setDate(dt)], returning the date object after the update. *)
Definition setDate (d : JsDate) (dt : option Z) : JsDate :=
  match d, dt with
  | Some tv, Some n =>
      let t := LocalTime tv in
      TimeClip (UTC (MakeDate (MakeDay (YearFromTime t) (MonthFromTime t) n)
                       (TimeWithinDay t)))
  | _, _ => None
  end.

(** [a > b] on date objects. *)
Definition Date_gt (a b : JsDate) : bool :=
  match a, b with
  | Some x, Some y => y <? x
  | _, _ => false
  end.

End LocalTime.

(** *** Values and JSON *)

Local Open Scope string_scope.

Local Set Warnings "-register-all".

(** The values the service handles: what [JSON.parse] returns, and
    [undefined]. *)
Inductive JsValue : Type :=
| JUndefined
| JNull
| JBool (b : bool)
| JNum (x : float)
| JStr (s : string)
| JArr (l : list JsValue)
| JObj (members : list (string * JsValue)).

Definition is_array (v : JsValue) : bool :=
  match v with JArr _ => true | _ => false end.

(** [a === b]: arrays and objects are compared by identity, and two
    values that were parsed apart are never the same object. *)
Definition strict_equals (a c : JsValue) : bool :=
  match a, c with
  | JUndefined, JUndefined => true
  | JNull, JNull => true
  | JBool x, JBool y => Bool.eqb x y
  | JNum x, JNum y => PrimFloat.eqb x y
  | JStr x, JStr y => String.eqb x y
  | _, _ => false
  end.

(** [SameValueZero], the comparison of [Array.prototype.includes]. *)
Definition same_value_zero (a c : JsValue) : bool :=
  match a, c with
  | JNum x, JNum y => PrimFloat.eqb x y || (PrimFloat.is_nan x && PrimFloat.is_nan y)
  | _, _ => strict_equals a c
  end.

Definition includes (l : list JsValue) (v : JsValue) : bool :=
  existsb (fun x => same_value_zero x v) l.

(** [o[key]] for a key that is neither an index nor [length]: the last
    member of that name of an object, [undefined] on any other value;
    [None] when the access throws (on [null] and [undefined]). *)
Fixpoint lookup_member (key : string) (members : list (string * JsValue))
  : JsValue :=
  match members with
  | [] => JUndefined
  | (k, v) :: rest =>
      match lookup_member key rest with
      | JUndefined =>
          if String.eqb k key && negb (existsb (fun kv => String.eqb (fst kv) key) rest)
          then v else JUndefined
      | found => found
      end
  end.

Definition get_property (o : JsValue) (key : string) : option JsValue :=
  match o with
  | JUndefined | JNull => None
  | JObj members => Some (lookup_member key members)
  | _ => Some JUndefined
  end.

Section Numbers.

(** The number a numeric text denotes ([StringToNumber]) and the text of
    a number ([Number::toString]). *)
Variable StringToNumber : string -> float.
Variable Number_toString : float -> string.

(** An object made by [JSON.parse] has a member of its own under [key]. *)
Definition has_own (members : list (string * JsValue)) (key : string) : bool :=
  existsb (fun kv => String.eqb (fst kv) key) members.

(** [String(v)]; [None] when it throws.  An array is joined with commas.
    An object takes [toString] from [Object.prototype], unless it has a
    member of that name: no member is a function, the inherited [valueOf]
    returns the object, and the conversion throws a [TypeError]. *)
Fixpoint ToString (v : JsValue) : option string :=
  match v with
  | JUndefined => Some "undefined"
  | JNull => Some "null"
  | JBool true => Some "true"
  | JBool false => Some "false"
  | JNum x => Some (Number_toString x)
  | JStr s => Some s
  | JArr l =>
      (fix elements (l : list JsValue) : option string :=
         match l with
         | [] => Some ""
         | x :: t =>
             let e := match x with JUndefined | JNull => Some "" | _ => ToString x end in
             match t with
             | [] => e
             | _ =>
                 match e, elements t with
                 | Some a, Some b => Some (a ++ "," ++ b)
                 | _, _ => None
                 end
             end
         end) l
  | JObj members => if has_own members "toString" then None else Some "[object Object]"
  end.

(** The texts of the elements of an array, as [join] takes them. *)
Fixpoint element_texts (l : list JsValue) : option (list string) :=
  match l with
  | [] => Some []
  | x :: t =>
      match match x with JUndefined | JNull => Some "" | _ => ToString x end,
            element_texts t with
      | Some a, Some b => Some (a :: b)
      | _, _ => None
      end
  end.

(** [l.join(sep)] on an array of values; [None] when it throws. *)
Definition Array_join (l : list JsValue) (sep : string) : option string :=
  option_map (join sep) (element_texts l).

(** [Number(v)]; [None] when it throws.  An object is first asked for
    [valueOf], which gives no primitive, and then for [toString]. *)
Definition ToNumber (v : JsValue) : option float :=
  match v with
  | JUndefined => Some PrimFloat.nan
  | JNull => Some PrimFloat.zero
  | JBool true => Some PrimFloat.one
  | JBool false => Some PrimFloat.zero
  | JNum x => Some x
  | JObj members => if has_own members "toString" then None else Some PrimFloat.nan
  | _ => option_map StringToNumber (ToString v)
  end.

(** The JSON grammar. *)
Fixpoint skip_json_ws (s : string) : string :=
  match s with
  | String c r =>
      if Ascii.eqb c " " || Ascii.eqb c (byte 9) || Ascii.eqb c (byte 10)
         || Ascii.eqb c (byte 13)
      then skip_json_ws r else s
  | EmptyString => s
  end.

Fixpoint take_digits (s : string) : string * string :=
  match s with
  | String c r =>
      if is_digit c then let '(d, rest) := take_digits r in (String c d, rest)
      else ("", s)
  | EmptyString => ("", s)
  end.

(** The text of a JSON number at the head of [s], and what follows. *)
Definition scan_number (s : string) : option (string * string) :=
  let '(sign, s1) :=
    match s with
    | String c r => if Ascii.eqb c "-" then ("-", r) else ("", s)
    | EmptyString => ("", s)
    end in
  let '(int, s2) := take_digits s1 in
  match int with
  | EmptyString => None
  | String c more =>
      if Ascii.eqb c "0" && negb (String.eqb more "") then None
      else
        let frac :=
          match s2 with
          | String c r =>
              if Ascii.eqb c "." then
                let '(d, rest) := take_digits r in
                match d with
                | EmptyString => None
                | _ => Some ("." ++ d, rest)
                end
              else Some ("", s2)
          | EmptyString => Some ("", s2)
          end in
        match frac with
        | None => None
        | Some (f, s3) =>
            let exp :=
              match s3 with
              | String c r =>
                  if Ascii.eqb c "e" || Ascii.eqb c "E" then
                    let '(sg, r1) :=
                      match r with
                      | String c' r' =>
                          if Ascii.eqb c' "+" || Ascii.eqb c' "-"
                          then (String c' "", r') else ("", r)
                      | EmptyString => ("", r)
                      end in
                    let '(d, rest) := take_digits r1 in
                    match d with
                    | EmptyString => None
                    | _ => Some (String c sg ++ d, rest)
                    end
                  else Some ("", s3)
              | EmptyString => Some ("", s3)
              end in
            match exp with
            | None => None
            | Some (e, s4) => Some (sign ++ int ++ f ++ e, s4)
            end
        end
  end.

Definition hex_val (c : ascii) : option nat :=
  let n := nat_of_ascii c in
  if Nat.leb 48 n && Nat.leb n 57 then Some (n - 48)%nat
  else if Nat.leb 65 n && Nat.leb n 70 then Some (n - 55)%nat
  else if Nat.leb 97 n && Nat.leb n 102 then Some (n - 87)%nat
  else None.

(** The bytes of one code unit. *)
Definition utf8_of_code_unit (n : nat) : string :=
  if Nat.ltb n 128 then String (byte n) ""
  else if Nat.ltb n 2048 then
    String (byte (192 + n / 64)) (String (byte (128 + n mod 64)) "")
  else
    String (byte (224 + n / 4096))
      (String (byte (128 + (n / 64) mod 64)) (String (byte (128 + n mod 64)) "")).

(** The characters of a JSON string after its opening quote, up to the
    closing quote. *)
Fixpoint scan_string (fuel : nat) (s : string) : option (string * string) :=
  match fuel with
  | O => None
  | S fuel' =>
      match s with
      | EmptyString => None
      | String c r =>
          if Ascii.eqb c quote then Some ("", r)
          else if Ascii.eqb c backslash then
            match r with
            | String e r' =>
                let simple (x : ascii) :=
                  option_map (fun p => (String x (fst p), snd p)) (scan_string fuel' r') in
                if Ascii.eqb e quote then simple quote
                else if Ascii.eqb e backslash then simple backslash
                else if Ascii.eqb e "/" then simple "/"%char
                else if Ascii.eqb e "b" then simple (byte 8)
                else if Ascii.eqb e "f" then simple (byte 12)
                else if Ascii.eqb e "n" then simple (byte 10)
                else if Ascii.eqb e "r" then simple (byte 13)
                else if Ascii.eqb e "t" then simple (byte 9)
                else if Ascii.eqb e "u" then
                  match r' with
                  | String h1 (String h2 (String h3 (String h4 r''))) =>
                      match hex_val h1, hex_val h2, hex_val h3, hex_val h4 with
                      | Some a1, Some a2, Some a3, Some a4 =>
                          option_map
                            (fun p => (utf8_of_code_unit (4096 * a1 + 256 * a2 + 16 * a3 + a4)
                                         ++ fst p, snd p))
                            (scan_string fuel' r'')
                      | _, _, _, _ => None
                      end
                  | _ => None
                  end
                else None
            | EmptyString => None
            end
          else if Nat.ltb (nat_of_ascii c) 32 then None
          else option_map (fun p => (String c (fst p), snd p)) (scan_string fuel' r)
      end
  end.

(** After the first element: a closing bracket, or a comma and another
    element. *)
Fixpoint parse_more {A : Type} (fuel : nat) (item : string -> option (A * string))
    (close : ascii) (s : string) : option (list A * string) :=
  match fuel with
  | O => None
  | S fuel' =>
      match skip_json_ws s with
      | String c r =>
          if Ascii.eqb c close then Some ([], r)
          else if Ascii.eqb c "," then
            match item r with
            | Some (x, r') =>
                option_map (fun p => (x :: fst p, snd p)) (parse_more fuel' item close r')
            | None => None
            end
          else None
      | EmptyString => None
      end
  end.

Definition parse_list {A : Type} (fuel : nat) (item : string -> option (A * string))
    (close : ascii) (s : string) : option (list A * string) :=
  match skip_json_ws s with
  | String c r =>
      if Ascii.eqb c close then Some ([], r)
      else
        match item s with
        | Some (x, r') =>
            option_map (fun p => (x :: fst p, snd p)) (parse_more fuel item close r')
        | None => None
        end
  | EmptyString => None
  end.

Fixpoint parse_value (fuel : nat) (s : string) : option (JsValue * string) :=
  match fuel with
  | O => None
  | S fuel' =>
      match skip_json_ws s with
      | EmptyString => None
      | String c r =>
          if Ascii.eqb c "[" then
            option_map (fun p => (JArr (fst p), snd p))
              (parse_list fuel' (parse_value fuel') "]" r)
          else if Ascii.eqb c "{" then
            let member (m : string) : option ((string * JsValue) * string) :=
              match skip_json_ws m with
              | String q m1 =>
                  if Ascii.eqb q quote then
                    match scan_string (String.length m1) m1 with
                    | Some (k, m2) =>
                        match skip_json_ws m2 with
                        | String colon m3 =>
                            if Ascii.eqb colon ":" then
                              option_map (fun p => ((k, fst p), snd p))
                                (parse_value fuel' m3)
                            else None
                        | EmptyString => None
                        end
                    | None => None
                    end
                  else None
              | EmptyString => None
              end in
            option_map (fun p => (JObj (fst p), snd p))
              (parse_list fuel' member "}" r)
          else if Ascii.eqb c quote then
            option_map (fun p => (JStr (fst p), snd p))
              (scan_string (String.length r) r)
          else if String.prefix "true" (String c r) then Some (JBool true, drop 4 (String c r))
          else if String.prefix "false" (String c r) then Some (JBool false, drop 5 (String c r))
          else if String.prefix "null" (String c r) then Some (JNull, drop 4 (String c r))
          else
            option_map (fun p => (JNum (StringToNumber (fst p)), snd p))
              (scan_number (String c r))
      end
  end.

(** [JSON.parse(text)]; [None] when it throws. *)
Definition JSON_parse (text : string) : option JsValue :=
  match parse_value (S (String.length text)) text with
  | Some (v, rest) =>
      match skip_json_ws rest with
      | EmptyString => Some v
      | _ => None
      end
  | None => None
  end.

End Numbers.

End Js.

(** ** The track service *)

(** Modelled from the spec: the enumeration [TrackingFrequency] of
    [@/constants/trackTypes], which is not part of the sources at hand;
    the spec names its three values daily, weekly and monthly. *)
Inductive TrackingFrequency : Type := DAILY | WEEKLY | MONTHLY.

Section DateHelpers.

Local Open Scope string_scope.
Local Open Scope Z_scope.

Variable tz : Z.
Variable Date_parse_other : string -> option Z.

(** [parseMMDDYYYY]: a string that starts like [YYYY-MM-DD] goes to the
    date constructor as it is; any other string is cut at the hyphens and
    its first three pieces are read as month, day and year. *)
Definition parseMMDDYYYY (dateStr : string) : Js.JsDate :=
  if Js.iso_date_prefix dateStr then Js.Date_of_string Date_parse_other dateStr
  else
    let parts := map Js.parseInt10 (Js.split "-" dateStr) in
    let mm := nth 0 parts None in
    let dd := nth 1 parts None in
    let yyyy := nth 2 parts None in
    Js.Date_of_fields tz yyyy (Some (Js.or_one mm - 1)) (Some (Js.or_one dd)).

Definition formatMMDDYYYY (d : Js.JsDate) : string :=
  let mm := Js.padStart2 (Js.num_toString (Js.num_add (Js.getMonth tz d) (Some 1))) in
  let dd := Js.padStart2 (Js.num_toString (Js.getDate tz d)) in
  let yyyy := Js.num_toString (Js.getFullYear tz d) in
  mm ++ "-" ++ dd ++ "-" ++ yyyy.

Definition getMonday (d : Js.JsDate) : Js.JsDate :=
  let date := d in
  let day := Js.getDay tz date in
  let diff := option_map (fun day => if day =? 0 then -6 else 1 - day) day in
  Js.setDate tz date (Js.num_add (Js.getDate tz date) diff).

Definition normalizeDateByFrequency (dateStr : string) (frequency : TrackingFrequency)
  : string :=
  let date := parseMMDDYYYY dateStr in
  match frequency with
  | DAILY => formatMMDDYYYY date
  | WEEKLY => formatMMDDYYYY (getMonday date)
  | MONTHLY =>
      let first := Js.Date_of_fields tz (Js.getFullYear tz date) (Js.getMonth tz date) (Some 1) in
      formatMMDDYYYY first
  end.

Definition shouldCreateEntryForDate (dateStr : string) (frequency : TrackingFrequency)
  : bool :=
  let d := parseMMDDYYYY dateStr in
  match frequency with
  | DAILY => true
  | WEEKLY => match Js.getDay tz d with Some 1 => true | _ => false end
  | MONTHLY => match Js.getDate tz d with Some 1 => true | _ => false end
  end.

End DateHelpers.

(** *** Rows of the store *)

Open Scope string_scope.

Record Patient : Type := {
  patient_id : Z;
  patient_user_id : string
}.

Record TrackCategory : Type := {
  cat_id : Z;
  cat_name : string;
  cat_status : string
}.

Record TrackItem : Type := {
  item_id : Z;
  item_category_id : Z;
  item_code : string;
  item_name : string;
  item_frequency : TrackingFrequency;
  item_status : string;
  item_created_date : string;
  item_updated_date : string
}.

Record TrackItemEntry : Type := {
  entry_id : Z;
  entry_user_id : string;
  entry_patient_id : Z;
  entry_track_item_id : Z;
  entry_date : string;
  entry_selected : Z;
  entry_created_date : string;
  entry_updated_date : string
}.

Record Question : Type := {
  q_id : Z;
  q_item_id : Z;
  q_code : string;
  q_text : string;
  q_type : string;
  q_required : Z;
  q_summary_template : option string;
  q_status : string;
  q_created_date : string;
  q_updated_date : string;
  q_instructions : option string;
  q_subtype : option string;
  q_units : option string;
  q_min : option Z;
  q_max : option Z;
  q_precision : option Z;
  q_parent_question_id : option Z;
  q_display_condition : option string
}.

Record ResponseOption : Type := {
  opt_id : Z;
  opt_question_id : Z;
  opt_code : option string;
  opt_text : string;
  opt_status : option string;
  opt_created_date : string;
  opt_updated_date : string
}.

Record TrackResponse : Type := {
  resp_id : Z;
  resp_user_id : string;
  resp_patient_id : Z;
  resp_question_id : Z;
  resp_track_item_entry_id : Z;
  resp_answer : option string;
  resp_created_date : string;
  resp_updated_date : option string
}.

(** Modelled from the spec: the keys of a display condition, the
    enumeration [QuestionCondition] of [@/constants/trackTypes], which is
    not part of the sources at hand. *)
Module QuestionCondition.
Definition PARENT_RES_EXISTS : string := "parent_response_exists".
Definition EQ : string := "eq".
Definition NOT_EQ : string := "not_eq".
Definition GT : string := "gt".
Definition GTE : string := "gte".
Definition LT : string := "lt".
Definition LTE : string := "lte".
Definition IN : string := "in".
Definition NOT_IN : string := "not_in".
End QuestionCondition.

(** Modelled from the spec: the question types with options, the
    enumeration [QuestionType] of [@/constants/trackTypes]. *)
Module QuestionType.
Definition BOOLEAN : string := "boolean".
Definition MCQ : string := "mcq".
Definition MSQ : string := "msq".
End QuestionType.

Section Questionnaire.

Local Open Scope string_scope.

Variable StringToNumber : string -> float.
Variable Number_toString : float -> string.

(** *** Summary generator *)

Definition generateSummary (template answer : string) : option string :=
  if String.eqb template "" || String.eqb answer "" then None
  else
    let parsed :=
      if Js.startsWith answer "[" || Js.startsWith answer "{" then
        match Js.JSON_parse StringToNumber answer with
        | Some v => v
        | None => Js.JStr answer
        end
      else Js.JStr answer in
    (* a [TypeError] of [join] or [String] is caught by the outer [catch] *)
    match parsed with
    | Js.JArr l =>
        match Js.Array_join Number_toString l ", " with
        | Some text => Some (Js.replace template "{{answer}}" text)
        | None => None
        end
    | _ =>
        match Js.ToString Number_toString parsed with
        | Some text => Some (Js.replace template "{{answer}}" text)
        | None => None
        end
    end.

(** *** Visibility evaluator *)

(** The optional memo table: [visibilityCache?.has], [?.get], [?.set]. *)
Definition cache_get (cache : option (gmap Z bool)) (id : Z) : option bool :=
  match cache with
  | Some m => m !! id
  | None => None
  end.

Definition cache_set (cache : option (gmap Z bool)) (id : Z) (v : bool)
  : option (gmap Z bool) :=
  option_map (fun m => <[id := v]> m) cache.

(** [!q.parent_question_id] and [!q.display_condition] *)
Definition no_parent (q : Question) : bool :=
  match q_parent_question_id q with
  | None => true
  | Some p => Z.eqb p 0
  end.

Definition no_condition (q : Question) : bool :=
  match q_display_condition q with
  | None => true
  | Some c => String.eqb c ""
  end.

(** The answer as the condition sees it: parsed as JSON when it can be,
    itself otherwise ([JSON.parse] first turns its argument into a text,
    which can throw as well). *)
Definition parse_answer (parentAnswer : Js.JsValue) : Js.JsValue :=
  match parentAnswer with
  | Js.JUndefined | Js.JNull => parentAnswer
  | _ =>
      match Js.ToString Number_toString parentAnswer with
      | Some text =>
          match Js.JSON_parse StringToNumber text with
          | Some v => v
          | None => parentAnswer
          end
      | None => parentAnswer
      end
  end.

Definition option_code (o : ResponseOption) : Js.JsValue :=
  match opt_code o with
  | Some c => Js.JStr c
  | None => Js.JNull
  end.

(** Answers given as option texts are turned into option codes when the
    parent is a boolean, multiple-choice or multiple-select question. *)
Definition map_to_codes (parentQuestion : option Question)
    (allOptions : option (list ResponseOption)) (parent_id : Z)
    (parsed : Js.JsValue) : Js.JsValue :=
  let typed :=
    match parentQuestion with
    | Some p =>
        negb (String.eqb (q_type p) "")
        && (String.eqb (q_type p) QuestionType.BOOLEAN
            || String.eqb (q_type p) QuestionType.MCQ
            || String.eqb (q_type p) QuestionType.MSQ)
    | None => false
    end in
  match allOptions with
  | Some (o :: os) =>
      if typed then
        let parentOptions :=
          List.filter (fun opt => Z.eqb (opt_question_id opt) parent_id) (o :: os) in
        let code_of (answer : Js.JsValue) : option Js.JsValue :=
          option_map option_code
            (List.find (fun opt => Js.strict_equals (Js.JStr (opt_text opt)) answer)
               parentOptions) in
        match parsed with
        | Js.JArr l =>
            Js.JArr (map (fun answer => match code_of answer with
                                        | Some c => c
                                        | None => answer
                                        end) l)
        | Js.JStr _ =>
            match code_of parsed with
            | Some c => c
            | None => parsed
            end
        | _ => parsed
        end
      else parsed
  | _ => parsed
  end.

Definition is_defined (v : Js.JsValue) : bool :=
  match v with Js.JUndefined => false | _ => true end.

(** The comparison a condition asks for, on the parent's answer; [None]
    when it throws.  [Number(parsedParentAnswer)] is taken before any key
    is looked at; the number of an operand is taken only when the answer
    is a number. *)
Definition eval_condition (cond parsed : Js.JsValue) : option bool :=
  match Js.ToNumber StringToNumber Number_toString parsed with
  | None => None
  | Some numericAnswer =>
      let is_number := negb (PrimFloat.is_nan numericAnswer) in
      let compare (holds : float -> float -> bool) (operand : Js.JsValue) : option bool :=
        if is_number
        then option_map (holds numericAnswer)
               (Js.ToNumber StringToNumber Number_toString operand)
        else Some false in
      match Js.get_property cond QuestionCondition.EQ,
            Js.get_property cond QuestionCondition.NOT_EQ,
            Js.get_property cond QuestionCondition.GT,
            Js.get_property cond QuestionCondition.GTE,
            Js.get_property cond QuestionCondition.LT,
            Js.get_property cond QuestionCondition.LTE,
            Js.get_property cond QuestionCondition.IN,
            Js.get_property cond QuestionCondition.NOT_IN with
      | Some c_eq, Some c_ne, Some c_gt, Some c_gte, Some c_lt, Some c_lte,
        Some c_in, Some c_nin =>
          if is_defined c_eq then
            Some match parsed with
                 | Js.JArr l => Js.includes l c_eq
                 | _ => Js.strict_equals parsed c_eq
                 end
          else if is_defined c_ne then
            Some match parsed with
                 | Js.JArr l => negb (Js.includes l c_ne)
                 | _ => negb (Js.strict_equals parsed c_ne)
                 end
          else if is_defined c_gt then
            compare (fun answer operand => PrimFloat.ltb operand answer) c_gt
          else if is_defined c_gte then
            compare (fun answer operand => PrimFloat.leb operand answer) c_gte
          else if is_defined c_lt then
            compare (fun answer operand => PrimFloat.ltb answer operand) c_lt
          else if is_defined c_lte then
            compare (fun answer operand => PrimFloat.leb answer operand) c_lte
          else if is_defined c_in then
            Some match c_in with
                 | Js.JArr values =>
                     match parsed with
                     | Js.JArr l => existsb (fun val => Js.includes l val) values
                     | _ => Js.includes values parsed
                     end
                 | _ => false
                 end
          else if is_defined c_nin then
            Some match c_nin with
                 | Js.JArr values =>
                     match parsed with
                     | Js.JArr l => negb (existsb (fun val => Js.includes l val) values)
                     | _ => negb (Js.includes values parsed)
                     end
                 | _ => false
                 end
          else Some true
      | _, _, _, _, _, _, _, _ => None
      end
  end.

(** The answer "exists": not [undefined], not [null], not the empty
    text, not an empty array. *)
Definition response_exists (parsed : Js.JsValue) : bool :=
  match parsed with
  | Js.JUndefined | Js.JNull => false
  | Js.JStr s => negb (String.eqb s "")
  | Js.JArr l => negb (Nat.eqb (List.length l) 0)
  | _ => true
  end.

(** The body of the [try] block, once the parent is known not to hide the
    question: the verdict, or [None] when something in it throws. *)
Definition condition_verdict (q : Question) (parent_id : Z) (condition : string)
    (answers : gmap Z Js.JsValue) (parentQuestion : option Question)
    (allOptions : option (list ResponseOption)) : option bool :=
  match Js.JSON_parse StringToNumber condition with
  | None => None
  | Some cond =>
      let parentAnswer := default Js.JUndefined (answers !! parent_id) in
      let parsedParentAnswer := parse_answer parentAnswer in
      match Js.get_property cond QuestionCondition.PARENT_RES_EXISTS with
      | None => None
      | Some (Js.JBool true) => Some (response_exists parsedParentAnswer)
      | Some _ =>
          match parsedParentAnswer with
          | Js.JUndefined | Js.JNull => Some false
          | _ =>
              eval_condition cond
                (map_to_codes parentQuestion allOptions parent_id parsedParentAnswer)
          end
      end
  end.

(** [isQuestionVisible]: the verdict and the memo table after the call.
    The recursion follows the parent links; [fuel] bounds its depth and
    [None] is a recursion that does not end within it. *)
Fixpoint isQuestionVisible (fuel : nat) (q : Question) (answers : gmap Z Js.JsValue)
    (allQuestions : option (list Question))
    (allOptions : option (list ResponseOption))
    (visibilityCache : option (gmap Z bool))
  : option (bool * option (gmap Z bool)) :=
  match fuel with
  | O => None
  | S fuel' =>
      match cache_get visibilityCache (q_id q) with
      | Some cached => Some (cached, visibilityCache)
      | None =>
          if no_parent q || no_condition q
          then Some (true, cache_set visibilityCache (q_id q) true)
          else
            let parent_id := default 0%Z (q_parent_question_id q) in
            let condition := default "" (q_display_condition q) in
            let parentQuestion :=
              match allQuestions with
              | Some qs => List.find (fun question => Z.eqb (q_id question) parent_id) qs
              | None => None
              end in
            let finish (cache : option (gmap Z bool)) :=
              let result :=
                match condition_verdict q parent_id condition answers
                        parentQuestion allOptions with
                | Some r => r
                | None => true
                end in
              Some (result, cache_set cache (q_id q) result) in
            match parentQuestion with
            | Some p =>
                match isQuestionVisible fuel' p answers allQuestions allOptions
                        visibilityCache with
                | None => None
                | Some (false, cache) => Some (false, cache_set cache (q_id q) false)
                | Some (true, cache) => finish cache
                end
            | None => finish visibilityCache
            end
      end
  end.

End Questionnaire.

(** *** The store

    Modelled from the spec: the storage collaborator ([BaseModel] and the
    models built on it), which is not part of the sources at hand.  The
    spec gives its operations: fetch all or the first row by field
    equality, insert returning the generated id, update and delete by field
    equality, and read queries.  A table is the list of its rows in
    insertion order, and a generated id is one more than the largest id of
    the table. *)

Record World : Type := {
  patients : list Patient;
  categories : list TrackCategory;
  items : list TrackItem;
  entries : list TrackItemEntry;
  questions : list Question;
  options : list ResponseOption;
  responses : list TrackResponse;
  (** how many values the clock and the generators have handed out *)
  tick : nat
}.

Definition fresh_id (ids : list Z) : Z := (1 + fold_right Z.max 0 ids)%Z.

Definition set_items (w : World) (l : list TrackItem) : World :=
  {| patients := patients w; categories := categories w; items := l;
     entries := entries w; questions := questions w; options := options w;
     responses := responses w; tick := tick w |}.

Definition set_entries (w : World) (l : list TrackItemEntry) : World :=
  {| patients := patients w; categories := categories w; items := items w;
     entries := l; questions := questions w; options := options w;
     responses := responses w; tick := tick w |}.

Definition set_questions (w : World) (l : list Question) : World :=
  {| patients := patients w; categories := categories w; items := items w;
     entries := entries w; questions := l; options := options w;
     responses := responses w; tick := tick w |}.

Definition set_options (w : World) (l : list ResponseOption) : World :=
  {| patients := patients w; categories := categories w; items := items w;
     entries := entries w; questions := questions w; options := l;
     responses := responses w; tick := tick w |}.

Definition set_responses (w : World) (l : list TrackResponse) : World :=
  {| patients := patients w; categories := categories w; items := items w;
     entries := entries w; questions := questions w; options := options w;
     responses := l; tick := tick w |}.

Definition set_tick (w : World) (n : nat) : World :=
  {| patients := patients w; categories := categories w; items := items w;
     entries := entries w; questions := questions w; options := options w;
     responses := responses w; tick := n |}.

(** Updates of single columns. *)
Definition entry_with_selected (e : TrackItemEntry) (selected : Z) (updated : string)
  : TrackItemEntry :=
  {| entry_id := entry_id e; entry_user_id := entry_user_id e;
     entry_patient_id := entry_patient_id e;
     entry_track_item_id := entry_track_item_id e; entry_date := entry_date e;
     entry_selected := selected; entry_created_date := entry_created_date e;
     entry_updated_date := updated |}.

Definition item_with_name (i : TrackItem) (name updated : string) : TrackItem :=
  {| item_id := item_id i; item_category_id := item_category_id i;
     item_code := item_code i; item_name := name;
     item_frequency := item_frequency i; item_status := item_status i;
     item_created_date := item_created_date i; item_updated_date := updated |}.

Definition item_with_status (i : TrackItem) (status updated : string) : TrackItem :=
  {| item_id := item_id i; item_category_id := item_category_id i;
     item_code := item_code i; item_name := item_name i;
     item_frequency := item_frequency i; item_status := status;
     item_created_date := item_created_date i; item_updated_date := updated |}.

Definition question_with_text (q : Question) (text type : string) (required : Z)
    (updated : string) : Question :=
  {| q_id := q_id q; q_item_id := q_item_id q; q_code := q_code q;
     q_text := text; q_type := type; q_required := required;
     q_summary_template := q_summary_template q; q_status := q_status q;
     q_created_date := q_created_date q; q_updated_date := updated;
     q_instructions := q_instructions q; q_subtype := q_subtype q;
     q_units := q_units q; q_min := q_min q; q_max := q_max q;
     q_precision := q_precision q;
     q_parent_question_id := q_parent_question_id q;
     q_display_condition := q_display_condition q |}.

Definition response_with_answer (r : TrackResponse) (answer updated : string)
  : TrackResponse :=
  {| resp_id := resp_id r; resp_user_id := resp_user_id r;
     resp_patient_id := resp_patient_id r; resp_question_id := resp_question_id r;
     resp_track_item_entry_id := resp_track_item_entry_id r;
     resp_answer := Some answer; resp_created_date := resp_created_date r;
     resp_updated_date := Some updated |}.

(** A new row of each table, with the columns the service gives; the
    other columns are empty. *)
Definition new_entry (id : Z) (user_id : string) (patient_id track_item_id : Z)
    (date : string) (stamp : string) : TrackItemEntry :=
  {| entry_id := id; entry_user_id := user_id; entry_patient_id := patient_id;
     entry_track_item_id := track_item_id; entry_date := date;
     entry_selected := 1; entry_created_date := stamp;
     entry_updated_date := stamp |}.

Definition new_question (id item_id : Z) (code text type : string) (required : Z)
    (stamp : string) : Question :=
  {| q_id := id; q_item_id := item_id; q_code := code; q_text := text;
     q_type := type; q_required := required; q_summary_template := None;
     q_status := "active"; q_created_date := stamp; q_updated_date := stamp;
     q_instructions := None; q_subtype := None; q_units := None;
     q_min := None; q_max := None; q_precision := None;
     q_parent_question_id := None; q_display_condition := None |}.

Definition new_option (id question_id : Z) (code : string) (text : string)
    (stamp : string) : ResponseOption :=
  {| opt_id := id; opt_question_id := question_id; opt_code := Some code;
     opt_text := text; opt_status := Some "active";
     opt_created_date := stamp; opt_updated_date := stamp |}.

(** [JSON.stringify] of a text: quoted, with the quote, the backslash,
    the control characters and the lone surrogates escaped.  A text is
    held as the bytes of its code units; a surrogate is the three bytes
    [ED A0..BF 80..BF], and a leading one followed by a trailing one is a
    pair, which stands for one character and is copied. *)
Definition hex_digit (n : nat) : ascii :=
  if Nat.ltb n 10 then Js.byte (48 + n) else Js.byte (87 + n).

(** [UnicodeEscape] of a code unit. *)
Definition unicode_escape (n : nat) : string :=
  String Js.backslash
    (String "u" (String (hex_digit (n / 4096)) (String (hex_digit ((n / 256) mod 16))
       (String (hex_digit ((n / 16) mod 16)) (String (hex_digit (n mod 16)) ""))))).

(** The escape of a character that is no surrogate. *)
Definition escape_unit (c : ascii) : string :=
  let n := nat_of_ascii c in
  if Ascii.eqb c Js.quote then String Js.backslash (String Js.quote "")
  else if Ascii.eqb c Js.backslash then String Js.backslash (String Js.backslash "")
  else if Nat.eqb n 8 then String Js.backslash "b"
  else if Nat.eqb n 9 then String Js.backslash "t"
  else if Nat.eqb n 10 then String Js.backslash "n"
  else if Nat.eqb n 12 then String Js.backslash "f"
  else if Nat.eqb n 13 then String Js.backslash "r"
  else if Nat.ltb n 32 then unicode_escape n
  else String c "".

(** The surrogate that three bytes stand for, if they do. *)
Definition surrogate_unit (c1 c2 c3 : ascii) : option nat :=
  let n2 := nat_of_ascii c2 in
  let n3 := nat_of_ascii c3 in
  if Nat.eqb (nat_of_ascii c1) 237 && Nat.leb 160 n2 && Nat.leb n2 191
     && Nat.leb 128 n3 && Nat.leb n3 191
  then Some (216 * 256 + (n2 - 160) * 64 + (n3 - 128))%nat
  else None.

Fixpoint escape_json (s : string) : string :=
  match s with
  | EmptyString => EmptyString
  | String c r =>
      match r with
      | String c2 (String c3 r3) =>
          match surrogate_unit c c2 c3 with
          | Some u =>
              if Nat.ltb u (220 * 256) then
                match r3 with
                | String c4 (String c5 (String c6 r6)) =>
                    match surrogate_unit c4 c5 c6 with
                    | Some u' =>
                        if Nat.leb (220 * 256) u'
                        then String c (String c2 (String c3 (String c4 (String c5
                               (String c6 (escape_json r6))))))
                        else (unicode_escape u ++ escape_json r3)%string
                    | None => (unicode_escape u ++ escape_json r3)%string
                    end
                | _ => (unicode_escape u ++ escape_json r3)%string
                end
              else (unicode_escape u ++ escape_json r3)%string
          | None => (escape_unit c ++ escape_json r)%string
          end
      | _ => (escape_unit c ++ escape_json r)%string
      end
  end.

Definition JSON_stringify (s : string) : string :=
  String Js.quote (escape_json s ++ String Js.quote "")%string.

(** What a custom goal is made of ([CustomGoalQuestion],
    [CustomGoalParams] and the updates of [editCustomGoal]). *)
Record CustomGoalQuestion : Type := {
  cgq_text : string;
  cgq_type : string;
  cgq_required : bool;
  cgq_options : option (list string)
}.

Record CustomGoalParams : Type := {
  cg_name : string;
  cg_userId : string;
  cg_patientId : Z;
  cg_date : string;
  cg_frequency : TrackingFrequency;
  cg_code : string;
  cg_questions : list CustomGoalQuestion
}.

Record QuestionUpdate : Type := {
  qu_id : option Z;
  qu_text : string;
  qu_type : string;
  qu_required : option bool;
  qu_options : option (list string)
}.

Record GoalUpdates : Type := {
  gu_name : option string;
  gu_questions : option (list QuestionUpdate)
}.

Section Service.

Local Open Scope string_scope.
Local Open Scope Z_scope.

(** The environment of the module: the time zone and the date parser of
    the engine, its number conversions, the timestamp taken once when the
    module is loaded ([now]), the clock ([getCurrentTimestamp],
    [Date.now]) and the generators ([uuidv4], [Math.random]); the last
    four give the value of each successive call. *)
Variable tz : Z.
Variable Date_parse_other : string -> option Z.
Variable StringToNumber : string -> float.
Variable Number_toString : float -> string.
Variable now : string.
Variable getCurrentTimestamp : nat -> string.
Variable uuidv4 : nat -> string.
Variable Date_now : nat -> Z.
Variable random_base36 : nat -> string.

Definition generateUniqueCode (w : World) : string * World :=
  (uuidv4 (tick w), set_tick w (S (tick w))).

Definition currentTimestamp (w : World) : string * World :=
  (getCurrentTimestamp (tick w), set_tick w (S (tick w))).

(** [`${prefix}_${Date.now()}_${Math.random().toString(36).slice(2, 8)}`] *)
Definition stamped_code (prefix : string) (w : World) : string * World :=
  ((prefix ++ "_" ++ Js.Z_toString (Date_now (tick w)) ++ "_"
    ++ random_base36 (S (tick w)))%string,
   set_tick w (S (S (tick w)))).

(** *** Subscription inferencer *)

Definition frequency_eq_dec (a c : TrackingFrequency) : {a = c} + {a <> c}.
Proof. decide equality. Defined.

Definition pair_eq_dec (a c : Z * TrackingFrequency) : {a = c} + {a <> c}.
Proof. decide equality; [apply frequency_eq_dec | apply Z.eq_dec]. Defined.

(** The query of [ensureSubscribedEntries]: the distinct pairs of id and
    frequency of the active items of active categories that have an entry
    of the patient with [selected = 1].  SQL leaves the order of the rows
    open; the order taken here decides only in which order new entries get
    their ids. *)
Definition subscribedItems (w : World) (patientId : Z) : list (Z * TrackingFrequency) :=
  nodup pair_eq_dec
    (flat_map (fun ti =>
       flat_map (fun tc =>
         flat_map (fun tie =>
           if (cat_id tc =? item_category_id ti)
              && (entry_track_item_id tie =? item_id ti)
              && String.eqb (cat_status tc) "active"
              && String.eqb (item_status ti) "active"
              && (entry_patient_id tie =? patientId)
              && (entry_selected tie =? 1)
           then [(item_id ti, item_frequency ti)] else [])
         (entries w))
       (categories w))
     (items w)).

Definition entry_matches (itemId patientId : Z) (date : string) (e : TrackItemEntry)
  : bool :=
  (entry_track_item_id e =? itemId) && (entry_patient_id e =? patientId)
  && String.eqb (entry_date e) date.

(** [model.updateByFields({selected, updated_date}, {id})] *)
Definition update_entry_by_id (id selected : Z) (updated : string)
    (l : list TrackItemEntry) : list TrackItemEntry :=
  map (fun e => if entry_id e =? id then entry_with_selected e selected updated else e) l.

Definition insert_entry (w : World) (user_id : string) (patient_id track_item_id : Z)
    (date : string) : World :=
  set_entries w
    (entries w ++ [new_entry (fresh_id (map entry_id (entries w))) user_id patient_id
                     track_item_id date now]).

(** One round of the loop of [ensureSubscribedEntries]. *)
Definition ensure_entry (patientId : Z) (patient : Patient) (date : string)
    (w : World) (item : Z * TrackingFrequency) : World :=
  if negb (shouldCreateEntryForDate tz Date_parse_other date (snd item)) then w
  else
    let normalizedDate :=
      normalizeDateByFrequency tz Date_parse_other date (snd item) in
    match List.find (entry_matches (fst item) patientId normalizedDate) (entries w) with
    | None => insert_entry w (patient_user_id patient) patientId (fst item) normalizedDate
    | Some existing =>
        if negb (entry_selected existing =? 1) then
          set_entries w (update_entry_by_id (entry_id existing) 1 now (entries w))
        else w
    end.

Definition ensureSubscribedEntries (patientId : Z) (date : string) (w : World) : World :=
  match subscribedItems w patientId with
  | [] => w
  | subscribed =>
      match List.find (fun p => patient_id p =? patientId) (patients w) with
      | None => w
      | Some patient => fold_left (ensure_entry patientId patient date) subscribed w
      end
  end.

(** *** Responses, options and links *)

Definition response_matches (entryId questionId : Z) (userId : string) (patientId : Z)
    (r : TrackResponse) : bool :=
  (resp_track_item_entry_id r =? entryId) && (resp_question_id r =? questionId)
  && String.eqb (resp_user_id r) userId && (resp_patient_id r =? patientId).

Definition saveResponse (entryId questionId : Z) (answer userId : string)
    (patientId : Z) (w : World) : World :=
  match List.find (response_matches entryId questionId userId patientId) (responses w) with
  | Some _ =>
      let '(stamp, w1) := currentTimestamp w in
      set_responses w1
        (map (fun r => if response_matches entryId questionId userId patientId r
                       then response_with_answer r (JSON_stringify answer) stamp
                       else r)
           (responses w1))
  | None =>
      let '(created, w1) := currentTimestamp w in
      let '(updated, w2) := currentTimestamp w1 in
      set_responses w2
        (responses w2 ++
         [{| resp_id := fresh_id (map resp_id (responses w2));
             resp_user_id := userId; resp_patient_id := patientId;
             resp_question_id := questionId; resp_track_item_entry_id := entryId;
             resp_answer := Some (JSON_stringify answer);
             resp_created_date := created; resp_updated_date := Some updated |}])
  end.

Definition addOptionToQuestion (questionId : Z) (label : string) (w : World)
  : Z * World :=
  let '(created, w1) := currentTimestamp w in
  let '(updated, w2) := currentTimestamp w1 in
  let id := fresh_id (map opt_id (options w2)) in
  (id,
   set_options w2
     (options w2 ++
      [{| opt_id := id; opt_question_id := questionId; opt_code := None;
          opt_text := label; opt_status := None; opt_created_date := created;
          opt_updated_date := updated |}])).

Definition addTrackItemOnDate (itemId : Z) (userId : string) (patientId : Z)
    (date : string) (w : World) : World :=
  let item := List.find (fun i => item_id i =? itemId) (items w) in
  let frequency :=
    match item with
    | Some i => item_frequency i
    | None => DAILY
    end in
  let normalizedDate := normalizeDateByFrequency tz Date_parse_other date frequency in
  match List.find (entry_matches itemId patientId normalizedDate) (entries w) with
  | Some existing =>
      set_entries w (update_entry_by_id (entry_id existing) 1 now (entries w))
  | None => insert_entry w userId patientId itemId normalizedDate
  end.

(** [model.updateByFields({selected: 0, updated_date}, {patient_id,
    track_item_id})] *)
Definition deselect_entries (itemId patientId : Z) (l : list TrackItemEntry)
  : list TrackItemEntry :=
  map (fun e => if (entry_patient_id e =? patientId) && (entry_track_item_id e =? itemId)
                then entry_with_selected e 0 now else e) l.

Definition removeTrackItemFromDate (itemId : Z) (userId : string) (patientId : Z)
    (date : string) (w : World) : World :=
  set_entries w (deselect_entries itemId patientId (entries w)).

(** *** Custom goals *)

Definition insert_option (questionId : Z) (code text : string) (w : World) : World :=
  set_options w
    (options w ++ [new_option (fresh_id (map opt_id (options w))) questionId code text now]).

Definition insert_question (itemId : Z) (code text type : string) (required : Z)
    (w : World) : Z * World :=
  let id := fresh_id (map q_id (questions w)) in
  (id, set_questions w (questions w ++ [new_question id itemId code text type required now])).

(** The options of a new question of [addCustomGoal]. *)
Definition add_goal_options (questionId : Z) (question : CustomGoalQuestion)
    (w : World) : World :=
  if String.eqb (cgq_type question) QuestionType.BOOLEAN
     || String.eqb (cgq_type question) "boolean"
  then
    let '(yes, w1) := generateUniqueCode w in
    let w2 := insert_option questionId yes "Yes" w1 in
    let '(no, w3) := generateUniqueCode w2 in
    insert_option questionId no "No" w3
  else if String.eqb (cgq_type question) QuestionType.MCQ
          || String.eqb (cgq_type question) QuestionType.MSQ
          || String.eqb (cgq_type question) "mcq"
          || String.eqb (cgq_type question) "msq"
  then
    match cgq_options question with
    | Some opts =>
        let cleanOptions :=
          List.filter (fun o => negb (String.eqb o "")
                                && negb (Nat.eqb (String.length (Js.trim o)) 0)) opts in
        fold_left
          (fun w opt =>
             let '(code, w1) := generateUniqueCode w in
             insert_option questionId code (Js.trim opt) w1)
          cleanOptions w
    | None => w
    end
  else w.

(** [addCustomGoal]: the id of the new item, or [None] when the category
    [Custom] is missing and the call throws. *)
Definition addCustomGoal (params : CustomGoalParams) (w : World) : option (Z * World) :=
  match List.find (fun c => String.eqb (cat_name c) "Custom") (categories w) with
  | None => None
  | Some category =>
      let customCategoryId := cat_id category in
      let '(trackItemCode, w1) := generateUniqueCode w in
      let trackItemId := fresh_id (map item_id (items w1)) in
      let w2 :=
        set_items w1
          (items w1 ++
           [{| item_id := trackItemId; item_category_id := customCategoryId;
               item_code := trackItemCode; item_name := cg_name params;
               item_frequency := cg_frequency params; item_status := "active";
               item_created_date := now; item_updated_date := now |}]) in
      Some (trackItemId,
            fold_left
              (fun w question =>
                 let '(questionCode, w1) := generateUniqueCode w in
                 let '(questionId, w2) :=
                   insert_question trackItemId questionCode (cgq_text question)
                     (cgq_type question) (if cgq_required question then 1 else 0) w1 in
                 add_goal_options questionId question w2)
              (cg_questions params) w2)
  end.

Definition required_flag (required : option bool) : Z :=
  match required with
  | Some true => 1
  | _ => 0
  end.

(** A question update without an id: a new question and its options. *)
Definition insert_new_question (trackItemId : Z) (q : QuestionUpdate) (w : World)
  : World :=
  let '(code, w1) := stamped_code "Q" w in
  let '(questionId, w2) :=
    insert_question trackItemId code (qu_text q) (qu_type q)
      (required_flag (qu_required q)) w1 in
  match qu_options q with
  | Some opts =>
      fold_left
        (fun w opt =>
           let '(code, w1) := stamped_code "RESP" w in
           insert_option questionId code (Js.trim opt) w1)
        opts w2
  | None => w2
  end.

(** A question update with an id: the question is changed in place and,
    when options are given, its options are deleted and the given ones
    inserted. *)
Definition update_question (id : Z) (q : QuestionUpdate) (w : World) : World :=
  let w1 :=
    set_questions w
      (map (fun x => if q_id x =? id
                     then question_with_text x (qu_text q) (qu_type q)
                            (required_flag (qu_required q)) now
                     else x)
         (questions w)) in
  match qu_options q with
  | Some opts =>
      let w2 :=
        set_options w1
          (List.filter (fun o => negb (opt_question_id o =? id)) (options w1)) in
      fold_left
        (fun w opt =>
           let '(code, w1) := generateUniqueCode w in
           insert_option id code (Js.trim opt) w1)
        opts w2
  | None => w1
  end.

(** One question update of [editCustomGoal]; an id that is missing or 0
    is falsy. *)
Definition edit_question (trackItemId : Z) (w : World) (q : QuestionUpdate) : World :=
  match qu_id q with
  | Some id => if id =? 0 then insert_new_question trackItemId q w
               else update_question id q w
  | None => insert_new_question trackItemId q w
  end.

Definition editCustomGoal (trackItemId : Z) (updates : GoalUpdates) (w : World) : World :=
  let w1 :=
    match gu_name updates with
    | Some name =>
        if String.eqb name "" then w
        else set_items w
               (map (fun i => if item_id i =? trackItemId
                              then item_with_name i name now else i)
                  (items w))
    | None => w
    end in
  match gu_questions updates with
  | Some qs => fold_left (edit_question trackItemId) qs w1
  | None => w1
  end.

Definition removeCustomGoal (trackItemId patientId : Z) (w : World) : World :=
  let w1 :=
    set_items w
      (map (fun i => if item_id i =? trackItemId
                     then item_with_status i "inactive" now else i)
         (items w)) in
  set_entries w1
    (map (fun e => if (entry_track_item_id e =? trackItemId)
                      && (entry_patient_id e =? patientId)
                   then entry_with_selected e 0 now else e)
       (entries w1)).

(** *** Summaries of an entry *)

(** A row of the main query of [getSummariesForItem]: the question, the
    name of its category, the answer and the time of the response. *)
Record SummaryRow : Type := {
  row_question : Question;
  row_category_name : string;
  row_answer : option string;
  row_response_updated_date : option string
}.

(** [ORDER BY q.id].  SQL leaves the order of the rows of one question
    open; they stay here as the joins give them, the responses in the
    order of their table, which is how the engine returns them. *)
Fixpoint insert_row (r : SummaryRow) (l : list SummaryRow) : list SummaryRow :=
  match l with
  | [] => [r]
  | x :: t =>
      if q_id (row_question r) <=? q_id (row_question x) then r :: l
      else x :: insert_row r t
  end.

Definition order_by_question_id (l : list SummaryRow) : list SummaryRow :=
  fold_right insert_row [] l.

Definition mainQuery (w : World) (entryId : Z) : list SummaryRow :=
  order_by_question_id
    (flat_map (fun q =>
       flat_map (fun tie =>
         flat_map (fun ti =>
           flat_map (fun tc =>
             if (entry_track_item_id tie =? q_item_id q) && (entry_id tie =? entryId)
                && (item_id ti =? q_item_id q) && (cat_id tc =? item_category_id ti)
                && String.eqb (q_status q) "active"
             then
               match List.filter
                       (fun r => (resp_question_id r =? q_id q)
                                 && (resp_track_item_entry_id r =? entryId))
                       (responses w) with
               | [] => [{| row_question := q; row_category_name := cat_name tc;
                           row_answer := None; row_response_updated_date := None |}]
               | rs =>
                   map (fun r => {| row_question := q; row_category_name := cat_name tc;
                                    row_answer := resp_answer r;
                                    row_response_updated_date := resp_updated_date r |})
                     rs
               end
             else [])
           (categories w))
         (items w))
       (entries w))
     (questions w)).

Definition has_answer (row : SummaryRow) : bool :=
  match row_answer row with
  | Some _ => true
  | None => false
  end.

(** The loop that builds the answer map and tracks the most recent
    response; [None] is the initial [null]. *)
Definition scan_answers (rows : list SummaryRow)
  : gmap Z Js.JsValue * option Js.JsDate :=
  fold_left
    (fun acc row =>
       let '(answerMap, lastUpdatedDate) := acc in
       let answerMap' :=
         <[q_id (row_question row) := Js.JStr (default "" (row_answer row))]> answerMap in
       match row_response_updated_date row with
       | Some stamp =>
           if String.eqb stamp "" then (answerMap', lastUpdatedDate)
           else
             let updateDate := Js.Date_of_string Date_parse_other stamp in
             match lastUpdatedDate with
             | None => (answerMap', Some updateDate)
             | Some last =>
                 if Js.Date_gt updateDate last then (answerMap', Some updateDate)
                 else (answerMap', lastUpdatedDate)
             end
       | None => (answerMap', lastUpdatedDate)
       end)
    rows (∅, None).

(** The loop over the questions, with the memo table shared by its
    rounds; [None] when a visibility check does not end. *)
Fixpoint collect_summaries (fuel : nat) (todo allQuestions : list Question)
    (answerMap : gmap Z Js.JsValue) (allOptions : list ResponseOption)
    (visibilityCache : gmap Z bool) : option (list string) :=
  match todo with
  | [] => Some []
  | question :: rest =>
      let skip := collect_summaries fuel rest allQuestions answerMap allOptions
                    visibilityCache in
      match answerMap !! q_id question, q_summary_template question with
      | Some (Js.JStr answer), Some template =>
          if String.eqb answer "" || String.eqb template "" then skip
          else
            match isQuestionVisible StringToNumber Number_toString fuel question
                    answerMap (Some allQuestions) (Some allOptions)
                    (Some visibilityCache) with
            | None => None
            | Some (visible, cache) =>
                let cache' := default visibilityCache cache in
                let later := collect_summaries fuel rest allQuestions answerMap
                               allOptions cache' in
                if visible then
                  match generateSummary StringToNumber Number_toString template answer with
                  | Some summary =>
                      if String.eqb summary "" then later
                      else option_map (cons summary) later
                  | None => later
                  end
                else later
            end
      | _, _ => skip
      end
  end.

Definition getSummariesForItem (entryId : Z) (w : World) : option (list string) :=
  let rows := mainQuery w entryId in
  match rows with
  | [] => Some []
  | first :: _ =>
      let isCustom := String.eqb (row_category_name first) "Custom" in
      let allQuestions := map row_question rows in
      let questionsWithAnswers := List.filter has_answer rows in
      match questionsWithAnswers with
      | [] => Some []
      | _ =>
          (* the ids are only tested for membership: repeated ones do no harm *)
          let questionIds := map q_id allQuestions in
          let allOptions :=
            List.filter
              (fun o => existsb (Z.eqb (opt_question_id o)) questionIds
                        && match opt_status o with
                           | Some st => String.eqb st "active"
                           | None => false
                           end)
              (options w) in
          let '(answerMap, lastUpdatedDate) := scan_answers questionsWithAnswers in
          match isCustom, lastUpdatedDate with
          | true, Some last =>
              Some ["Last updated: " ++ formatMMDDYYYY tz last]%string
          | _, _ =>
              collect_summaries (S (S (List.length allQuestions))) allQuestions
                allQuestions answerMap allOptions ∅
          end
      end
  end.

End Service.

(** *** The operations of the service that write *)

Inductive Operation : Type :=
| EnsureSubscribedEntries (patientId : Z) (date : string)
| SaveResponse (entryId questionId : Z) (answer userId : string) (patientId : Z)
| AddOptionToQuestion (questionId : Z) (label : string)
| AddTrackItemOnDate (itemId : Z) (userId : string) (patientId : Z) (date : string)
| RemoveTrackItemFromDate (itemId : Z) (userId : string) (patientId : Z) (date : string)
| AddCustomGoal (params : CustomGoalParams)
| EditCustomGoal (trackItemId : Z) (updates : GoalUpdates)
| RemoveCustomGoal (trackItemId patientId : Z).

Section Operations.

Variable tz : Z.
Variable Date_parse_other : string -> option Z.
Variable now : string.
Variable getCurrentTimestamp : nat -> string.
Variable uuidv4 : nat -> string.
Variable Date_now : nat -> Z.
Variable random_base36 : nat -> string.

(** The store after an operation; a call that throws before it writes
    leaves the store as it was. *)
Definition run (op : Operation) (w : World) : World :=
  match op with
  | EnsureSubscribedEntries patientId date =>
      ensureSubscribedEntries tz Date_parse_other now patientId date w
  | SaveResponse entryId questionId answer userId patientId =>
      saveResponse getCurrentTimestamp entryId questionId answer userId patientId w
  | AddOptionToQuestion questionId label =>
      snd (addOptionToQuestion getCurrentTimestamp questionId label w)
  | AddTrackItemOnDate itemId userId patientId date =>
      addTrackItemOnDate tz Date_parse_other now itemId userId patientId date w
  | RemoveTrackItemFromDate itemId userId patientId date =>
      removeTrackItemFromDate now itemId userId patientId date w
  | AddCustomGoal params =>
      match addCustomGoal now uuidv4 params w with
      | Some (_, w') => w'
      | None => w
      end
  | EditCustomGoal trackItemId updates =>
      editCustomGoal now uuidv4 Date_now random_base36 trackItemId updates w
  | RemoveCustomGoal trackItemId patientId =>
      removeCustomGoal now trackItemId patientId w
  end.

End Operations.

(** *** The operations of the service that read *)

(** What the readers return ([QuestionWithOptions], [TrackItemSelectable],
    [TrackCategoryWithSelectableItems], [TrackItemWithProgress] and
    [TrackCategoryWithItems]). *)
Record QuestionWithOptions : Type := {
  qwo_question : Question;
  qwo_options : list ResponseOption;
  qwo_existingResponse : option TrackResponse
}.

Record TrackItemSelectable : Type := {
  tis_item : TrackItem;
  tis_selected : bool
}.

Record TrackCategoryWithSelectableItems : Type := {
  tcs_category : TrackCategory;
  tcs_items : list TrackItemSelectable
}.

Record TrackItemWithProgress : Type := {
  tip_item : TrackItem;
  tip_entry_id : option Z;
  tip_completed : Z;
  tip_total : Z;
  tip_summaries : list string
}.

Record TrackCategoryWithItems : Type := {
  tci_category : TrackCategory;
  tci_items : list TrackItemWithProgress
}.

(** A row of the joins of the progress query before it is grouped: the
    item, and the entry, the question and the response joined to it, each
    missing when its [LEFT JOIN] finds no partner. *)
Record ProgressJoin : Type := {
  pj_item : TrackItem;
  pj_entry : option TrackItemEntry;
  pj_question : option Question;
  pj_response : option TrackResponse
}.

(** A row of the progress query. *)
Record ProgressRow : Type := {
  pr_item : TrackItem;
  pr_entry_id : option Z;
  pr_completed : Z;
  pr_total : Z;
  pr_is_selected : option Z
}.

(** [LEFT JOIN]: a row for every partner, or one row without a partner. *)
Definition left_join {A B : Type} (partners : list A) (row : option A -> list B)
  : list B :=
  match partners with
  | [] => row None
  | _ => flat_map (fun a => row (Some a)) partners
  end.

Definition item_eq_dec (a c : TrackItem) : {a = c} + {a <> c}.
Proof.
  decide equality; try apply Z.eq_dec; try apply string_dec; apply frequency_eq_dec.
Defined.

Definition progress_key_eq_dec (a c : option Z * TrackItem * option Z)
  : {a = c} + {a <> c}.
Proof.
  repeat decide equality; try apply Z.eq_dec; try apply string_dec;
    apply frequency_eq_dec.
Defined.

(** [COUNT(DISTINCT ...)] over the values that are not null. *)
Definition count_distinct (values : list Z) : Z :=
  Z.of_nat (List.length (nodup Z.eq_dec values)).

Section Readers.

Local Open Scope string_scope.
Local Open Scope Z_scope.

Variable tz : Z.
Variable Date_parse_other : string -> option Z.
Variable StringToNumber : string -> float.
Variable Number_toString : float -> string.
Variable now : string.

(** *** Questions of an item *)

Definition getQuestionsWithOptions (itemId entryId : Z) (w : World)
  : list QuestionWithOptions :=
  let questions := List.filter (fun q => q_item_id q =? itemId) (questions w) in
  let allOptions := options w in
  let existingResponses :=
    List.filter (fun r => resp_track_item_entry_id r =? entryId) (responses w) in
  let responseMap : gmap Z TrackResponse :=
    fold_left (fun m resp => <[resp_question_id resp := resp]> m) existingResponses ∅ in
  map (fun q =>
         {| qwo_question := q;
            qwo_options := List.filter (fun opt => opt_question_id opt =? q_id q) allOptions;
            qwo_existingResponse := responseMap !! q_id q |})
    questions.

(** *** Catalogue of selectable items *)

(** The query of [getAllCategoriesWithSelectableItems]: the active items
    of active categories, each with 1 when the patient has an entry of the
    item with [selected = 1] on any date, and 0 otherwise. *)
Definition selectable_rows (w : World) (patientId : Z) : list (TrackItem * Z) :=
  flat_map (fun ti =>
    flat_map (fun tc =>
      if (cat_id tc =? item_category_id ti)
         && String.eqb (cat_status tc) "active"
         && String.eqb (item_status ti) "active"
      then
        [(ti,
          if existsb (fun tie2 => (entry_track_item_id tie2 =? item_id ti)
                                  && (entry_patient_id tie2 =? patientId)
                                  && (entry_selected tie2 =? 1))
               (entries w)
          then 1 else 0)]
      else [])
    (categories w))
  (items w).

Definition getAllCategoriesWithSelectableItems (patientId : Z) (date : string)
    (w : World) : list TrackCategoryWithSelectableItems :=
  let categories :=
    List.filter (fun c => String.eqb (cat_status c) "active") (categories w) in
  let items := selectable_rows w patientId in
  map (fun cat =>
         {| tcs_category := cat;
            tcs_items :=
              map (fun item =>
                     {| tis_item :=
                          {| item_id := item_id (fst item);
                             item_category_id := item_category_id (fst item);
                             item_code := item_code (fst item);
                             item_name := item_name (fst item);
                             item_frequency := item_frequency (fst item);
                             item_status := item_status (fst item);
                             item_created_date := item_created_date (fst item);
                             item_updated_date := item_updated_date (fst item) |};
                        tis_selected := snd item =? 1 |})
                (List.filter (fun item => item_category_id (fst item) =? cat_id cat)
                   items) |})
    categories.

(** *** Items with progress *)

(** The joins of the progress query: the item with its active category
    and each of its active questions, then, each by [LEFT JOIN], the entries
    of the item for the patient on the date, the active questions of the
    item, and the responses of the entry. *)
Definition progress_joins (w : World) (patientId : Z) (date : string)
  : list ProgressJoin :=
  flat_map (fun ti =>
    flat_map (fun tc =>
      if (cat_id tc =? item_category_id ti) && String.eqb (cat_status tc) "active"
      then
        flat_map (fun q_check =>
          if (q_item_id q_check =? item_id ti) && String.eqb (q_status q_check) "active"
          then
            left_join
              (List.filter
                 (fun tie => (entry_track_item_id tie =? item_id ti)
                             && (entry_patient_id tie =? patientId)
                             && String.eqb (entry_date tie) date)
                 (entries w))
              (fun tie =>
                 left_join
                   (List.filter
                      (fun q => (q_item_id q =? item_id ti)
                                && String.eqb (q_status q) "active")
                      (questions w))
                   (fun q =>
                      left_join
                        (match tie with
                         | Some e =>
                             List.filter
                               (fun r => (resp_track_item_entry_id r =? entry_id e)
                                         && String.eqb (entry_date e) date)
                               (responses w)
                         | None => []
                         end)
                        (fun r =>
                           [{| pj_item := ti; pj_entry := tie; pj_question := q;
                               pj_response := r |}])))
          else [])
        (questions w)
      else [])
    (categories w))
  (items w).

(** The [WHERE] clause: the item is active, and its entry is selected or
    holds a response. *)
Definition progress_where (w : World) (date : string) (j : ProgressJoin) : bool :=
  String.eqb (item_status (pj_item j)) "active"
  && match pj_entry j with
     | Some tie =>
         (entry_selected tie =? 1)
         || existsb
              (fun r2 =>
                 existsb (fun tie2 => (entry_id tie2 =? resp_track_item_entry_id r2)
                                      && String.eqb (entry_date tie2) date)
                   (entries w)
                 && (resp_track_item_entry_id r2 =? entry_id tie))
              (responses w)
     | None => false
     end.

(** The columns the query groups by: the id of the entry, the columns of
    the item, and [selected] of the entry. *)
Definition progress_key (j : ProgressJoin) : option Z * TrackItem * option Z :=
  (option_map entry_id (pj_entry j), pj_item j, option_map entry_selected (pj_entry j)).

(** The progress query.  The order of its rows is the engine's; here the
    groups stand in the order of their last rows in the joins. *)
Definition progress_rows (w : World) (patientId : Z) (date : string)
  : list ProgressRow :=
  let joined := List.filter (progress_where w date) (progress_joins w patientId date) in
  map (fun key =>
         let group :=
           List.filter (fun j => if progress_key_eq_dec (progress_key j) key
                                 then true else false) joined in
         {| pr_item := snd (fst key);
            pr_entry_id := fst (fst key);
            pr_completed :=
              count_distinct
                (flat_map (fun j => match pj_response j with
                                    | Some r => [resp_question_id r]
                                    | None => []
                                    end) group);
            pr_total :=
              count_distinct
                (flat_map (fun j => match pj_question j with
                                    | Some q => [q_id q]
                                    | None => []
                                    end) group);
            pr_is_selected := snd key |})
    (nodup progress_key_eq_dec (map progress_key joined)).

(** The items of a category with their summaries; [None] when a summary
    does not come back. *)
Fixpoint items_with_progress (rows : list ProgressRow) (w : World)
  : option (list TrackItemWithProgress) :=
  match rows with
  | [] => Some []
  | row :: rest =>
      let summaries :=
        match pr_entry_id row with
        | Some id =>
            if id =? 0 then Some []
            else getSummariesForItem tz Date_parse_other StringToNumber
                   Number_toString id w
        | None => Some []
        end in
      match summaries, items_with_progress rest w with
      | Some s, Some catItems =>
          Some ({| tip_item := pr_item row; tip_entry_id := pr_entry_id row;
                   tip_completed := pr_completed row; tip_total := pr_total row;
                   tip_summaries := s |} :: catItems)
      | _, _ => None
      end
  end.

Fixpoint categories_with_items (cats : list TrackCategory) (items : list ProgressRow)
    (w : World) : option (list TrackCategoryWithItems) :=
  match cats with
  | [] => Some []
  | cat :: rest =>
      match items_with_progress
              (List.filter (fun r => item_category_id (pr_item r) =? cat_id cat) items) w,
            categories_with_items rest items w with
      | Some catItems, Some result =>
          Some ({| tci_category := cat; tci_items := catItems |} :: result)
      | _, _ => None
      end
  end.

(** [getTrackCategoriesWithItemsAndProgress]: the store after the entries
    of the date were ensured, and the active categories with their items. *)
Definition getTrackCategoriesWithItemsAndProgress (patientId : Z) (date : string)
    (w : World) : option (list TrackCategoryWithItems) * World :=
  let w1 := ensureSubscribedEntries tz Date_parse_other now patientId date w in
  let cats := List.filter (fun c => String.eqb (cat_status c) "active") (categories w1) in
  let items := progress_rows w1 patientId date in
  (categories_with_items cats items w1, w1).

End Readers.

(** ** Shared components

    The date formatter of [src/components/shared/LinkedHealthSystemList.tsx]
    and the guard of the save button of the snapshot screen. *)

Section Components.

Local Open Scope string_scope.

Variable tz : Z.
Variable Date_parse_other : string -> option Z.

(** [s.slice(-2)] *)
Definition slice_last2 (s : string) : string := Js.drop (String.length s - 2) s.

Definition formatDateMMDDYY (dateString : string) : string :=
  let date := Js.Date_of_string Date_parse_other dateString in
  match date with
  | None => ""
  | Some _ =>
      let mm := Js.padStart2 (Js.num_toString (Js.num_add (Js.getMonth tz date) (Some 1%Z))) in
      let dd := Js.padStart2 (Js.num_toString (Js.getDate tz date)) in
      let yy := slice_last2 (Js.num_toString (Js.getFullYear tz date)) in
      mm ++ "-" ++ dd ++ "-" ++ yy
  end.

(** [isDisabled] of the snapshot screen: both texts are blank. *)
Definition isDisabled (patientOverview healthIssues : string) : bool :=
  String.eqb (Js.trim patientOverview) "" && String.eqb (Js.trim healthIssues) "".

End Components.

(** * Vocabulary of the statements

    The notions the properties below are stated with, and the stores and
    questionnaires of their examples. *)

Module Vocabulary.

Import Js.
Local Open Scope string_scope.
Local Open Scope Z_scope.

(** ** Calendar *)

Ltac zdiv := Z.to_euclidean_division_equations; lia.

(** Calendar fields of a day number. *)
Definition year_of (n : Z) : Z := YearFromDay n.

Definition month_of (n : Z) : Z :=
  MonthFromDayWithinYear (InLeapYear (year_of n)) (n - DayFromYear (year_of n)).

Definition date_of (n : Z) : Z :=
  n - DayFromYear (year_of n)
  - DaysBeforeMonth (InLeapYear (year_of n)) (month_of n) + 1.

Definition weekday_of (n : Z) : Z := (n + 4) mod 7.

Ltac month_cases :=
  unfold MonthFromDayWithinYear;
  repeat match goal with
    | |- context [?a <? ?b] =>
        let E := fresh "E" in
        destruct (a <? b) eqn:E; [apply Z.ltb_lt in E | apply Z.ltb_ge in E]
    end.

(** ** Texts of numbers and dates *)

Fixpoint all_digits (s : string) : bool :=
  match s with
  | EmptyString => true
  | String c s' => is_digit c && all_digits s'
  end.

(** Value of a list of decimal digits read after [acc]. *)
Fixpoint uint_val (u : Decimal.uint) (acc : Z) : Z :=
  match u with
  | Decimal.Nil => acc
  | Decimal.D0 l => uint_val l (10 * acc + 0)
  | Decimal.D1 l => uint_val l (10 * acc + 1)
  | Decimal.D2 l => uint_val l (10 * acc + 2)
  | Decimal.D3 l => uint_val l (10 * acc + 3)
  | Decimal.D4 l => uint_val l (10 * acc + 4)
  | Decimal.D5 l => uint_val l (10 * acc + 5)
  | Decimal.D6 l => uint_val l (10 * acc + 6)
  | Decimal.D7 l => uint_val l (10 * acc + 7)
  | Decimal.D8 l => uint_val l (10 * acc + 8)
  | Decimal.D9 l => uint_val l (10 * acc + 9)
  end%Z.

(** The text [MM-DD-YYYY] of a date, and of a day number. *)
Definition fmt_date (m d y : Z) : string :=
  padStart2 (Z_toString m) ++ String "-" (padStart2 (Z_toString d) ++ String "-" (Z_toString y)).

Definition fmt_day (n : Z) : string :=
  fmt_date (month_of n + 1) (date_of n) (year_of n).

(** Days back to the Monday of the week: 0 on Monday, 6 on Sunday. *)
Definition days_since_monday (n : Z) : Z := (weekday_of n + 6) mod 7.

Definition monday_of (n : Z) : Z := n - days_since_monday n.

(** Local midnight of a day number, where local time is [tz] ahead of
    UTC. *)
Definition midnight (tz n : Z) : JsDate := Some (n * msPerDay - tz).

(** An engine that reads no date text beyond the date-only form. *)
Definition no_other_dates (s : string) : option Z := None.

(** Local time five hours behind UTC. *)
Definition utc_minus_5 : Z := -18000000.

(** An engine whose numbers are all zero; the examples hold no number. *)
Definition no_numbers (s : string) : float := PrimFloat.zero.

Definition zero_text (x : float) : string := "0".

(** ** Summaries *)

Fixpoint no_dollar (s : string) : bool :=
  match s with
  | EmptyString => true
  | String c r => negb (Ascii.eqb c "$") && no_dollar r
  end.

(** The answer as the generator substitutes it: the elements of an
    array joined with a comma and a blank, the text of any other value;
    [None] when making that text throws. *)
Definition rendered (StringToNumber : string -> float)
    (Number_toString : float -> string) (answer : string) : option string :=
  if startsWith answer "[" || startsWith answer "{" then
    match JSON_parse StringToNumber answer with
    | Some (JArr l) => Array_join Number_toString l ", "
    | Some v => ToString Number_toString v
    | None => Some answer
    end
  else Some answer.

(** The value holds an object with a member named [toString], as the
    value itself or as an element of an array, at any depth of arrays
    within arrays: the values whose text cannot be made. *)
Fixpoint holds_own_toString (v : JsValue) : bool :=
  match v with
  | JObj members => has_own members "toString"
  | JArr l =>
      (fix any (l : list JsValue) : bool :=
         match l with
         | [] => false
         | x :: t => holds_own_toString x || any t
         end) l
  | _ => false
  end.

(** ** Visibility *)

(** A question of item 1 with the given id, parent, condition and type. *)
Definition question (id : Z) (parent : option Z) (condition : option string)
    (type : string) : Question :=
  {| q_id := id; q_item_id := 1; q_code := ""; q_text := ""; q_type := type;
     q_required := 0; q_summary_template := None; q_status := "active";
     q_created_date := ""; q_updated_date := ""; q_instructions := None;
     q_subtype := None; q_units := None; q_min := None; q_max := None;
     q_precision := None; q_parent_question_id := parent;
     q_display_condition := condition |}.

(** The parent of [q] among [allQuestions]. *)
Definition parent_of (allQuestions : option (list Question)) (q : Question)
  : option Question :=
  match allQuestions with
  | Some qs =>
      List.find (fun question => Z.eqb (q_id question) (default 0%Z (q_parent_question_id q))) qs
  | None => None
  end.

(** [q] descends from [q0] in [n] steps, each step from a parent found
    among [allQuestions] to a child that has a display condition and
    no memoised verdict. *)
Inductive descends (allQuestions : option (list Question))
    (cache : option (gmap Z bool)) (q0 : Question) : Question -> nat -> Prop :=
| descends_self : descends allQuestions cache q0 q0 0
| descends_step p q n :
    descends allQuestions cache q0 p n ->
    no_parent q = false -> no_condition q = false ->
    parent_of allQuestions q = Some p ->
    cache_get cache (q_id q) = None ->
    descends allQuestions cache q0 q (S n).

(** The verdict of the condition on the parent's answer; a condition that
    throws counts as satisfied. *)
Definition condition_result (StringToNumber : string -> float)
    (Number_toString : float -> string) (q : Question) (answers : gmap Z JsValue)
    (allQuestions : option (list Question)) (allOptions : option (list ResponseOption))
  : bool :=
  match condition_verdict StringToNumber Number_toString q
          (default 0%Z (q_parent_question_id q))
          (default "" (q_display_condition q)) answers
          (parent_of allQuestions q) allOptions with
  | Some r => r
  | None => true
  end.

(** A questionnaire: question 1 has no parent; question 2 is shown when
    question 1 is answered [yes]; question 3 hangs under question 2 without
    a condition; question 4 is shown when question 3 is answered; question 5
    is shown when question 2 is answered; question 6 has a condition that
    is not JSON. *)
Definition q1 : Question := question 1 None None "text".

Definition q2 : Question := question 2 (Some 1) (Some (dq "{'eq': 'yes'}")) "text".

Definition q3 : Question := question 3 (Some 2) None "text".

Definition q4 : Question :=
  question 4 (Some 3) (Some (dq "{'parent_response_exists': true}")) "text".

Definition q5 : Question :=
  question 5 (Some 2) (Some (dq "{'parent_response_exists': true}")) "text".

Definition q6 : Question := question 6 (Some 1) (Some "{eq: yes") "text".

Definition questionnaire : list Question := [q1; q2; q3; q4; q5; q6].

(** Question 1 answered [no]: question 2 is hidden; questions 2 and 3
    keep an earlier answer. *)
Definition answers_no : gmap Z JsValue :=
  <[1 := JStr "no"]> (<[2 := JStr "yes"]> (<[3 := JStr "x"]> ∅)).

Definition answers_yes (second : string) : gmap Z JsValue :=
  <[1 := JStr "yes"]> (<[2 := JStr second]> ∅).

Definition verdict_of (r : option (bool * option (gmap Z bool))) : option bool :=
  option_map fst r.

(** ** Subscriptions *)

(** The patient has an entry of the item with [selected = 1]. *)
Definition has_selected_entry (w : World) (patientId itemId : Z) : Prop :=
  exists e, In e (entries w) /\ entry_track_item_id e = itemId
            /\ entry_patient_id e = patientId /\ entry_selected e = 1.

(** The primary key of the entries. *)
Definition entry_ids_unique (w : World) : Prop :=
  List.NoDup (map entry_id (entries w)).

(** Nothing is left to do for the item: the date is no boundary of its
    frequency, or the entry of its bucket is there and selected. *)
Definition settled (tz : Z) (Date_parse_other : string -> option Z)
    (patientId : Z) (date : string) (w : World) (item : Z * TrackingFrequency) : Prop :=
  shouldCreateEntryForDate tz Date_parse_other date (snd item) = false
  \/ exists e,
       List.find (entry_matches (fst item) patientId
                    (normalizeDateByFrequency tz Date_parse_other date (snd item)))
         (entries w) = Some e
       /\ entry_selected e = 1.

(** A store with one patient who follows a daily item since 01-01-2024. *)
Definition clinic : World :=
  {| patients := [{| patient_id := 7; patient_user_id := "u7" |}];
     categories := [{| cat_id := 1; cat_name := "Wellness"; cat_status := "active" |}];
     items := [{| item_id := 3; item_category_id := 1; item_code := "sleep";
                  item_name := "Sleep"; item_frequency := DAILY;
                  item_status := "active"; item_created_date := "t0";
                  item_updated_date := "t0" |}];
     entries := [{| entry_id := 1; entry_user_id := "u7"; entry_patient_id := 7;
                    entry_track_item_id := 3; entry_date := "01-01-2024";
                    entry_selected := 1; entry_created_date := "t0";
                    entry_updated_date := "t0" |}];
     questions := []; options := []; responses := []; tick := 0 |}.

(** ** Template rows *)

(** Every row of [l] is still in [l'], up to changes of its other
    columns. *)
Definition rows_kept {A} (id : A -> Z) (l l' : list A) : Prop :=
  forall x, In x l -> exists x', In x' l' /\ id x' = id x.

(** Categories, items and questions of [w] are still there in [w']. *)
Definition templates_kept (w w' : World) : Prop :=
  categories w' = categories w
  /\ rows_kept item_id (items w) (items w')
  /\ rows_kept q_id (questions w) (questions w').

(** The option rows of [w] that are no option of a question in [ids] are
    still there in [w'], unchanged. *)
Definition options_kept_but (ids : list Z) (w w' : World) : Prop :=
  forall o, In o (options w) -> In o (options w') \/ In (opt_question_id o) ids.

(** The questions an edit replaces the options of: the updates with an
    id and with options. *)
Definition replaced_questions (updates : list QuestionUpdate) : list Z :=
  flat_map (fun q =>
    match qu_id q, qu_options q with
    | Some id, Some _ => if id =? 0 then [] else [id]
    | _, _ => []
    end) updates.

(** The option is no option of a question whose options the updates
    replace. *)
Definition kept_option (updates : list QuestionUpdate) (o : ResponseOption) : bool :=
  negb (existsb (Z.eqb (opt_question_id o)) (replaced_questions updates)).

(** The option is one the updates supply: active, with the trimmed text
    of an option of an update, and under the id of that update when it
    names a question. *)
Definition supplied_option (updates : list QuestionUpdate) (o : ResponseOption) : Prop :=
  opt_status o = Some "active"
  /\ exists q opts text,
       In q updates /\ qu_options q = Some opts /\ In text opts
       /\ opt_text o = trim text
       /\ (forall id, qu_id q = Some id -> id <> 0%Z -> opt_question_id o = id).

(** Two rows of an item that differ at most in status and update time,
    and two rows of an entry that differ at most in [selected] and update
    time. *)
Definition item_but_status (i i' : TrackItem) : Prop :=
  item_id i' = item_id i /\ item_category_id i' = item_category_id i
  /\ item_code i' = item_code i /\ item_name i' = item_name i
  /\ item_frequency i' = item_frequency i
  /\ item_created_date i' = item_created_date i.

Definition entry_but_selected (e e' : TrackItemEntry) : Prop :=
  entry_id e' = entry_id e /\ entry_user_id e' = entry_user_id e
  /\ entry_patient_id e' = entry_patient_id e
  /\ entry_track_item_id e' = entry_track_item_id e
  /\ entry_date e' = entry_date e
  /\ entry_created_date e' = entry_created_date e.

Definition replaced_by (op : Operation) : list Z :=
  match op with
  | EditCustomGoal _ updates =>
      match gu_questions updates with
      | Some qs => replaced_questions qs
      | None => []
      end
  | _ => []
  end.

(** Both properties at once, for the steps that delete nothing. *)
Definition all_kept (w w' : World) : Prop :=
  templates_kept w w' /\ options_kept_but [] w w'.

(** A store with one custom goal: item 3 with question 5 and its option
    [Old]. *)
Definition old_option : ResponseOption :=
  {| opt_id := 1; opt_question_id := 5; opt_code := Some "o_old"; opt_text := "Old";
     opt_status := Some "active"; opt_created_date := "t0"; opt_updated_date := "t0" |}.

Definition goal_store : World :=
  {| patients := [];
     categories := [{| cat_id := 2; cat_name := "Custom"; cat_status := "active" |}];
     items := [{| item_id := 3; item_category_id := 2; item_code := "c3";
                  item_name := "Walk"; item_frequency := DAILY;
                  item_status := "active"; item_created_date := "t0";
                  item_updated_date := "t0" |}];
     entries := [];
     questions := [new_question 5 3 "q5" "How far?" "mcq" 0 "t0"];
     options := [old_option];
     responses := []; tick := 0 |}.

Definition new_options : GoalUpdates :=
  {| gu_name := None;
     gu_questions :=
       Some [{| qu_id := Some 5; qu_text := "How far?"; qu_type := "mcq";
                qu_required := None; qu_options := Some ["New"] |}] |}.

Definition codes (n : nat) : string := "code".

(** ** Timestamps *)

(** Every row of [l'] is a row of [l] as it was, or carries [stamp] as
    its update time and, as its creation time, either [stamp] too (a new
    row) or the creation time of the row of [l] with its id (a row updated
    in place). *)
Definition written_with {A} (stamp : string) (id : A -> Z)
    (created updated : A -> string) (l l' : list A) : Prop :=
  forall x', In x' l' ->
    In x' l
    \/ (updated x' = stamp
        /\ (created x' = stamp
            \/ exists x, In x l /\ id x = id x' /\ created x = created x')).

(** All rows written between [w] and [w'] carry [stamp]; responses are
    not written. *)
Definition stamped_with (stamp : string) (w w' : World) : Prop :=
  written_with stamp item_id item_created_date item_updated_date (items w) (items w')
  /\ written_with stamp entry_id entry_created_date entry_updated_date
       (entries w) (entries w')
  /\ written_with stamp q_id q_created_date q_updated_date (questions w) (questions w')
  /\ written_with stamp opt_id opt_created_date opt_updated_date (options w) (options w')
  /\ responses w' = responses w.

(** The operations that take the timestamp of the module; the other two
    read the clock. *)
Definition uses_module_timestamp (op : Operation) : bool :=
  match op with
  | SaveResponse _ _ _ _ _ | AddOptionToQuestion _ _ => false
  | _ => true
  end.

(** The responses written by [saveResponse] carry readings of the clock
    taken during the call. *)
Definition response_stamped_by_clock (clock : nat -> string) (w w' : World) : Prop :=
  forall r', In r' (responses w') ->
    In r' (responses w)
    \/ (resp_updated_date r' = Some (clock (tick w))
        /\ exists r, In r (responses w) /\ resp_id r = resp_id r'
                     /\ resp_created_date r = resp_created_date r')
    \/ (resp_created_date r' = clock (tick w)
        /\ resp_updated_date r' = Some (clock (S (tick w)))).

(** What [saveResponse] writes in a call: afterwards a response has the
    key of the call; every response with the key carries as update time the
    reading of the clock the call took for it, the first reading when a
    response had the key and the second when the call inserts one, whose
    creation time is the first reading; and the count of readings has gone
    up, so that the next call reads the clock anew. *)
Definition response_written_at_call (clock : nat -> string)
    (key : TrackResponse -> bool) (w w' : World) : Prop :=
  let readings := if existsb key (responses w) then 1%nat else 2%nat in
  (exists r', In r' (responses w') /\ key r' = true)
  /\ (forall r', In r' (responses w') -> key r' = true ->
        resp_updated_date r' = Some (clock (tick w + readings - 1)%nat))
  /\ (existsb key (responses w) = false ->
      exists r', responses w' = (responses w ++ [r'])%list /\ key r' = true
                 /\ resp_created_date r' = clock (tick w))
  /\ tick w' = (tick w + readings)%nat.

(** ** Rows of the summary query *)

(** The rows the main query makes of a question and a category. *)
Definition rows_of (w : World) (entryId : Z) (q : Question) (tc : TrackCategory)
  : list SummaryRow :=
  match List.filter
          (fun r => (resp_question_id r =? q_id q)
                    && (resp_track_item_entry_id r =? entryId))
          (responses w) with
  | [] => [{| row_question := q; row_category_name := cat_name tc;
              row_answer := None; row_response_updated_date := None |}]
  | rs =>
      map (fun r => {| row_question := q; row_category_name := cat_name tc;
                       row_answer := resp_answer r;
                       row_response_updated_date := resp_updated_date r |})
        rs
  end.

(** The question, entry, item and category are joined by the query. *)
Definition joined (entryId : Z) (q : Question) (tie : TrackItemEntry)
    (ti : TrackItem) (tc : TrackCategory) : Prop :=
  entry_track_item_id tie = q_item_id q /\ entry_id tie = entryId
  /\ item_id ti = q_item_id q /\ cat_id tc = item_category_id ti
  /\ q_status q = "active".

(** Every category that owns the entry, through its item, is named
    [Custom]. *)
Definition owned_by_custom (w : World) (entryId : Z) : Prop :=
  forall tie ti tc,
    In tie (entries w) -> In ti (items w) -> In tc (categories w) ->
    entry_id tie = entryId -> item_id ti = entry_track_item_id tie ->
    cat_id tc = item_category_id ti -> cat_name tc = "Custom".

(** The rows of the main query that carry an answer. *)
Definition answered_rows (w : World) (entryId : Z) : list SummaryRow :=
  List.filter has_answer (mainQuery w entryId).

(** The time of the response of a row, when it has a timestamp that is a
    valid date. *)
Definition time_of (Date_parse_other : string -> option Z) (row : SummaryRow)
  : option Z :=
  match row_response_updated_date row with
  | Some stamp => if String.eqb stamp "" then None
                  else Date_of_string Date_parse_other stamp
  | None => None
  end.

(** One round of the loop of [scan_answers]. *)
Definition scan_step (Date_parse_other : string -> option Z)
    (acc : gmap Z JsValue * option JsDate) (row : SummaryRow)
  : gmap Z JsValue * option JsDate :=
  let '(answerMap, lastUpdatedDate) := acc in
  let answerMap' :=
    <[q_id (row_question row) := JStr (default "" (row_answer row))]> answerMap in
  match row_response_updated_date row with
  | Some stamp =>
      if String.eqb stamp "" then (answerMap', lastUpdatedDate)
      else
        let updateDate := Date_of_string Date_parse_other stamp in
        match lastUpdatedDate with
        | None => (answerMap', Some updateDate)
        | Some last =>
            if Date_gt updateDate last then (answerMap', Some updateDate)
            else (answerMap', lastUpdatedDate)
        end
  | None => (answerMap', lastUpdatedDate)
  end.

(** An engine that reads the two timestamps of the examples. *)
Definition read_timestamp (s : string) : option Z :=
  if String.eqb s "2024-03-05T10:00:00.000Z" then Some 1709632800000
  else if String.eqb s "2024-03-07T08:30:00.000Z" then Some 1709800200000
  else None.

(** A custom goal, item 3, followed by patient 7 in entry 10; question 5
    is active and has a summary template, question 6 is inactive. *)
Definition walk_questions : list Question :=
  [{| q_id := 5; q_item_id := 3; q_code := "q5"; q_text := "How far?";
      q_type := "text"; q_required := 0;
      q_summary_template := Some "Walked {{answer}}"; q_status := "active";
      q_created_date := "t0"; q_updated_date := "t0"; q_instructions := None;
      q_subtype := None; q_units := None; q_min := None; q_max := None;
      q_precision := None; q_parent_question_id := None;
      q_display_condition := None |};
   {| q_id := 6; q_item_id := 3; q_code := "q6"; q_text := "How long?";
      q_type := "text"; q_required := 0;
      q_summary_template := Some "For {{answer}}"; q_status := "inactive";
      q_created_date := "t0"; q_updated_date := "t0"; q_instructions := None;
      q_subtype := None; q_units := None; q_min := None; q_max := None;
      q_precision := None; q_parent_question_id := None;
      q_display_condition := None |}].

Definition response (id question : Z) (answer : string) (updated : option string)
  : TrackResponse :=
  {| resp_id := id; resp_user_id := "u7"; resp_patient_id := 7;
     resp_question_id := question; resp_track_item_entry_id := 10;
     resp_answer := Some answer; resp_created_date := "2024-03-05T10:00:00.000Z";
     resp_updated_date := updated |}.

Definition walk_store (rs : list TrackResponse) : World :=
  {| patients := [{| patient_id := 7; patient_user_id := "u7" |}];
     categories := [{| cat_id := 2; cat_name := "Custom"; cat_status := "active" |}];
     items := [{| item_id := 3; item_category_id := 2; item_code := "c3";
                  item_name := "Walk"; item_frequency := DAILY;
                  item_status := "active"; item_created_date := "t0";
                  item_updated_date := "t0" |}];
     entries := [{| entry_id := 10; entry_user_id := "u7"; entry_patient_id := 7;
                    entry_track_item_id := 3; entry_date := "03-05-2024";
                    entry_selected := 1; entry_created_date := "t0";
                    entry_updated_date := "t0" |}];
     questions := walk_questions; options := []; responses := rs; tick := 0 |}.

(** ** Stored answers *)

(** One round of [scan_string], the later rounds being [rest]. *)
Definition scan_round (rest : string -> option (string * string)) (s : string)
  : option (string * string) :=
  match s with
  | EmptyString => None
  | String c r =>
      if Ascii.eqb c quote then Some ("", r)
      else if Ascii.eqb c backslash then
        match r with
        | String e r' =>
            let simple (x : ascii) :=
              option_map (fun p => (String x (fst p), snd p)) (rest r') in
            if Ascii.eqb e quote then simple quote
            else if Ascii.eqb e backslash then simple backslash
            else if Ascii.eqb e "/" then simple "/"%char
            else if Ascii.eqb e "b" then simple (byte 8)
            else if Ascii.eqb e "f" then simple (byte 12)
            else if Ascii.eqb e "n" then simple (byte 10)
            else if Ascii.eqb e "r" then simple (byte 13)
            else if Ascii.eqb e "t" then simple (byte 9)
            else if Ascii.eqb e "u" then
              match r' with
              | String h1 (String h2 (String h3 (String h4 r''))) =>
                  match hex_val h1, hex_val h2, hex_val h3, hex_val h4 with
                  | Some a1, Some a2, Some a3, Some a4 =>
                      option_map
                        (fun p => (utf8_of_code_unit (4096 * a1 + 256 * a2 + 16 * a3 + a4)
                                     ++ fst p, snd p))
                        (rest r'')
                  | _, _, _, _ => None
                  end
              | _ => None
              end
            else None
        | EmptyString => None
        end
      else if Nat.ltb (nat_of_ascii c) 32 then None
      else option_map (fun p => (String c (fst p), snd p)) (rest r)
  end.

(** The responses of [w] to a question within an entry, oldest first. *)
Definition responses_to (w : World) (entryId questionId : Z) : list TrackResponse :=
  List.filter (fun r => (resp_track_item_entry_id r =? entryId)
                        && (resp_question_id r =? questionId))
    (responses w).

(** The entry is answered by one user for one patient. *)
Definition answered_by (w : World) (entryId questionId : Z) (userId : string)
    (patientId : Z) : Prop :=
  forall r, In r (responses_to w entryId questionId) ->
            resp_user_id r = userId /\ resp_patient_id r = patientId.

(** The response stored last among them, if any. *)
Definition latest_response (w : World) (entryId questionId : Z) : option TrackResponse :=
  List.last (map Some (responses_to w entryId questionId)) None.

(** A store with entry 10 of item 3, whose questions are 5 and 6, and an
    earlier answer to question 5. *)
Definition answered_store : World :=
  walk_store [response 1 5 "near" None].

(** ** Catalogue and links *)

(** The items a catalogue lists, with their flags. *)
Definition catalogue_items (l : list TrackCategoryWithSelectableItems)
  : list TrackItemSelectable :=
  flat_map tcs_items l.

(** The item is active and belongs to an active category. *)
Definition offered (w : World) (ti : TrackItem) : Prop :=
  In ti (items w) /\ item_status ti = "active"
  /\ exists tc, In tc (categories w) /\ cat_id tc = item_category_id ti
                /\ cat_status tc = "active".

(** An entry as the subscription inference writes it for the patient on
    the date: selected, of an item the patient is subscribed to in [w],
    under the date normalised by the frequency of the item, the date being
    a boundary of that frequency. *)
Definition ensured_entry (tz : Z) (Date_parse_other : string -> option Z)
    (w : World) (patientId : Z) (date : string) (e : TrackItemEntry) : Prop :=
  entry_patient_id e = patientId /\ entry_selected e = 1
  /\ exists f, In (entry_track_item_id e, f) (subscribedItems w patientId)
               /\ shouldCreateEntryForDate tz Date_parse_other date f = true
               /\ entry_date e = normalizeDateByFrequency tz Date_parse_other date f.

(** The frequency [addTrackItemOnDate] takes for an item: daily when the
    item is not found. *)
Definition frequency_of (w : World) (itemId : Z) : TrackingFrequency :=
  match List.find (fun i => item_id i =? itemId) (items w) with
  | Some i => item_frequency i
  | None => DAILY
  end.

(** An entry as one round of the inference writes it for an item. *)
Definition written_for (tz : Z) (Date_parse_other : string -> option Z)
    (patientId : Z) (date : string) (item : Z * TrackingFrequency)
    (e : TrackItemEntry) : Prop :=
  entry_patient_id e = patientId /\ entry_selected e = 1
  /\ entry_track_item_id e = fst item
  /\ shouldCreateEntryForDate tz Date_parse_other date (snd item) = true
  /\ entry_date e = normalizeDateByFrequency tz Date_parse_other date (snd item).

(** ** Dates of any form *)

(** The calendar day, in local time, of a time value. *)
Definition local_day (tz t : Z) : Z := Day (t + tz).

(** The date-only text [YYYY-MM-DD] of a date with a four-digit year. *)
Definition iso_text (y m d : Z) : string :=
  Z_toString y ++ String "-" (padStart2 (Z_toString m) ++ String "-" (padStart2 (Z_toString d))).

(** ** Memoised visibility *)

(** The verdict of [isQuestionVisible] without a memo table. *)
Definition plain_verdict (StringToNumber : string -> float)
    (Number_toString : float -> string) (answers : gmap Z JsValue)
    (qs : list Question) (opts : option (list ResponseOption)) (fuel : nat)
    (q : Question) : option bool :=
  verdict_of (isQuestionVisible StringToNumber Number_toString fuel q answers
                (Some qs) opts None).

(** The questions passed in are told apart by their ids. *)
Definition ids_determine (qs : list Question) : Prop :=
  forall a c, In a qs -> In c qs -> q_id a = q_id c -> a = c.

(** Every memoised verdict is the verdict the question gets without the
    memo table, whenever that evaluation ends. *)
Definition sound_cache (StringToNumber : string -> float)
    (Number_toString : float -> string) (answers : gmap Z JsValue)
    (qs : list Question) (opts : option (list ResponseOption))
    (m : gmap Z bool) : Prop :=
  forall q b, In q qs -> m !! q_id q = Some b ->
    forall fuel v,
      plain_verdict StringToNumber Number_toString answers qs opts fuel q = Some v ->
      v = b.

(** Parents come first: a parent has a smaller id than its child. *)
Definition parents_first (qs : list Question) : Prop :=
  forall q pid, In q qs -> q_parent_question_id q = Some pid -> pid < q_id q.

(** The questions of [qs] with a smaller id than [q]. *)
Definition rank (qs : list Question) (q : Question) : nat :=
  List.length (List.filter (fun x => q_id x <? q_id q) qs).

(** The summary a question contributes: that of its answer, when it has
    an answer and a template and is visible without a memo table. *)
Definition summary_of (StringToNumber : string -> float)
    (Number_toString : float -> string) (answers : gmap Z JsValue)
    (qs : list Question) (opts : list ResponseOption) (fuel : nat)
    (q : Question) : list string :=
  match answers !! q_id q, q_summary_template q with
  | Some (JStr answer), Some template =>
      if String.eqb answer "" || String.eqb template "" then []
      else
        match plain_verdict StringToNumber Number_toString answers qs (Some opts) fuel q with
        | Some true =>
            match generateSummary StringToNumber Number_toString template answer with
            | Some summary => if String.eqb summary "" then [] else [summary]
            | None => []
            end
        | _ => []
        end
  | _, _ => []
  end.

(** The parent's answer as a condition sees it, and whether it is there. *)
Definition parent_answer (StringToNumber : string -> float)
    (Number_toString : float -> string) (answers : gmap Z JsValue) (q : Question)
  : JsValue :=
  parse_answer StringToNumber Number_toString
    (default JUndefined (answers !! default 0 (q_parent_question_id q))).

Definition answer_given (v : JsValue) : bool :=
  match v with
  | JUndefined | JNull => false
  | _ => true
  end.

(** The keys a display condition is read by. *)
Definition condition_keys : list string :=
  [QuestionCondition.EQ; QuestionCondition.NOT_EQ; QuestionCondition.GT;
   QuestionCondition.GTE; QuestionCondition.LT; QuestionCondition.LTE;
   QuestionCondition.IN; QuestionCondition.NOT_IN].

(** ** Summaries of an entry *)

(** The questions, the answers and the options [getSummariesForItem]
    works with: the questions of the rows of its main query, the answer
    map built from the rows with an answer, and the active options of
    these questions. *)
Definition entry_questions (w : World) (entryId : Z) : list Question :=
  map row_question (mainQuery w entryId).

Definition entry_answers (Date_parse_other : string -> option Z) (w : World)
    (entryId : Z) : gmap Z JsValue :=
  fst (scan_answers Date_parse_other (answered_rows w entryId)).

Definition entry_options (w : World) (entryId : Z) : list ResponseOption :=
  List.filter
    (fun o => existsb (Z.eqb (opt_question_id o)) (map q_id (entry_questions w entryId))
              && match opt_status o with
                 | Some st => String.eqb st "active"
                 | None => false
                 end)
    (options w).

(** The primary key of the questions. *)
Definition question_ids_unique (w : World) : Prop :=
  List.NoDup (map q_id (questions w)).

(** Item 3 in a category that is not the custom one, with a question and
    a follow-up shown when the first is answered [yes]. *)
Definition sleep_questions : list Question :=
  [{| q_id := 5; q_item_id := 3; q_code := "q5"; q_text := "Slept well?";
      q_type := "text"; q_required := 0;
      q_summary_template := Some "Slept well: {{answer}}"; q_status := "active";
      q_created_date := "t0"; q_updated_date := "t0"; q_instructions := None;
      q_subtype := None; q_units := None; q_min := None; q_max := None;
      q_precision := None; q_parent_question_id := None;
      q_display_condition := None |};
   {| q_id := 6; q_item_id := 3; q_code := "q6"; q_text := "How long?";
      q_type := "text"; q_required := 0;
      q_summary_template := Some "For {{answer}}"; q_status := "active";
      q_created_date := "t0"; q_updated_date := "t0"; q_instructions := None;
      q_subtype := None; q_units := None; q_min := None; q_max := None;
      q_precision := None; q_parent_question_id := Some 5;
      q_display_condition := Some (dq "{'eq': 'yes'}") |}].

Definition sleep_store (rs : list TrackResponse) : World :=
  {| patients := [{| patient_id := 7; patient_user_id := "u7" |}];
     categories := [{| cat_id := 1; cat_name := "Wellness"; cat_status := "active" |}];
     items := [{| item_id := 3; item_category_id := 1; item_code := "sleep";
                  item_name := "Sleep"; item_frequency := DAILY;
                  item_status := "active"; item_created_date := "t0";
                  item_updated_date := "t0" |}];
     entries := [{| entry_id := 10; entry_user_id := "u7"; entry_patient_id := 7;
                    entry_track_item_id := 3; entry_date := "03-05-2024";
                    entry_selected := 1; entry_created_date := "t0";
                    entry_updated_date := "t0" |}];
     questions := sleep_questions; options := []; responses := rs; tick := 0 |}.

(** ** Custom goals *)

(** The option texts [addCustomGoal] stores for a question: [Yes] and
    [No] for a boolean question, the non-blank options, trimmed, for a
    choice question, none for any other type. *)
Definition goal_option_texts (question : CustomGoalQuestion) : list string :=
  if String.eqb (cgq_type question) "boolean" then ["Yes"; "No"]
  else if String.eqb (cgq_type question) "mcq" || String.eqb (cgq_type question) "msq"
  then
    match cgq_options question with
    | Some opts => map trim (List.filter (fun o => negb (String.eqb (trim o) "")) opts)
    | None => []
    end
  else [].

(** The options of a question, and the options of the other questions. *)
Definition options_of (w : World) (questionId : Z) : list ResponseOption :=
  List.filter (fun o => opt_question_id o =? questionId) (options w).

Definition options_but (w : World) (questionId : Z) : list ResponseOption :=
  List.filter (fun o => negb (opt_question_id o =? questionId)) (options w).

(** Two stores that differ at most in their options and in the count of
    generated values. *)
Definition same_but_options (w w' : World) : Prop :=
  patients w' = patients w /\ categories w' = categories w /\ items w' = items w
  /\ entries w' = entries w /\ questions w' = questions w
  /\ responses w' = responses w.

(** The option rows [news] were added for the question, with the given
    texts, all of them active. *)
Definition options_added (w w' : World) (questionId : Z) (texts : list string)
    (news : list ResponseOption) : Prop :=
  options w' = (options w ++ news)%list
  /\ map opt_text news = texts
  /\ forall o, In o news ->
       opt_question_id o = questionId /\ opt_status o = Some "active".

(** The question rows [newqs] and the option rows [newopts] were added
    for the questions [l] of a goal of the item: one active question per
    element, with its text and type and neither template nor parent, and
    for each the options of its type. *)
Definition questions_added (w w' : World) (itemId : Z) (l : list CustomGoalQuestion)
    (newqs : list Question) (newopts : list ResponseOption) : Prop :=
  questions w' = (questions w ++ newqs)%list
  /\ options w' = (options w ++ newopts)%list
  /\ map q_text newqs = map cgq_text l
  /\ map q_type newqs = map cgq_type l
  /\ (forall q, In q newqs ->
        q_item_id q = itemId /\ q_status q = "active"
        /\ q_summary_template q = None /\ q_parent_question_id q = None)
  /\ map opt_text newopts = flat_map goal_option_texts l
  /\ (forall o, In o newopts ->
        opt_status o = Some "active"
        /\ exists q, In q newqs /\ opt_question_id o = q_id q).

(** Two stores with the same patients, categories, items, entries and
    responses. *)
Definition same_links (w w' : World) : Prop :=
  patients w' = patients w /\ categories w' = categories w /\ items w' = items w
  /\ entries w' = entries w /\ responses w' = responses w.

(** ** Short dates *)

(** The text [MM-DD-YY] of a day number. *)
Definition short_day (n : Z) : string :=
  padStart2 (Z_toString (month_of n + 1))
  ++ String "-" (padStart2 (Z_toString (date_of n))
                 ++ String "-" (padStart2 (Z_toString (year_of n mod 100)))).

(** ** The dashboard *)

(** The ids of the active questions of an item, and the ids of the
    questions answered in an entry. *)
Definition active_questions (w : World) (itemId : Z) : list Z :=
  map q_id
    (List.filter (fun q => (q_item_id q =? itemId) && String.eqb (q_status q) "active")
       (questions w)).

Definition answered_questions (w : World) (entryId : Z) : list Z :=
  map resp_question_id
    (List.filter (fun r => resp_track_item_entry_id r =? entryId) (responses w)).

(** The entry [e] puts the item [ti] on the dashboard of the patient for
    the date: the item is active, in an active category, with an active
    question; the entry is one of the item for the patient, stored under
    exactly the date text asked for, and it is selected or holds a
    response. *)
Definition on_dashboard (w : World) (patientId : Z) (date : string) (ti : TrackItem)
    (e : TrackItemEntry) : Prop :=
  In ti (items w) /\ In e (entries w)
  /\ item_status ti = "active"
  /\ (exists tc, In tc (categories w) /\ cat_id tc = item_category_id ti
                 /\ cat_status tc = "active")
  /\ active_questions w (item_id ti) <> []
  /\ entry_track_item_id e = item_id ti /\ entry_patient_id e = patientId
  /\ entry_date e = date
  /\ (entry_selected e = 1 \/ answered_questions w (entry_id e) <> []).

(** The row of the progress query for an item and its entry. *)
Definition dashboard_row (w : World) (ti : TrackItem) (e : TrackItemEntry) : ProgressRow :=
  {| pr_item := ti; pr_entry_id := Some (entry_id e);
     pr_completed := count_distinct (answered_questions w (entry_id e));
     pr_total := count_distinct (active_questions w (item_id ti));
     pr_is_selected := Some (entry_selected e) |}.

End Vocabulary.

(** * Properties *)

(** ** The calendar of the runtime *)

Module Calendar.

Import Js Vocabulary.
Local Open Scope Z_scope.

Lemma DayFromYear_succ y : DayFromYear (y + 1) = DayFromYear y + DaysInYear y.
Proof.
  unfold DayFromYear, DaysInYear.
  destruct (y mod 4 =? 0) eqn:E4; destruct (y mod 100 =? 0) eqn:E100;
    destruct (y mod 400 =? 0) eqn:E400; simpl;
    rewrite ?Z.eqb_eq, ?Z.eqb_neq in *; zdiv.
Qed.

Lemma InLeapYear_cases y :
  (InLeapYear y = 0 /\ DaysInYear y = 365) \/ (InLeapYear y = 1 /\ DaysInYear y = 366).
Proof.
  unfold InLeapYear, DaysInYear. destruct (_ && _); simpl; auto.
Qed.

Lemma DayFromYear_mono y1 y2 : y1 <= y2 -> DayFromYear y1 <= DayFromYear y2.
Proof. unfold DayFromYear. intros. zdiv. Qed.

Lemma YearFromDay_spec d :
  DayFromYear (YearFromDay d) <= d < DayFromYear (YearFromDay d + 1).
Proof.
  unfold YearFromDay.
  set (y0 := 1970 + 400 * d / 146097).
  destruct (DayFromYear (y0 + 1) <=? d) eqn:E1;
    [apply Z.leb_le in E1 | apply Z.leb_gt in E1].
  - split; [exact E1|]. unfold DayFromYear, y0 in *. zdiv.
  - destruct (DayFromYear y0 <=? d) eqn:E2;
      [apply Z.leb_le in E2 | apply Z.leb_gt in E2].
    + split; assumption.
    + replace (y0 - 1 + 1) with y0 by lia. split; [|exact E2].
      unfold DayFromYear, y0 in *. zdiv.
Qed.

Lemma YearFromDay_unique d y :
  DayFromYear y <= d < DayFromYear (y + 1) -> YearFromDay d = y.
Proof.
  intros H. pose proof (YearFromDay_spec d) as S.
  destruct (Z.lt_trichotomy (YearFromDay d) y) as [L|[E|G]]; [|exact E|].
  - pose proof (DayFromYear_mono (YearFromDay d + 1) y ltac:(lia)). lia.
  - pose proof (DayFromYear_mono (y + 1) (YearFromDay d) ltac:(lia)). lia.
Qed.

Lemma day_within_year n :
  0 <= n - DayFromYear (year_of n) < DaysInYear (year_of n).
Proof.
  unfold year_of. pose proof (YearFromDay_spec n) as S.
  rewrite DayFromYear_succ in S. lia.
Qed.

Lemma month_of_range n : 0 <= month_of n <= 11.
Proof. unfold month_of. month_cases; lia. Qed.

Lemma date_of_range n : 1 <= date_of n <= DaysInMonth (year_of n) (month_of n).
Proof.
  unfold date_of, month_of, DaysInMonth.
  pose proof (day_within_year n) as W.
  destruct (InLeapYear_cases (year_of n)) as [[L Y]|[L Y]]; rewrite L, Y in *;
    month_cases; simpl; lia.
Qed.

Lemma DaysInMonth_le_31 y m : DaysInMonth y m <= 31.
Proof.
  assert (C : DaysInMonth y m = 28 + InLeapYear y \/ DaysInMonth y m = 30
              \/ DaysInMonth y m = 31).
  { unfold DaysInMonth. destruct m as [|p|p]; auto.
    do 4 (try destruct p as [p|p|]; auto). }
  destruct (InLeapYear_cases y) as [[L _]|[L _]]; rewrite L in C; lia.
Qed.

(** A day number is rebuilt from its fields; the day of the month enters
    linearly. *)
Lemma MakeDay_fields n dt :
  MakeDay (year_of n) (month_of n) dt = n - date_of n + dt.
Proof.
  pose proof (month_of_range n) as R.
  unfold MakeDay. rewrite (Z.div_small (month_of n) 12), (Z.mod_small (month_of n) 12) by lia.
  rewrite Z.add_0_r. unfold date_of. lia.
Qed.

Lemma MakeDay_date n : MakeDay (year_of n) (month_of n) (date_of n) = n.
Proof. rewrite MakeDay_fields. lia. Qed.

(** The fields of the day built from a date of the calendar are that
    date. *)
Lemma fields_MakeDay y m d :
  0 <= m <= 11 -> 1 <= d <= DaysInMonth y m ->
  year_of (MakeDay y m d) = y /\ month_of (MakeDay y m d) = m
  /\ date_of (MakeDay y m d) = d.
Proof.
  intros Hm Hd.
  assert (HM : MakeDay y m d = DayFromYear y + DaysBeforeMonth (InLeapYear y) m + d - 1).
  { unfold MakeDay. rewrite (Z.div_small m 12), (Z.mod_small m 12) by lia.
    rewrite Z.add_0_r. reflexivity. }
  assert (Hy : year_of (MakeDay y m d) = y).
  { unfold year_of. apply YearFromDay_unique. rewrite HM, DayFromYear_succ.
    unfold DaysInMonth in Hd.
    destruct (InLeapYear_cases y) as [[L Y]|[L Y]]; rewrite L, Y in *.
    all: assert (C : m = 0 \/ m = 1 \/ m = 2 \/ m = 3 \/ m = 4 \/ m = 5 \/ m = 6
                     \/ m = 7 \/ m = 8 \/ m = 9 \/ m = 10 \/ m = 11) by lia.
    all: repeat (destruct C as [C|C]; [subst m; simpl in *; lia|]).
    all: subst m; simpl in *; lia. }
  assert (Hmo : month_of (MakeDay y m d) = m).
  { unfold month_of. rewrite Hy, HM. unfold DaysInMonth in Hd.
    destruct (InLeapYear_cases y) as [[L Y]|[L Y]]; rewrite L in *.
    all: assert (C : m = 0 \/ m = 1 \/ m = 2 \/ m = 3 \/ m = 4 \/ m = 5 \/ m = 6
                     \/ m = 7 \/ m = 8 \/ m = 9 \/ m = 10 \/ m = 11) by lia.
    all: repeat (destruct C as [C|C]; [subst m; simpl in *; month_cases; lia|]).
    all: subst m; simpl in *; month_cases; lia. }
  split; [exact Hy|]. split; [exact Hmo|].
  unfold date_of. rewrite Hmo, Hy, HM. lia.
Qed.

Lemma Day_local_midnight n : Day (n * msPerDay) = n.
Proof. unfold Day, msPerDay. zdiv. Qed.

Lemma TimeWithinDay_local_midnight n : TimeWithinDay (n * msPerDay) = 0.
Proof. unfold TimeWithinDay, msPerDay. zdiv. Qed.

Lemma Day_split t : Day t * msPerDay + TimeWithinDay t = t.
Proof. unfold Day, TimeWithinDay, msPerDay. zdiv. Qed.

Lemma TimeWithinDay_range t : 0 <= TimeWithinDay t < msPerDay.
Proof. unfold TimeWithinDay, msPerDay. zdiv. Qed.

Lemma Day_add n r : 0 <= r < msPerDay -> Day (n * msPerDay + r) = n.
Proof. unfold Day, msPerDay. intros. zdiv. Qed.

Lemma YearFromTime_eq t : YearFromTime t = year_of (Day t).
Proof. reflexivity. Qed.

Lemma MonthFromTime_eq t : MonthFromTime t = month_of (Day t).
Proof. reflexivity. Qed.

Lemma DateFromTime_eq t : DateFromTime t = date_of (Day t).
Proof. reflexivity. Qed.

Lemma WeekDay_eq t : WeekDay t = weekday_of (Day t).
Proof. reflexivity. Qed.

End Calendar.

(** ** Decimal text of numbers *)

Module Decimal_text.

Import Js Vocabulary.
Local Open Scope string_scope.

Lemma all_digits_uint u : all_digits (NilEmpty.string_of_uint u) = true.
Proof. induction u; simpl; auto. Qed.

Lemma digits_value_uint u : forall acc,
  digits_value (NilEmpty.string_of_uint u) acc true = Some (uint_val u acc).
Proof. induction u; intros acc; simpl; auto. Qed.

Lemma digits_value_uint_fresh u :
  u <> Decimal.Nil ->
  digits_value (NilEmpty.string_of_uint u) 0 false = Some (uint_val u 0).
Proof. destruct u; intros H; try congruence; simpl; apply digits_value_uint. Qed.

Lemma of_uint_acc_val l : forall p,
  Z.pos (Pos.of_uint_acc l p) = uint_val l (Z.pos p).
Proof.
  induction l; intros p; simpl; auto; rewrite IHl; f_equal; lia.
Qed.

Lemma of_uint_val u : Z.of_N (Pos.of_uint u) = uint_val u 0.
Proof.
  induction u; simpl; auto; rewrite of_uint_acc_val; reflexivity.
Qed.

(** The text of a natural number: a non-empty list of digits with that
    value. *)
Lemma Z_toString_nonneg n :
  (0 <= n)%Z ->
  exists u, u <> Decimal.Nil /\ Z_toString n = NilEmpty.string_of_uint u
            /\ uint_val u 0 = n.
Proof.
  intros Hn. unfold Z_toString.
  destruct n as [|p|p]; [| |lia].
  - exists (Decimal.D0 Decimal.Nil). repeat split; congruence.
  - exists (Pos.to_uint p). split; [apply DecimalPos.Unsigned.to_uint_nonnil|].
    split.
    + simpl. unfold NilZero.string_of_uint.
      pose proof (DecimalPos.Unsigned.to_uint_nonnil p).
      destruct (Pos.to_uint p); congruence.
    + rewrite <- of_uint_val, DecimalPos.Unsigned.of_to. reflexivity.
Qed.

Lemma all_digits_Z_toString n : (0 <= n)%Z -> all_digits (Z_toString n) = true.
Proof.
  intros H. destruct (Z_toString_nonneg n H) as (u & _ & -> & _).
  apply all_digits_uint.
Qed.

Lemma Z_toString_nonempty n : (0 <= n)%Z -> Z_toString n <> "".
Proof.
  intros H. destruct (Z_toString_nonneg n H) as (u & Hu & -> & _).
  destruct u; simpl; congruence.
Qed.

Lemma all_digits_padStart2 s : all_digits s = true -> all_digits (padStart2 s) = true.
Proof. destruct s as [|c [|c' s]]; simpl; auto. Qed.

(** White space is not a digit: a text that starts with a digit is its
    own [trimStart]. *)
Lemma ws_prefix_digit c s : is_digit c = true -> ws_prefix (String c s) = None.
Proof.
  intros H. destruct c as [[] [] [] [] [] [] [] []]; try discriminate H; reflexivity.
Qed.

Lemma trimStart_digit c s : is_digit c = true -> trimStart (String c s) = String c s.
Proof.
  intros H. unfold trimStart. simpl String.length. simpl strip.
  rewrite ws_prefix_digit; auto.
Qed.

Lemma parseInt10_digits c s :
  is_digit c = true -> parseInt10 (String c s) = digits_value (String c s) 0 false.
Proof.
  intros H. unfold parseInt10. rewrite trimStart_digit by exact H.
  destruct c as [[] [] [] [] [] [] [] []]; try discriminate H; reflexivity.
Qed.

(** [parseInt] reads back the text of a natural number, padded or not. *)
Lemma parseInt10_Z_toString n : (0 <= n)%Z -> parseInt10 (Z_toString n) = Some n.
Proof.
  intros H. destruct (Z_toString_nonneg n H) as (u & Hu & E & V).
  rewrite E. pose proof (all_digits_uint u) as D.
  pose proof (digits_value_uint_fresh u Hu) as P.
  destruct (NilEmpty.string_of_uint u) as [|c s] eqn:Es.
  - destruct u; simpl in Es; congruence.
  - simpl in D. apply andb_prop in D as [Dc _].
    rewrite parseInt10_digits by exact Dc. rewrite P, V. reflexivity.
Qed.

Lemma parseInt10_padStart2 n :
  (0 <= n)%Z -> parseInt10 (padStart2 (Z_toString n)) = Some n.
Proof.
  intros H. pose proof (parseInt10_Z_toString n H) as P.
  pose proof (all_digits_Z_toString n H) as D.
  pose proof (Z_toString_nonempty n H) as NE.
  destruct (Z_toString n) as [|c [|c' s]] eqn:E; [congruence| |exact P].
  simpl in D. apply andb_prop in D as [Dc _].
  rewrite parseInt10_digits in P by exact Dc.
  unfold padStart2. rewrite parseInt10_digits by reflexivity.
  simpl in *. rewrite Dc in *. exact P.
Qed.

(** Pieces made of digits are cut at the hyphens between them. *)
Lemma split_digits a : all_digits a = true -> split "-" a = [a].
Proof.
  induction a as [|c a IH]; simpl; intros H; [reflexivity|].
  apply andb_prop in H as [Hc Ha].
  destruct (Ascii.eqb c "-") eqn:E.
  - apply Ascii.eqb_eq in E. subst c. discriminate Hc.
  - rewrite IH by exact Ha. reflexivity.
Qed.

Lemma split_digits_hyphen a rest :
  all_digits a = true ->
  split "-" (a ++ String "-" rest) = a :: split "-" rest.
Proof.
  induction a as [|c a IH]; simpl; intros H; [reflexivity|].
  apply andb_prop in H as [Hc Ha].
  destruct (Ascii.eqb c "-") eqn:E.
  - apply Ascii.eqb_eq in E. subst c. discriminate Hc.
  - rewrite IH by exact Ha. reflexivity.
Qed.

(** A text whose third character is a hyphen does not start like
    [YYYY-MM-DD]. *)
Lemma iso_date_prefix_hyphen3 c1 c2 rest :
  iso_date_prefix (String c1 (String c2 (String "-" rest))) = false.
Proof.
  unfold iso_date_prefix.
  do 7 (destruct rest as [|? rest]; [reflexivity|]).
  destruct (is_digit c1), (is_digit c2); reflexivity.
Qed.

Lemma padStart2_two_chars n :
  (0 <= n <= 99)%Z ->
  exists c1 c2, padStart2 (Z_toString n) = String c1 (String c2 "").
Proof.
  intros H.
  assert (C : exists k, (k <= 99)%nat /\ n = Z.of_nat k).
  { exists (Z.to_nat n). split; lia. }
  destruct C as (k & Hk & ->).
  do 100 (destruct k as [|k]; [eexists; eexists; reflexivity|]).
  lia.
Qed.

End Decimal_text.

(** ** Date normalisation and bucket boundaries *)

Module DateNormalizer.

Import Js Vocabulary Calendar Decimal_text.
Local Open Scope string_scope.
Local Open Scope Z_scope.

Section Normalizer.

Variable tz : Z.
Variable Date_parse_other : string -> option Z.
Hypothesis tz_bound : - msPerDay <= tz <= msPerDay.

Local Abbreviation parse := (parseMMDDYYYY tz Date_parse_other).
Local Abbreviation format := (formatMMDDYYYY tz).
Local Abbreviation normalize := (normalizeDateByFrequency tz Date_parse_other).

Lemma local_fields_midnight n :
  getFullYear tz (midnight tz n) = Some (year_of n)
  /\ getMonth tz (midnight tz n) = Some (month_of n)
  /\ getDate tz (midnight tz n) = Some (date_of n)
  /\ getDay tz (midnight tz n) = Some (weekday_of n).
Proof.
  unfold getFullYear, getMonth, getDate, getDay, midnight, LocalTime. simpl.
  replace (n * msPerDay - tz + tz) with (n * msPerDay) by lia.
  rewrite YearFromTime_eq, MonthFromTime_eq, DateFromTime_eq, WeekDay_eq,
    Day_local_midnight.
  auto.
Qed.

Lemma format_midnight n : format (midnight tz n) = fmt_day n.
Proof.
  unfold formatMMDDYYYY.
  destruct (local_fields_midnight n) as (-> & -> & -> & _). reflexivity.
Qed.

Lemma TimeClip_midnight n :
  DayFromYear 100 <= n < DayFromYear 10000 ->
  TimeClip (n * msPerDay - tz) = midnight tz n.
Proof.
  intros H. unfold TimeClip, midnight.
  replace (DayFromYear 100) with (-683003) in H by reflexivity.
  replace (DayFromYear 10000) with 2932897 in H by reflexivity.
  unfold msPerDay in *.
  destruct (Z.abs _ <=? _) eqn:E; [reflexivity|]. apply Z.leb_gt in E. lia.
Qed.

Lemma day_range_of_year n :
  100 <= year_of n <= 9999 -> DayFromYear 100 <= n < DayFromYear 10000.
Proof.
  intros H. pose proof (YearFromDay_spec n) as S. fold (year_of n) in S.
  pose proof (DayFromYear_mono 100 (year_of n) ltac:(lia)).
  pose proof (DayFromYear_mono (year_of n + 1) 10000 ltac:(lia)).
  lia.
Qed.

(** Reading a text [MM-DD-YYYY]: the three numbers go to the date
    constructor. *)
Lemma parse_fmt_date m d y :
  1 <= m <= 12 -> 1 <= d -> 0 <= y ->
  parse (fmt_date m d y) = Date_of_fields tz (Some y) (Some (m - 1)) (Some d).
Proof.
  intros Hm Hd Hy. unfold parseMMDDYYYY.
  assert (Hiso : iso_date_prefix (fmt_date m d y) = false).
  { unfold fmt_date. destruct (padStart2_two_chars m) as (c1 & c2 & E); [lia|].
    rewrite E. apply iso_date_prefix_hyphen3. }
  rewrite Hiso. unfold fmt_date.
  rewrite split_digits_hyphen
    by (apply all_digits_padStart2, all_digits_Z_toString; lia).
  rewrite split_digits_hyphen
    by (apply all_digits_padStart2, all_digits_Z_toString; lia).
  rewrite split_digits by (apply all_digits_Z_toString; lia).
  cbn [map nth].
  rewrite !parseInt10_padStart2, parseInt10_Z_toString by lia.
  f_equal; f_equal; unfold or_one.
  - destruct m; lia.
  - destruct d; lia.
Qed.

Lemma Date_of_fields_midnight y m d :
  100 <= year_of (MakeDay y m d) <= 9999 -> ~ (0 <= y <= 99) ->
  Date_of_fields tz (Some y) (Some m) (Some d) = midnight tz (MakeDay y m d).
Proof.
  intros Hr Hy. unfold Date_of_fields.
  replace ((0 <=? y) && (y <=? 99))%bool with false
    by (symmetry; apply andb_false_iff; lia).
  unfold UTC, MakeDate. rewrite Z.add_0_r.
  apply TimeClip_midnight, day_range_of_year, Hr.
Qed.

(** A well-formed text of a date of the calendar is read as the local
    midnight of that date. *)
Lemma parse_canonical m d y :
  1 <= m <= 12 -> 1 <= d <= DaysInMonth y (m - 1) -> 100 <= y <= 9999 ->
  parse (fmt_date m d y) = midnight tz (MakeDay y (m - 1) d).
Proof.
  intros Hm Hd Hy. rewrite parse_fmt_date by lia.
  destruct (fields_MakeDay y (m - 1) d ltac:(lia) Hd) as (Ey & _ & _).
  apply Date_of_fields_midnight; lia.
Qed.

Lemma fmt_day_MakeDay m d y :
  1 <= m <= 12 -> 1 <= d <= DaysInMonth y (m - 1) ->
  fmt_day (MakeDay y (m - 1) d) = fmt_date m d y.
Proof.
  intros Hm Hd. unfold fmt_day.
  destruct (fields_MakeDay y (m - 1) d ltac:(lia) Hd) as (-> & -> & ->).
  f_equal. lia.
Qed.

Lemma fmt_date_fields n :
  fmt_date (month_of n + 1) (date_of n) (year_of n) = fmt_day n.
Proof. reflexivity. Qed.

(** The weekly step on a local midnight: back to the Monday of the
    week. *)
Lemma getMonday_midnight n :
  100 <= year_of (monday_of n) <= 9999 ->
  getMonday tz (midnight tz n) = midnight tz (monday_of n).
Proof.
  intros Hr. unfold getMonday.
  destruct (local_fields_midnight n) as (_ & _ & Ed & Ew). rewrite Ew, Ed.
  assert (Hdiff : (if weekday_of n =? 0 then -6 else 1 - weekday_of n)
                  = - days_since_monday n).
  { unfold days_since_monday.
    pose proof (Z.mod_pos_bound (n + 4) 7 ltac:(lia)) as B.
    fold (weekday_of n) in B.
    destruct (weekday_of n =? 0) eqn:E;
      [apply Z.eqb_eq in E | apply Z.eqb_neq in E];
      Z.to_euclidean_division_equations; lia. }
  cbn [option_map num_add]. rewrite Hdiff.
  replace (date_of n + - days_since_monday n)
    with (date_of n - days_since_monday n) by lia.
  unfold setDate, midnight, LocalTime.
  replace (n * msPerDay - tz + tz) with (n * msPerDay) by lia.
  rewrite YearFromTime_eq, MonthFromTime_eq, Day_local_midnight,
    TimeWithinDay_local_midnight, MakeDay_fields.
  unfold UTC, MakeDate. rewrite Z.add_0_r.
  replace (n - date_of n + (date_of n - days_since_monday n)) with (monday_of n)
    by (unfold monday_of; lia).
  apply TimeClip_midnight, day_range_of_year, Hr.
Qed.

Lemma weekday_monday_of n : weekday_of (monday_of n) = 1.
Proof.
  unfold monday_of, days_since_monday, weekday_of.
  Z.to_euclidean_division_equations; lia.
Qed.

Lemma monday_of_monday n : weekday_of n = 1 -> monday_of n = n.
Proof.
  unfold monday_of, days_since_monday. intros ->. change ((1 + 6) mod 7) with 0. lia.
Qed.

Lemma monday_of_bounds n : n - 6 <= monday_of n <= n.
Proof.
  unfold monday_of, days_since_monday.
  pose proof (Z.mod_pos_bound (weekday_of n + 6) 7 ltac:(lia)). lia.
Qed.

Lemma year_of_mono a c : a <= c -> year_of a <= year_of c.
Proof.
  intros H. unfold year_of.
  pose proof (YearFromDay_spec a) as Sa. pose proof (YearFromDay_spec c) as Sc.
  destruct (Z_le_gt_dec (YearFromDay a) (YearFromDay c)) as [L|G]; [exact L|].
  pose proof (DayFromYear_mono (YearFromDay c + 1) (YearFromDay a) ltac:(lia)). lia.
Qed.

Lemma year_of_week_before n :
  1000 <= year_of n <= 9999 -> 100 <= year_of (monday_of n) <= 9999.
Proof.
  intros H. pose proof (monday_of_bounds n) as MB.
  pose proof (year_of_mono (monday_of n) n ltac:(lia)).
  split; [|lia].
  destruct (Z_le_gt_dec 100 (year_of (monday_of n))) as [L|G]; [exact L|].
  pose proof (YearFromDay_spec (monday_of n)) as S1. fold (year_of (monday_of n)) in S1.
  pose proof (YearFromDay_spec n) as S2. fold (year_of n) in S2.
  pose proof (DayFromYear_mono (year_of (monday_of n) + 1) 100 ltac:(lia)).
  pose proof (DayFromYear_mono 1000 (year_of n) ltac:(lia)).
  replace (DayFromYear 100) with (-683003) in * by reflexivity.
  replace (DayFromYear 1000) with (-354285) in * by reflexivity.
  lia.
Qed.

(** What the three frequencies do to a well-formed date text. *)
Lemma normalize_daily m d y :
  1 <= m <= 12 -> 1 <= d <= DaysInMonth y (m - 1) -> 100 <= y <= 9999 ->
  normalize (fmt_date m d y) DAILY = fmt_date m d y.
Proof.
  intros Hm Hd Hy. unfold normalizeDateByFrequency.
  rewrite parse_canonical, format_midnight by assumption.
  apply fmt_day_MakeDay; assumption.
Qed.

Lemma normalize_weekly m d y :
  1 <= m <= 12 -> 1 <= d <= DaysInMonth y (m - 1) -> 100 <= y <= 9999 ->
  100 <= year_of (monday_of (MakeDay y (m - 1) d)) ->
  normalize (fmt_date m d y) WEEKLY = fmt_day (monday_of (MakeDay y (m - 1) d)).
Proof.
  intros Hm Hd Hy Hw. unfold normalizeDateByFrequency.
  rewrite parse_canonical by assumption.
  rewrite getMonday_midnight, format_midnight; [reflexivity|].
  split; [exact Hw|].
  destruct (fields_MakeDay y (m - 1) d ltac:(lia) Hd) as (Ey & _ & _).
  pose proof (monday_of_bounds (MakeDay y (m - 1) d)).
  pose proof (year_of_mono (monday_of (MakeDay y (m - 1) d)) (MakeDay y (m - 1) d) ltac:(lia)).
  lia.
Qed.

Lemma normalize_monthly m d y :
  1 <= m <= 12 -> 1 <= d <= DaysInMonth y (m - 1) -> 100 <= y <= 9999 ->
  normalize (fmt_date m d y) MONTHLY = fmt_date m 1 y.
Proof.
  intros Hm Hd Hy. unfold normalizeDateByFrequency.
  rewrite parse_canonical by assumption.
  destruct (local_fields_midnight (MakeDay y (m - 1) d)) as (-> & -> & _ & _).
  destruct (fields_MakeDay y (m - 1) d ltac:(lia) Hd) as (-> & -> & _).
  assert (H1 : 1 <= 1 <= DaysInMonth y (m - 1)) by lia.
  destruct (fields_MakeDay y (m - 1) 1 ltac:(lia) H1) as (Ey & _ & _).
  rewrite Date_of_fields_midnight, format_midnight by lia.
  apply fmt_day_MakeDay; assumption.
Qed.

Lemma normalize_day_weekly n :
  100 <= year_of n <= 9999 -> weekday_of n = 1 ->
  normalize (fmt_day n) WEEKLY = fmt_day n.
Proof.
  intros Hy Hw.
  pose proof (month_of_range n) as Hm. pose proof (date_of_range n) as Hd.
  assert (E : MakeDay (year_of n) (month_of n + 1 - 1) (date_of n) = n).
  { replace (month_of n + 1 - 1) with (month_of n) by lia. apply MakeDay_date. }
  unfold fmt_day at 1.
  rewrite normalize_weekly.
  - rewrite E, monday_of_monday by exact Hw. reflexivity.
  - lia.
  - replace (month_of n + 1 - 1) with (month_of n) by lia. exact Hd.
  - exact Hy.
  - rewrite E, monday_of_monday by exact Hw. lia.
Qed.

End Normalizer.

End DateNormalizer.

(** ** Summary generator *)

Module SummaryGenerator.

Import Js Vocabulary.
Local Open Scope string_scope.

Lemma append_cons c p s : String c p ++ s = String c (p ++ s).
Proof. reflexivity. Qed.

Lemma append_nil s : "" ++ s = s.
Proof. reflexivity. Qed.

Lemma prefix_app p s : String.prefix p (p ++ s) = true.
Proof.
  induction p as [|c p IH]; simpl; [destruct s; reflexivity|].
  destruct (ascii_dec c c); [exact IH|congruence].
Qed.

Lemma prefix_inv p : forall s, String.prefix p s = true -> s = p ++ drop (String.length p) s.
Proof.
  induction p as [|c p IH]; intros s H; simpl.
  - destruct s; reflexivity.
  - destruct s as [|c' s]; simpl in H; [discriminate|].
    destruct (ascii_dec c c'); [|discriminate]. subst c'. rewrite append_cons. f_equal. apply IH, H.
Qed.

Lemma split_at_first_eq pat s :
  split_at_first pat s
  = if String.prefix pat s then Some ("", drop (String.length pat) s)
    else match s with
         | EmptyString => None
         | String c s' =>
             match split_at_first pat s' with
             | Some (b, a) => Some (String c b, a)
             | None => None
             end
         end.
Proof. destruct s; reflexivity. Qed.

(** [split_at_first] finds an occurrence, and the first one. *)
Lemma split_at_first_sound pat : forall s b a,
  split_at_first pat s = Some (b, a) -> s = b ++ pat ++ a.
Proof.
  induction s as [|c s IH]; intros b a H; rewrite split_at_first_eq in H.
  - destruct (String.prefix pat "") eqn:P; [|discriminate].
    inversion H; subst. rewrite append_nil. apply prefix_inv, P.
  - destruct (String.prefix pat (String c s)) eqn:P.
    + inversion H; subst. rewrite append_nil. apply prefix_inv, P.
    + destruct (split_at_first pat s) as [[b' a']|] eqn:E; [|discriminate].
      inversion H; subst. rewrite append_cons. f_equal. apply IH. reflexivity.
Qed.

Lemma split_at_first_first pat : forall s b a b' a',
  split_at_first pat s = Some (b, a) -> s = b' ++ pat ++ a' ->
  (String.length b <= String.length b')%nat.
Proof.
  induction s as [|c s IH]; intros b a b' a' H E; rewrite split_at_first_eq in H.
  - destruct (String.prefix pat ""); [|discriminate].
    inversion H; subst. simpl. lia.
  - destruct (String.prefix pat (String c s)) eqn:P.
    + inversion H; subst. simpl. lia.
    + destruct (split_at_first pat s) as [[b0 a0]|] eqn:E0; [|discriminate].
      inversion H; subst. destruct b' as [|c' b'].
      * rewrite append_nil in E. rewrite E, prefix_app in P. discriminate.
      * rewrite append_cons in E. inversion E; subst. simpl.
        specialize (IH b0 a b' a' eq_refl eq_refl). lia.
Qed.

Lemma split_at_first_none pat : forall s b a,
  split_at_first pat s = None -> s <> b ++ pat ++ a.
Proof.
  induction s as [|c s IH]; intros b a H E; rewrite split_at_first_eq in H.
  - destruct (String.prefix pat "") eqn:P; [discriminate|].
    destruct b; [|rewrite append_cons in E; discriminate].
    rewrite append_nil in E. rewrite E, prefix_app in P. discriminate.
  - destruct (String.prefix pat (String c s)) eqn:P; [discriminate|].
    destruct (split_at_first pat s) as [[b0 a0]|] eqn:E0; [discriminate|].
    destruct b as [|c' b].
    + rewrite append_nil in E. rewrite E, prefix_app in P. discriminate.
    + rewrite append_cons in E. inversion E; subst. eapply IH; eauto.
Qed.

(** A replacement text without a dollar sign is inserted as it is. *)
Lemma GetSubstitution_no_dollar m b a r :
  no_dollar r = true -> GetSubstitution m b a r = r.
Proof.
  induction r as [|c r IH]; simpl; intros H; [reflexivity|].
  apply andb_prop in H as [Hc Hr]. apply negb_true_iff in Hc. rewrite Hc.
  f_equal. apply IH, Hr.
Qed.

Section Generator.

Variable StringToNumber : string -> float.
Variable Number_toString : float -> string.

Local Abbreviation summary := (generateSummary StringToNumber Number_toString).

Lemma generateSummary_rendered template answer :
  template <> "" -> answer <> "" ->
  summary template answer
  = option_map (replace template "{{answer}}")
      (rendered StringToNumber Number_toString answer).
Proof.
  intros Ht Ha. unfold generateSummary, rendered.
  destruct (String.eqb_spec template ""); [congruence|].
  destruct (String.eqb_spec answer ""); [congruence|]. simpl.
  destruct (startsWith answer "[" || startsWith answer "{"); [|reflexivity].
  destruct (JSON_parse StringToNumber answer) as [[]|]; reflexivity.
Qed.

Lemma generateSummary_null template answer :
  summary template answer = None
  <-> template = "" \/ answer = ""
      \/ rendered StringToNumber Number_toString answer = None.
Proof.
  destruct (String.eqb_spec template "") as [->|Ht].
  { split; [auto|reflexivity]. }
  destruct (String.eqb_spec answer "") as [->|Ha].
  { split; [auto|]. intros _. unfold generateSummary. rewrite orb_true_r. reflexivity. }
  rewrite generateSummary_rendered by assumption.
  destruct (rendered StringToNumber Number_toString answer); simpl; split; auto.
  - discriminate.
  - intros [H|[H|H]]; [contradiction|contradiction|discriminate].
Qed.

(** The text of a value cannot be made exactly when the value holds an
    object with a member named [toString]. *)
Lemma ToString_throws v :
  ToString Number_toString v = None <-> holds_own_toString v = true.
Proof.
  revert v. fix IH 1. intros [| |[]|x|s|l|members]; try (split; discriminate).
  - cbn [ToString holds_own_toString]. revert l. fix IHl 1. intros [|x t].
    + split; discriminate.
    + specialize (IHl t). pose proof (IH x) as Hx.
      assert (E : match x with
                  | JUndefined | JNull => Some ""
                  | _ => ToString Number_toString x
                  end = None <-> holds_own_toString x = true).
      { destruct x; try exact Hx; split; discriminate. }
      clear Hx. destruct t as [|y t'].
      * rewrite orb_false_r. exact E.
      * destruct (match x with
                  | JUndefined | JNull => Some ""
                  | _ => ToString Number_toString x
                  end) as [a|].
        -- destruct (holds_own_toString x);
             [exfalso; destruct E as [_ E]; discriminate (E eq_refl)|].
           cbn [orb]. rewrite <- IHl.
           match goal with
           | |- match ?e with Some _ => _ | None => _ end = None <-> ?e' = None =>
               change e' with e; destruct e; split; congruence
           end.
        -- destruct E as [E _]. rewrite (E eq_refl). split; reflexivity.
  - cbn [ToString holds_own_toString].
    destruct (has_own members "toString"); split; congruence.
Qed.

Lemma element_texts_throws l :
  element_texts Number_toString l = None
  <-> holds_own_toString (JArr l) = true.
Proof.
  cbn [holds_own_toString]. induction l as [|x t IH]; [split; discriminate|].
  cbn [element_texts].
  assert (E : match x with
              | JUndefined | JNull => Some ""
              | _ => ToString Number_toString x
              end = None <-> holds_own_toString x = true).
  { destruct x; try apply ToString_throws; split; discriminate. }
  destruct (match x with
            | JUndefined | JNull => Some ""
            | _ => ToString Number_toString x
            end) as [a|].
  - destruct (holds_own_toString x);
      [exfalso; destruct E as [_ E]; discriminate (E eq_refl)|].
    cbn [orb]. rewrite <- IH.
    destruct (element_texts Number_toString t); split; congruence.
  - destruct E as [E _]. rewrite (E eq_refl). split; reflexivity.
Qed.

(** Rendering fails exactly on an answer that is read as JSON and holds
    an object with a member named [toString]. *)
Lemma rendered_throws answer :
  rendered StringToNumber Number_toString answer = None
  <-> startsWith answer "[" || startsWith answer "{" = true
      /\ exists v, JSON_parse StringToNumber answer = Some v
                   /\ holds_own_toString v = true.
Proof.
  unfold rendered.
  destruct (startsWith answer "[" || startsWith answer "{").
  2:{ split; [discriminate|intros [H _]; discriminate H]. }
  destruct (JSON_parse StringToNumber answer) as [v|].
  2:{ split; [discriminate|intros (_ & v & H & _); discriminate H]. }
  assert (E : match v with
              | JArr l => Array_join Number_toString l ", "
              | _ => ToString Number_toString v
              end = None <-> holds_own_toString v = true).
  { destruct v; try apply ToString_throws.
    unfold Array_join. rewrite <- element_texts_throws.
    destruct (element_texts Number_toString l); split; simpl; congruence. }
  split.
  - intros H. split; [reflexivity|]. exists v. split; [reflexivity|]. apply E.
    destruct v; exact H.
  - intros (_ & v' & Hv & Hh). injection Hv as <-. apply E in Hh.
    destruct v; exact Hh.
Qed.

Lemma app_same_length b : forall b0 x y,
  b ++ x = b0 ++ y -> String.length b = String.length b0 -> b = b0 /\ x = y.
Proof.
  induction b as [|c b IH]; intros [|c0 b0] x y E L; try discriminate L.
  - rewrite !append_nil in E. auto.
  - rewrite !append_cons in E. inversion E; subst.
    destruct (IH b0 x y H1) as [-> ->]; [simpl in L; lia|]. auto.
Qed.

Lemma append_inv_head p : forall x y, p ++ x = p ++ y -> x = y.
Proof.
  induction p as [|c p IH]; intros x y E.
  - rewrite !append_nil in E. exact E.
  - rewrite !append_cons in E. inversion E. auto.
Qed.

(** The first occurrence of the pattern, described by what stands before
    and after it, is the one [split_at_first] finds. *)
Lemma split_at_first_complete pat s b a :
  s = b ++ pat ++ a ->
  (forall b' a', s = b' ++ pat ++ a' -> (String.length b <= String.length b')%nat) ->
  split_at_first pat s = Some (b, a).
Proof.
  intros E Hmin.
  destruct (split_at_first pat s) as [[b0 a0]|] eqn:S.
  - pose proof (split_at_first_sound _ _ _ _ S) as E0.
    pose proof (split_at_first_first _ _ _ _ b a S E) as L1.
    pose proof (Hmin b0 a0 E0) as L2.
    rewrite E in E0.
    destruct (app_same_length b b0 _ _ E0 ltac:(lia)) as [-> E1].
    apply append_inv_head in E1. subst. reflexivity.
  - exfalso. eapply split_at_first_none; eauto.
Qed.

End Generator.

(** C5, as stated, fails: an answer that starts like an array but is not
    valid JSON is not a failure of the generator; it is taken as a plain
    text and substituted.  And a text with a dollar sign is not inserted as
    it is: [$&] stands for the placeholder that was matched. *)
Lemma generateSummary_parse_failure_not_null :
  generateSummary no_numbers zero_text "You answered: {{answer}}" "[abc"
  = Some "You answered: [abc"
  /\ generateSummary no_numbers zero_text "You answered: {{answer}}" "[abc" <> None
  /\ JSON_parse no_numbers "[abc" = None
  /\ generateSummary no_numbers zero_text "You answered: {{answer}}" "$&"
     = Some "You answered: {{answer}}".
Proof. repeat split; try discriminate; vm_compute; reflexivity. Qed.

(** C5, amended: with the template [You answered: {{answer}}] the answer
    [["a","b"]] gives [You answered: a, b].  The result is null exactly
    when the template or the answer is empty or the text of the answer
    cannot be made, which is exactly when the answer is read as JSON and
    holds an object with a member named [toString], itself or within its
    arrays.  Otherwise the first occurrence of the placeholder, and only
    that one, is replaced by the rendered answer when this holds no dollar
    sign, where an array answer is rendered as its elements joined by a
    comma and a blank, and an answer that is not bracketed or is not valid
    JSON is rendered as the answer itself. *)
Theorem generateSummary_behaviour StringToNumber Number_toString :
  generateSummary StringToNumber Number_toString
    "You answered: {{answer}}" (dq "['a','b']") = Some "You answered: a, b"
  /\ (forall template answer,
        generateSummary StringToNumber Number_toString template answer = None
        <-> template = "" \/ answer = ""
            \/ rendered StringToNumber Number_toString answer = None)
  /\ (forall answer,
        rendered StringToNumber Number_toString answer = None
        <-> startsWith answer "[" || startsWith answer "{" = true
            /\ exists v, JSON_parse StringToNumber answer = Some v
                         /\ holds_own_toString v = true)
  /\ (forall template answer text before after,
        answer <> "" ->
        template = before ++ "{{answer}}" ++ after ->
        (forall b' a', template = b' ++ "{{answer}}" ++ a' ->
                       (String.length before <= String.length b')%nat) ->
        rendered StringToNumber Number_toString answer = Some text ->
        no_dollar text = true ->
        generateSummary StringToNumber Number_toString template answer
        = Some (before ++ text ++ after))
  /\ (forall answer,
        startsWith answer "[" || startsWith answer "{" = false
        \/ JSON_parse StringToNumber answer = None ->
        rendered StringToNumber Number_toString answer = Some answer)
  /\ (forall answer l,
        startsWith answer "[" || startsWith answer "{" = true ->
        JSON_parse StringToNumber answer = Some (JArr l) ->
        rendered StringToNumber Number_toString answer
        = Array_join Number_toString l ", ").
Proof.
  split; [vm_compute; reflexivity|].
  split; [apply generateSummary_null|].
  split; [apply rendered_throws|].
  split; [|split].
  - intros template answer text b a Ha E Hmin R Hd.
    assert (Ht : template <> "").
    { rewrite E. destruct b; [rewrite append_nil|rewrite append_cons]; discriminate. }
    rewrite generateSummary_rendered, R by assumption. cbn [option_map].
    unfold replace. rewrite (split_at_first_complete _ _ b a E Hmin).
    rewrite GetSubstitution_no_dollar by exact Hd. reflexivity.
  - intros answer [H|H]; unfold rendered; rewrite H; [reflexivity|].
    destruct (startsWith answer "[" || startsWith answer "{"); reflexivity.
  - intros answer l H P. unfold rendered. rewrite H, P. reflexivity.
Qed.

Lemma generateSummary_behaviour_witness :
  generateSummary no_numbers zero_text "Dose: {{answer}} mg, not {{answer}}" "20"
  = Some "Dose: 20 mg, not {{answer}}".
Proof.
  destruct (generateSummary_behaviour no_numbers zero_text) as (_ & _ & _ & H & _ & _).
  rewrite (H "Dose: {{answer}} mg, not {{answer}}" "20" "20" "Dose: "
             " mg, not {{answer}}").
  - reflexivity.
  - discriminate.
  - reflexivity.
  - intros b' a' E.
    apply (split_at_first_first "{{answer}}" "Dose: {{answer}} mg, not {{answer}}"
             "Dose: " " mg, not {{answer}}" b' a'); [reflexivity | exact E].
  - reflexivity.
  - reflexivity.
Defined.

End SummaryGenerator.

(** ** Visibility evaluator *)

Module Visibility.

Import Js Vocabulary.
Local Open Scope string_scope.

Section Evaluator.

Variable StringToNumber : string -> float.
Variable Number_toString : float -> string.

Local Abbreviation visible := (isQuestionVisible StringToNumber Number_toString).
Local Abbreviation verdict := (condition_verdict StringToNumber Number_toString).

Lemma visible_without_condition fuel q answers allQuestions allOptions cache :
  cache_get cache (q_id q) = None ->
  no_parent q || no_condition q = true ->
  visible (S fuel) q answers allQuestions allOptions cache
  = Some (true, cache_set cache (q_id q) true).
Proof. intros Hc Hn. simpl. rewrite Hc, Hn. reflexivity. Qed.

Lemma visible_step fuel q answers allQuestions allOptions cache :
  cache_get cache (q_id q) = None ->
  no_parent q = false -> no_condition q = false ->
  visible (S fuel) q answers allQuestions allOptions cache
  = match parent_of allQuestions q with
    | Some p =>
        match visible fuel p answers allQuestions allOptions cache with
        | None => None
        | Some (false, c) => Some (false, cache_set c (q_id q) false)
        | Some (true, c) =>
            Some (condition_result StringToNumber Number_toString q answers allQuestions allOptions,
                  cache_set c (q_id q) (condition_result StringToNumber Number_toString q answers allQuestions allOptions))
        end
    | None =>
        Some (condition_result StringToNumber Number_toString q answers allQuestions allOptions,
              cache_set cache (q_id q) (condition_result StringToNumber Number_toString q answers allQuestions allOptions))
    end.
Proof.
  intros Hc Hp Hd. simpl. rewrite Hc, Hp, Hd. simpl.
  unfold condition_result, parent_of.
  destruct allQuestions as [qs|]; [|reflexivity].
  destruct (find _ qs) as [p|]; [|reflexivity].
  destruct (isQuestionVisible _ _ fuel p answers (Some qs) allOptions cache)
    as [[[] c]|]; reflexivity.
Qed.

Lemma hidden_parent_hides fuel q p answers allQuestions allOptions cache c :
  cache_get cache (q_id q) = None ->
  no_parent q = false -> no_condition q = false ->
  parent_of allQuestions q = Some p ->
  visible fuel p answers allQuestions allOptions cache = Some (false, c) ->
  visible (S fuel) q answers allQuestions allOptions cache
  = Some (false, cache_set c (q_id q) false).
Proof.
  intros Hc Hp Hd Hf Hv. rewrite visible_step by assumption.
  rewrite Hf, Hv. reflexivity.
Qed.

Lemma hidden_ancestor_hides fuel q0 q n answers allQuestions allOptions cache c0 :
  descends allQuestions cache q0 q n ->
  visible fuel q0 answers allQuestions allOptions cache = Some (false, c0) ->
  exists c, visible (fuel + n) q answers allQuestions allOptions cache = Some (false, c).
Proof.
  intros D H0. induction D as [|p q n D IH Hp Hd Hf Hc].
  - exists c0. rewrite Nat.add_0_r. exact H0.
  - destruct IH as [c Hv]. exists (cache_set c (q_id q) false).
    rewrite Nat.add_succ_r. eapply hidden_parent_hides; eauto.
Qed.

End Evaluator.

End Visibility.

Module VisibilityClaims.

Import Js Vocabulary Visibility.
Local Open Scope string_scope.
Local Open Scope Z_scope.




Lemma condition_present StringToNumber q dc v :
  q_display_condition q = Some dc -> JSON_parse StringToNumber dc = Some v ->
  no_condition q = false.
Proof.
  intros Hd Hp. unfold no_condition. rewrite Hd.
  destruct (String.eqb_spec dc ""); [subst dc; discriminate Hp | reflexivity].
Qed.

Lemma visible_under_visible_parent StringToNumber Number_toString
    fuel q answers allQuestions allOptions cache :
  cache_get cache (q_id q) = None ->
  no_parent q = false -> no_condition q = false ->
  (parent_of allQuestions q = None
   \/ exists p c, parent_of allQuestions q = Some p
        /\ isQuestionVisible StringToNumber Number_toString fuel p answers
             allQuestions allOptions cache = Some (true, c)) ->
  exists c, isQuestionVisible StringToNumber Number_toString (S fuel) q answers
              allQuestions allOptions cache
            = Some (condition_result StringToNumber Number_toString q answers
                      allQuestions allOptions, c).
Proof.
  intros Hc Hp Hd [Hn|(p & c & Hf & Hv)]; rewrite visible_step by assumption.
  - rewrite Hn. eexists; reflexivity.
  - rewrite Hf, Hv. eexists; reflexivity.
Qed.

(** C8, as stated, fails: question 5 asks that its parent, question 2, be
    answered, and question 2 holds the answer [yes]; but question 2 is
    itself hidden, so question 5 is not visible. *)
Lemma answered_parent_hidden_child :
  response_exists (parse_answer no_numbers zero_text (default JUndefined (answers_no !! 2)))
  = true
  /\ verdict_of (isQuestionVisible no_numbers zero_text 5 q2 answers_no
                   (Some questionnaire) (Some []) (Some ∅)) = Some false
  /\ verdict_of (isQuestionVisible no_numbers zero_text 5 q5 answers_no
                   (Some questionnaire) (Some []) (Some ∅)) = Some false.
Proof. repeat split; vm_compute; reflexivity. Qed.

(** C8, amended: for a question that has a parent and whose display
    condition holds [parent_response_exists: true], evaluated without a
    memoised verdict and with its parent visible (or not among the
    questions passed in), the verdict is true exactly when the parent's
    parsed answer is none of [undefined], [null], the empty text and the
    empty array; the answer [[]] makes it false and the answer [yes] makes
    it true. *)
Theorem parent_response_exists_visibility StringToNumber Number_toString
    fuel q dc cond answers allQuestions allOptions cache :
  cache_get cache (q_id q) = None ->
  no_parent q = false ->
  q_display_condition q = Some dc ->
  JSON_parse StringToNumber dc = Some cond ->
  get_property cond QuestionCondition.PARENT_RES_EXISTS = Some (JBool true) ->
  (parent_of allQuestions q = None
   \/ exists p c, parent_of allQuestions q = Some p
        /\ isQuestionVisible StringToNumber Number_toString fuel p answers
             allQuestions allOptions cache = Some (true, c)) ->
  let parsed :=
    parse_answer StringToNumber Number_toString
      (default JUndefined (answers !! default 0 (q_parent_question_id q))) in
  (exists c, isQuestionVisible StringToNumber Number_toString (S fuel) q answers
               allQuestions allOptions cache = Some (response_exists parsed, c))
  /\ (response_exists parsed = true
      <-> parsed <> JUndefined /\ parsed <> JNull /\ parsed <> JStr ""
          /\ parsed <> JArr [])
  /\ response_exists (parse_answer StringToNumber Number_toString (JStr "[]")) = false
  /\ response_exists (parse_answer StringToNumber Number_toString (JStr "yes")) = true.
Proof.
  intros Hc Hp Hd Hj Hk Hv parsed.
  pose proof (condition_present _ _ _ _ Hd Hj) as Hn.
  split; [|split; [|split; vm_compute; reflexivity]].
  - destruct (visible_under_visible_parent StringToNumber Number_toString fuel q
                answers allQuestions allOptions cache Hc Hp Hn Hv) as [c E].
    exists c. rewrite E. f_equal. f_equal.
    unfold condition_result, condition_verdict. rewrite Hd. simpl default.
    rewrite Hj, Hk. reflexivity.
  - destruct parsed as [| | | |s|l|]; simpl; split; try intuition congruence.
    + intros H. destruct (String.eqb_spec s ""); [discriminate|].
      repeat split; congruence.
    + intros (_ & _ & H & _). destruct (String.eqb_spec s ""); [congruence|reflexivity].
    + intros H. destruct l; [discriminate|]. repeat split; congruence.
    + intros (_ & _ & _ & H). destruct l; [congruence|reflexivity].
Qed.

Lemma parent_response_exists_visibility_witness :
  (exists c, isQuestionVisible no_numbers zero_text 6 q5 (answers_yes "yes")
               (Some questionnaire) (Some []) (Some ∅) = Some (true, c))
  /\ (exists c, isQuestionVisible no_numbers zero_text 6 q5 (answers_yes "[]")
                  (Some questionnaire) (Some []) (Some ∅) = Some (false, c)).
Proof.
  split.
  - refine (proj1 (parent_response_exists_visibility no_numbers zero_text 5 q5
              (dq "{'parent_response_exists': true}")
              (JObj [("parent_response_exists", JBool true)])
              (answers_yes "yes") (Some questionnaire) (Some []) (Some ∅)
              eq_refl eq_refl eq_refl eq_refl eq_refl _)).
    right. exists q2. eexists. split; [reflexivity|]. vm_compute. reflexivity.
  - refine (proj1 (parent_response_exists_visibility no_numbers zero_text 5 q5
              (dq "{'parent_response_exists': true}")
              (JObj [("parent_response_exists", JBool true)])
              (answers_yes "[]") (Some questionnaire) (Some []) (Some ∅)
              eq_refl eq_refl eq_refl eq_refl eq_refl _)).
    right. exists q2. eexists. split; [reflexivity|]. vm_compute. reflexivity.
Defined.

(** C9, as stated, fails: question 6 has a parent, question 1, which is
    visible, and a display condition that is not valid JSON; but the memo
    table passed in holds the verdict false for question 6, and that is
    what the evaluation returns, without reading the condition. *)
Lemma memoised_verdict_before_condition :
  q_display_condition q6 = Some "{eq: yes"
  /\ JSON_parse no_numbers "{eq: yes" = None
  /\ parent_of (Some questionnaire) q6 = Some q1
  /\ verdict_of (isQuestionVisible no_numbers zero_text 6 q1 answers_no
                   (Some questionnaire) (Some []) (Some (<[6 := false]> ∅))) = Some true
  /\ isQuestionVisible no_numbers zero_text 6 q6 answers_no
       (Some questionnaire) (Some []) (Some (<[6 := false]> ∅))
     = Some (false, Some (<[6 := false]> ∅)).
Proof. repeat split; vm_compute; reflexivity. Qed.

(** C9, amended: a question with a parent whose display condition is not
    valid JSON, evaluated without a memoised verdict for it and with its
    parent visible (or not among the questions passed in), is visible: the
    evaluation returns true and raises nothing. *)
Theorem invalid_condition_fails_open StringToNumber Number_toString
    fuel q dc answers allQuestions allOptions cache :
  cache_get cache (q_id q) = None ->
  no_parent q = false ->
  q_display_condition q = Some dc ->
  JSON_parse StringToNumber dc = None ->
  (parent_of allQuestions q = None
   \/ exists p c, parent_of allQuestions q = Some p
        /\ isQuestionVisible StringToNumber Number_toString fuel p answers
             allQuestions allOptions cache = Some (true, c)) ->
  exists c, isQuestionVisible StringToNumber Number_toString (S fuel) q answers
              allQuestions allOptions cache = Some (true, c).
Proof.
  intros Hc Hp Hd Hj Hv.
  destruct (no_condition q) eqn:Hn.
  - eexists. apply visible_without_condition; [exact Hc|].
    rewrite Hn. apply orb_true_r.
  - destruct (visible_under_visible_parent StringToNumber Number_toString fuel q
                answers allQuestions allOptions cache Hc Hp Hn Hv) as [c E].
    exists c. rewrite E. f_equal. f_equal.
    unfold condition_result, condition_verdict. rewrite Hd. simpl default.
    rewrite Hj. reflexivity.
Qed.

Lemma invalid_condition_fails_open_witness :
  exists c, isQuestionVisible no_numbers zero_text 6 q6 answers_no
              (Some questionnaire) (Some []) (Some ∅) = Some (true, c).
Proof.
  refine (invalid_condition_fails_open no_numbers zero_text 5 q6 "{eq: yes" answers_no
            (Some questionnaire) (Some []) (Some ∅) eq_refl eq_refl eq_refl eq_refl _).
  right. exists q1. eexists. split; [reflexivity|]. vm_compute. reflexivity.
Defined.

End VisibilityClaims.

(** ** Subscription inferencer *)

Module Subscription.

Import Vocabulary.
Local Open Scope string_scope.
Local Open Scope Z_scope.

Lemma find_app_one {A} (P : A -> bool) l x :
  List.find P (l ++ [x])
  = match List.find P l with
    | Some e => Some e
    | None => if P x then Some x else None
    end.
Proof.
  induction l as [|a l IH]; simpl; [reflexivity|].
  destruct (P a); [reflexivity|exact IH].
Qed.

Lemma find_map_same {A} (P : A -> bool) (f : A -> A) l :
  (forall e, P (f e) = P e) ->
  List.find P (map f l) = option_map f (List.find P l).
Proof.
  intros H. induction l as [|a l IH]; simpl; [reflexivity|].
  rewrite H. destruct (P a); [reflexivity|exact IH].
Qed.

Lemma fresh_id_above ids x : In x ids -> x < fresh_id ids.
Proof.
  unfold fresh_id. induction ids as [|a ids IH]; simpl; intros H; [contradiction|].
  destruct H as [->|H]; [lia|]. specialize (IH H). lia.
Qed.

Lemma fresh_id_not_in ids : ~ In (fresh_id ids) ids.
Proof. intros H. apply fresh_id_above in H. lia. Qed.

Lemma fold_left_fixed {A B} (f : A -> B -> A) l a :
  (forall x, In x l -> f a x = a) -> fold_left f l a = a.
Proof.
  induction l as [|x l IH]; simpl; intros H; [reflexivity|].
  rewrite (H x) by auto. apply IH. intros y Hy. apply H. auto.
Qed.

Section Inference.

Variable tz : Z.
Variable Date_parse_other : string -> option Z.
Variable now : string.
Variable patientId : Z.
Variable patient : Patient.
Variable date : string.

Local Abbreviation step := (ensure_entry tz Date_parse_other now patientId patient date).
Lemma entry_matches_update itemId pid d id sel up e :
  entry_matches itemId pid d
    (if entry_id e =? id then entry_with_selected e sel up else e)
  = entry_matches itemId pid d e.
Proof. destruct (entry_id e =? id); reflexivity. Qed.

Lemma step_settled w item : settled tz Date_parse_other patientId date w item -> step w item = w.
Proof.
  intros [H|(e & Hf & Hs)]; unfold ensure_entry.
  - rewrite H. reflexivity.
  - destruct (shouldCreateEntryForDate _ _ _ _); [|reflexivity]. simpl.
    rewrite Hf, Hs. reflexivity.
Qed.

Lemma step_settles w item : settled tz Date_parse_other patientId date (step w item) item.
Proof.
  unfold settled, ensure_entry.
  destruct (shouldCreateEntryForDate tz Date_parse_other date (snd item)) eqn:B;
    [|left; reflexivity].
  right. simpl.
  destruct (List.find _ (entries w)) as [e|] eqn:F.
  - destruct (entry_selected e =? 1) eqn:S; simpl.
    + exists e. split; [exact F|]. apply Z.eqb_eq, S.
    + unfold update_entry_by_id.
      rewrite find_map_same by (intros x; apply entry_matches_update).
      rewrite F. simpl. rewrite Z.eqb_refl. eexists; split; reflexivity.
  - unfold insert_entry. simpl. rewrite find_app_one, F.
    unfold entry_matches. simpl. rewrite !Z.eqb_refl, String.eqb_refl. simpl.
    eexists; split; reflexivity.
Qed.

Lemma step_keeps_settled w item other : settled tz Date_parse_other patientId date w other -> settled tz Date_parse_other patientId date (step w item) other.
Proof.
  intros [H|(e & Hf & Hs)]; [left; exact H|]. right.
  unfold ensure_entry.
  destruct (shouldCreateEntryForDate tz Date_parse_other date (snd item));
    [|exists e; auto]. simpl.
  destruct (List.find (entry_matches (fst item) patientId (normalizeDateByFrequency tz Date_parse_other date (snd item))) (entries w))
    as [x|] eqn:F.
  - destruct (entry_selected x =? 1); simpl; [exists e; auto|].
    unfold update_entry_by_id.
    rewrite find_map_same by (intros y; apply entry_matches_update).
    rewrite Hf. simpl.
    destruct (entry_id e =? entry_id x); eexists; split; try reflexivity; exact Hs.
  - unfold insert_entry. simpl. rewrite find_app_one, Hf. exists e; auto.
Qed.

Lemma fold_settles l : forall w,
  (forall x, In x l -> settled tz Date_parse_other patientId date (fold_left step l w) x)
  /\ (forall x, settled tz Date_parse_other patientId date w x -> settled tz Date_parse_other patientId date (fold_left step l w) x).
Proof.
  induction l as [|a l IH]; intros w; simpl.
  - split; [contradiction|auto].
  - destruct (IH (step w a)) as [IH1 IH2]. split.
    + intros x [<-|Hx]; [apply IH2, step_settles | apply IH1, Hx].
    + intros x Hx. apply IH2, step_keeps_settled, Hx.
Qed.

(** What a round leaves alone, and where a selected entry comes from. *)
Lemma step_frame w item :
  patients (step w item) = patients w /\ categories (step w item) = categories w
  /\ items (step w item) = items w /\ questions (step w item) = questions w
  /\ options (step w item) = options w /\ responses (step w item) = responses w
  /\ tick (step w item) = tick w.
Proof.
  unfold ensure_entry.
  destruct (negb _); [repeat split|].
  destruct (List.find _ (entries w)) as [x|]; [|repeat split].
  destruct (negb _); repeat split.
Qed.

Lemma step_unique w item : entry_ids_unique w -> entry_ids_unique (step w item).
Proof.
  unfold entry_ids_unique, ensure_entry. intros U.
  destruct (negb _); [exact U|].
  destruct (List.find _ (entries w)) as [x|].
  - destruct (negb _); [|exact U]. simpl. unfold update_entry_by_id.
    rewrite map_map.
    erewrite map_ext; [exact U|].
    intros e. simpl. destruct (entry_id e =? entry_id x); reflexivity.
  - unfold insert_entry. simpl. rewrite map_app. simpl.
    apply List.NoDup_app.
    + exact U.
    + constructor; [intros []|constructor].
    + intros y Hy [<-|[]]. revert Hy. apply fresh_id_not_in.
Qed.

Lemma step_selected_forward w item id :
  has_selected_entry w patientId id -> has_selected_entry (step w item) patientId id.
Proof.
  intros (e & He & Hi & Hp & Hs). unfold ensure_entry.
  destruct (negb _); [exists e; auto|].
  destruct (List.find _ (entries w)) as [x|].
  - destruct (negb _); [|exists e; auto]. simpl.
    exists (if entry_id e =? entry_id x then entry_with_selected e 1 now else e).
    split; [unfold update_entry_by_id; apply in_map_iff; eauto|].
    destruct (entry_id e =? entry_id x); simpl; auto.
  - exists e. split; [|auto]. unfold insert_entry. simpl. apply in_or_app. auto.
Qed.

Lemma step_selected_backward w item id :
  entry_ids_unique w -> has_selected_entry w patientId (fst item) ->
  has_selected_entry (step w item) patientId id ->
  has_selected_entry w patientId id.
Proof.
  intros U H0 (e & He & Hi & Hp & Hs). revert He. unfold ensure_entry.
  destruct (negb _); [intros He; exists e; auto|].
  destruct (List.find _ (entries w)) as [x|] eqn:F.
  - destruct (negb _); [|intros He; exists e; auto]. simpl.
    unfold update_entry_by_id. intros He. apply in_map_iff in He as (e0 & E & He0).
    destruct (entry_id e0 =? entry_id x) eqn:Q.
    + apply Z.eqb_eq in Q. apply find_some in F as [Hx Mx].
      assert (e0 = x).
      { unfold entry_ids_unique in U. clear - U He0 Hx Q.
        induction (entries w) as [|a l IH]; [contradiction|].
        simpl in U. inversion U as [|? ? Hn U']; subst.
        destruct He0 as [->|He0], Hx as [->|Hx]; auto.
        - exfalso. apply Hn. rewrite Q. apply in_map, Hx.
        - exfalso. apply Hn. rewrite <- Q. apply in_map, He0. }
      subst e0. subst e. simpl in Hi.
      unfold entry_matches in Mx.
      apply andb_prop in Mx as [Mx _]. apply andb_prop in Mx as [Mi _].
      apply Z.eqb_eq in Mi. rewrite Mi in Hi. subst id. exact H0.
    + subst e0. exists e. auto.
  - unfold insert_entry. simpl. intros He. apply in_app_or in He as [He|[<-|[]]].
    + exists e. auto.
    + simpl in Hi. subst id. exact H0.
Qed.

Lemma fold_frame l : forall w,
  entry_ids_unique w ->
  (forall x, In x l -> has_selected_entry w patientId (fst x)) ->
  patients (fold_left step l w) = patients w
  /\ categories (fold_left step l w) = categories w
  /\ items (fold_left step l w) = items w
  /\ (forall id, has_selected_entry (fold_left step l w) patientId id ->
                 has_selected_entry w patientId id).
Proof.
  induction l as [|a l IH]; intros w U H; simpl.
  - repeat split; auto.
  - destruct (step_frame w a) as (Ep & Ec & Ei & _).
    destruct (IH (step w a)) as (Fp & Fc & Fi & Fs).
    + apply step_unique, U.
    + intros x Hx. apply step_selected_forward, H. simpl. auto.
    + repeat split; try congruence.
      intros id Hid. apply (step_selected_backward w a id U).
      * apply H. simpl. auto.
      * apply Fs, Hid.
Qed.

End Inference.

(** The rows of the query, read off the tables. *)
Lemma subscribedItems_spec w patientId x :
  In x (subscribedItems w patientId)
  <-> exists ti tc,
        In ti (items w) /\ In tc (categories w)
        /\ cat_id tc = item_category_id ti
        /\ cat_status tc = "active" /\ item_status ti = "active"
        /\ x = (item_id ti, item_frequency ti)
        /\ has_selected_entry w patientId (item_id ti).
Proof.
  unfold subscribedItems. rewrite nodup_In, in_flat_map. split.
  - intros (ti & Hti & H). apply in_flat_map in H as (tc & Htc & H).
    apply in_flat_map in H as (tie & Htie & H).
    destruct (_ && _) eqn:C in H; [|contradiction].
    destruct H as [<-|[]].
    repeat (apply andb_prop in C as [C ?]).
    exists ti, tc. repeat split; auto.
    + apply Z.eqb_eq; assumption.
    + apply String.eqb_eq; assumption.
    + apply String.eqb_eq; assumption.
    + exists tie. repeat split; auto; apply Z.eqb_eq; assumption.
  - intros (ti & tc & Hti & Htc & E1 & E2 & E3 & -> & (tie & Htie & F1 & F2 & F3)).
    exists ti. split; [exact Hti|]. apply in_flat_map. exists tc. split; [exact Htc|].
    apply in_flat_map. exists tie. split; [exact Htie|].
    rewrite E1, F1, E2, E3, F2, F3, !Z.eqb_refl, !String.eqb_refl. simpl. auto.
Qed.

End Subscription.

Module SubscriptionClaims.

Import Vocabulary Subscription.
Local Open Scope string_scope.
Local Open Scope Z_scope.

(** C1: with unique entry ids, running the subscription inference again
    right after a run changes nothing in the store, so it inserts no entry
    and leaves every [selected] as it is; and a run for a patient without
    a row, or without subscribed items, writes nothing. *)
Theorem ensureSubscribedEntries_idempotent tz Date_parse_other now patientId date w :
  entry_ids_unique w ->
  ensureSubscribedEntries tz Date_parse_other now patientId date
    (ensureSubscribedEntries tz Date_parse_other now patientId date w)
  = ensureSubscribedEntries tz Date_parse_other now patientId date w
  /\ (subscribedItems w patientId = []
      \/ List.find (fun p => patient_id p =? patientId) (patients w) = None ->
      ensureSubscribedEntries tz Date_parse_other now patientId date w = w).
Proof.
  intros U. split.
  - destruct (subscribedItems w patientId) as [|s0 S1] eqn:ES.
    { unfold ensureSubscribedEntries. rewrite ES. rewrite ES. reflexivity. }
    destruct (List.find (fun p => patient_id p =? patientId) (patients w))
      as [patient|] eqn:EP.
    2:{ unfold ensureSubscribedEntries. rewrite ES, EP. rewrite ES, EP. reflexivity. }
    remember (s0 :: S1) as S eqn:HeqS.
    remember (fold_left (ensure_entry tz Date_parse_other now patientId patient date) S w)
      as w1 eqn:Hw1.
    assert (EW : ensureSubscribedEntries tz Date_parse_other now patientId date w = w1).
    { unfold ensureSubscribedEntries. rewrite ES, EP, HeqS, Hw1, HeqS. reflexivity. }
    rewrite EW.
    assert (HS : forall x, In x S -> has_selected_entry w patientId (fst x)).
    { intros x Hx. rewrite <- ES in Hx. apply subscribedItems_spec in Hx
        as (ti & tc & _ & _ & _ & _ & _ & -> & H). exact H. }
    destruct (fold_frame tz Date_parse_other now patientId patient date S w U HS)
      as (Fp & Fc & Fi & Fs). rewrite <- Hw1 in Fp, Fc, Fi, Fs.
    unfold ensureSubscribedEntries.
    destruct (subscribedItems w1 patientId) as [|t0 S2] eqn:ES2; [reflexivity|].
    rewrite Fp, EP. apply fold_left_fixed.
    intros x Hx. apply step_settled. rewrite Hw1.
    apply (proj1 (fold_settles tz Date_parse_other now patientId patient date S w)).
    rewrite <- ES2 in Hx. apply subscribedItems_spec in Hx
      as (ti & tc & Hti & Htc & E1 & E2 & E3 & -> & H).
    rewrite <- ES. apply subscribedItems_spec.
    exists ti, tc. rewrite Fi in Hti. rewrite Fc in Htc. repeat split; auto.
  - intros [H|H]; unfold ensureSubscribedEntries; rewrite H; [reflexivity|].
    destruct (subscribedItems w patientId); reflexivity.
Qed.

Lemma ensureSubscribedEntries_idempotent_witness :
  ensureSubscribedEntries 0 (fun _ => None) "t1" 7 "01-08-2024"
    (ensureSubscribedEntries 0 (fun _ => None) "t1" 7 "01-08-2024" clinic)
  = ensureSubscribedEntries 0 (fun _ => None) "t1" 7 "01-08-2024" clinic
  /\ List.length (entries (ensureSubscribedEntries 0 (fun _ => None) "t1" 7
                             "01-08-2024" clinic)) = 2%nat.
Proof.
  split.
  - refine (proj1 (ensureSubscribedEntries_idempotent 0 (fun _ => None) "t1" 7
                     "01-08-2024" clinic _)).
    unfold entry_ids_unique. simpl. constructor; [intros []|constructor].
  - vm_compute. reflexivity.
Defined.

End SubscriptionClaims.

(** ** Template rows *)

Module Templates.

Import Vocabulary.
Local Open Scope string_scope.
Local Open Scope Z_scope.

Lemma rows_kept_refl {A} (id : A -> Z) l : rows_kept id l l.
Proof. intros x H. exists x. auto. Qed.

Lemma rows_kept_trans {A} (id : A -> Z) l1 l2 l3 :
  rows_kept id l1 l2 -> rows_kept id l2 l3 -> rows_kept id l1 l3.
Proof.
  intros H1 H2 x Hx. destruct (H1 x Hx) as (y & Hy & Ey).
  destruct (H2 y Hy) as (z & Hz & Ez). exists z. split; [exact Hz|congruence].
Qed.

Lemma rows_kept_app {A} (id : A -> Z) l extra : rows_kept id l (l ++ extra).
Proof. intros x H. exists x. split; [apply in_or_app; auto|reflexivity]. Qed.

Lemma rows_kept_map {A} (id : A -> Z) (f : A -> A) l :
  (forall x, id (f x) = id x) -> rows_kept id l (map f l).
Proof. intros H x Hx. exists (f x). split; [apply in_map, Hx|apply H]. Qed.

Lemma templates_kept_refl w : templates_kept w w.
Proof. repeat split; apply rows_kept_refl. Qed.

Lemma templates_kept_trans w1 w2 w3 :
  templates_kept w1 w2 -> templates_kept w2 w3 -> templates_kept w1 w3.
Proof.
  intros (C1 & I1 & Q1) (C2 & I2 & Q2). repeat split.
  - congruence.
  - eapply rows_kept_trans; eauto.
  - eapply rows_kept_trans; eauto.
Qed.

(** A change that leaves categories, items and questions as they are. *)
Lemma templates_kept_same w w' :
  categories w' = categories w -> items w' = items w -> questions w' = questions w ->
  templates_kept w w'.
Proof. intros C I Q. repeat split; [exact C|rewrite I|rewrite Q]; apply rows_kept_refl. Qed.

Lemma options_kept_same ids w w' : options w' = options w -> options_kept_but ids w w'.
Proof. intros E o H. left. rewrite E. exact H. Qed.

Lemma options_kept_trans ids w1 w2 w3 :
  options_kept_but ids w1 w2 -> options_kept_but ids w2 w3 -> options_kept_but ids w1 w3.
Proof.
  intros H1 H2 o Ho. destruct (H1 o Ho) as [H|H]; [|right; exact H].
  apply H2, H.
Qed.

Lemma options_kept_weaken ids ids' w w' :
  incl ids ids' -> options_kept_but ids w w' -> options_kept_but ids' w w'.
Proof. intros I H o Ho. destruct (H o Ho) as [K|K]; [left; exact K|right; apply I, K]. Qed.

Lemma fold_left_kept {B} (R : World -> World -> Prop) (f : World -> B -> World) l :
  (forall w, R w w) -> (forall a c d, R a c -> R c d -> R a d) ->
  (forall w x, R w (f w x)) ->
  forall w, R w (fold_left f l w).
Proof.
  intros Hr Ht Hf. induction l as [|x l IH]; intros w; simpl; [apply Hr|].
  eapply Ht; [apply Hf|apply IH].
Qed.

Section Keeping.

Variable tz : Z.
Variable Date_parse_other : string -> option Z.
Variable now : string.
Variable getCurrentTimestamp : nat -> string.
Variable uuidv4 : nat -> string.
Variable Date_now : nat -> Z.
Variable random_base36 : nat -> string.

Lemma all_kept_refl w : all_kept w w.
Proof. split; [apply templates_kept_refl|apply options_kept_same; reflexivity]. Qed.

Lemma all_kept_trans a c d : all_kept a c -> all_kept c d -> all_kept a d.
Proof.
  intros [T1 O1] [T2 O2]. split.
  - eapply templates_kept_trans; eauto.
  - eapply options_kept_trans; eauto.
Qed.

Lemma all_kept_same w w' :
  categories w' = categories w -> items w' = items w -> questions w' = questions w ->
  options w' = options w -> all_kept w w'.
Proof.
  intros C I Q O. split; [apply templates_kept_same; auto|apply options_kept_same, O].
Qed.

Lemma insert_option_kept qid code text w :
  all_kept w (insert_option now qid code text w).
Proof.
  split; [apply templates_kept_same; reflexivity|].
  intros o H. left. unfold insert_option. simpl. apply in_or_app. auto.
Qed.

Lemma insert_question_kept itemId code text type required w :
  all_kept w (snd (insert_question now itemId code text type required w)).
Proof.
  split; [|apply options_kept_same; reflexivity].
  repeat split; simpl; [apply rows_kept_refl|apply rows_kept_app].
Qed.

Lemma step_kept patientId patient date w item :
  all_kept w (ensure_entry tz Date_parse_other now patientId patient date w item).
Proof.
  destruct (Subscription.step_frame tz Date_parse_other now patientId patient date w item)
    as (_ & C & I & Q & O & _).
  apply all_kept_same; assumption.
Qed.

Lemma ensureSubscribedEntries_kept patientId date w :
  all_kept w (ensureSubscribedEntries tz Date_parse_other now patientId date w).
Proof.
  unfold ensureSubscribedEntries.
  destruct (subscribedItems w patientId); [apply all_kept_refl|].
  destruct (List.find _ (patients w)); [|apply all_kept_refl].
  apply (fold_left_kept all_kept);
    [apply all_kept_refl | apply all_kept_trans | intros; apply step_kept].
Qed.

Lemma saveResponse_kept entryId questionId answer userId patientId w :
  all_kept w (saveResponse getCurrentTimestamp entryId questionId answer userId patientId w).
Proof.
  unfold saveResponse. destruct (List.find _ (responses w));
    apply all_kept_same; reflexivity.
Qed.

Lemma addOptionToQuestion_kept questionId label w :
  all_kept w (snd (addOptionToQuestion getCurrentTimestamp questionId label w)).
Proof.
  split; [apply templates_kept_same; reflexivity|].
  intros o H. left. simpl. apply in_or_app. auto.
Qed.

Lemma addTrackItemOnDate_kept itemId userId patientId date w :
  all_kept w (addTrackItemOnDate tz Date_parse_other now itemId userId patientId date w).
Proof.
  unfold addTrackItemOnDate. destruct (List.find _ (entries w));
    apply all_kept_same; reflexivity.
Qed.

Lemma removeTrackItemFromDate_kept itemId userId patientId date w :
  all_kept w (removeTrackItemFromDate now itemId userId patientId date w).
Proof. apply all_kept_same; reflexivity. Qed.

Lemma removeCustomGoal_kept trackItemId patientId w :
  all_kept w (removeCustomGoal now trackItemId patientId w).
Proof.
  split; [|apply options_kept_same; reflexivity].
  repeat split; simpl; [|apply rows_kept_refl].
  apply rows_kept_map. intros i. destruct (item_id i =? trackItemId); reflexivity.
Qed.

Lemma insert_options_kept {B} (code_of : World -> string * World)
    (text_of : B -> string) qid (l : list B) :
  (forall w, all_kept w (snd (code_of w))) ->
  forall w,
    all_kept w
      (fold_left (fun w opt => let '(code, w1) := code_of w in
                               insert_option now qid code (text_of opt) w1) l w).
Proof.
  intros H. apply (fold_left_kept all_kept); [apply all_kept_refl|apply all_kept_trans|].
  intros w x. specialize (H w). destruct (code_of w) as [code w1]. simpl in H.
  eapply all_kept_trans; [exact H|apply insert_option_kept].
Qed.

Lemma generateUniqueCode_kept w : all_kept w (snd (generateUniqueCode uuidv4 w)).
Proof. apply all_kept_same; reflexivity. Qed.

Lemma stamped_code_kept prefix w :
  all_kept w (snd (stamped_code Date_now random_base36 prefix w)).
Proof. apply all_kept_same; reflexivity. Qed.

Lemma add_goal_options_kept qid question w :
  all_kept w (add_goal_options now uuidv4 qid question w).
Proof.
  unfold add_goal_options.
  destruct (_ || _).
  - eapply all_kept_trans; [apply (generateUniqueCode_kept w)|]. simpl.
    eapply all_kept_trans; [apply insert_option_kept|].
    eapply all_kept_trans; [apply generateUniqueCode_kept|]. simpl.
    apply insert_option_kept.
  - destruct (_ || _); [|apply all_kept_refl].
    destruct (cgq_options question); [|apply all_kept_refl].
    apply (insert_options_kept (generateUniqueCode uuidv4) Js.trim).
    apply generateUniqueCode_kept.
Qed.

Lemma addCustomGoal_kept params w :
  all_kept w match addCustomGoal now uuidv4 params w with
             | Some (_, w') => w'
             | None => w
             end.
Proof.
  unfold addCustomGoal.
  destruct (List.find _ (categories w)); [|apply all_kept_refl]. simpl.
  eapply all_kept_trans.
  2:{ apply (fold_left_kept all_kept); [apply all_kept_refl|apply all_kept_trans|].
      intros w0 question.
      eapply all_kept_trans; [apply (generateUniqueCode_kept w0)|]. simpl.
      eapply all_kept_trans; [apply insert_question_kept|]. simpl.
      apply add_goal_options_kept. }
  split; [|apply options_kept_same; reflexivity].
  repeat split; simpl; [apply rows_kept_app|apply rows_kept_refl].
Qed.

Lemma insert_new_question_kept trackItemId q w :
  all_kept w (insert_new_question now Date_now random_base36 trackItemId q w).
Proof.
  unfold insert_new_question.
  eapply all_kept_trans; [apply (stamped_code_kept "Q" w)|]. simpl.
  eapply all_kept_trans; [apply insert_question_kept|]. simpl.
  destruct (qu_options q); [|apply all_kept_refl].
  apply (insert_options_kept (stamped_code Date_now random_base36 "RESP") Js.trim).
  apply stamped_code_kept.
Qed.

Lemma update_question_kept id q w :
  templates_kept w (update_question now uuidv4 id q w)
  /\ options_kept_but (match qu_options q with Some _ => [id] | None => [] end)
       w (update_question now uuidv4 id q w).
Proof.
  unfold update_question.
  set (w1 := set_questions w _).
  assert (K1 : templates_kept w w1).
  { repeat split; simpl; [apply rows_kept_refl|].
    apply rows_kept_map. intros x. destruct (q_id x =? id); reflexivity. }
  destruct (qu_options q) as [opts|].
  - set (w2 := set_options w1 _).
    pose proof (insert_options_kept (generateUniqueCode uuidv4) Js.trim id opts
                  generateUniqueCode_kept w2) as [T O].
    split.
    + eapply templates_kept_trans; [exact K1|].
      eapply templates_kept_trans; [|exact T].
      apply templates_kept_same; reflexivity.
    + intros o Ho. destruct (opt_question_id o =? id) eqn:E.
      * right. apply Z.eqb_eq in E. simpl. auto.
      * destruct (O o) as [H|[]]; [|left; exact H].
        simpl. apply filter_In. split; [exact Ho|]. rewrite E. reflexivity.
  - split; [exact K1|apply options_kept_same; reflexivity].
Qed.

Lemma edit_question_kept trackItemId w q :
  templates_kept w (edit_question now uuidv4 Date_now random_base36 trackItemId w q)
  /\ options_kept_but (replaced_questions [q]) w
       (edit_question now uuidv4 Date_now random_base36 trackItemId w q).
Proof.
  unfold edit_question, replaced_questions. simpl.
  destruct (qu_id q) as [id|].
  - destruct (id =? 0).
    + destruct (insert_new_question_kept trackItemId q w) as [T O].
      split; [exact T|]. eapply options_kept_weaken; [|exact O]. intros x [].
    + destruct (update_question_kept id q w) as [T O]. split; [exact T|].
      destruct (qu_options q); simpl; exact O.
  - destruct (insert_new_question_kept trackItemId q w) as [T O].
    split; [exact T|exact O].
Qed.

Lemma edit_questions_kept trackItemId qs : forall w,
  templates_kept w
    (fold_left (edit_question now uuidv4 Date_now random_base36 trackItemId) qs w)
  /\ options_kept_but (replaced_questions qs) w
       (fold_left (edit_question now uuidv4 Date_now random_base36 trackItemId) qs w).
Proof.
  induction qs as [|q qs IH]; intros w; simpl.
  - split; [apply templates_kept_refl|apply options_kept_same; reflexivity].
  - destruct (edit_question_kept trackItemId w q) as [T1 O1].
    destruct (IH (edit_question now uuidv4 Date_now random_base36 trackItemId w q))
      as [T2 O2].
    split; [eapply templates_kept_trans; eauto|].
    eapply options_kept_trans.
    + eapply options_kept_weaken; [|exact O1].
      unfold replaced_questions. simpl. rewrite app_nil_r.
      intros x Hx. apply in_or_app. left. exact Hx.
    + eapply options_kept_weaken; [|exact O2].
      intros x Hx. unfold replaced_questions. simpl. apply in_or_app. right. exact Hx.
Qed.

Lemma editCustomGoal_kept trackItemId updates w :
  templates_kept w
    (editCustomGoal now uuidv4 Date_now random_base36 trackItemId updates w)
  /\ options_kept_but (replaced_by (EditCustomGoal trackItemId updates)) w
       (editCustomGoal now uuidv4 Date_now random_base36 trackItemId updates w).
Proof.
  unfold editCustomGoal. simpl.
  set (w1 := match gu_name updates with Some _ => _ | None => _ end).
  assert (K : templates_kept w w1 /\ options w1 = options w).
  { unfold w1. destruct (gu_name updates) as [name|];
      [|split; [apply templates_kept_refl|reflexivity]].
    destruct (String.eqb name ""); [split; [apply templates_kept_refl|reflexivity]|].
    split; [|reflexivity]. repeat split; simpl; [|apply rows_kept_refl].
    apply rows_kept_map. intros i. destruct (item_id i =? trackItemId); reflexivity. }
  destruct K as [K1 K2].
  destruct (gu_questions updates) as [qs|].
  - destruct (edit_questions_kept trackItemId qs w1) as [T O].
    split; [eapply templates_kept_trans; eauto|].
    eapply options_kept_trans; [apply options_kept_same, K2|exact O].
  - split; [exact K1|apply options_kept_same, K2].
Qed.

End Keeping.

End Templates.

(** ** Timestamps of written rows *)

Module Timestamps.

Import Vocabulary.
Local Open Scope string_scope.
Local Open Scope Z_scope.

Section Written.

Context {A : Type} (stamp : string) (id : A -> Z) (created updated : A -> string).

Lemma written_refl l : written_with stamp id created updated l l.
Proof. intros x H. left. exact H. Qed.

Lemma written_trans l1 l2 l3 :
  written_with stamp id created updated l1 l2 ->
  written_with stamp id created updated l2 l3 ->
  written_with stamp id created updated l1 l3.
Proof.
  intros H1 H2 z Hz. destruct (H2 z Hz) as [H|(U & [C|(y & Hy & Iy & Cy)])].
  - apply H1, H.
  - right. split; [exact U|left; exact C].
  - right. split; [exact U|].
    destruct (H1 y Hy) as [H|(_ & [C|(x & Hx & Ix & Cx)])].
    + right. exists y. auto.
    + left. congruence.
    + right. exists x. repeat split; [exact Hx|congruence|congruence].
Qed.

Lemma written_app_new l x :
  created x = stamp -> updated x = stamp ->
  written_with stamp id created updated l (l ++ [x]).
Proof.
  intros C U y Hy. apply in_app_or in Hy as [H|[<-|[]]]; [left; exact H|].
  right. split; [exact U|left; exact C].
Qed.

Lemma written_map l (f : A -> A) :
  (forall x, f x = x \/ (updated (f x) = stamp /\ id (f x) = id x
                         /\ created (f x) = created x)) ->
  written_with stamp id created updated l (map f l).
Proof.
  intros H y Hy. apply in_map_iff in Hy as (x & <- & Hx).
  destruct (H x) as [E|(U & I & C)]; [left; rewrite E; exact Hx|].
  right. split; [exact U|]. right. exists x. repeat split; [exact Hx|congruence|congruence].
Qed.

Lemma written_filter l (p : A -> bool) :
  written_with stamp id created updated l (List.filter p l).
Proof. intros y Hy. apply filter_In in Hy as [H _]. left. exact H. Qed.

End Written.

Lemma stamped_refl stamp w : stamped_with stamp w w.
Proof. repeat split; apply written_refl. Qed.

Lemma stamped_trans stamp a c d :
  stamped_with stamp a c -> stamped_with stamp c d -> stamped_with stamp a d.
Proof.
  intros (I1 & E1 & Q1 & O1 & R1) (I2 & E2 & Q2 & O2 & R2).
  repeat split; try (eapply written_trans; eassumption). congruence.
Qed.

Lemma stamped_same stamp w w' :
  items w' = items w -> entries w' = entries w -> questions w' = questions w ->
  options w' = options w -> responses w' = responses w -> stamped_with stamp w w'.
Proof.
  intros I E Q O R. repeat split; [rewrite I|rewrite E|rewrite Q|rewrite O|exact R];
    apply written_refl.
Qed.

Section Stamping.

Variable tz : Z.
Variable Date_parse_other : string -> option Z.
Variable now : string.
Variable uuidv4 : nat -> string.
Variable Date_now : nat -> Z.
Variable random_base36 : nat -> string.

Local Abbreviation stamped := (stamped_with now).

Lemma stamped_entries w l :
  written_with now entry_id entry_created_date entry_updated_date (entries w) l ->
  stamped w (set_entries w l).
Proof. intros H. repeat split; simpl; try apply written_refl. exact H. Qed.

Lemma stamped_items w l :
  written_with now item_id item_created_date item_updated_date (items w) l ->
  stamped w (set_items w l).
Proof. intros H. repeat split; simpl; try apply written_refl. exact H. Qed.

Lemma stamped_questions w l :
  written_with now q_id q_created_date q_updated_date (questions w) l ->
  stamped w (set_questions w l).
Proof. intros H. repeat split; simpl; try apply written_refl. exact H. Qed.

Lemma stamped_options w l :
  written_with now opt_id opt_created_date opt_updated_date (options w) l ->
  stamped w (set_options w l).
Proof. intros H. repeat split; simpl; try apply written_refl. exact H. Qed.

Lemma update_entry_by_id_written id sel l :
  written_with now entry_id entry_created_date entry_updated_date l
    (update_entry_by_id id sel now l).
Proof.
  apply written_map. intros e. destruct (entry_id e =? id); [right|left]; auto.
Qed.

Lemma insert_entry_stamped w user pid iid date :
  stamped w (insert_entry now w user pid iid date).
Proof. apply stamped_entries, written_app_new; reflexivity. Qed.

Lemma insert_option_stamped qid code text w :
  stamped w (insert_option now qid code text w).
Proof. apply stamped_options, written_app_new; reflexivity. Qed.

Lemma insert_question_stamped itemId code text type required w :
  stamped w (snd (insert_question now itemId code text type required w)).
Proof. apply stamped_questions, written_app_new; reflexivity. Qed.

Lemma generateUniqueCode_stamped w : stamped w (snd (generateUniqueCode uuidv4 w)).
Proof. apply stamped_same; reflexivity. Qed.

Lemma stamped_code_stamped prefix w :
  stamped w (snd (stamped_code Date_now random_base36 prefix w)).
Proof. apply stamped_same; reflexivity. Qed.

Lemma fold_left_stamped {B} (f : World -> B -> World) l :
  (forall w x, stamped w (f w x)) -> forall w, stamped w (fold_left f l w).
Proof.
  intros Hf. induction l as [|x l IH]; intros w; simpl; [apply stamped_refl|].
  eapply stamped_trans; [apply Hf|apply IH].
Qed.

Lemma ensure_entry_stamped patientId patient date w item :
  stamped w (ensure_entry tz Date_parse_other now patientId patient date w item).
Proof.
  unfold ensure_entry. destruct (negb _); [apply stamped_refl|].
  destruct (List.find _ (entries w)) as [x|]; [|apply insert_entry_stamped].
  destruct (negb _); [|apply stamped_refl].
  apply stamped_entries, update_entry_by_id_written.
Qed.

Lemma ensureSubscribedEntries_stamped patientId date w :
  stamped w (ensureSubscribedEntries tz Date_parse_other now patientId date w).
Proof.
  unfold ensureSubscribedEntries.
  destruct (subscribedItems w patientId); [apply stamped_refl|].
  destruct (List.find _ (patients w)); [|apply stamped_refl].
  apply fold_left_stamped. intros. apply ensure_entry_stamped.
Qed.

Lemma addTrackItemOnDate_stamped itemId userId patientId date w :
  stamped w (addTrackItemOnDate tz Date_parse_other now itemId userId patientId date w).
Proof.
  unfold addTrackItemOnDate.
  destruct (List.find (entry_matches _ _ _) (entries w));
    [apply stamped_entries, update_entry_by_id_written|apply insert_entry_stamped].
Qed.

Lemma removeTrackItemFromDate_stamped itemId userId patientId date w :
  stamped w (removeTrackItemFromDate now itemId userId patientId date w).
Proof.
  apply stamped_entries, written_map. intros e.
  destruct (_ && _); [right|left]; auto.
Qed.

Lemma removeCustomGoal_stamped trackItemId patientId w :
  stamped w (removeCustomGoal now trackItemId patientId w).
Proof.
  unfold removeCustomGoal. set (w1 := set_items w _).
  apply (stamped_trans now w w1).
  - apply stamped_items, written_map. intros i.
    destruct (item_id i =? trackItemId); [right|left]; auto.
  - apply stamped_entries, written_map. intros e.
    destruct (_ && _); [right|left]; auto.
Qed.

Lemma insert_options_stamped {B} (code_of : World -> string * World)
    (text_of : B -> string) qid (l : list B) :
  (forall w, stamped w (snd (code_of w))) ->
  forall w,
    stamped w
      (fold_left (fun w opt => let '(code, w1) := code_of w in
                               insert_option now qid code (text_of opt) w1) l w).
Proof.
  intros H. apply fold_left_stamped.
  intros w x. specialize (H w). destruct (code_of w) as [code w1]. simpl in H.
  eapply stamped_trans; [exact H|apply insert_option_stamped].
Qed.

Lemma add_goal_options_stamped qid question w :
  stamped w (add_goal_options now uuidv4 qid question w).
Proof.
  unfold add_goal_options.
  destruct (_ || _).
  - eapply stamped_trans; [apply (generateUniqueCode_stamped w)|]. simpl.
    eapply stamped_trans; [apply insert_option_stamped|].
    eapply stamped_trans; [apply generateUniqueCode_stamped|]. simpl.
    apply insert_option_stamped.
  - destruct (_ || _); [|apply stamped_refl].
    destruct (cgq_options question); [|apply stamped_refl].
    apply (insert_options_stamped (generateUniqueCode uuidv4) Js.trim).
    apply generateUniqueCode_stamped.
Qed.

Lemma addCustomGoal_stamped params w :
  stamped w match addCustomGoal now uuidv4 params w with
            | Some (_, w') => w'
            | None => w
            end.
Proof.
  unfold addCustomGoal.
  destruct (List.find _ (categories w)); [|apply stamped_refl]. simpl.
  eapply stamped_trans.
  2:{ apply fold_left_stamped. intros w0 question.
      eapply stamped_trans; [apply (generateUniqueCode_stamped w0)|]. simpl.
      eapply stamped_trans; [apply insert_question_stamped|]. simpl.
      apply add_goal_options_stamped. }
  apply (stamped_items (set_tick w (S (tick w)))), written_app_new; reflexivity.
Qed.

Lemma insert_new_question_stamped trackItemId q w :
  stamped w (insert_new_question now Date_now random_base36 trackItemId q w).
Proof.
  unfold insert_new_question.
  eapply stamped_trans; [apply (stamped_code_stamped "Q" w)|]. simpl.
  eapply stamped_trans; [apply insert_question_stamped|]. simpl.
  destruct (qu_options q); [|apply stamped_refl].
  apply (insert_options_stamped (stamped_code Date_now random_base36 "RESP") Js.trim).
  apply stamped_code_stamped.
Qed.

Lemma update_question_stamped id q w :
  stamped w (update_question now uuidv4 id q w).
Proof.
  unfold update_question. set (w1 := set_questions w _).
  apply (stamped_trans now w w1).
  { apply stamped_questions, written_map. intros x.
    destruct (q_id x =? id); [right|left]; auto. }
  destruct (qu_options q) as [opts|]; [|apply stamped_refl].
  set (w2 := set_options w1 _).
  apply (stamped_trans now w1 w2); [apply stamped_options, written_filter|].
  apply (insert_options_stamped (generateUniqueCode uuidv4) Js.trim).
  apply generateUniqueCode_stamped.
Qed.

Lemma editCustomGoal_stamped trackItemId updates w :
  stamped w (editCustomGoal now uuidv4 Date_now random_base36 trackItemId updates w).
Proof.
  unfold editCustomGoal.
  set (w1 := match gu_name updates with Some _ => _ | None => _ end).
  apply (stamped_trans now w w1).
  - unfold w1. destruct (gu_name updates) as [name|]; [|apply stamped_refl].
    destruct (String.eqb name ""); [apply stamped_refl|].
    apply stamped_items, written_map. intros i.
    destruct (item_id i =? trackItemId); [right|left]; auto.
  - destruct (gu_questions updates) as [qs|]; [|apply stamped_refl].
    apply fold_left_stamped. intros w0 q. unfold edit_question.
    destruct (qu_id q) as [id|]; [destruct (id =? 0)|];
      try apply insert_new_question_stamped. apply update_question_stamped.
Qed.

End Stamping.

End Timestamps.

Module TimestampClaims.

Import Vocabulary Timestamps.
Local Open Scope string_scope.
Local Open Scope Z_scope.

Lemma saveResponse_clock clock entryId questionId answer userId patientId w :
  response_stamped_by_clock clock w
    (saveResponse clock entryId questionId answer userId patientId w).
Proof.
  unfold saveResponse, response_stamped_by_clock.
  destruct (List.find _ (responses w)); simpl; intros r' H.
  - apply in_map_iff in H as (r & <- & Hr).
    destruct (response_matches _ _ _ _ r); [|left; exact Hr].
    right. left. split; [reflexivity|]. exists r. auto.
  - apply in_app_or in H as [H|[<-|[]]]; [left; exact H|].
    right. right. split; reflexivity.
Qed.

Lemma saveResponse_written clock entryId questionId answer userId patientId w :
  response_written_at_call clock
    (response_matches entryId questionId userId patientId) w
    (saveResponse clock entryId questionId answer userId patientId w).
Proof.
  unfold response_written_at_call, saveResponse.
  set (key := response_matches entryId questionId userId patientId).
  destruct (List.find key (responses w)) as [r0|] eqn:F.
  - assert (E : existsb key (responses w) = true).
    { apply find_some in F as [H K]. apply existsb_exists. exists r0. auto. }
    rewrite E. cbn [currentTimestamp set_responses set_tick responses tick].
    apply find_some in F as [H K].
    split; [|split; [|split; [discriminate|lia]]].
    + exists (response_with_answer r0 (JSON_stringify answer) (clock (tick w))).
      split; [|exact K]. apply in_map_iff. exists r0. rewrite K. auto.
    + intros r' Hr Kr. apply in_map_iff in Hr as (r & <- & Hr).
      destruct (key r) eqn:Er; [|congruence].
      cbn [response_with_answer resp_updated_date]. do 2 f_equal. lia.
  - assert (E : existsb key (responses w) = false).
    { destruct (existsb key (responses w)) eqn:X; [|reflexivity].
      apply existsb_exists in X as (r & H & K).
      pose proof (find_none _ _ F r H). congruence. }
    rewrite E. cbn [currentTimestamp set_responses set_tick responses tick].
    split; [|split; [|split; [|lia]]].
    + eexists. split; [apply in_or_app; right; left; reflexivity|].
      unfold key, response_matches. cbn. rewrite !Z.eqb_refl, String.eqb_refl. reflexivity.
    + intros r' Hr Kr. apply in_app_or in Hr as [Hr|[<-|[]]].
      * pose proof (find_none _ _ F r' Hr). congruence.
      * cbn. do 2 f_equal. lia.
    + intros _. eexists. split; [reflexivity|]. split; [|reflexivity].
      unfold key, response_matches. cbn. rewrite !Z.eqb_refl, String.eqb_refl. reflexivity.
Qed.


End TimestampClaims.

(** ** Summaries of an entry *)

Module Summaries.

Import Js Vocabulary.
Local Open Scope string_scope.
Local Open Scope Z_scope.

Lemma insert_row_In r x l : In x (insert_row r l) <-> x = r \/ In x l.
Proof.
  induction l as [|a l IH]; simpl; [intuition|].
  destruct (_ <=? _); simpl; [intuition|]. rewrite IH. intuition.
Qed.

Lemma order_by_In x l : In x (order_by_question_id l) <-> In x l.
Proof.
  induction l as [|a l IH]; simpl; [reflexivity|].
  rewrite insert_row_In, IH. intuition.
Qed.

Lemma mainQuery_In w entryId row :
  In row (mainQuery w entryId)
  <-> exists q tie ti tc,
        In q (questions w) /\ In tie (entries w) /\ In ti (items w)
        /\ In tc (categories w) /\ joined entryId q tie ti tc
        /\ In row (rows_of w entryId q tc).
Proof.
  unfold mainQuery. rewrite order_by_In, in_flat_map. split.
  - intros (q & Hq & H). apply in_flat_map in H as (tie & Htie & H).
    apply in_flat_map in H as (ti & Hti & H).
    apply in_flat_map in H as (tc & Htc & H).
    destruct (_ && _) eqn:C in H; [|contradiction].
    repeat (apply andb_prop in C as [C ?]).
    exists q, tie, ti, tc. repeat split; auto;
      try (apply Z.eqb_eq; assumption). apply String.eqb_eq; assumption.
  - intros (q & tie & ti & tc & Hq & Htie & Hti & Htc & (J1 & J2 & J3 & J4 & J5) & H).
    exists q. split; [exact Hq|]. apply in_flat_map. exists tie. split; [exact Htie|].
    apply in_flat_map. exists ti. split; [exact Hti|].
    apply in_flat_map. exists tc. split; [exact Htc|].
    rewrite J1, J2, J3, J4, J5, !Z.eqb_refl, String.eqb_refl. exact H.
Qed.

(** A row with an answer comes from a response of the entry. *)
Lemma rows_of_answer w entryId q tc row :
  In row (rows_of w entryId q tc) -> has_answer row = true ->
  exists r, In r (responses w) /\ resp_question_id r = q_id q
            /\ resp_track_item_entry_id r = entryId
            /\ row_answer row = resp_answer r
            /\ row_response_updated_date row = resp_updated_date r.
Proof.
  unfold rows_of. intros H A.
  destruct (List.filter _ (responses w)) as [|r0 rs] eqn:F.
  - destruct H as [<-|[]]. discriminate A.
  - rewrite <- F in H. apply in_map_iff in H as (r & <- & Hr).
    apply filter_In in Hr as [Hr C]. apply andb_prop in C as [C1 C2].
    exists r. repeat split; auto; apply Z.eqb_eq; assumption.
Qed.

Lemma rows_of_response w entryId q tc r :
  In r (responses w) -> resp_question_id r = q_id q ->
  resp_track_item_entry_id r = entryId ->
  In {| row_question := q; row_category_name := cat_name tc;
        row_answer := resp_answer r;
        row_response_updated_date := resp_updated_date r |}
     (rows_of w entryId q tc).
Proof.
  intros Hr E1 E2. unfold rows_of.
  assert (F : In r (List.filter
                      (fun r => (resp_question_id r =? q_id q)
                                && (resp_track_item_entry_id r =? entryId))
                      (responses w))).
  { apply filter_In. split; [exact Hr|]. rewrite E1, E2, !Z.eqb_refl. reflexivity. }
  destruct (List.filter _ (responses w)) as [|r0 rs]; [contradiction|].
  apply in_map_iff. exists r. auto.
Qed.

Section Scan.

Variable Date_parse_other : string -> option Z.

Lemma scan_answers_fold rows :
  scan_answers Date_parse_other rows = fold_left (scan_step Date_parse_other) rows (∅, None).
Proof. reflexivity. Qed.

Lemma scan_step_timed m last row t :
  time_of Date_parse_other row = Some t ->
  snd (scan_step Date_parse_other (m, Some (Some last)) row) = Some (Some (Z.max last t)).
Proof.
  unfold time_of, scan_step. destruct (row_response_updated_date row) as [stamp|];
    [|discriminate].
  destruct (String.eqb stamp ""); [discriminate|]. intros ->. simpl.
  destruct (last <? t) eqn:E; simpl; f_equal; f_equal;
    [apply Z.ltb_lt in E|apply Z.ltb_ge in E]; lia.
Qed.

Lemma scan_timed rows : forall m last,
  (forall row, In row rows -> exists t, time_of Date_parse_other row = Some t) ->
  exists t, snd (fold_left (scan_step Date_parse_other) rows (m, Some (Some last))) = Some (Some t)
            /\ last <= t
            /\ (forall row u, In row rows -> time_of Date_parse_other row = Some u -> u <= t)
            /\ (t = last \/ exists row, In row rows /\ time_of Date_parse_other row = Some t).
Proof.
  induction rows as [|row rows IH]; intros m last H; cbn [fold_left].
  - exists last. repeat split; auto; [lia|intros ? ? []].
  - destruct (H row (or_introl eq_refl)) as [t0 Ht0].
    pose proof (scan_step_timed m last row t0 Ht0) as S.
    destruct (scan_step Date_parse_other (m, Some (Some last)) row) as [m' l'] eqn:E. simpl in S. subst l'.
    destruct (IH m' (Z.max last t0)) as (t & Ht & L & U & W).
    { intros r Hr. apply H. right. exact Hr. }
    exists t. split; [exact Ht|]. split; [lia|]. split.
    + intros r u [<-|Hr] Hu; [|eapply U; eauto]. rewrite Ht0 in Hu. inversion Hu. lia.
    + destruct W as [W|(r & Hr & Tr)].
      * destruct (Z.max_spec last t0) as [[_ M]|[_ M]]; rewrite M in W.
        -- right. exists row. split; [left; reflexivity|]. rewrite W. exact Ht0.
        -- left. exact W.
      * right. exists r. split; [right; exact Hr|exact Tr].
Qed.

(** With a valid timestamp on every row, the scan ends on the most recent
    one. *)
Lemma scan_answers_latest rows :
  rows <> [] ->
  (forall row, In row rows -> exists t, time_of Date_parse_other row = Some t) ->
  exists t, snd (scan_answers Date_parse_other rows) = Some (Some t)
            /\ (exists row, In row rows /\ time_of Date_parse_other row = Some t)
            /\ (forall row u, In row rows -> time_of Date_parse_other row = Some u -> u <= t).
Proof.
  intros NE H. rewrite scan_answers_fold.
  destruct rows as [|row rows]; [congruence|]. cbn [fold_left].
  destruct (H row (or_introl eq_refl)) as [t0 Ht0].
  assert (S : exists m, scan_step Date_parse_other (∅, None) row = (m, Some (Some t0))).
  { unfold scan_step, time_of in *.
    destruct (row_response_updated_date row) as [stamp|]; [|discriminate].
    destruct (String.eqb stamp ""); [discriminate|]. rewrite Ht0. eexists; reflexivity. }
  destruct S as [m S]. rewrite S.
  destruct (scan_timed rows m t0) as (t & Ht & L & U & W).
  { intros r Hr. apply H. right. exact Hr. }
  exists t. split; [exact Ht|]. split.
  - destruct W as [->|(r & Hr & Tr)]; [exists row; split; [left; reflexivity|exact Ht0]|].
    exists r. split; [right; exact Hr|exact Tr].
  - intros r u [<-|Hr] Hu; [|eapply U; eauto]. rewrite Ht0 in Hu. inversion Hu. lia.
Qed.

End Scan.

End Summaries.

Module SummaryClaims.

Import Js Vocabulary Summaries.
Local Open Scope string_scope.
Local Open Scope Z_scope.

(** C4, as stated, fails.  A response to an inactive question is a
    response of the entry, yet no summary is returned; and a response
    without an update time makes the custom entry fall through to the
    summaries per question. *)
Lemma custom_entry_without_last_updated :
  getSummariesForItem 0 read_timestamp no_numbers zero_text 10
    (walk_store [response 1 6 "an hour" (Some "2024-03-05T10:00:00.000Z")])
  = Some []
  /\ getSummariesForItem 0 read_timestamp no_numbers zero_text 10
       (walk_store [response 1 5 "far" None])
     = Some ["Walked far"].
Proof. split; vm_compute; reflexivity. Qed.

Lemma rows_of_category w entryId q tc row :
  In row (rows_of w entryId q tc) -> row_category_name row = cat_name tc.
Proof.
  unfold rows_of. destruct (List.filter _ (responses w)) as [|r0 rs].
  - intros [<-|[]]. reflexivity.
  - intros H. apply in_map_iff in H as (r & <- & _). reflexivity.
Qed.

(** C4, amended: for an entry whose owning category is named [Custom],
    when every response of the entry that holds an answer has an update
    time that is a valid date: if no active question of the entry's item
    has a response with an answer, no summary is returned; otherwise
    exactly one summary is returned, [Last updated: ] followed by the
    [MM-DD-YYYY] text of the most recent of these update times. *)
Theorem custom_entry_last_updated tz Date_parse_other StringToNumber Number_toString
    entryId w :
  owned_by_custom w entryId ->
  (forall r, In r (responses w) -> resp_track_item_entry_id r = entryId ->
             resp_answer r <> None ->
             exists stamp t, resp_updated_date r = Some stamp /\ stamp <> ""
                             /\ Date_of_string Date_parse_other stamp = Some t) ->
  (answered_rows w entryId = [] ->
   getSummariesForItem tz Date_parse_other StringToNumber Number_toString entryId w
   = Some [])
  /\ (answered_rows w entryId <> [] ->
      exists t,
        getSummariesForItem tz Date_parse_other StringToNumber Number_toString entryId w
        = Some ["Last updated: " ++ formatMMDDYYYY tz (Some t)]
        /\ (exists row, In row (answered_rows w entryId)
                        /\ time_of Date_parse_other row = Some t)
        /\ (forall row u, In row (answered_rows w entryId) ->
                          time_of Date_parse_other row = Some u -> u <= t))
  /\ (answered_rows w entryId <> []
      <-> exists q tie ti tc r,
            In q (questions w) /\ In tie (entries w) /\ In ti (items w)
            /\ In tc (categories w) /\ joined entryId q tie ti tc
            /\ In r (responses w) /\ resp_question_id r = q_id q
            /\ resp_track_item_entry_id r = entryId /\ resp_answer r <> None).
Proof.
  intros HC HT.
  assert (Timed : forall row, In row (answered_rows w entryId) ->
                    exists t, time_of Date_parse_other row = Some t).
  { intros row H. apply filter_In in H as [H A].
    apply mainQuery_In in H as (q & tie & ti & tc & _ & _ & _ & _ & _ & H).
    destruct (rows_of_answer w entryId q tc row H A) as (r & Hr & _ & E & Ea & Eu).
    assert (Na : resp_answer r <> None).
    { intros Hn. unfold has_answer in A. rewrite Ea, Hn in A. discriminate A. }
    destruct (HT r Hr E Na) as (stamp & t & Es & Ne & Et).
    exists t. unfold time_of. rewrite Eu, Es.
    destruct (String.eqb_spec stamp ""); [congruence|exact Et]. }
  assert (Custom : forall row, In row (mainQuery w entryId) ->
                     String.eqb (row_category_name row) "Custom" = true).
  { intros row H.
    apply mainQuery_In in H
      as (q & tie & ti & tc & _ & Htie & Hti & Htc & (J1 & J2 & J3 & J4 & _) & H).
    rewrite (rows_of_category _ _ _ _ _ H). apply String.eqb_eq.
    apply (HC tie ti tc); auto. congruence. }
  split; [|split].
  - intros E. unfold getSummariesForItem. unfold answered_rows in E.
    destruct (mainQuery w entryId) as [|first rest]; [reflexivity|]. rewrite E.
    reflexivity.
  - intros NE. destruct (scan_answers_latest Date_parse_other _ NE Timed)
      as (t & St & Wt & Ut).
    exists t. split; [|split; assumption].
    unfold getSummariesForItem. unfold answered_rows in NE, St.
    destruct (mainQuery w entryId) as [|first rest] eqn:M; [simpl in NE; congruence|].
    rewrite (Custom first) by (left; reflexivity).
    destruct (List.filter has_answer (first :: rest)) as [|a l] eqn:F; [congruence|].
    destruct (scan_answers Date_parse_other (a :: l)) as [m last]. simpl in St.
    subst last. reflexivity.
  - split.
    + intros NE. destruct (answered_rows w entryId) as [|row l] eqn:E; [congruence|].
      assert (H : In row (answered_rows w entryId)) by (rewrite E; left; reflexivity).
      apply filter_In in H as [H A].
      apply mainQuery_In in H as (q & tie & ti & tc & Hq & Htie & Hti & Htc & J & H).
      destruct (rows_of_answer w entryId q tc row H A) as (r & Hr & E1 & E2 & Ea & _).
      assert (Na : resp_answer r <> None).
      { intros Hn. unfold has_answer in A. rewrite Ea, Hn in A. discriminate A. }
      destruct J as (J1 & J2 & J3 & J4 & J5).
      exists q, tie, ti, tc, r. unfold joined. repeat split; assumption.
    + intros (q & tie & ti & tc & r & Hq & Htie & Hti & Htc & J & Hr & E1 & E2 & Na) E.
      pose proof (rows_of_response w entryId q tc r Hr E1 E2) as H.
      assert (In {| row_question := q; row_category_name := cat_name tc;
                    row_answer := resp_answer r;
                    row_response_updated_date := resp_updated_date r |}
                 (answered_rows w entryId)).
      { apply filter_In. split.
        - apply mainQuery_In. exists q, tie, ti, tc. repeat split; auto; apply J.
        - unfold has_answer. simpl. destruct (resp_answer r); congruence. }
      rewrite E in H0. contradiction.
Qed.

Lemma custom_entry_last_updated_witness :
  getSummariesForItem 0 read_timestamp no_numbers zero_text 10
    (walk_store [response 1 5 "far" (Some "2024-03-05T10:00:00.000Z");
                 response 2 6 "an hour" (Some "2024-03-07T08:30:00.000Z")])
  = Some ["Last updated: 03-05-2024"].
Proof.
  pose (w := walk_store [response 1 5 "far" (Some "2024-03-05T10:00:00.000Z");
                         response 2 6 "an hour" (Some "2024-03-07T08:30:00.000Z")]).
  assert (HC : owned_by_custom w 10).
  { intros tie ti tc [<-|[]] [<-|[]] [<-|[]] _ _ _. reflexivity. }
  assert (HT : forall r, In r (responses w) -> resp_track_item_entry_id r = 10 ->
                 resp_answer r <> None ->
                 exists stamp t, resp_updated_date r = Some stamp /\ stamp <> ""
                                 /\ Date_of_string read_timestamp stamp = Some t).
  { intros r [<-|[<-|[]]] _ _; eexists; eexists;
      (split; [reflexivity|split; [discriminate|vm_compute; reflexivity]]). }
  destruct (custom_entry_last_updated 0 read_timestamp no_numbers zero_text 10 w HC HT)
    as (_ & H & _).
  assert (NE : answered_rows w 10 <> []) by (vm_compute; discriminate).
  destruct (H NE) as (t & E & _).
  vm_compute. reflexivity.
Defined.

End SummaryClaims.

(** ** Stored answers *)

Module JsonText.

Import Js Vocabulary SummaryGenerator.
Local Open Scope string_scope.

Lemma scan_string_round fuel s : scan_string (S fuel) s = scan_round (scan_string fuel) s.
Proof. reflexivity. Qed.

Lemma string_length_app a : forall c,
  String.length (a ++ c) = (String.length a + String.length c)%nat.
Proof.
  induction a as [|x a IH]; intros c; [reflexivity|].
  rewrite append_cons. simpl. rewrite IH. reflexivity.
Qed.

Lemma append_empty s : s ++ "" = s.
Proof. induction s as [|c s IH]; [reflexivity|]. rewrite append_cons, IH. reflexivity. Qed.

Lemma append_assoc a : forall b c, (a ++ b) ++ c = a ++ (b ++ c).
Proof.
  induction a as [|x a IH]; intros b c; [reflexivity|].
  rewrite !append_cons, IH. reflexivity.
Qed.

(** The scanner reads the escape of a character as that character. *)
Lemma scan_round_escape c rest tail :
  scan_round rest (escape_unit c ++ tail)
  = option_map (fun p => (String c (fst p), snd p)) (rest tail).
Proof. destruct c as [[] [] [] [] [] [] [] []]; vm_compute; reflexivity. Qed.

Lemma escape_unit_length c : (1 <= String.length (escape_unit c))%nat.
Proof. destruct c as [[] [] [] [] [] [] [] []]; vm_compute; lia. Qed.

Lemma escape_unit_plain c : (128 <= nat_of_ascii c)%nat -> escape_unit c = String c "".
Proof.
  destruct c as [[] [] [] [] [] [] [] []]; intros H; try reflexivity;
    vm_compute in H; lia.
Qed.

Lemma hex_val_digit k : (k < 16)%nat -> hex_val (hex_digit k) = Some k.
Proof.
  intros H. do 16 (destruct k as [|k]; [reflexivity|]). lia.
Qed.

(** The scanner reads a [\u] escape as the bytes of its code unit. *)
Lemma scan_round_unicode u rest tail :
  (u < 16 * 4096)%nat ->
  scan_round rest (unicode_escape u ++ tail)
  = option_map (fun p => (utf8_of_code_unit u ++ fst p, snd p)) (rest tail).
Proof.
  intros H. unfold unicode_escape. rewrite !append_cons, append_nil.
  cbn [scan_round]. change (Ascii.eqb backslash quote) with false.
  change (Ascii.eqb backslash backslash) with true.
  change (Ascii.eqb "u" quote) with false. change (Ascii.eqb "u" backslash) with false.
  change (Ascii.eqb "u" "/") with false. change (Ascii.eqb "u" "b") with false.
  change (Ascii.eqb "u" "f") with false. change (Ascii.eqb "u" "n") with false.
  change (Ascii.eqb "u" "r") with false. change (Ascii.eqb "u" "t") with false.
  change (Ascii.eqb "u" "u") with true. cbv iota.
  rewrite !hex_val_digit.
  - replace (4096 * (u / 4096) + 256 * ((u / 256) mod 16) + 16 * ((u / 16) mod 16)
             + u mod 16)%nat with u; [reflexivity|].
    pose proof (Nat.div_mod_eq u 16). pose proof (Nat.div_mod_eq (u / 16) 16).
    pose proof (Nat.div_mod_eq (u / 16 / 16) 16).
    replace (u / 256)%nat with (u / 16 / 16)%nat
      by (rewrite Nat.Div0.div_div; reflexivity).
    replace (u / 4096)%nat with (u / 16 / 16 / 16)%nat
      by (rewrite !Nat.Div0.div_div; reflexivity).
    lia.
  - apply Nat.mod_upper_bound. discriminate.
  - apply Nat.mod_upper_bound. discriminate.
  - apply Nat.mod_upper_bound. discriminate.
  - apply Nat.Div0.div_lt_upper_bound. lia.
Qed.

(** What three bytes that stand for a surrogate are. *)
Lemma surrogate_unit_bytes c1 c2 c3 u :
  surrogate_unit c1 c2 c3 = Some u ->
  nat_of_ascii c1 = 237%nat
  /\ (160 <= nat_of_ascii c2 <= 191)%nat /\ (128 <= nat_of_ascii c3 <= 191)%nat
  /\ u = (216 * 256 + (nat_of_ascii c2 - 160) * 64 + (nat_of_ascii c3 - 128))%nat.
Proof.
  unfold surrogate_unit. intros H.
  destruct (Nat.eqb_spec (nat_of_ascii c1) 237); [|discriminate H].
  destruct (Nat.leb_spec 160 (nat_of_ascii c2)); [|discriminate H].
  destruct (Nat.leb_spec (nat_of_ascii c2) 191); [|discriminate H].
  destruct (Nat.leb_spec 128 (nat_of_ascii c3)); [|discriminate H].
  destruct (Nat.leb_spec (nat_of_ascii c3) 191); [|discriminate H].
  cbv beta iota delta [andb] in H.
  split; [assumption|]. split; [split; assumption|]. split; [split; assumption|].
  congruence.
Qed.

Lemma surrogate_unit_utf8 c1 c2 c3 u :
  surrogate_unit c1 c2 c3 = Some u ->
  (u < 16 * 4096)%nat
  /\ utf8_of_code_unit u = String c1 (String c2 (String c3 "")).
Proof.
  intros H. apply surrogate_unit_bytes in H as (E1 & B2 & B3 & ->).
  set (n2 := nat_of_ascii c2) in *. set (n3 := nat_of_ascii c3) in *.
  set (u := (216 * 256 + (n2 - 160) * 64 + (n3 - 128))%nat).
  assert (U : u = (13 * 4096 + (n2 - 128) * 64 + (n3 - 128))%nat) by (unfold u; lia).
  split; [lia|].
  unfold utf8_of_code_unit.
  destruct (Nat.ltb_spec u 128); [lia|]. destruct (Nat.ltb_spec u 2048); [lia|].
  assert (D1 : (u / 4096 = 13)%nat).
  { symmetry. apply (Nat.div_unique u 4096 13 ((n2 - 128) * 64 + (n3 - 128))); lia. }
  assert (D2 : (u / 64 = 13 * 64 + (n2 - 128))%nat).
  { symmetry. apply (Nat.div_unique u 64 _ (n3 - 128)); lia. }
  assert (M2 : (u mod 64 = n3 - 128)%nat).
  { symmetry. apply (Nat.mod_unique u 64 (13 * 64 + (n2 - 128))); lia. }
  assert (M1 : ((u / 64) mod 64 = n2 - 128)%nat).
  { rewrite D2. symmetry. apply (Nat.mod_unique _ 64 13); lia. }
  rewrite D1, M1, M2. unfold byte.
  replace (224 + 13)%nat with (nat_of_ascii c1) by lia.
  replace (128 + (n2 - 128))%nat with n2 by lia.
  replace (128 + (n3 - 128))%nat with n3 by lia.
  unfold n2, n3. rewrite !ascii_nat_embedding. reflexivity.
Qed.

(** One step of [escape_json]. *)
Lemma escape_json_eq c r :
  escape_json (String c r)
  = match r with
    | String c2 (String c3 r3) =>
        match surrogate_unit c c2 c3 with
        | Some u =>
            if Nat.ltb u (220 * 256) then
              match r3 with
              | String c4 (String c5 (String c6 r6)) =>
                  match surrogate_unit c4 c5 c6 with
                  | Some u' =>
                      if Nat.leb (220 * 256) u'
                      then String c (String c2 (String c3 (String c4 (String c5
                             (String c6 (escape_json r6))))))
                      else unicode_escape u ++ escape_json r3
                  | None => unicode_escape u ++ escape_json r3
                  end
              | _ => unicode_escape u ++ escape_json r3
              end
            else unicode_escape u ++ escape_json r3
        | None => escape_unit c ++ escape_json r
        end
    | _ => escape_unit c ++ escape_json r
    end.
Proof. destruct r as [|c2 [|c3 r3]]; reflexivity. Qed.

(** The three ways [escape_json] goes on: a character that is no
    surrogate, a lone surrogate, and a pair. *)
Lemma escape_json_cases (P : string -> string -> Prop) :
  P "" "" ->
  (forall c r, P r (escape_json r) -> P (String c r) (escape_unit c ++ escape_json r)) ->
  (forall c1 c2 c3 u r3,
     surrogate_unit c1 c2 c3 = Some u -> P r3 (escape_json r3) ->
     P (String c1 (String c2 (String c3 r3))) (unicode_escape u ++ escape_json r3)) ->
  (forall c1 c2 c3 c4 c5 c6 u u' r6,
     surrogate_unit c1 c2 c3 = Some u -> surrogate_unit c4 c5 c6 = Some u' ->
     P r6 (escape_json r6) ->
     P (String c1 (String c2 (String c3 (String c4 (String c5 (String c6 r6))))))
       (String c1 (String c2 (String c3 (String c4 (String c5
          (String c6 (escape_json r6)))))))) ->
  forall s, P s (escape_json s).
Proof.
  intros P0 Pc Pl Pp s.
  assert (G : forall n s, (String.length s <= n)%nat -> P s (escape_json s)).
  { clear s. induction n as [|n IH]; intros [|c r] L; try exact P0; [simpl in L; lia|].
    simpl in L. rewrite escape_json_eq.
    destruct r as [|c2 [|c3 r3]]; try (apply Pc, IH; simpl in *; lia).
    destruct (surrogate_unit c c2 c3) as [u|] eqn:S1; [|apply Pc, IH; simpl in *; lia].
    assert (Lone : P (String c (String c2 (String c3 r3)))
                     (unicode_escape u ++ escape_json r3)).
    { apply Pl; [exact S1|]. apply IH. simpl in L. lia. }
    destruct (Nat.ltb u (220 * 256)); [|exact Lone].
    destruct r3 as [|c4 [|c5 [|c6 r6]]]; try exact Lone.
    destruct (surrogate_unit c4 c5 c6) as [u'|] eqn:S2; [|exact Lone].
    destruct (Nat.leb (220 * 256) u'); [|exact Lone].
    apply (Pp _ _ _ _ _ _ u u'); [exact S1|exact S2|]. apply IH. simpl in L. lia. }
  apply (G (String.length s)). reflexivity.
Qed.

Lemma scan_escape_json s : forall fuel rest,
  (String.length s < fuel)%nat ->
  scan_string fuel (escape_json s ++ String quote rest) = Some (s, rest).
Proof.
  apply (escape_json_cases
           (fun s e => forall fuel rest, (String.length s < fuel)%nat ->
                         scan_string fuel (e ++ String quote rest) = Some (s, rest))).
  - intros [|fuel] rest L; [simpl in L; lia|]. reflexivity.
  - intros c r IH [|fuel] rest L; [simpl in L; lia|].
    rewrite append_assoc, scan_string_round, scan_round_escape.
    rewrite IH by (simpl in L; lia). reflexivity.
  - intros c1 c2 c3 u r3 S IH [|fuel] rest L; [simpl in L; lia|].
    destruct (surrogate_unit_utf8 _ _ _ _ S) as [B E].
    rewrite append_assoc, scan_string_round, scan_round_unicode by exact B.
    rewrite IH by (simpl in L; lia). rewrite E. reflexivity.
  - intros c1 c2 c3 c4 c5 c6 u u' r6 S1 S2 IH fuel rest L.
    apply surrogate_unit_bytes in S1 as (E1 & B2 & B3 & _).
    apply surrogate_unit_bytes in S2 as (E4 & B5 & B6 & _).
    do 6 (destruct fuel as [|fuel]; [simpl in L; lia|]).
    rewrite !append_cons.
    assert (Copy : forall c f t,
              (128 <= nat_of_ascii c)%nat ->
              scan_string (S f) (String c t)
              = option_map (fun p => (String c (fst p), snd p)) (scan_string f t)).
    { intros c f t H. rewrite scan_string_round.
      rewrite <- (scan_round_escape c (scan_string f) t), escape_unit_plain by exact H.
      reflexivity. }
    rewrite !Copy by lia. rewrite IH by (simpl in L; lia). reflexivity.
Qed.

Lemma unicode_escape_length u : String.length (unicode_escape u) = 6%nat.
Proof. reflexivity. Qed.

Lemma escape_json_length s : (String.length s <= String.length (escape_json s))%nat.
Proof.
  apply (escape_json_cases
           (fun s e => (String.length s <= String.length e)%nat)).
  - reflexivity.
  - intros c r IH. rewrite string_length_app. pose proof (escape_unit_length c).
    simpl. lia.
  - intros c1 c2 c3 u r3 _ IH. rewrite string_length_app, unicode_escape_length.
    simpl. lia.
  - intros c1 c2 c3 c4 c5 c6 u u' r6 _ _ IH. simpl. lia.
Qed.

(** [JSON.parse] reads back the text [JSON.stringify] makes of a text. *)
Lemma JSON_parse_stringify StringToNumber s :
  JSON_parse StringToNumber (JSON_stringify s) = Some (JStr s).
Proof.
  unfold JSON_parse, JSON_stringify.
  set (r := escape_json s ++ String quote "").
  assert (E : parse_value StringToNumber (S (String.length (String quote r)))
                (String quote r) = Some (JStr s, "")).
  { cbn [parse_value]. change (skip_json_ws (String quote r)) with (String quote r).
    cbv iota. change (Ascii.eqb quote "[") with false.
    change (Ascii.eqb quote "{") with false.
    change (Ascii.eqb quote quote) with true. cbv iota.
    unfold r. rewrite scan_escape_json; [reflexivity|].
    rewrite string_length_app. pose proof (escape_json_length s). simpl. lia. }
  rewrite E. reflexivity.
Qed.

Lemma no_dollar_app a : forall c, no_dollar (a ++ c) = no_dollar a && no_dollar c.
Proof.
  induction a as [|x a IH]; intros c; [reflexivity|].
  rewrite append_cons. simpl. rewrite IH, andb_assoc. reflexivity.
Qed.

Lemma no_dollar_escape_unit c : no_dollar (escape_unit c) = negb (Ascii.eqb c "$").
Proof. destruct c as [[] [] [] [] [] [] [] []]; vm_compute; reflexivity. Qed.

Lemma no_dollar_hex_digit k :
  (k < 16)%nat -> negb (Ascii.eqb (hex_digit k) "$") = true.
Proof. intros H. do 16 (destruct k as [|k]; [reflexivity|]). lia. Qed.

Lemma no_dollar_unicode_escape u :
  (u < 16 * 4096)%nat -> no_dollar (unicode_escape u) = true.
Proof.
  intros H. unfold unicode_escape. cbn [no_dollar].
  change (negb (Ascii.eqb backslash "$")) with true.
  change (negb (Ascii.eqb "u" "$")) with true.
  rewrite !no_dollar_hex_digit; [reflexivity| | | |].
  - apply Nat.mod_upper_bound. discriminate.
  - apply Nat.mod_upper_bound. discriminate.
  - apply Nat.mod_upper_bound. discriminate.
  - apply Nat.Div0.div_lt_upper_bound. lia.
Qed.

(** The escapes bring in no dollar sign. *)
Lemma no_dollar_stringify s : no_dollar s = true -> no_dollar (JSON_stringify s) = true.
Proof.
  intros H. unfold JSON_stringify. cbn [no_dollar].
  change (negb (Ascii.eqb quote "$")) with true. cbn [andb].
  rewrite no_dollar_app. change (no_dollar (String quote "")) with true.
  rewrite andb_true_r. revert H.
  apply (escape_json_cases (fun s e => no_dollar s = true -> no_dollar e = true)).
  - reflexivity.
  - intros c r IH H. simpl in H. apply andb_prop in H as [Hc Hs].
    rewrite no_dollar_app, no_dollar_escape_unit, Hc. apply IH, Hs.
  - intros c1 c2 c3 u r3 S IH H. simpl in H.
    apply andb_prop in H as [_ H]. apply andb_prop in H as [_ H].
    apply andb_prop in H as [_ H].
    destruct (surrogate_unit_utf8 _ _ _ _ S) as [B _].
    rewrite no_dollar_app, no_dollar_unicode_escape by exact B. apply IH, H.
  - intros c1 c2 c3 c4 c5 c6 u u' r6 _ _ IH H. cbn [no_dollar] in *.
    repeat (apply andb_prop in H as [?H H]).
    repeat (apply andb_true_intro; split; [assumption|]). apply IH, H.
Qed.

End JsonText.

Module Responses.

Import Js Vocabulary SummaryGenerator JsonText.
Local Open Scope string_scope.
Local Open Scope Z_scope.

Section Saving.

Variable clock : nat -> string.
Variables (entryId questionId : Z) (answer userId : string) (patientId : Z).

Local Abbreviation key := (response_matches entryId questionId userId patientId).
Local Abbreviation save := (saveResponse clock entryId questionId answer userId patientId).

Lemma key_with_answer r a stamp : key (response_with_answer r a stamp) = key r.
Proof. reflexivity. Qed.

Lemma find_existsb {A} (p : A -> bool) l :
  existsb p l = match List.find p l with Some _ => true | None => false end.
Proof. induction l as [|a l IH]; simpl; [reflexivity|]. destruct (p a); auto. Qed.

Lemma saveResponse_rows w :
  responses (save w)
  = if existsb key (responses w)
    then map (fun r => if key r
                       then response_with_answer r (JSON_stringify answer) (clock (tick w))
                       else r) (responses w)
    else (responses w
          ++ [{| resp_id := fresh_id (map resp_id (responses w));
                 resp_user_id := userId; resp_patient_id := patientId;
                 resp_question_id := questionId; resp_track_item_entry_id := entryId;
                 resp_answer := Some (JSON_stringify answer);
                 resp_created_date := clock (tick w);
                 resp_updated_date := Some (clock (S (tick w))) |}])%list.
Proof.
  unfold saveResponse. rewrite find_existsb.
  destruct (List.find key (responses w)); reflexivity.
Qed.

Lemma filter_map_same {A} (p : A -> bool) (f : A -> A) l :
  (forall x, p (f x) = p x) ->
  List.filter p (map f l) = map f (List.filter p l).
Proof.
  intros H. induction l as [|a l IH]; simpl; [reflexivity|].
  rewrite H. destruct (p a); simpl; rewrite IH; reflexivity.
Qed.

Lemma filter_none {A} (p : A -> bool) l : existsb p l = false -> List.filter p l = [].
Proof.
  induction l as [|a l IH]; simpl; [reflexivity|].
  destruct (p a); simpl; [discriminate|exact IH].
Qed.

Lemma filter_some {A} (p : A -> bool) l : existsb p l = true -> List.filter p l <> [].
Proof.
  induction l as [|a l IH]; simpl; [discriminate|].
  destruct (p a); simpl; [discriminate|exact IH].
Qed.

Lemma saved_rows_answer w r :
  In r (responses (save w)) -> key r = true ->
  resp_answer r = Some (JSON_stringify answer).
Proof.
  rewrite saveResponse_rows. destruct (existsb key (responses w)) eqn:E; intros H K.
  - apply in_map_iff in H as (r0 & <- & _).
    destruct (key r0) eqn:K0; [reflexivity|]. congruence.
  - apply in_app_or in H as [H|[<-|[]]]; [|reflexivity].
    assert (E' : existsb key (responses w) = true)
      by (apply existsb_exists; exists r; auto).
    congruence.
Qed.

Lemma saved_rows_key w : List.filter key (responses (save w)) <> [].
Proof.
  rewrite saveResponse_rows. destruct (existsb key (responses w)) eqn:E.
  - rewrite filter_map_same.
    + pose proof (filter_some key _ E) as N.
      destruct (List.filter key (responses w)); [congruence|discriminate].
    + intros x. destruct (key x) eqn:K; [rewrite key_with_answer|]; exact K.
  - rewrite List.filter_app. simpl. unfold response_matches at 2. simpl.
    rewrite !Z.eqb_refl, String.eqb_refl. simpl.
    destruct (List.filter key (responses w)); discriminate.
Qed.

Lemma saved_rows_others w :
  List.filter (fun r => negb (key r)) (responses (save w))
  = List.filter (fun r => negb (key r)) (responses w).
Proof.
  rewrite saveResponse_rows. destruct (existsb key (responses w)) eqn:E.
  - clear E. induction (responses w) as [|a l IH]; [reflexivity|]. simpl.
    destruct (key a) eqn:K; simpl.
    + rewrite key_with_answer, K. simpl. exact IH.
    + rewrite K. simpl. f_equal. exact IH.
  - rewrite List.filter_app. simpl. unfold response_matches at 2. simpl.
    rewrite !Z.eqb_refl, String.eqb_refl. simpl. apply app_nil_r.
Qed.

Lemma saved_rows_count w :
  List.length (responses (save w))
  = (List.length (responses w) + if existsb key (responses w) then 0 else 1)%nat.
Proof.
  rewrite saveResponse_rows. destruct (existsb key (responses w)).
  - rewrite List.length_map. lia.
  - rewrite List.length_app. reflexivity.
Qed.

End Saving.

(** X3: [saveResponse] writes one answer per entry, question, user and
    patient.  After the call the store holds at least one response of that
    key, and every response of the key carries the JSON text of the answer;
    the call adds exactly one row when the key had no response and no row
    when it had one; the responses of other keys are left as they were. *)
Theorem saveResponse_upsert clock entryId questionId answer userId patientId w :
  let key := response_matches entryId questionId userId patientId in
  let w' := saveResponse clock entryId questionId answer userId patientId w in
  List.filter key (responses w') <> []
  /\ (forall r, In r (responses w') -> key r = true ->
                resp_answer r = Some (JSON_stringify answer))
  /\ List.length (responses w')
     = (List.length (responses w) + if existsb key (responses w) then 0 else 1)%nat
  /\ List.filter (fun r => negb (key r)) (responses w')
     = List.filter (fun r => negb (key r)) (responses w)
  /\ patients w' = patients w /\ categories w' = categories w /\ items w' = items w
  /\ entries w' = entries w /\ questions w' = questions w /\ options w' = options w.
Proof.
  cbv zeta. split; [apply saved_rows_key|]. split; [apply saved_rows_answer|].
  split; [apply saved_rows_count|]. split; [apply saved_rows_others|].
  unfold saveResponse.
  destruct (List.find _ (responses w)); repeat split.
Qed.

(** X1: the answer [saveResponse] stores is read back by the visibility
    evaluator as the answer that was saved: the stored text is the JSON
    encoding of the answer, and [JSON.parse], which [isQuestionVisible]
    applies to the answer of a parent, returns the answer itself, whatever
    characters it holds: quotes, backslashes and control characters, which
    are stored escaped, lone surrogates, which are stored as [\udXXX], and
    pairs of surrogates, which are stored as they are. *)
Theorem saved_answer_read_back StringToNumber Number_toString clock
    entryId questionId answer userId patientId w r :
  In r (responses (saveResponse clock entryId questionId answer userId patientId w)) ->
  response_matches entryId questionId userId patientId r = true ->
  exists stored,
    resp_answer r = Some stored
    /\ JSON_parse StringToNumber stored = Some (JStr answer)
    /\ parse_answer StringToNumber Number_toString (JStr stored) = JStr answer.
Proof.
  intros H K. exists (JSON_stringify answer).
  split; [eapply saved_rows_answer; eauto|].
  split; [apply JSON_parse_stringify|].
  unfold parse_answer. cbn [ToString]. rewrite JSON_parse_stringify. reflexivity.
Qed.

Lemma saved_answer_read_back_witness :
  exists stored,
    JSON_parse no_numbers stored = Some (JStr (dq "say 'yes'"))
    /\ parse_answer no_numbers zero_text (JStr stored) = JStr (dq "say 'yes'").
Proof.
  destruct (saved_answer_read_back no_numbers zero_text (fun _ => "t1") 10 5
              (dq "say 'yes'") "u7" 7 (walk_store [])
              {| resp_id := 1; resp_user_id := "u7"; resp_patient_id := 7;
                 resp_question_id := 5; resp_track_item_entry_id := 10;
                 resp_answer := Some (JSON_stringify (dq "say 'yes'"));
                 resp_created_date := "t1"; resp_updated_date := Some "t1" |})
    as (stored & _ & P & Q).
  - left. reflexivity.
  - reflexivity.
  - exists stored. split; [exact P|exact Q].
Defined.

(** X2: a summary shows a saved answer in its stored form.  The text
    [saveResponse] stores starts with a double quote, so [generateSummary]
    never parses it: the placeholder is replaced by the JSON text of the
    answer, quotes and escapes included, also when the answer that was
    saved is the text of an array. *)
Theorem summary_of_saved_answer StringToNumber Number_toString template answer :
  template <> "" ->
  rendered StringToNumber Number_toString (JSON_stringify answer)
  = Some (JSON_stringify answer)
  /\ generateSummary StringToNumber Number_toString template (JSON_stringify answer)
     = Some (replace template "{{answer}}" (JSON_stringify answer))
  /\ (forall before after,
        template = before ++ "{{answer}}" ++ after ->
        (forall b' a', template = b' ++ "{{answer}}" ++ a' ->
                       (String.length before <= String.length b')%nat) ->
        no_dollar answer = true ->
        generateSummary StringToNumber Number_toString template (JSON_stringify answer)
        = Some (before ++ JSON_stringify answer ++ after)).
Proof.
  intros Ht.
  assert (R : rendered StringToNumber Number_toString (JSON_stringify answer)
              = Some (JSON_stringify answer)) by reflexivity.
  assert (G : generateSummary StringToNumber Number_toString template (JSON_stringify answer)
              = Some (replace template "{{answer}}" (JSON_stringify answer))).
  { rewrite generateSummary_rendered; [rewrite R; reflexivity|exact Ht|discriminate]. }
  split; [exact R|]. split; [exact G|].
  intros b a E Hmin Hd. rewrite G. unfold replace.
  rewrite (split_at_first_complete _ _ b a E Hmin).
  rewrite GetSubstitution_no_dollar; [reflexivity|].
  apply no_dollar_stringify, Hd.
Qed.

Lemma summary_of_saved_answer_witness :
  generateSummary no_numbers zero_text "You answered: {{answer}}"
    (JSON_stringify (dq "['a','b']"))
  = Some (replace "You answered: {{answer}}" "{{answer}}"
            (JSON_stringify (dq "['a','b']"))).
Proof.
  refine (proj1 (proj2 (summary_of_saved_answer no_numbers zero_text
                          "You answered: {{answer}}" (dq "['a','b']") _))).
  discriminate.
Defined.

End Responses.

(** ** Questions of an item *)

Module ItemQuestions.

Import Js Vocabulary Subscription Responses.
Local Open Scope string_scope.
Local Open Scope Z_scope.

(** Filling a map row by row: the last row of a key is the one found. *)
Lemma responseMap_lookup (l : list TrackResponse) : forall (m : gmap Z TrackResponse) k,
  fold_left (fun m resp => <[resp_question_id resp := resp]> m) l m !! k
  = match List.find (fun r => resp_question_id r =? k) (List.rev l) with
    | Some r => Some r
    | None => m !! k
    end.
Proof.
  induction l as [|a l IH]; intros m k; [reflexivity|].
  cbn [fold_left List.rev]. rewrite IH, find_app_one.
  destruct (List.find _ (List.rev l)); [reflexivity|].
  rewrite lookup_insert.
  destruct (Z.eqb_spec (resp_question_id a) k) as [E|N];
    destruct (decide (resp_question_id a = k)); congruence.
Qed.

Lemma getQuestionsWithOptions_In itemId entryId w rec :
  In rec (getQuestionsWithOptions itemId entryId w)
  <-> exists q,
        In q (questions w) /\ q_item_id q = itemId
        /\ rec = {| qwo_question := q;
                    qwo_options :=
                      List.filter (fun opt => opt_question_id opt =? q_id q) (options w);
                    qwo_existingResponse :=
                      List.find (fun r => resp_question_id r =? q_id q)
                        (List.rev (List.filter
                                (fun r => resp_track_item_entry_id r =? entryId)
                                (responses w))) |}.
Proof.
  unfold getQuestionsWithOptions. rewrite in_map_iff. split.
  - intros (q & <- & Hq). apply filter_In in Hq as [Hq E]. apply Z.eqb_eq in E.
    exists q. repeat split; auto. f_equal. rewrite responseMap_lookup.
    destruct (List.find _ _); [reflexivity|apply lookup_empty].
  - intros (q & Hq & E & ->). exists q. split.
    + f_equal. rewrite responseMap_lookup.
      destruct (List.find _ _); [reflexivity|apply lookup_empty].
    + apply filter_In. split; [exact Hq|apply Z.eqb_eq, E].
Qed.

Lemma last_cons_some {A} (a : A) l :
  List.last (map Some (a :: l)) None
  = match List.last (map Some l) None with
    | Some x => Some x
    | None => Some a
    end.
Proof.
  revert a. induction l as [|b l IH]; intros a; [reflexivity|].
  change (List.last (map Some (a :: b :: l)) None)
    with (List.last (map Some (b :: l)) None).
  rewrite IH. destruct (List.last (map Some l) None); reflexivity.
Qed.

Lemma find_latest entryId k (l : list TrackResponse) :
  List.find (fun r => resp_question_id r =? k)
    (List.rev (List.filter (fun r => resp_track_item_entry_id r =? entryId) l))
  = List.last
      (map Some (List.filter (fun r => (resp_track_item_entry_id r =? entryId)
                                       && (resp_question_id r =? k)) l))
      None.
Proof.
  induction l as [|a l IH]; [reflexivity|]. cbn [List.filter].
  destruct (resp_track_item_entry_id a =? entryId); cbn [andb]; [|exact IH].
  cbn [List.rev]. rewrite find_app_one, IH.
  destruct (resp_question_id a =? k);
    [rewrite last_cons_some|]; destruct (List.last _ None); reflexivity.
Qed.

(** X5: [getQuestionsWithOptions] returns one record for every question of
    the item, active or not, in the order of the question table; the
    record holds the options stored for that question, whatever their
    status, and, as existing response, the response stored last for the
    question within the entry (none when the question has no response
    there). *)
Theorem getQuestionsWithOptions_records itemId entryId w :
  map qwo_question (getQuestionsWithOptions itemId entryId w)
  = List.filter (fun q => q_item_id q =? itemId) (questions w)
  /\ (forall rec, In rec (getQuestionsWithOptions itemId entryId w) ->
        qwo_options rec
        = List.filter (fun opt => opt_question_id opt =? q_id (qwo_question rec))
            (options w)
        /\ qwo_existingResponse rec
           = latest_response w entryId (q_id (qwo_question rec))).
Proof.
  split.
  - unfold getQuestionsWithOptions. rewrite map_map. simpl. apply map_id.
  - intros rec H. apply getQuestionsWithOptions_In in H as (q & _ & _ & ->). simpl.
    split; [reflexivity|]. apply find_latest.
Qed.

(** X4: a saved answer is the one the question screen gets back.  When
    the responses to the question within the entry all come from the user
    and patient of the call, then after [saveResponse] the record that
    [getQuestionsWithOptions] returns for the question holds an existing
    response, and its answer is the JSON text of the answer just saved. *)
Theorem saved_response_is_shown clock itemId entryId questionId answer userId patientId
    w rec :
  answered_by w entryId questionId userId patientId ->
  In rec (getQuestionsWithOptions itemId entryId
            (saveResponse clock entryId questionId answer userId patientId w)) ->
  q_id (qwo_question rec) = questionId ->
  exists r, qwo_existingResponse rec = Some r
            /\ resp_answer r = Some (JSON_stringify answer)
            /\ resp_question_id r = questionId
            /\ resp_track_item_entry_id r = entryId.
Proof.
  intros HA H E.
  set (w' := saveResponse clock entryId questionId answer userId patientId w) in *.
  apply getQuestionsWithOptions_In in H as (q & _ & _ & ->). simpl in E. simpl.
  rewrite E.
  destruct (List.find (fun r => resp_question_id r =? questionId) _) as [r|] eqn:F.
  - apply find_some in F as [Hr Q]. apply Z.eqb_eq in Q.
    apply in_rev, filter_In in Hr as [Hr En]. apply Z.eqb_eq in En.
    exists r. repeat split; auto.
    apply (saved_rows_answer clock entryId questionId answer userId patientId w r Hr).
    unfold response_matches. rewrite En, Q, !Z.eqb_refl. simpl.
    assert (K : resp_user_id r = userId /\ resp_patient_id r = patientId).
    { unfold w' in Hr. rewrite saveResponse_rows in Hr.
      destruct (existsb _ (responses w)).
      - apply in_map_iff in Hr as (r0 & Er & Hr0).
        assert (K0 : resp_user_id r0 = userId /\ resp_patient_id r0 = patientId).
        { apply HA. apply filter_In. split; [exact Hr0|].
          destruct (response_matches entryId questionId userId patientId r0);
            subst r; simpl in En, Q; rewrite En, Q, !Z.eqb_refl; reflexivity. }
        destruct (response_matches entryId questionId userId patientId r0);
          subst r; exact K0.
      - apply in_app_or in Hr as [Hr|[<-|[]]]; [|split; reflexivity].
        apply HA. apply filter_In. split; [exact Hr|].
        rewrite En, Q, !Z.eqb_refl. reflexivity. }
    destruct K as [-> ->]. rewrite String.eqb_refl, Z.eqb_refl. reflexivity.
  - exfalso.
    pose proof (saved_rows_key clock entryId questionId answer userId patientId w) as N.
    fold w' in N.
    destruct (List.filter (response_matches entryId questionId userId patientId)
                (responses w')) as [|r0 l] eqn:Fk; [congruence|].
    assert (H0 : In r0 (List.filter
                          (response_matches entryId questionId userId patientId)
                          (responses w'))) by (rewrite Fk; left; reflexivity).
    apply filter_In in H0 as [H0 K]. unfold response_matches in K.
    apply andb_prop in K as [K _]. apply andb_prop in K as [K _].
    apply andb_prop in K as [K1 K2].
    eapply find_none in F.
    + rewrite K2 in F. discriminate F.
    + apply in_rev. rewrite rev_involutive. apply filter_In. split; [exact H0|exact K1].
Qed.

Lemma saved_response_is_shown_witness :
  exists r, resp_answer r = Some (JSON_stringify "far")
            /\ resp_question_id r = 5 /\ resp_track_item_entry_id r = 10.
Proof.
  destruct (saved_response_is_shown (fun _ => "t1") 3 10 5 "far" "u7" 7 answered_store
              {| qwo_question := nth 0 walk_questions q1;
                 qwo_options := [];
                 qwo_existingResponse :=
                   Some (response_with_answer (response 1 5 "near" None)
                           (JSON_stringify "far") "t1") |})
    as (r & _ & A & Q & E).
  - intros r [<-|[]]. split; reflexivity.
  - left. reflexivity.
  - reflexivity.
  - exists r. repeat split; assumption.
Defined.

End ItemQuestions.

(** ** Catalogue of selectable items, links and subscriptions *)

Module Catalogue.

Import Vocabulary Subscription.
Local Open Scope string_scope.
Local Open Scope Z_scope.

Lemma selected_entry_existsb w patientId itemId :
  existsb (fun tie2 => (entry_track_item_id tie2 =? itemId)
                       && (entry_patient_id tie2 =? patientId)
                       && (entry_selected tie2 =? 1))
    (entries w) = true
  <-> has_selected_entry w patientId itemId.
Proof.
  rewrite existsb_exists. split.
  - intros (e & He & C). apply andb_prop in C as [C C3]. apply andb_prop in C as [C1 C2].
    exists e. repeat split; auto; apply Z.eqb_eq; assumption.
  - intros (e & He & E1 & E2 & E3). exists e. split; [exact He|].
    rewrite E1, E2, E3, !Z.eqb_refl. reflexivity.
Qed.

Lemma selectable_rows_In w patientId ti flag :
  In (ti, flag) (selectable_rows w patientId)
  <-> offered w ti
      /\ flag = (if existsb (fun tie2 => (entry_track_item_id tie2 =? item_id ti)
                                         && (entry_patient_id tie2 =? patientId)
                                         && (entry_selected tie2 =? 1))
                      (entries w)
                 then 1 else 0).
Proof.
  unfold selectable_rows, offered. rewrite in_flat_map. split.
  - intros (ti0 & Hti & H). apply in_flat_map in H as (tc & Htc & H).
    destruct (_ && _) eqn:C in H; [|contradiction].
    destruct H as [H|[]]. inversion H; subst ti0. clear H.
    apply andb_prop in C as [C C3]. apply andb_prop in C as [C1 C2].
    apply Z.eqb_eq in C1. apply String.eqb_eq in C2, C3.
    repeat split; auto. exists tc. auto.
  - intros ((Hti & Es & tc & Htc & E1 & E2) & ->).
    exists ti. split; [exact Hti|]. apply in_flat_map. exists tc. split; [exact Htc|].
    rewrite E1, E2, Es, Z.eqb_refl, !String.eqb_refl. left. reflexivity.
Qed.

Lemma item_eta ti :
  {| item_id := item_id ti; item_category_id := item_category_id ti;
     item_code := item_code ti; item_name := item_name ti;
     item_frequency := item_frequency ti; item_status := item_status ti;
     item_created_date := item_created_date ti;
     item_updated_date := item_updated_date ti |} = ti.
Proof. destruct ti; reflexivity. Qed.

Lemma catalogue_In patientId date w row :
  In row (catalogue_items (getAllCategoriesWithSelectableItems patientId date w))
  <-> exists cat,
        In cat (categories w) /\ cat_status cat = "active"
        /\ item_category_id (tis_item row) = cat_id cat
        /\ offered w (tis_item row)
        /\ (tis_selected row = true
            <-> has_selected_entry w patientId (item_id (tis_item row))).
Proof.
  unfold catalogue_items, getAllCategoriesWithSelectableItems.
  rewrite in_flat_map. split.
  - intros (rec & Hrec & Hrow). apply in_map_iff in Hrec as (cat & <- & Hcat).
    apply filter_In in Hcat as [Hcat Ec]. apply String.eqb_eq in Ec.
    simpl in Hrow. apply in_map_iff in Hrow as ([ti flag] & <- & H).
    apply filter_In in H as [H Ecat]. simpl in Ecat. apply Z.eqb_eq in Ecat.
    apply selectable_rows_In in H as [Ho ->]. simpl. rewrite item_eta.
    exists cat. split; [exact Hcat|]. split; [exact Ec|]. split; [exact Ecat|].
    split; [exact Ho|]. split.
    + intros F. apply selected_entry_existsb. destruct (existsb _ _); [reflexivity|].
      discriminate F.
    + intros S. apply selected_entry_existsb in S. rewrite S. reflexivity.
  - intros (cat & Hcat & Ec & Ecat & Ho & Hs).
    exists {| tcs_category := cat;
              tcs_items :=
                map (fun item =>
                       {| tis_item :=
                            {| item_id := item_id (fst item);
                               item_category_id := item_category_id (fst item);
                               item_code := item_code (fst item);
                               item_name := item_name (fst item);
                               item_frequency := item_frequency (fst item);
                               item_status := item_status (fst item);
                               item_created_date := item_created_date (fst item);
                               item_updated_date := item_updated_date (fst item) |};
                          tis_selected := snd item =? 1 |})
                  (List.filter (fun item => item_category_id (fst item) =? cat_id cat)
                     (selectable_rows w patientId)) |}.
    split.
    + apply in_map_iff. exists cat. split; [reflexivity|].
      apply filter_In. split; [exact Hcat|]. rewrite Ec. reflexivity.
    + simpl. apply in_map_iff.
      exists (tis_item row,
              if existsb (fun tie2 => (entry_track_item_id tie2 =? item_id (tis_item row))
                                      && (entry_patient_id tie2 =? patientId)
                                      && (entry_selected tie2 =? 1))
                   (entries w)
              then 1 else 0).
      split.
      * simpl. rewrite item_eta. destruct row as [ti sel]. simpl in *. f_equal.
        destruct (existsb _ _) eqn:X.
        -- apply selected_entry_existsb in X. apply Hs in X. rewrite X. reflexivity.
        -- destruct sel; [|reflexivity].
           assert (T : true = true) by reflexivity. apply Hs in T.
           apply selected_entry_existsb in T. congruence.
      * apply filter_In. split; [|simpl; apply Z.eqb_eq, Ecat].
        apply selectable_rows_In. split; [exact Ho|reflexivity].
Qed.

(** X6: the catalogue of [getAllCategoriesWithSelectableItems] lists
    exactly the active items of active categories, and flags an item as
    selected exactly when the patient has an entry of it with [selected = 1]
    on any date, which is exactly when the subscription query of
    [ensureSubscribedEntries] returns the item for the patient; the date
    passed in plays no part. *)
Theorem catalogue_flag_is_subscription patientId date w :
  (forall row,
     In row (catalogue_items (getAllCategoriesWithSelectableItems patientId date w)) ->
     offered w (tis_item row)
     /\ (tis_selected row = true
         <-> has_selected_entry w patientId (item_id (tis_item row)))
     /\ (tis_selected row = true
         <-> In (item_id (tis_item row), item_frequency (tis_item row))
               (subscribedItems w patientId)))
  /\ (forall ti, offered w ti ->
        exists row,
          In row (catalogue_items (getAllCategoriesWithSelectableItems patientId date w))
          /\ tis_item row = ti)
  /\ (forall other,
        getAllCategoriesWithSelectableItems patientId other w
        = getAllCategoriesWithSelectableItems patientId date w).
Proof.
  split; [|split; [|reflexivity]].
  - intros row H. apply catalogue_In in H as (cat & Hcat & Ec & Ecat & Ho & Hs).
    split; [exact Ho|]. split; [exact Hs|]. rewrite Hs, subscribedItems_spec.
    destruct Ho as (Hti & Es & tc & Htc & E1 & E2). split.
    + intros S. exists (tis_item row), tc. repeat split; auto.
    + intros (ti & tc' & _ & _ & _ & _ & _ & E & S). inversion E as [[Ei Ef]].
      rewrite Ei. exact S.
  - intros ti Ho.
    assert (D : {has_selected_entry w patientId (item_id ti)}
                + {~ has_selected_entry w patientId (item_id ti)}).
    { destruct (existsb (fun tie2 => (entry_track_item_id tie2 =? item_id ti)
                                     && (entry_patient_id tie2 =? patientId)
                                     && (entry_selected tie2 =? 1)) (entries w)) eqn:X.
      - left. apply selected_entry_existsb, X.
      - right. intros S. apply selected_entry_existsb in S. congruence. }
    destruct Ho as (Hti & Es & tc & Htc & E1 & E2).
    exists {| tis_item := ti; tis_selected := if D then true else false |}.
    split; [|reflexivity]. apply catalogue_In. exists tc. simpl.
    repeat split; auto; try (exists tc; auto).
    + destruct D; [auto|discriminate].
    + intros S. destruct D; [reflexivity|contradiction].
Qed.

Section Links.

Variable tz : Z.
Variable Date_parse_other : string -> option Z.
Variable now : string.

Local Abbreviation link := (addTrackItemOnDate tz Date_parse_other now).
Local Abbreviation unlink := (removeTrackItemFromDate now).

Lemma link_frame itemId userId patientId date w :
  patients (link itemId userId patientId date w) = patients w
  /\ categories (link itemId userId patientId date w) = categories w
  /\ items (link itemId userId patientId date w) = items w
  /\ questions (link itemId userId patientId date w) = questions w
  /\ options (link itemId userId patientId date w) = options w
  /\ responses (link itemId userId patientId date w) = responses w.
Proof.
  unfold addTrackItemOnDate.
  destruct (List.find (entry_matches _ _ _) (entries w)); repeat split.
Qed.

Lemma link_selected itemId userId patientId date w :
  has_selected_entry (link itemId userId patientId date w) patientId itemId.
Proof.
  unfold addTrackItemOnDate.
  destruct (List.find (entry_matches _ _ _) (entries w)) as [e|] eqn:F.
  - apply find_some in F as [He M]. unfold entry_matches in M.
    apply andb_prop in M as [M _]. apply andb_prop in M as [M1 M2].
    apply Z.eqb_eq in M1, M2.
    exists (entry_with_selected e 1 now). simpl. repeat split; auto.
    unfold update_entry_by_id. apply in_map_iff. exists e.
    rewrite Z.eqb_refl. auto.
  - eexists. split; [simpl; apply in_or_app; right; left; reflexivity|].
    repeat split.
Qed.

Lemma unlink_not_selected itemId userId patientId date w :
  ~ has_selected_entry (unlink itemId userId patientId date w) patientId itemId.
Proof.
  intros (e & He & E1 & E2 & E3). simpl in He. unfold deselect_entries in He.
  apply in_map_iff in He as (e0 & <- & _).
  destruct ((entry_patient_id e0 =? patientId) && (entry_track_item_id e0 =? itemId)) eqn:C.
  - simpl in E3. discriminate E3.
  - rewrite E1, E2, !Z.eqb_refl in C. discriminate C.
Qed.

Lemma unlink_others itemId userId patientId date w p i :
  p <> patientId \/ i <> itemId ->
  (has_selected_entry (unlink itemId userId patientId date w) p i
   <-> has_selected_entry w p i).
Proof.
  intros N. split.
  - intros (e & He & E1 & E2 & E3). simpl in He. unfold deselect_entries in He.
    apply in_map_iff in He as (e0 & <- & He0).
    destruct ((entry_patient_id e0 =? patientId) && (entry_track_item_id e0 =? itemId)).
    + simpl in E3. discriminate E3.
    + exists e0. auto.
  - intros (e & He & E1 & E2 & E3). exists e. split; [|auto].
    simpl. unfold deselect_entries. apply in_map_iff. exists e. split; [|exact He].
    destruct (Z.eqb_spec (entry_patient_id e) patientId) as [P|P];
      destruct (Z.eqb_spec (entry_track_item_id e) itemId) as [I|I]; simpl; auto.
    destruct N; congruence.
Qed.

Lemma offered_same w w' ti :
  items w' = items w -> categories w' = categories w -> offered w' ti <-> offered w ti.
Proof. intros I C. unfold offered. rewrite I, C. reflexivity. Qed.

End Links.

(** X7: linking and unlinking show in the catalogue.  After
    [addTrackItemOnDate] every catalogue row of the item is flagged
    selected for the patient, on whatever date the catalogue is asked for;
    after [removeTrackItemFromDate] every catalogue row of the item is
    flagged not selected, whatever date was passed to the removal; neither
    call changes which items the catalogue lists. *)
Theorem catalogue_follows_links tz Date_parse_other now itemId userId patientId date
    shown w :
  let linked := addTrackItemOnDate tz Date_parse_other now itemId userId patientId date w in
  let unlinked := removeTrackItemFromDate now itemId userId patientId date w in
  (forall row,
     In row (catalogue_items (getAllCategoriesWithSelectableItems patientId shown linked)) ->
     item_id (tis_item row) = itemId -> tis_selected row = true)
  /\ (forall row,
        In row (catalogue_items
                  (getAllCategoriesWithSelectableItems patientId shown unlinked)) ->
        item_id (tis_item row) = itemId -> tis_selected row = false)
  /\ (forall ti, offered linked ti <-> offered w ti)
  /\ (forall ti, offered unlinked ti <-> offered w ti).
Proof.
  cbv zeta. split; [|split; [|split]].
  - intros row H E. apply catalogue_In in H as (_ & _ & _ & _ & _ & Hs).
    apply Hs. rewrite E. apply link_selected.
  - intros row H E. apply catalogue_In in H as (_ & _ & _ & _ & _ & Hs).
    destruct (tis_selected row); [|reflexivity].
    exfalso. apply (unlink_not_selected now itemId userId patientId date w).
    rewrite E in Hs. apply Hs. reflexivity.
  - intros ti.
    destruct (link_frame tz Date_parse_other now itemId userId patientId date w)
      as (_ & C & I & _).
    apply offered_same; assumption.
  - intros ti. apply offered_same; reflexivity.
Qed.

End Catalogue.

(** ** Links between patients and items *)

Module Links.

Import Vocabulary Subscription Catalogue.
Local Open Scope string_scope.
Local Open Scope Z_scope.

Lemma unique_entry w a c :
  entry_ids_unique w -> In a (entries w) -> In c (entries w) ->
  entry_id a = entry_id c -> a = c.
Proof.
  unfold entry_ids_unique. induction (entries w) as [|x l IH]; [contradiction|].
  simpl. intros U Ha Hc E. inversion U as [|? ? Hn U']; subst.
  destruct Ha as [->|Ha], Hc as [->|Hc]; auto.
  - exfalso. apply Hn. rewrite E. apply in_map, Hc.
  - exfalso. apply Hn. rewrite <- E. apply in_map, Ha.
Qed.

Lemma entry_matches_true itemId patientId date e :
  entry_matches itemId patientId date e = true
  <-> entry_track_item_id e = itemId /\ entry_patient_id e = patientId
      /\ entry_date e = date.
Proof.
  unfold entry_matches. rewrite !andb_true_iff, !Z.eqb_eq, String.eqb_eq. tauto.
Qed.

Section Ensuring.

Variable tz : Z.
Variable Date_parse_other : string -> option Z.
Variable now : string.
Variable patientId : Z.
Variable patient : Patient.
Variable date : string.

Local Abbreviation step := (ensure_entry tz Date_parse_other now patientId patient date).

Local Abbreviation written := (written_for tz Date_parse_other patientId date).

Lemma step_new w item e' :
  entry_ids_unique w -> In e' (entries (step w item)) ->
  In e' (entries w) \/ written item e'.
Proof.
  intros U. unfold ensure_entry.
  destruct (shouldCreateEntryForDate tz Date_parse_other date (snd item)) eqn:B;
    [|left; assumption]. simpl.
  destruct (List.find _ (entries w)) as [x|] eqn:F.
  - destruct (negb (entry_selected x =? 1)); [|left; assumption]. simpl.
    unfold update_entry_by_id. intros H. apply in_map_iff in H as (e0 & <- & He0).
    destruct (entry_id e0 =? entry_id x) eqn:Q; [|left; exact He0].
    apply Z.eqb_eq in Q. apply find_some in F as [Hx Mx].
    assert (e0 = x) by (eapply unique_entry; eauto). subst e0.
    apply entry_matches_true in Mx as (M1 & M2 & M3).
    right. unfold written_for. simpl. rewrite B. auto.
  - unfold insert_entry. simpl. intros H. apply in_app_or in H as [H|[<-|[]]];
      [left; exact H|].
    right. unfold written_for. simpl. rewrite B. auto.
Qed.

Lemma step_keeps w item e :
  entry_ids_unique w -> In e (entries w) ->
  entry_patient_id e <> patientId \/ entry_selected e = 1 ->
  In e (entries (step w item)).
Proof.
  intros U He K. unfold ensure_entry.
  destruct (negb _); [exact He|].
  destruct (List.find _ (entries w)) as [x|] eqn:F.
  - destruct (negb (entry_selected x =? 1)) eqn:S; [|exact He]. simpl.
    unfold update_entry_by_id. apply in_map_iff. exists e. split; [|exact He].
    destruct (entry_id e =? entry_id x) eqn:Q; [|reflexivity].
    exfalso. apply Z.eqb_eq in Q. apply find_some in F as [Hx Mx].
    assert (e = x) by (eapply unique_entry; eauto). subst e.
    apply entry_matches_true in Mx as (M1 & M2 & M3).
    apply negb_true_iff, Z.eqb_neq in S. destruct K; contradiction.
  - unfold insert_entry. simpl. apply in_or_app. left. exact He.
Qed.

Lemma step_length w item :
  (List.length (entries w) <= List.length (entries (step w item))
   <= S (List.length (entries w)))%nat.
Proof.
  unfold ensure_entry. destruct (negb _); [lia|].
  destruct (List.find _ (entries w)) as [x|].
  - destruct (negb _); simpl; [|lia]. unfold update_entry_by_id.
    rewrite List.length_map. lia.
  - unfold insert_entry. simpl. rewrite List.length_app. simpl. lia.
Qed.

Lemma fold_new l : forall w e',
  entry_ids_unique w -> In e' (entries (fold_left step l w)) ->
  In e' (entries w) \/ exists item, In item l /\ written item e'.
Proof.
  induction l as [|a l IH]; intros w e' U H; simpl in H; [left; exact H|].
  destruct (IH (step w a) e' (step_unique tz Date_parse_other now patientId patient
                                date w a U) H) as [K|(item & Hi & K)].
  - destruct (step_new w a e' U K) as [K'|K']; [left; exact K'|].
    right. exists a. split; [left; reflexivity|exact K'].
  - right. exists item. split; [right; exact Hi|exact K].
Qed.

Lemma fold_keeps l : forall w e,
  entry_ids_unique w -> In e (entries w) ->
  entry_patient_id e <> patientId \/ entry_selected e = 1 ->
  In e (entries (fold_left step l w)).
Proof.
  induction l as [|a l IH]; intros w e U He K; simpl; [exact He|].
  apply IH; [apply step_unique, U|apply step_keeps; assumption|exact K].
Qed.

Lemma fold_length l : forall w,
  (List.length (entries w) <= List.length (entries (fold_left step l w))
   <= List.length (entries w) + List.length l)%nat.
Proof.
  induction l as [|a l IH]; intros w; simpl; [lia|].
  pose proof (step_length w a). pose proof (IH (step w a)). lia.
Qed.

End Ensuring.

(** Every entry after a run of the inference is an old one or one the
    run wrote. *)
Lemma ensured_or_old tz Date_parse_other now patientId date w e' :
  entry_ids_unique w ->
  In e' (entries (ensureSubscribedEntries tz Date_parse_other now patientId date w)) ->
  In e' (entries w) \/ ensured_entry tz Date_parse_other w patientId date e'.
Proof.
  intros U. unfold ensureSubscribedEntries.
  destruct (subscribedItems w patientId) as [|s0 l] eqn:ES; [auto|].
  destruct (List.find _ (patients w)) as [patient|]; [|auto].
  rewrite <- ES. intros H.
  destruct (fold_new tz Date_parse_other now patientId patient date _ w e' U H)
    as [K|([i f] & Hi & (K1 & K2 & K3 & K4 & K5))]; [left; exact K|].
  right. split; [exact K1|]. split; [exact K2|]. exists f. simpl in *.
  rewrite K3. auto.
Qed.

(** X13: what [ensureSubscribedEntries] writes and what it leaves alone.
    With unique entry ids, every entry of the store after the call is an
    entry of the store before it, unchanged, or is an entry of the patient,
    selected, of an item the patient was subscribed to, dated with the date
    normalised by the frequency of that item, the date being a boundary of
    that frequency; the entries of other patients and the entries that
    were selected are all still there unchanged; no entry is removed and at
    most one entry per subscribed item is added. *)
Theorem ensureSubscribedEntries_frame tz Date_parse_other now patientId date w :
  entry_ids_unique w ->
  let w' := ensureSubscribedEntries tz Date_parse_other now patientId date w in
  (forall e', In e' (entries w') ->
     In e' (entries w) \/ ensured_entry tz Date_parse_other w patientId date e')
  /\ (forall e, In e (entries w) ->
        entry_patient_id e <> patientId \/ entry_selected e = 1 ->
        In e (entries w'))
  /\ (List.length (entries w) <= List.length (entries w')
      <= List.length (entries w) + List.length (subscribedItems w patientId))%nat
  /\ entry_ids_unique w'.
Proof.
  intros U. cbv zeta.
  split; [intros e' H; apply (ensured_or_old tz Date_parse_other now); assumption|].
  unfold ensureSubscribedEntries.
  destruct (subscribedItems w patientId) as [|s0 l] eqn:ES.
  { repeat split; auto; simpl; lia. }
  destruct (List.find _ (patients w)) as [patient|].
  2:{ repeat split; auto; simpl; lia. }
  rewrite <- ES. split; [|split].
  - intros e He K. apply fold_keeps; assumption.
  - apply fold_length.
  - clear ES. generalize (subscribedItems w patientId) as l0. intros l0.
    revert w U. induction l0 as [|a l' IH]; intros w0 U0; simpl; [exact U0|].
    apply IH, step_unique, U0.
Qed.

Lemma ensureSubscribedEntries_frame_witness :
  (List.length (entries clinic)
   <= List.length (entries (ensureSubscribedEntries 0 no_other_dates "t1" 7
                              "01-08-2024" clinic))
   <= List.length (entries clinic) + List.length (subscribedItems clinic 7))%nat.
Proof.
  refine (proj1 (proj2 (proj2 (ensureSubscribedEntries_frame 0 no_other_dates "t1" 7
                                 "01-08-2024" clinic _)))).
  unfold entry_ids_unique. simpl. constructor; [intros []|constructor].
Defined.

(** X12: after [ensureSubscribedEntries], when the patient has a row,
    every item the patient was subscribed to has, if the date is a boundary
    of its frequency, an entry of the patient under the normalised date,
    and the first such entry is selected. *)
Theorem subscribed_items_get_entries tz Date_parse_other now patientId date w
    patient item :
  List.find (fun p => patient_id p =? patientId) (patients w) = Some patient ->
  In item (subscribedItems w patientId) ->
  shouldCreateEntryForDate tz Date_parse_other date (snd item) = true ->
  exists e,
    List.find (entry_matches (fst item) patientId
                 (normalizeDateByFrequency tz Date_parse_other date (snd item)))
      (entries (ensureSubscribedEntries tz Date_parse_other now patientId date w))
    = Some e
    /\ entry_selected e = 1.
Proof.
  intros EP Hi B. unfold ensureSubscribedEntries. rewrite EP.
  destruct (subscribedItems w patientId) as [|s0 l] eqn:ES; [contradiction|].
  destruct (proj1 (fold_settles tz Date_parse_other now patientId patient date
                     (s0 :: l) w) item Hi) as [K|K]; [congruence|exact K].
Qed.

Lemma subscribed_items_get_entries_witness :
  exists e,
    List.find (entry_matches 3 7 "01-08-2024")
      (entries (ensureSubscribedEntries 0 no_other_dates "t1" 7 "01-08-2024" clinic))
    = Some e
    /\ entry_selected e = 1.
Proof.
  refine (subscribed_items_get_entries 0 no_other_dates "t1" 7 "01-08-2024" clinic
            {| patient_id := 7; patient_user_id := "u7" |} (3, DAILY) _ _ _).
  - reflexivity.
  - left. reflexivity.
  - reflexivity.
Defined.

Lemma ensure_selected_backward tz Date_parse_other now patientId date w id :
  entry_ids_unique w ->
  has_selected_entry (ensureSubscribedEntries tz Date_parse_other now patientId date w)
    patientId id ->
  has_selected_entry w patientId id.
Proof.
  intros U (e & He & E1 & E2 & E3).
  destruct (ensured_or_old tz Date_parse_other now patientId date w e U He)
    as [K|(_ & _ & f & Hf & _)]; [exists e; auto|].
  apply subscribedItems_spec in Hf as (ti & tc & _ & _ & _ & _ & _ & E & S).
  inversion E as [[Ei Ef]]. rewrite <- E1, Ei. exact S.
Qed.

Lemma unlink_unique now itemId userId patientId date w :
  entry_ids_unique w ->
  entry_ids_unique (removeTrackItemFromDate now itemId userId patientId date w).
Proof.
  unfold entry_ids_unique. simpl. unfold deselect_entries. rewrite map_map.
  intros U. erewrite map_ext; [exact U|].
  intros e. simpl. destruct (_ && _); reflexivity.
Qed.

(** X8: an unlinked item stays unlinked.  After
    [removeTrackItemFromDate], whatever date was passed, the patient has no
    selected entry of the item and the subscription query no longer returns
    the item for the patient; with unique entry ids, a later
    [ensureSubscribedEntries] for any date leaves it so; the selected
    entries of other patients and of other items are not touched. *)
Theorem unlinked_item_stays_unlinked tz Date_parse_other now itemId userId patientId
    date later w :
  entry_ids_unique w ->
  let w1 := removeTrackItemFromDate now itemId userId patientId date w in
  ~ has_selected_entry w1 patientId itemId
  /\ (forall f, ~ In (itemId, f) (subscribedItems w1 patientId))
  /\ ~ has_selected_entry
         (ensureSubscribedEntries tz Date_parse_other now patientId later w1)
         patientId itemId
  /\ (forall p i, p <> patientId \/ i <> itemId ->
        (has_selected_entry w1 p i <-> has_selected_entry w p i)).
Proof.
  intros U. cbv zeta.
  pose proof (unlink_not_selected now itemId userId patientId date w) as N.
  split; [exact N|]. split; [|split].
  - intros f H. apply subscribedItems_spec in H as (ti & tc & _ & _ & _ & _ & _ & E & S).
    inversion E as [[Ei Ef]]. rewrite <- Ei in S. exact (N S).
  - intros S. apply N. eapply ensure_selected_backward; [|exact S].
    apply unlink_unique, U.
  - intros p i. apply unlink_others.
Qed.

Lemma unlinked_item_stays_unlinked_witness :
  ~ has_selected_entry
      (ensureSubscribedEntries 0 no_other_dates "t1" 7 "01-08-2024"
         (removeTrackItemFromDate "t1" 3 "u7" 7 "01-05-2024" clinic))
      7 3.
Proof.
  refine (proj1 (proj2 (proj2 (unlinked_item_stays_unlinked 0 no_other_dates "t1" 3
                                 "u7" 7 "01-05-2024" "01-08-2024" clinic _)))).
  unfold entry_ids_unique. simpl. constructor; [intros []|constructor].
Defined.

(** X9: [removeCustomGoal] withdraws the item from every patient but
    deselects the entries of one.  After the call every item row with the
    id is inactive, so the subscription query returns the item for no
    patient and the catalogue lists it for no patient; the entries of the
    given patient for the item are deselected, while for every other
    patient the entries of the item stay as they were, selected ones
    included; questions and options of the item are left as they are. *)
Theorem removed_goal_is_withdrawn now trackItemId patientId w :
  let w' := removeCustomGoal now trackItemId patientId w in
  (forall i, In i (items w') -> item_id i = trackItemId -> item_status i = "inactive")
  /\ (forall p f, ~ In (trackItemId, f) (subscribedItems w' p))
  /\ (forall p date row,
        In row (catalogue_items (getAllCategoriesWithSelectableItems p date w')) ->
        item_id (tis_item row) <> trackItemId)
  /\ ~ has_selected_entry w' patientId trackItemId
  /\ (forall p i, p <> patientId \/ i <> trackItemId ->
        (has_selected_entry w' p i <-> has_selected_entry w p i))
  /\ questions w' = questions w /\ options w' = options w
  /\ responses w' = responses w.
Proof.
  cbv zeta.
  assert (I : forall i, In i (items (removeCustomGoal now trackItemId patientId w)) ->
                item_id i = trackItemId -> item_status i = "inactive").
  { simpl. intros i H E. apply in_map_iff in H as (i0 & <- & _).
    destruct (item_id i0 =? trackItemId) eqn:Q; [reflexivity|].
    apply Z.eqb_neq in Q. contradiction. }
  split; [exact I|]. split; [|split; [|split; [|split]]].
  - intros p f H. apply subscribedItems_spec in H as (ti & tc & Hti & _ & _ & _ & A & E & _).
    inversion E as [[Ei Ef]]. symmetry in Ei.
    rewrite (I ti Hti Ei) in A. discriminate A.
  - intros p date row H E.
    apply catalogue_In in H as (_ & _ & _ & _ & (Hti & A & _) & _).
    rewrite (I _ Hti E) in A. discriminate A.
  - intros (e & He & E1 & E2 & E3). simpl in He.
    apply in_map_iff in He as (e0 & <- & _).
    destruct ((entry_track_item_id e0 =? trackItemId) && (entry_patient_id e0 =? patientId))
      eqn:C.
    + simpl in E3. discriminate E3.
    + rewrite E1, E2, !Z.eqb_refl in C. discriminate C.
  - intros p i N. split.
    + intros (e & He & E1 & E2 & E3). simpl in He.
      apply in_map_iff in He as (e0 & <- & He0).
      destruct ((entry_track_item_id e0 =? trackItemId)
                && (entry_patient_id e0 =? patientId)).
      * simpl in E3. discriminate E3.
      * exists e0. auto.
    + intros (e & He & E1 & E2 & E3). exists e. split; [|auto].
      simpl. apply in_map_iff. exists e. split; [|exact He].
      destruct (Z.eqb_spec (entry_track_item_id e) trackItemId) as [A|A];
        destruct (Z.eqb_spec (entry_patient_id e) patientId) as [B|B]; simpl; auto.
      destruct N; congruence.
  - repeat split.
Qed.

Section Linking.

Variable tz : Z.
Variable Date_parse_other : string -> option Z.
Variable now : string.
Variables (itemId : Z) (userId : string) (patientId : Z) (date : string).

Local Abbreviation link := (addTrackItemOnDate tz Date_parse_other now itemId userId
                              patientId date).
Local Abbreviation bucket w :=
  (normalizeDateByFrequency tz Date_parse_other date (frequency_of w itemId)).

Lemma link_entries w :
  entries (link w)
  = match List.find (entry_matches itemId patientId (bucket w)) (entries w) with
    | Some existing => update_entry_by_id (entry_id existing) 1 now (entries w)
    | None =>
        (entries w ++ [new_entry (fresh_id (map entry_id (entries w))) userId patientId
                         itemId (bucket w) now])%list
    end.
Proof.
  unfold addTrackItemOnDate, frequency_of.
  destruct (List.find (entry_matches _ _ _) (entries w)); reflexivity.
Qed.

Lemma link_world w : link w = set_entries w (entries (link w)).
Proof.
  unfold addTrackItemOnDate.
  destruct (List.find (entry_matches _ _ _) (entries w)); reflexivity.
Qed.

Lemma link_found w :
  exists e, List.find (entry_matches itemId patientId (bucket w)) (entries (link w))
            = Some e
            /\ entry_selected e = 1 /\ entry_updated_date e = now
            /\ update_entry_by_id (entry_id e) 1 now (entries (link w))
               = entries (link w).
Proof.
  rewrite link_entries.
  destruct (List.find _ (entries w)) as [x|] eqn:F.
  - exists (entry_with_selected x 1 now). unfold update_entry_by_id.
    rewrite find_map_same by (intros y; apply entry_matches_update).
    rewrite F. simpl. rewrite Z.eqb_refl. repeat split.
    rewrite map_map. apply map_ext. intros y.
    destruct (entry_id y =? entry_id x) eqn:Q; simpl; rewrite Q; reflexivity.
  - eexists. rewrite find_app_one, F.
    unfold entry_matches at 1. simpl. rewrite !Z.eqb_refl, String.eqb_refl. simpl.
    split; [reflexivity|]. repeat split.
    unfold update_entry_by_id. rewrite map_app. simpl. rewrite Z.eqb_refl. f_equal.
    rewrite <- (map_id (entries w)) at 2. apply map_ext_in. intros y Hy.
    destruct (Z.eqb_spec (entry_id y) (fresh_id (map entry_id (entries w)))) as [E|N];
      [|reflexivity].
    exfalso. apply (fresh_id_not_in (map entry_id (entries w))).
    rewrite <- E. apply in_map, Hy.
Qed.

Lemma frequency_of_same w w' : items w' = items w -> frequency_of w' itemId = frequency_of w itemId.
Proof. unfold frequency_of. intros ->. reflexivity. Qed.

End Linking.

(** X10: what [addTrackItemOnDate] leaves behind.  The date is
    normalised by the frequency of the item, daily when no item has the
    id; after the call the first entry of the patient for the item under
    the normalised date is selected and stamped with the timestamp of the
    module; the call adds one row when no such entry existed and none when
    one did, and touches no other table. *)
Theorem addTrackItemOnDate_links tz Date_parse_other now itemId userId patientId date w :
  let bucket := normalizeDateByFrequency tz Date_parse_other date (frequency_of w itemId) in
  let w' := addTrackItemOnDate tz Date_parse_other now itemId userId patientId date w in
  (exists e, List.find (entry_matches itemId patientId bucket) (entries w') = Some e
             /\ entry_selected e = 1 /\ entry_updated_date e = now)
  /\ List.length (entries w')
     = (List.length (entries w)
        + if existsb (entry_matches itemId patientId bucket) (entries w) then 0 else 1)%nat
  /\ has_selected_entry w' patientId itemId
  /\ ((forall i, In i (items w) -> item_id i <> itemId) -> frequency_of w itemId = DAILY)
  /\ items w' = items w /\ questions w' = questions w /\ responses w' = responses w.
Proof.
  cbv zeta.
  destruct (link_found tz Date_parse_other now itemId userId patientId date w)
    as (e & F & S & T & _).
  split; [exists e; auto|]. split; [|split; [|split]].
  - rewrite link_entries, Responses.find_existsb.
    destruct (List.find _ (entries w)).
    + unfold update_entry_by_id. rewrite List.length_map. lia.
    + rewrite List.length_app. reflexivity.
  - apply link_selected.
  - intros H. unfold frequency_of.
    destruct (List.find _ (items w)) as [i|] eqn:Fi; [|reflexivity].
    apply find_some in Fi as [Hi E]. apply Z.eqb_eq in E. exfalso. exact (H i Hi E).
  - destruct (link_frame tz Date_parse_other now itemId userId patientId date w)
      as (_ & _ & I & Q & _ & R). auto.
Qed.

(** X11: linking again adds nothing.  A second [addTrackItemOnDate] with
    the same arguments leaves the store exactly as the first one left it;
    and after a removal of the item for the patient, whatever date and user
    the removal names, linking again brings no new row: the entry that was
    there is selected again. *)
Theorem addTrackItemOnDate_relink tz Date_parse_other now itemId userId patientId date w :
  let link := addTrackItemOnDate tz Date_parse_other now itemId userId patientId date in
  link (link w) = link w
  /\ (forall user other,
        let relinked :=
          link (removeTrackItemFromDate now itemId user patientId other (link w)) in
        List.length (entries relinked) = List.length (entries (link w))
        /\ has_selected_entry relinked patientId itemId).
Proof.
  cbv zeta.
  destruct (link_found tz Date_parse_other now itemId userId patientId date w)
    as (e & F & S & T & Fix).
  destruct (link_frame tz Date_parse_other now itemId userId patientId date w)
    as (_ & _ & I & _).
  split.
  - rewrite (link_world tz Date_parse_other now itemId userId patientId date
               (addTrackItemOnDate tz Date_parse_other now itemId userId patientId date w)).
    rewrite link_entries, (frequency_of_same itemId _ _ I), F, Fix.
    rewrite (link_world tz Date_parse_other now itemId userId patientId date w) at 3.
    rewrite (link_world tz Date_parse_other now itemId userId patientId date w) at 1.
    reflexivity.
  - intros user other. split; [|apply link_selected].
    rewrite link_entries.
    assert (Fr : frequency_of (removeTrackItemFromDate now itemId user patientId other
                                 (addTrackItemOnDate tz Date_parse_other now itemId userId
                                    patientId date w)) itemId
                 = frequency_of w itemId).
    { apply frequency_of_same. simpl. exact I. }
    rewrite Fr. simpl entries at 1 2. unfold deselect_entries.
    rewrite find_map_same.
    2:{ intros y. destruct (_ && _); reflexivity. }
    rewrite F. simpl. unfold update_entry_by_id. rewrite !List.length_map. reflexivity.
Qed.

End Links.

(** ** Dates of any form *)

Module DateTexts.

Import Js Vocabulary Calendar Decimal_text DateNormalizer.
Local Open Scope string_scope.
Local Open Scope Z_scope.

(** The text of a year from 1000 to 9999 has four digits. *)
Lemma year_text_length y :
  1000 <= y <= 9999 -> String.length (Z_toString y) = 4%nat.
Proof.
  intros H.
  assert (A : forallb (fun k => Nat.eqb (String.length (Z_toString (1000 + Z.of_nat k))) 4)
                (seq 0 (Z.to_nat 9000)) = true) by (vm_compute; reflexivity).
  rewrite forallb_forall in A.
  specialize (A (Z.to_nat (y - 1000))).
  replace (1000 + Z.of_nat (Z.to_nat (y - 1000))) with y in A by lia.
  apply Nat.eqb_eq, A, in_seq. lia.
Qed.

Lemma digits_value_text n :
  0 <= n -> digits_value (Z_toString n) 0 false = Some n.
Proof.
  intros H. pose proof (parseInt10_Z_toString n H) as P.
  pose proof (all_digits_Z_toString n H) as D.
  destruct (Z_toString n) as [|c s]; [discriminate P|].
  simpl in D. apply andb_prop in D as [Dc _].
  rewrite parseInt10_digits in P by exact Dc. exact P.
Qed.

Lemma digits_value_padded n :
  0 <= n -> digits_value (padStart2 (Z_toString n)) 0 false = Some n.
Proof.
  intros H. pose proof (parseInt10_padStart2 n H) as P.
  pose proof (all_digits_padStart2 _ (all_digits_Z_toString n H)) as D.
  destruct (padStart2 (Z_toString n)) as [|c s]; [discriminate P|].
  simpl in D. apply andb_prop in D as [Dc _].
  rewrite parseInt10_digits in P by exact Dc. exact P.
Qed.

(** The date-only text of a date of the calendar is read as that date. *)
Lemma iso_text_read y m d :
  1000 <= y <= 9999 -> 1 <= m <= 12 -> 1 <= d <= DaysInMonth y (m - 1) ->
  iso_date_prefix (iso_text y m d) = true
  /\ iso_date_only (iso_text y m d) = Some (y, m, d).
Proof.
  intros Hy Hm Hd. pose proof (DaysInMonth_le_31 y (m - 1)) as H31.
  pose proof (year_text_length y Hy) as L.
  pose proof (all_digits_Z_toString y ltac:(lia)) as Dy.
  pose proof (digits_value_text y ltac:(lia)) as Vy.
  pose proof (all_digits_padStart2 _ (all_digits_Z_toString m ltac:(lia))) as Dm.
  pose proof (digits_value_padded m ltac:(lia)) as Vm.
  pose proof (all_digits_padStart2 _ (all_digits_Z_toString d ltac:(lia))) as Dd.
  pose proof (digits_value_padded d ltac:(lia)) as Vd.
  destruct (padStart2_two_chars m ltac:(lia)) as (m1 & m2 & Em).
  destruct (padStart2_two_chars d ltac:(lia)) as (d1 & d2 & Ed).
  unfold iso_text. rewrite Em, Ed in *.
  destruct (Z_toString y) as [|y1 [|y2 [|y3 [|y4 [|? ?]]]]]; try discriminate L.
  simpl in Dy, Dm, Dd.
  repeat match goal with H : _ && _ = true |- _ => apply andb_prop in H as [? H] end.
  change (String y1 (String y2 (String y3 (String y4 ""))) ++
          String "-" (String m1 (String m2 "") ++ String "-" (String d1 (String d2 ""))))
    with (String y1 (String y2 (String y3 (String y4 (String "-"
            (String m1 (String m2 (String "-" (String d1 (String d2 "")))))))))).
  assert (P : iso_date_prefix
                (String y1 (String y2 (String y3 (String y4 (String "-"
                   (String m1 (String m2 (String "-" (String d1 (String d2 ""))))))))))
              = true).
  { cbn. repeat match goal with H : is_digit _ = true |- _ => rewrite H end. reflexivity. }
  split; [exact P|].
  unfold iso_date_only. rewrite P.
  change (String.length _) with 10%nat. cbn [Nat.eqb andb].
  change (substring 0 4 _) with (String y1 (String y2 (String y3 (String y4 "")))).
  change (substring 5 2 _) with (String m1 (String m2 "")).
  change (substring 8 2 _) with (String d1 (String d2 "")).
  rewrite Vy, Vm, Vd.
  replace ((1 <=? m) && (m <=? 12) && (1 <=? d) && (d <=? DaysInMonth y (m - 1)))
    with true; [reflexivity|].
  symmetry. rewrite !andb_true_iff, !Z.leb_le. lia.
Qed.

Section AnyDate.

Variable tz : Z.
Variable Date_parse_other : string -> option Z.
Hypothesis tz_bound : - msPerDay <= tz <= msPerDay.

Local Abbreviation parse := (parseMMDDYYYY tz Date_parse_other).
Local Abbreviation format := (formatMMDDYYYY tz).
Local Abbreviation normalize := (normalizeDateByFrequency tz Date_parse_other).
Local Abbreviation boundary := (shouldCreateEntryForDate tz Date_parse_other).

(** The local calendar day of a time value. *)
Lemma format_time t : format (Some t) = fmt_day (local_day tz t).
Proof. reflexivity. Qed.

Lemma local_day_midnight n : local_day tz (n * msPerDay - tz) = n.
Proof.
  unfold local_day. replace (n * msPerDay - tz + tz) with (n * msPerDay) by lia.
  apply Day_local_midnight.
Qed.

Lemma local_day_back t k : local_day tz (t - k * msPerDay) = local_day tz t - k.
Proof. unfold local_day, Day, msPerDay. zdiv. Qed.

Lemma TimeClip_in_range t :
  DayFromYear 100 <= local_day tz t < DayFromYear 10000 -> TimeClip t = Some t.
Proof.
  intros H. unfold TimeClip, local_day, Day in *.
  replace (DayFromYear 100) with (-683003) in H by reflexivity.
  replace (DayFromYear 10000) with 2932897 in H by reflexivity.
  unfold msPerDay in *.
  destruct (Z.abs t <=? 8640000000000000) eqn:E; [reflexivity|].
  apply Z.leb_gt in E. exfalso. zdiv.
Qed.

(** The weekly step on any time of the day: whole days back to Monday. *)
Lemma getMonday_time t :
  100 <= year_of (monday_of (local_day tz t)) <= 9999 ->
  getMonday tz (Some t) = Some (t - days_since_monday (local_day tz t) * msPerDay).
Proof.
  intros Hr. set (n := local_day tz t) in *.
  unfold getMonday, getDay, getDate. cbn [option_map num_add].
  unfold LocalTime. rewrite WeekDay_eq, DateFromTime_eq. fold (local_day tz t). fold n.
  assert (Hdiff : (if weekday_of n =? 0 then -6 else 1 - weekday_of n)
                  = - days_since_monday n).
  { unfold days_since_monday.
    pose proof (Z.mod_pos_bound (n + 4) 7 ltac:(lia)) as B.
    fold (weekday_of n) in B.
    destruct (weekday_of n =? 0) eqn:E;
      [apply Z.eqb_eq in E | apply Z.eqb_neq in E];
      Z.to_euclidean_division_equations; lia. }
  rewrite Hdiff. unfold setDate, LocalTime.
  rewrite YearFromTime_eq, MonthFromTime_eq. fold (local_day tz t). fold n.
  rewrite MakeDay_fields. unfold UTC, MakeDate.
  pose proof (Day_split (t + tz)) as S. fold (local_day tz t) in S. fold n in S.
  replace ((n - date_of n + (date_of n + - days_since_monday n)) * msPerDay
           + TimeWithinDay (t + tz) - tz)
    with (t - days_since_monday n * msPerDay) by lia.
  apply TimeClip_in_range. rewrite local_day_back. fold n.
  apply day_range_of_year. exact Hr.
Qed.

Lemma local_fields_time t :
  getFullYear tz (Some t) = Some (year_of (local_day tz t))
  /\ getMonth tz (Some t) = Some (month_of (local_day tz t))
  /\ getDate tz (Some t) = Some (date_of (local_day tz t))
  /\ getDay tz (Some t) = Some (weekday_of (local_day tz t)).
Proof. repeat split. Qed.

Lemma first_of_month n :
  100 <= year_of n <= 9999 ->
  format (Date_of_fields tz (Some (year_of n)) (Some (month_of n)) (Some 1))
  = fmt_date (month_of n + 1) 1 (year_of n).
Proof.
  intros Hy. pose proof (month_of_range n) as Hm.
  assert (H1 : 1 <= 1 <= DaysInMonth (year_of n) (month_of n)).
  { pose proof (date_of_range n). lia. }
  destruct (fields_MakeDay (year_of n) (month_of n) 1 Hm H1) as (Ey & _ & _).
  rewrite (Date_of_fields_midnight tz tz_bound) by lia.
  rewrite format_midnight.
  replace (month_of n) with (month_of n + 1 - 1) at 1 by lia.
  apply fmt_day_MakeDay; [lia|].
  replace (month_of n + 1 - 1) with (month_of n) by lia. exact H1.
Qed.

Lemma boundary_by_day s t :
  parse s = Some t ->
  boundary s DAILY = true
  /\ (boundary s WEEKLY = true <-> weekday_of (local_day tz t) = 1)
  /\ (boundary s MONTHLY = true <-> date_of (local_day tz t) = 1).
Proof.
  intros P. unfold shouldCreateEntryForDate. rewrite P.
  destruct (local_fields_time t) as (_ & _ & Ed & Ew). rewrite Ed, Ew.
  split; [reflexivity|]. split.
  - destruct (weekday_of (local_day tz t)) as [|[p|p|]|p]; split; intros H; congruence.
  - destruct (date_of (local_day tz t)) as [|[p|p|]|p]; split; intros H; congruence.
Qed.

Lemma parse_fmt_day n :
  100 <= year_of n <= 9999 -> parse (fmt_day n) = midnight tz n.
Proof.
  intros Hy. unfold fmt_day.
  pose proof (month_of_range n) as Hm. pose proof (date_of_range n) as Hd.
  rewrite (parse_canonical tz Date_parse_other tz_bound); try lia.
  - replace (month_of n + 1 - 1) with (month_of n) by lia.
    rewrite MakeDay_date. reflexivity.
  - replace (month_of n + 1 - 1) with (month_of n) by lia. exact Hd.
Qed.

(** Normalisation and the boundary test see a date text through the
    local calendar day of the date it is read as. *)
Lemma normalize_by_day s t :
  parse s = Some t -> 1000 <= year_of (local_day tz t) <= 9999 ->
  normalize s DAILY = fmt_day (local_day tz t)
  /\ normalize s WEEKLY = fmt_day (monday_of (local_day tz t))
  /\ normalize s MONTHLY
     = fmt_date (month_of (local_day tz t) + 1) 1 (year_of (local_day tz t))
  /\ boundary s DAILY = true
  /\ (boundary s WEEKLY = true <-> weekday_of (local_day tz t) = 1)
  /\ (boundary s MONTHLY = true <-> date_of (local_day tz t) = 1).
Proof.
  intros P Hy. set (n := local_day tz t) in *.
  unfold normalizeDateByFrequency, shouldCreateEntryForDate. rewrite P.
  destruct (local_fields_time t) as (Ey & Em & Ed & Ew). fold n in Ey, Em, Ed, Ew.
  rewrite Ey, Em, Ed, Ew.
  split; [apply format_time|]. split; [|split; [|split; [reflexivity|split]]].
  - rewrite getMonday_time by (apply year_of_week_before; exact Hy).
    rewrite format_time, local_day_back. reflexivity.
  - apply first_of_month. lia.
  - destruct (weekday_of n) as [|[p|p|]|p]; split; intros H; congruence.
  - destruct (date_of n) as [|[p|p|]|p]; split; intros H; congruence.
Qed.

End AnyDate.

Ltac closed_arith :=
  repeat match goal with
  | |- context [?a mod 12] =>
      let v := eval vm_compute in (a mod 12) in progress change (a mod 12) with v
  | |- context [?a / 12] =>
      let v := eval vm_compute in (a / 12) in progress change (a / 12) with v
  | |- context [DaysInMonth ?y (?a - 1)] =>
      let v := eval vm_compute in (a - 1) in progress change (a - 1) with v
  end.

(** The days past the end of a month are the first days of the next. *)
Lemma MakeDay_next_month y m k :
  1 <= m <= 12 ->
  MakeDay y (m - 1) (DaysInMonth y (m - 1) + k) = MakeDay y m k.
Proof.
  intros Hm. unfold MakeDay.
  assert (C : m = 1 \/ m = 2 \/ m = 3 \/ m = 4 \/ m = 5 \/ m = 6 \/ m = 7
              \/ m = 8 \/ m = 9 \/ m = 10 \/ m = 11 \/ m = 12) by lia.
  pose proof (DayFromYear_succ y) as SY.
  destruct (InLeapYear_cases y) as [[L Y]|[L Y]];
    repeat (destruct C as [C|C]); subst m; closed_arith;
    cbn [DaysInMonth DaysBeforeMonth]; rewrite ?Z.add_0_r, ?L; lia.
Qed.

(** X14: formatting a date and reading the text again gives the local
    midnight of the same calendar day: for every date whose local year is
    from 100 to 9999, [parseMMDDYYYY] of [formatMMDDYYYY] is the midnight
    that starts its local day (the date itself when it is a local
    midnight), and formatting that again gives the same text. *)
Theorem format_then_parse tz Date_parse_other t :
  - msPerDay <= tz <= msPerDay ->
  100 <= year_of (local_day tz t) <= 9999 ->
  parseMMDDYYYY tz Date_parse_other (formatMMDDYYYY tz (Some t))
  = midnight tz (local_day tz t)
  /\ formatMMDDYYYY tz
       (parseMMDDYYYY tz Date_parse_other (formatMMDDYYYY tz (Some t)))
     = formatMMDDYYYY tz (Some t)
  /\ (TimeWithinDay (t + tz) = 0 ->
      parseMMDDYYYY tz Date_parse_other (formatMMDDYYYY tz (Some t)) = Some t).
Proof.
  intros Htz Hy. set (n := local_day tz t) in *.
  assert (P : parseMMDDYYYY tz Date_parse_other (formatMMDDYYYY tz (Some t))
              = midnight tz n).
  { rewrite format_time. fold n. unfold fmt_day.
    pose proof (month_of_range n) as Hm. pose proof (date_of_range n) as Hd.
    rewrite (parse_canonical tz Date_parse_other Htz); try lia.
    - replace (month_of n + 1 - 1) with (month_of n) by lia.
      rewrite MakeDay_date. reflexivity.
    - replace (month_of n + 1 - 1) with (month_of n) by lia. exact Hd. }
  split; [exact P|]. split.
  - rewrite P, format_midnight, format_time. reflexivity.
  - intros Z0. rewrite P. unfold midnight. f_equal.
    pose proof (Day_split (t + tz)) as S. fold (local_day tz t) in S. fold n in S. lia.
Qed.

Lemma format_then_parse_witness :
  parseMMDDYYYY 0 no_other_dates (formatMMDDYYYY 0 (Some 1709632800000))
  = midnight 0 (local_day 0 1709632800000).
Proof.
  refine (proj1 (format_then_parse 0 no_other_dates 1709632800000 _ _)).
  - unfold msPerDay. lia.
  - vm_compute. split; discriminate.
Defined.

(** X15: a text that cannot be read as a date is not rejected.  When the
    text does not start like [YYYY-MM-DD] and its third piece between
    hyphens is missing or is no number, [parseMMDDYYYY] gives an invalid
    date; [normalizeDateByFrequency] then returns the text [NaN-NaN-NaN]
    for every frequency, [shouldCreateEntryForDate] holds for daily only,
    and [addTrackItemOnDate] stores a selected entry under the date
    [NaN-NaN-NaN]. *)
Theorem unreadable_date_is_stored tz Date_parse_other now s :
  iso_date_prefix s = false ->
  nth 2 (map parseInt10 (split "-" s)) None = None ->
  parseMMDDYYYY tz Date_parse_other s = None
  /\ (forall f, normalizeDateByFrequency tz Date_parse_other s f = "NaN-NaN-NaN")
  /\ shouldCreateEntryForDate tz Date_parse_other s DAILY = true
  /\ shouldCreateEntryForDate tz Date_parse_other s WEEKLY = false
  /\ shouldCreateEntryForDate tz Date_parse_other s MONTHLY = false
  /\ (forall itemId userId patientId w,
        exists e,
          In e (entries (addTrackItemOnDate tz Date_parse_other now itemId userId
                           patientId s w))
          /\ entry_track_item_id e = itemId /\ entry_patient_id e = patientId
          /\ entry_date e = "NaN-NaN-NaN" /\ entry_selected e = 1).
Proof.
  intros Hi H3.
  assert (P : parseMMDDYYYY tz Date_parse_other s = None).
  { unfold parseMMDDYYYY. rewrite Hi. cbv zeta. rewrite H3. reflexivity. }
  assert (N : forall f, normalizeDateByFrequency tz Date_parse_other s f = "NaN-NaN-NaN").
  { intros f. unfold normalizeDateByFrequency. rewrite P. destruct f; reflexivity. }
  split; [exact P|]. split; [exact N|].
  unfold shouldCreateEntryForDate. rewrite P.
  split; [reflexivity|]. split; [reflexivity|]. split; [reflexivity|].
  intros itemId userId patientId w.
  destruct (Links.link_found tz Date_parse_other now itemId userId patientId s w)
    as (e & F & S & _).
  apply find_some in F as [He M]. apply Links.entry_matches_true in M as (M1 & M2 & M3).
  exists e. rewrite N in M3. auto.
Qed.

Lemma unreadable_date_is_stored_witness :
  normalizeDateByFrequency 0 no_other_dates "next week" WEEKLY = "NaN-NaN-NaN".
Proof.
  refine (proj1 (proj2 (unreadable_date_is_stored 0 no_other_dates "t1" "next week" _ _))
            WEEKLY); reflexivity.
Defined.

(** X16: a day past the end of the month is carried over, not
    rejected.  For a month from 1 to 12 of a year from 1000 to 9998, the
    text [MM-DD-YYYY] whose day is the length of the month plus [k], with
    [k] from 1 to 28, is read as day [k] of the next month (of January of
    the next year after December): that is the date the daily
    normalisation returns. *)
Theorem day_overflow_carries tz Date_parse_other m k y :
  - msPerDay <= tz <= msPerDay ->
  1 <= m <= 12 -> 1 <= k <= 28 -> 1000 <= y <= 9998 ->
  normalizeDateByFrequency tz Date_parse_other
    (fmt_date m (DaysInMonth y (m - 1) + k) y) DAILY
  = if m =? 12 then fmt_date 1 k (y + 1) else fmt_date (m + 1) k y.
Proof.
  intros Htz Hm Hk Hy.
  assert (L : 28 <= DaysInMonth y (m - 1)).
  { unfold DaysInMonth. destruct (InLeapYear_cases y) as [[E _]|[E _]]; rewrite E.
    all: destruct (m - 1) as [|[p|p|]|p]; try lia.
    all: destruct p as [p|p|]; try lia; destruct p as [p|p|]; try lia;
      destruct p; lia. }
  unfold normalizeDateByFrequency.
  rewrite (parse_fmt_date tz Date_parse_other) by lia.
  set (y' := if m =? 12 then y + 1 else y).
  set (m' := if m =? 12 then 0 else m).
  assert (E : MakeDay y (m - 1) (DaysInMonth y (m - 1) + k) = MakeDay y' m' k).
  { rewrite MakeDay_next_month by lia. unfold y', m'.
    destruct (Z.eqb_spec m 12) as [->|N]; [|reflexivity].
    unfold MakeDay. closed_arith. cbn [DaysBeforeMonth]. rewrite !Z.add_0_r.
    reflexivity. }
  assert (Hm' : 0 <= m' <= 11) by (unfold m'; destruct (Z.eqb_spec m 12); lia).
  assert (Hk' : 1 <= k <= DaysInMonth y' m').
  { split; [lia|]. unfold DaysInMonth.
    destruct (InLeapYear_cases y') as [[E' _]|[E' _]]; rewrite E'.
    all: destruct m' as [|[p|p|]|p]; try lia.
    all: destruct p as [p|p|]; try lia; destruct p as [p|p|]; try lia;
      destruct p; lia. }
  destruct (fields_MakeDay y' m' k Hm' Hk') as (Fy & Fm & Fd).
  rewrite (Date_of_fields_midnight tz Htz).
  - rewrite format_midnight, E. unfold fmt_day. rewrite Fy, Fm, Fd.
    unfold y', m'. destruct (Z.eqb_spec m 12); reflexivity.
  - rewrite E, Fy. unfold y'. destruct (Z.eqb_spec m 12); lia.
  - lia.
Qed.

Lemma day_overflow_carries_witness :
  normalizeDateByFrequency 0 no_other_dates
    (fmt_date 2 (DaysInMonth 2023 (2 - 1) + 2) 2023) DAILY
  = if 2 =? 12 then fmt_date 1 2 (2023 + 1) else fmt_date (2 + 1) 2 2023.
Proof.
  refine (day_overflow_carries 0 no_other_dates 2 2 2023 _ _ _ _);
    unfold msPerDay; lia.
Defined.

(** Two texts read as dates of the same local day are treated alike. *)
Lemma same_local_day tz Date_parse_other :
  - msPerDay <= tz <= msPerDay ->
  forall s t s' t',
    parseMMDDYYYY tz Date_parse_other s = Some t ->
    1000 <= year_of (local_day tz t) <= 9999 ->
    parseMMDDYYYY tz Date_parse_other s' = Some t' ->
    local_day tz t' = local_day tz t ->
    forall f,
      normalizeDateByFrequency tz Date_parse_other s' f
      = normalizeDateByFrequency tz Date_parse_other s f
      /\ shouldCreateEntryForDate tz Date_parse_other s' f
         = shouldCreateEntryForDate tz Date_parse_other s f.
Proof.
  intros Htz s t s' t' P Hy P' E f.
  destruct (normalize_by_day tz Date_parse_other Htz s t P Hy) as (Nd & Nw & Nm & _).
  assert (Hy' : 1000 <= year_of (local_day tz t') <= 9999) by (rewrite E; exact Hy).
  destruct (normalize_by_day tz Date_parse_other Htz s' t' P' Hy')
    as (Nd' & Nw' & Nm' & _).
  split.
  - destruct f; [rewrite Nd, Nd'|rewrite Nw, Nw'|rewrite Nm, Nm']; rewrite E; reflexivity.
  - unfold shouldCreateEntryForDate. rewrite P, P'.
    destruct (local_fields_time tz t) as (_ & _ & Ed & Ew).
    destruct (local_fields_time tz t') as (_ & _ & Ed' & Ew').
    rewrite Ed, Ew, Ed', Ew', E. reflexivity.
Qed.

(** X17: normalisation and the boundary test depend on a date text
    only through the local calendar day of the date it is read as,
    whatever its form and whatever the time of day.  For a text read as a
    date whose local year is from 1000 to 9999: daily normalisation gives
    the [MM-DD-YYYY] text of the local day, weekly that of the Monday of
    its week, monthly that of the first of its month; the date is a weekly
    boundary exactly when the local day is a Monday and a monthly boundary
    exactly when it is the first of the month; and two texts read as dates
    of the same local day are normalised alike and pass the same boundary
    tests. *)
Theorem date_text_by_local_day tz Date_parse_other s t :
  - msPerDay <= tz <= msPerDay ->
  parseMMDDYYYY tz Date_parse_other s = Some t ->
  1000 <= year_of (local_day tz t) <= 9999 ->
  let n := local_day tz t in
  normalizeDateByFrequency tz Date_parse_other s DAILY = fmt_day n
  /\ normalizeDateByFrequency tz Date_parse_other s WEEKLY = fmt_day (monday_of n)
  /\ normalizeDateByFrequency tz Date_parse_other s MONTHLY
     = fmt_date (month_of n + 1) 1 (year_of n)
  /\ (shouldCreateEntryForDate tz Date_parse_other s WEEKLY = true <-> weekday_of n = 1)
  /\ (shouldCreateEntryForDate tz Date_parse_other s MONTHLY = true <-> date_of n = 1)
  /\ (forall s' t',
        parseMMDDYYYY tz Date_parse_other s' = Some t' -> local_day tz t' = n ->
        forall f,
          normalizeDateByFrequency tz Date_parse_other s' f
          = normalizeDateByFrequency tz Date_parse_other s f
          /\ shouldCreateEntryForDate tz Date_parse_other s' f
             = shouldCreateEntryForDate tz Date_parse_other s f).
Proof.
  intros Htz P Hy. cbv zeta.
  destruct (normalize_by_day tz Date_parse_other Htz s t P Hy)
    as (Nd & Nw & Nm & _ & Bw & Bm).
  split; [exact Nd|]. split; [exact Nw|]. split; [exact Nm|].
  split; [exact Bw|]. split; [exact Bm|].
  intros s' t' P' E f. apply (same_local_day tz Date_parse_other Htz s t s' t'); assumption.
Qed.

Lemma date_text_by_local_day_witness :
  normalizeDateByFrequency 0 read_timestamp "2024-03-07T08:30:00.000Z" WEEKLY
  = fmt_day (monday_of (local_day 0 1709800200000)).
Proof.
  refine (proj1 (proj2 (date_text_by_local_day 0 read_timestamp
                          "2024-03-07T08:30:00.000Z" 1709800200000 _ _ _))).
  - unfold msPerDay. lia.
  - reflexivity.
  - vm_compute. split; discriminate.
Defined.

Lemma local_day_utc_midnight tz n :
  - msPerDay <= tz < msPerDay ->
  local_day tz (n * msPerDay) = if 0 <=? tz then n else n - 1.
Proof.
  intros H. unfold local_day, Day, msPerDay in *.
  destruct (Z.leb_spec 0 tz); zdiv.
Qed.

Lemma year_of_day_before n y :
  year_of n = y -> y - 1 <= year_of (n - 1) <= y.
Proof.
  intros E. split.
  - pose proof (YearFromDay_spec n) as S. fold (year_of n) in S. rewrite E in S.
    pose proof (DayFromYear_succ (y - 1)) as D.
    replace (y - 1 + 1) with y in D by lia.
    destruct (InLeapYear_cases (y - 1)) as [[_ Y]|[_ Y]]; rewrite Y in D.
    all: rewrite <- (YearFromDay_unique (DayFromYear (y - 1)) (y - 1))
           by (replace (y - 1 + 1) with y by lia; lia).
    all: apply year_of_mono; lia.
  - rewrite <- E. apply year_of_mono. lia.
Qed.

(** The date-only text is read as midnight in UTC. *)
Lemma iso_text_midnight tz Date_parse_other y m d :
  1000 <= y <= 9999 -> 1 <= m <= 12 -> 1 <= d <= DaysInMonth y (m - 1) ->
  parseMMDDYYYY tz Date_parse_other (iso_text y m d)
  = Some (MakeDay y (m - 1) d * msPerDay).
Proof.
  intros Hy Hm Hd.
  destruct (iso_text_read y m d Hy Hm Hd) as (Pre & Only).
  destruct (fields_MakeDay y (m - 1) d ltac:(lia) Hd) as (Fy & _ & _).
  unfold parseMMDDYYYY. rewrite Pre. unfold Date_of_string. rewrite Only.
  unfold MakeDate. rewrite Z.add_0_r.
  apply (TimeClip_in_range 0); [unfold msPerDay; lia|].
  unfold local_day. rewrite Z.add_0_r, Day_local_midnight.
  apply day_range_of_year. lia.
Qed.

(** X18: the [YYYY-MM-DD] form is read as midnight in UTC, so what it
    means depends on the time zone.  For a date of the calendar with a
    year from 1001 to 9999, the text [YYYY-MM-DD] is read as the UTC
    midnight of that date; where local time is UTC or ahead of it (by less
    than a day) the text is normalised, and tested as a boundary, exactly
    like the text [MM-DD-YYYY] of the same date; where local time is behind
    UTC it is normalised, for the daily, the weekly and the monthly
    frequency, and tested like the day before. *)
Theorem iso_text_by_zone tz Date_parse_other y m d :
  - msPerDay <= tz < msPerDay ->
  1001 <= y <= 9999 -> 1 <= m <= 12 -> 1 <= d <= DaysInMonth y (m - 1) ->
  let n := MakeDay y (m - 1) d in
  parseMMDDYYYY tz Date_parse_other (iso_text y m d) = Some (n * msPerDay)
  /\ (0 <= tz ->
      forall f,
        normalizeDateByFrequency tz Date_parse_other (iso_text y m d) f
        = normalizeDateByFrequency tz Date_parse_other (fmt_date m d y) f
        /\ shouldCreateEntryForDate tz Date_parse_other (iso_text y m d) f
           = shouldCreateEntryForDate tz Date_parse_other (fmt_date m d y) f)
  /\ (tz < 0 ->
      normalizeDateByFrequency tz Date_parse_other (iso_text y m d) DAILY
      = fmt_day (n - 1)
      /\ normalizeDateByFrequency tz Date_parse_other (iso_text y m d) WEEKLY
         = fmt_day (monday_of (n - 1))
      /\ normalizeDateByFrequency tz Date_parse_other (iso_text y m d) MONTHLY
         = fmt_date (month_of (n - 1) + 1) 1 (year_of (n - 1))
      /\ (shouldCreateEntryForDate tz Date_parse_other (iso_text y m d) WEEKLY = true
          <-> weekday_of (n - 1) = 1)
      /\ (shouldCreateEntryForDate tz Date_parse_other (iso_text y m d) MONTHLY = true
          <-> date_of (n - 1) = 1)).
Proof.
  intros Htz Hy Hm Hd. cbv zeta.
  assert (Htz' : - msPerDay <= tz <= msPerDay) by lia.
  destruct (iso_text_read y m d ltac:(lia) Hm Hd) as (Pre & Only).
  destruct (fields_MakeDay y (m - 1) d ltac:(lia) Hd) as (Fy & Fm & Fd).
  set (n := MakeDay y (m - 1) d) in *.
  assert (P : parseMMDDYYYY tz Date_parse_other (iso_text y m d) = Some (n * msPerDay)).
  { unfold parseMMDDYYYY. rewrite Pre. unfold Date_of_string. rewrite Only.
    fold n. unfold MakeDate. rewrite Z.add_0_r.
    apply (TimeClip_in_range 0); [unfold msPerDay; lia|].
    unfold local_day. rewrite Z.add_0_r, Day_local_midnight.
    apply day_range_of_year. lia. }
  pose proof (local_day_utc_midnight tz n Htz) as LD.
  split; [exact P|]. split.
  - intros H0. destruct (Z.leb_spec 0 tz); [|lia].
    assert (Q : parseMMDDYYYY tz Date_parse_other (fmt_date m d y)
                = Some (n * msPerDay - tz)).
    { rewrite (parse_canonical tz Date_parse_other Htz') by lia. reflexivity. }
    assert (Hn : 1000 <= year_of (local_day tz (n * msPerDay - tz)) <= 9999).
    { rewrite local_day_midnight. lia. }
    intros f.
    apply (same_local_day tz Date_parse_other Htz' (fmt_date m d y) (n * msPerDay - tz)
             (iso_text y m d) (n * msPerDay) Q Hn P).
    rewrite LD, local_day_midnight. reflexivity.
  - intros H0. destruct (Z.leb_spec 0 tz); [lia|].
    pose proof (year_of_day_before n y Fy) as Yb.
    assert (Hn : 1000 <= year_of (local_day tz (n * msPerDay)) <= 9999)
      by (rewrite LD; lia).
    destruct (normalize_by_day tz Date_parse_other Htz' _ _ P Hn)
      as (Nd & Nw & Nm & _ & Bw & Bm).
    rewrite LD in Nd, Nw, Nm, Bw, Bm. auto.
Qed.

Lemma iso_text_by_zone_witness :
  normalizeDateByFrequency utc_minus_5 no_other_dates (iso_text 2024 1 1) DAILY
  = fmt_day (MakeDay 2024 (1 - 1) 1 - 1).
Proof.
  refine (proj1 (proj2 (proj2 (iso_text_by_zone utc_minus_5 no_other_dates 2024 1 1
                                 _ _ _ _)) _)).
  - unfold utc_minus_5, msPerDay. lia.
  - lia.
  - lia.
  - vm_compute. split; discriminate.
  - unfold utc_minus_5. lia.
Defined.

(** X29: a normalised date is a boundary of its frequency.  For every
    date of the calendar with a four-digit year, written [MM-DD-YYYY], the
    text [normalizeDateByFrequency] returns for a frequency passes
    [shouldCreateEntryForDate] for that frequency, and is read as a valid
    date. *)
Theorem normalized_date_is_boundary tz Date_parse_other m d y f :
  - msPerDay <= tz <= msPerDay ->
  1 <= m <= 12 -> 1 <= d <= DaysInMonth y (m - 1) -> 1000 <= y <= 9999 ->
  let s := normalizeDateByFrequency tz Date_parse_other (fmt_date m d y) f in
  shouldCreateEntryForDate tz Date_parse_other s f = true
  /\ parseMMDDYYYY tz Date_parse_other s <> None.
Proof.
  intros Htz Hm Hd Hy. cbv zeta.
  destruct (fields_MakeDay y (m - 1) d ltac:(lia) Hd) as (Fy & Fm & Fd).
  set (n := MakeDay y (m - 1) d) in *.
  assert (K : exists n', normalizeDateByFrequency tz Date_parse_other (fmt_date m d y) f
                         = fmt_day n'
                         /\ 100 <= year_of n' <= 9999
                         /\ match f with
                            | DAILY => True
                            | WEEKLY => weekday_of n' = 1
                            | MONTHLY => date_of n' = 1
                            end).
  { destruct f.
    - exists n. rewrite (normalize_daily tz Date_parse_other Htz) by lia.
      split; [symmetry; apply fmt_day_MakeDay; assumption|]. split; [lia|exact I].
    - exists (monday_of n).
      assert (Hw : 100 <= year_of (monday_of n) <= 9999)
        by (apply year_of_week_before; lia).
      rewrite (normalize_weekly tz Date_parse_other Htz) by (try lia; apply Hw).
      split; [reflexivity|]. split; [exact Hw|apply weekday_monday_of].
    - assert (H1 : 1 <= 1 <= DaysInMonth y (m - 1)) by lia.
      destruct (fields_MakeDay y (m - 1) 1 ltac:(lia) H1) as (Gy & Gm & Gd).
      exists (MakeDay y (m - 1) 1).
      rewrite (normalize_monthly tz Date_parse_other Htz) by lia.
      split; [symmetry; apply fmt_day_MakeDay; assumption|]. split; [lia|exact Gd]. }
  destruct K as (n' & -> & Hy' & Hf).
  pose proof (parse_fmt_day tz Date_parse_other Htz n' Hy') as P.
  split; [|rewrite P; discriminate].
  destruct (boundary_by_day tz Date_parse_other _ _ P) as (Bd & Bw & Bm).
  rewrite local_day_midnight in Bw, Bm.
  destruct f; [exact Bd|apply Bw, Hf|apply Bm, Hf].
Qed.

Lemma normalized_date_is_boundary_witness :
  shouldCreateEntryForDate 0 no_other_dates
    (normalizeDateByFrequency 0 no_other_dates (fmt_date 3 7 2024) WEEKLY) WEEKLY
  = true.
Proof.
  refine (proj1 (normalized_date_is_boundary 0 no_other_dates 3 7 2024 WEEKLY _ _ _ _)).
  - unfold msPerDay. lia.
  - lia.
  - vm_compute. split; discriminate.
  - lia.
Defined.

End DateTexts.

(** ** Memoised visibility *)

Module Memo.

Import Js Vocabulary Visibility.
Local Open Scope string_scope.
Local Open Scope Z_scope.

Section Memoised.

Variable StringToNumber : string -> float.
Variable Number_toString : float -> string.
Variable answers : gmap Z JsValue.
Variable qs : list Question.
Variable opts : option (list ResponseOption).

Local Abbreviation visible := (isQuestionVisible StringToNumber Number_toString).
Local Abbreviation plain := (plain_verdict StringToNumber Number_toString answers qs opts).
Local Abbreviation verdict q :=
  (condition_result StringToNumber Number_toString q answers (Some qs) opts).
Local Abbreviation sound := (sound_cache StringToNumber Number_toString answers qs opts).

Lemma plain_zero q : plain 0 q = None.
Proof. reflexivity. Qed.

Lemma plain_free fuel q :
  no_parent q || no_condition q = true -> plain (S fuel) q = Some true.
Proof.
  intros H. unfold plain_verdict.
  rewrite visible_without_condition by (auto; reflexivity). reflexivity.
Qed.

Lemma plain_step fuel q :
  no_parent q || no_condition q = false ->
  plain (S fuel) q
  = match parent_of (Some qs) q with
    | Some p =>
        match plain fuel p with
        | None => None
        | Some false => Some false
        | Some true => Some (verdict q)
        end
    | None => Some (verdict q)
    end.
Proof.
  intros H. apply orb_false_iff in H as [Hp Hc]. unfold plain_verdict.
  rewrite visible_step by (auto; reflexivity).
  destruct (parent_of (Some qs) q) as [p|]; [|reflexivity].
  destruct (isQuestionVisible _ _ fuel p answers (Some qs) opts None) as [[[] c]|];
    reflexivity.
Qed.

(** The verdict does not depend on the fuel that was enough. *)
Lemma plain_fuel f1 : forall f2 q a c,
  plain f1 q = Some a -> plain f2 q = Some c -> a = c.
Proof.
  induction f1 as [|f1 IH]; intros f2 q a c H1 H2; [discriminate H1|].
  destruct f2 as [|f2]; [discriminate H2|].
  destruct (no_parent q || no_condition q) eqn:N.
  - rewrite plain_free in H1, H2 by exact N. congruence.
  - rewrite plain_step in H1, H2 by exact N.
    destruct (parent_of (Some qs) q) as [p|]; [|congruence].
    destruct (plain f1 p) as [v1|] eqn:E1; [|discriminate H1].
    destruct (plain f2 p) as [v2|] eqn:E2; [|discriminate H2].
    rewrite (IH f2 p v1 v2 E1 E2) in H1. destruct v2; congruence.
Qed.

Lemma cached_hit fuel q m b other_answers other_questions other_options :
  m !! q_id q = Some b ->
  visible (S fuel) q other_answers other_questions other_options (Some m)
  = Some (b, Some m).
Proof. intros H. simpl. rewrite H. reflexivity. Qed.

Lemma sound_insert m q v :
  ids_determine qs -> In q qs -> sound m ->
  (forall fuel a, plain fuel q = Some a -> a = v) ->
  sound (<[q_id q := v]> m).
Proof.
  intros U Hq S Hv q2 b H2 L fuel a P.
  rewrite lookup_insert in L.
  destruct (decide (q_id q = q_id q2)) as [E|N].
  - inversion L; subst b. rewrite <- (U q q2 Hq H2 E) in P. eapply Hv, P.
  - eapply S; eauto.
Qed.

(** With a sound memo table the evaluation returns the verdict it
    returns without one, and leaves a sound table. *)
Lemma memo_sound fuel : forall q m v,
  ids_determine qs -> sound m -> In q qs -> plain fuel q = Some v ->
  exists m', visible fuel q answers (Some qs) opts (Some m) = Some (v, Some m')
             /\ sound m' /\ m' !! q_id q = Some v.
Proof.
  induction fuel as [|fuel IH]; intros q m v U S Hq P; [discriminate P|].
  destruct (m !! q_id q) as [b|] eqn:L.
  { exists m. rewrite (cached_hit fuel q m b) by exact L.
    rewrite (S q b Hq L (Datatypes.S fuel) v P). auto. }
  destruct (no_parent q || no_condition q) eqn:N.
  - rewrite plain_free in P by exact N. inversion P; subst v.
    exists (<[q_id q := true]> m).
    rewrite visible_without_condition by (auto; exact L).
    split; [reflexivity|]. split; [|apply lookup_insert_eq].
    apply sound_insert; auto. intros f a Pa.
    destruct f as [|f]; [discriminate Pa|]. rewrite plain_free in Pa by exact N.
    congruence.
  - pose proof N as N'. apply orb_false_iff in N' as [Hp Hc].
    rewrite plain_step in P by exact N.
    rewrite visible_step by (auto; exact L).
    destruct (parent_of (Some qs) q) as [p|] eqn:F.
    + assert (Hin : In p qs) by (simpl in F; apply find_some in F as [H _]; exact H).
      destruct (plain fuel p) as [vp|] eqn:Pp; [|discriminate P].
      destruct (IH p m vp U S Hin Pp) as (m1 & V1 & S1 & _). rewrite V1.
      assert (Hv : forall f a, plain f q = Some a -> a = v).
      { intros f a Pa. destruct f as [|f]; [discriminate Pa|].
        rewrite plain_step, F in Pa by exact N.
        destruct (plain f p) as [vp'|] eqn:Pp'; [|discriminate Pa].
        rewrite (plain_fuel f fuel p vp' vp Pp' Pp) in Pa.
        destruct vp; congruence. }
      destruct vp.
      * inversion P; subst v. eexists. split; [reflexivity|].
        split; [|apply lookup_insert_eq]. apply sound_insert; auto.
      * inversion P; subst v. eexists. split; [reflexivity|].
        split; [|apply lookup_insert_eq]. apply sound_insert; auto.
    + inversion P; subst v. eexists. split; [reflexivity|].
      split; [|apply lookup_insert_eq]. apply sound_insert; auto.
      intros f a Pa. destruct f as [|f]; [discriminate Pa|].
      rewrite plain_step, F in Pa by exact N. congruence.
Qed.

Lemma sound_empty : sound ∅.
Proof. intros q b _ L. rewrite lookup_empty in L. discriminate L. Qed.

(** Termination when parents come first. *)
Lemma rank_parent q p :
  In p qs -> q_id p < q_id q -> (rank qs p < rank qs q)%nat.
Proof.
  intros Hp L. unfold rank. induction qs as [|x l IH]; [contradiction|].
  cbn [List.filter].
  assert (M : (List.length (List.filter (fun y => (q_id y <? q_id p)%Z) l)
               <= List.length (List.filter (fun y => (q_id y <? q_id q)%Z) l))%nat).
  { clear - L. induction l as [|y l IH]; [reflexivity|]. cbn [List.filter].
    destruct (Z.ltb_spec (q_id y) (q_id p)); destruct (Z.ltb_spec (q_id y) (q_id q));
      simpl; lia. }
  destruct Hp as [->|Hp].
  - rewrite Z.ltb_irrefl. apply Z.ltb_lt in L. rewrite L. simpl. lia.
  - specialize (IH Hp).
    destruct (Z.ltb_spec (q_id x) (q_id p)); destruct (Z.ltb_spec (q_id x) (q_id q));
      simpl; lia.
Qed.

Lemma rank_bound q : (rank qs q <= List.length qs)%nat.
Proof. unfold rank. apply List.filter_length_le. Qed.

Lemma parent_of_found q p :
  no_parent q = false -> parent_of (Some qs) q = Some p ->
  In p qs /\ q_parent_question_id q = Some (q_id p).
Proof.
  unfold no_parent, parent_of. intros N F. apply find_some in F as [H E].
  apply Z.eqb_eq in E. split; [exact H|].
  destruct (q_parent_question_id q) as [pid|]; [|discriminate N].
  simpl in E. congruence.
Qed.

Lemma visible_ends fuel : forall q cache,
  parents_first qs -> In q qs -> (rank qs q < fuel)%nat ->
  exists v c, visible fuel q answers (Some qs) opts cache = Some (v, c).
Proof.
  induction fuel as [|fuel IH]; intros q cache PF Hq R; [lia|].
  destruct (cache_get cache (q_id q)) as [b|] eqn:L.
  { exists b, cache. simpl. rewrite L. reflexivity. }
  destruct (no_parent q || no_condition q) eqn:N.
  - rewrite visible_without_condition by assumption. eauto.
  - apply orb_false_iff in N as [Hp Hc].
    rewrite visible_step by assumption.
    destruct (parent_of (Some qs) q) as [p|] eqn:F; [|eauto].
    destruct (parent_of_found q p Hp F) as [Hin E].
    pose proof (PF q (q_id p) Hq E) as Lt.
    pose proof (rank_parent q p Hin Lt) as Rp.
    destruct (IH p cache PF Hin ltac:(lia)) as (v & c & V). rewrite V.
    destruct v; eauto.
Qed.

Lemma plain_ends fuel q :
  parents_first qs -> In q qs -> (rank qs q < fuel)%nat ->
  exists v, plain fuel q = Some v.
Proof.
  intros PF Hq R. destruct (visible_ends fuel q None PF Hq R) as (v & c & V).
  exists v. unfold plain_verdict. rewrite V. reflexivity.
Qed.

End Memoised.

Section Summaries.

Variable StringToNumber : string -> float.
Variable Number_toString : float -> string.
Variable answers : gmap Z JsValue.
Variable qs : list Question.
Variable opts : list ResponseOption.
Variable fuel : nat.

Local Abbreviation collect todo :=
  (collect_summaries StringToNumber Number_toString fuel todo qs answers opts).
Local Abbreviation plain :=
  (plain_verdict StringToNumber Number_toString answers qs (Some opts) fuel).
Local Abbreviation contribution :=
  (summary_of StringToNumber Number_toString answers qs opts fuel).

Lemma collect_cons question rest m :
  collect (question :: rest) m
  = match answers !! q_id question, q_summary_template question with
    | Some (JStr answer), Some template =>
        if String.eqb answer "" || String.eqb template "" then collect rest m
        else
          match isQuestionVisible StringToNumber Number_toString fuel question
                  answers (Some qs) (Some opts) (Some m) with
          | None => None
          | Some (visible, cache) =>
              let later := collect rest (default m cache) in
              if visible then
                match generateSummary StringToNumber Number_toString template answer with
                | Some summary =>
                    if String.eqb summary "" then later
                    else option_map (cons summary) later
                | None => later
                end
              else later
          end
    | _, _ => collect rest m
    end.
Proof. reflexivity. Qed.

(** The loop of [getSummariesForItem] gathers what the questions
    contribute, in their order. *)
Lemma collect_contributions todo : forall m,
  ids_determine qs ->
  sound_cache StringToNumber Number_toString answers qs (Some opts) m ->
  incl todo qs ->
  (forall q, In q todo -> plain q <> None) ->
  collect todo m = Some (flat_map contribution todo).
Proof.
  induction todo as [|q rest IH]; intros m U S I T; [reflexivity|].
  assert (Ir : incl rest qs) by (intros x Hx; apply I; right; exact Hx).
  assert (Tr : forall x, In x rest -> plain x <> None)
    by (intros x Hx; apply T; right; exact Hx).
  rewrite collect_cons. cbn [flat_map]. unfold summary_of at 1.
  destruct (answers !! q_id q) as [[| | | |answer| |]|];
    try (apply IH; assumption).
  destruct (q_summary_template q) as [template|]; [|apply IH; assumption].
  destruct (String.eqb answer "" || String.eqb template ""); [apply IH; assumption|].
  destruct (plain q) as [v|] eqn:P; [|exfalso; apply (T q); [left; reflexivity|exact P]].
  destruct (memo_sound StringToNumber Number_toString answers qs (Some opts) fuel q m v
              U S (I q (or_introl eq_refl)) P) as (m' & V & S' & _).
  rewrite V. change (default m (Some m')) with m'. cbv zeta.
  rewrite (IH m' U S' Ir Tr).
  destruct v; [|reflexivity].
  destruct (generateSummary StringToNumber Number_toString template answer) as [s|];
    [|reflexivity].
  destruct (String.eqb s ""); reflexivity.
Qed.

Lemma collect_ends todo : forall m,
  parents_first qs -> incl todo qs -> (List.length qs < fuel)%nat ->
  exists l, collect todo m = Some l.
Proof.
  induction todo as [|q rest IH]; intros m PF I F; [eexists; reflexivity|].
  assert (Ir : incl rest qs) by (intros x Hx; apply I; right; exact Hx).
  rewrite collect_cons.
  destruct (answers !! q_id q) as [[| | | |answer| |]|]; try (apply IH; assumption).
  destruct (q_summary_template q) as [template|]; [|apply IH; assumption].
  destruct (String.eqb answer "" || String.eqb template ""); [apply IH; assumption|].
  pose proof (rank_bound qs q) as R.
  destruct (visible_ends StringToNumber Number_toString answers qs (Some opts) fuel q
              (Some m) PF (I q (or_introl eq_refl)) ltac:(lia)) as (v & c & V).
  rewrite V. cbv zeta.
  destruct (IH (default m c) PF Ir F) as (l & E). rewrite E.
  destruct v; [|eauto].
  destruct (generateSummary StringToNumber Number_toString template answer) as [s|];
    [|eauto].
  destruct (String.eqb s ""); simpl; eauto.
Qed.

End Summaries.

Lemma cache_kept StringToNumber Number_toString fuel : forall q answers allQuestions
    allOptions m v c,
  isQuestionVisible StringToNumber Number_toString fuel q answers allQuestions
    allOptions (Some m) = Some (v, c) ->
  exists m', c = Some m' /\ m' !! q_id q = Some v.
Proof.
  induction fuel as [|fuel IH]; intros q answers allQuestions allOptions m v c H;
    [discriminate H|].
  destruct (m !! q_id q) as [b|] eqn:L.
  { rewrite (cached_hit StringToNumber Number_toString fuel q m b) in H by exact L.
    inversion H; subst. eauto. }
  destruct (no_parent q || no_condition q) eqn:N.
  - rewrite visible_without_condition in H by (auto; exact L).
    inversion H; subst. eexists. split; [reflexivity|apply lookup_insert_eq].
  - apply orb_false_iff in N as [Hp Hc].
    rewrite visible_step in H by (auto; exact L).
    destruct (parent_of allQuestions q) as [p|].
    + destruct (isQuestionVisible _ _ fuel p answers allQuestions allOptions (Some m))
        as [[vp c1]|] eqn:V; [|discriminate H].
      destruct (IH _ _ _ _ _ _ _ V) as (m1 & -> & _).
      destruct vp; inversion H; subst; eexists;
        (split; [reflexivity|apply lookup_insert_eq]).
    + inversion H; subst. eexists. split; [reflexivity|apply lookup_insert_eq].
Qed.

(** X19: a memoised verdict is final.  A call of [isQuestionVisible] with
    a memo table leaves the verdict it returns in the table under the id
    of the question, and every later call with that table for a question
    of the same id returns that verdict and leaves the table as it is,
    whatever the question, the answers, the questions and the options
    passed in then are. *)
Theorem memoised_verdict_is_final StringToNumber Number_toString fuel q answers
    allQuestions allOptions m v c :
  isQuestionVisible StringToNumber Number_toString fuel q answers allQuestions
    allOptions (Some m) = Some (v, c) ->
  exists m',
    c = Some m' /\ m' !! q_id q = Some v
    /\ forall fuel' q' answers' allQuestions' allOptions',
         q_id q' = q_id q ->
         isQuestionVisible StringToNumber Number_toString (S fuel') q' answers'
           allQuestions' allOptions' (Some m')
         = Some (v, Some m').
Proof.
  intros H. destruct (cache_kept _ _ _ _ _ _ _ _ _ _ H) as (m' & -> & L).
  exists m'. split; [reflexivity|]. split; [exact L|].
  intros fuel' q' answers' allQuestions' allOptions' E.
  apply cached_hit. rewrite E. exact L.
Qed.

Lemma memoised_verdict_is_final_witness :
  exists m',
    m' !! q_id q2 = Some false
    /\ isQuestionVisible no_numbers zero_text 1 q2 (answers_yes "x") None None (Some m')
       = Some (false, Some m').
Proof.
  destruct (memoised_verdict_is_final no_numbers zero_text 5 q2 answers_no
              (Some questionnaire) (Some []) ∅ false
              (Some (<[2 := false]> (<[1 := true]> ∅))))
    as (m' & _ & L & F).
  - vm_compute. reflexivity.
  - exists m'. split; [exact L|]. apply F. reflexivity.
Defined.

(** X20: the memo table does not change a verdict.  When the questions
    passed in are told apart by their ids and every verdict in the table is
    the one its question gets without a table, then for a question among
    them [isQuestionVisible] returns with the table the verdict it returns
    without it, and the table it leaves has the same property; the empty
    table has it. *)
Theorem memo_is_transparent StringToNumber Number_toString answers qs opts fuel q m v :
  ids_determine qs ->
  sound_cache StringToNumber Number_toString answers qs opts m ->
  In q qs ->
  plain_verdict StringToNumber Number_toString answers qs opts fuel q = Some v ->
  (exists m',
     isQuestionVisible StringToNumber Number_toString fuel q answers (Some qs) opts
       (Some m) = Some (v, Some m')
     /\ sound_cache StringToNumber Number_toString answers qs opts m')
  /\ sound_cache StringToNumber Number_toString answers qs opts ∅.
Proof.
  intros U S Hq P. split; [|apply sound_empty].
  destruct (memo_sound StringToNumber Number_toString answers qs opts fuel q m v
              U S Hq P) as (m' & V & S' & _).
  exists m'. auto.
Qed.

Lemma questionnaire_ids : ids_determine questionnaire.
Proof.
  intros a c Ha Hc E. simpl in Ha, Hc.
  repeat (destruct Ha as [<-|Ha]; [repeat (destruct Hc as [<-|Hc];
            [first [reflexivity|discriminate E]|]); contradiction|]).
  contradiction.
Qed.

Lemma memo_is_transparent_witness :
  exists m',
    isQuestionVisible no_numbers zero_text 5 q5 answers_no (Some questionnaire)
      (Some []) (Some ∅) = Some (false, Some m').
Proof.
  destruct (memo_is_transparent no_numbers zero_text answers_no questionnaire (Some [])
              5 q5 ∅ false questionnaire_ids) as ((m' & V & _) & _).
  - apply sound_empty.
  - simpl. tauto.
  - vm_compute. reflexivity.
  - exists m'. exact V.
Defined.

(** X23: a question that is its own parent is never decided.  When the
    question found under the parent id of a question is that question
    itself, and the question has a display condition and no memoised
    verdict, the evaluation calls itself with the same arguments: it
    returns for no depth of recursion. *)
Theorem self_parent_never_ends StringToNumber Number_toString q answers allQuestions
    allOptions cache :
  cache_get cache (q_id q) = None ->
  no_parent q = false -> no_condition q = false ->
  parent_of allQuestions q = Some q ->
  forall fuel,
    isQuestionVisible StringToNumber Number_toString fuel q answers allQuestions
      allOptions cache = None.
Proof.
  intros L Hp Hc F fuel. induction fuel as [|fuel IH]; [reflexivity|].
  rewrite visible_step by assumption. rewrite F, IH. reflexivity.
Qed.

Lemma self_parent_never_ends_witness :
  isQuestionVisible no_numbers zero_text 50
    (question 4 (Some 4) (Some (dq "{'eq': 'yes'}")) "text") answers_no
    (Some [question 4 (Some 4) (Some (dq "{'eq': 'yes'}")) "text"]) None (Some ∅)
  = None.
Proof.
  refine (self_parent_never_ends no_numbers zero_text
            (question 4 (Some 4) (Some (dq "{'eq': 'yes'}")) "text") answers_no
            (Some [question 4 (Some 4) (Some (dq "{'eq': 'yes'}")) "text"]) None
            (Some ∅) _ _ _ _ 50%nat); reflexivity.
Defined.

End Memo.

(** ** Display conditions without an operator *)

Module Conditions.

Import Js Vocabulary Visibility VisibilityClaims.
Local Open Scope string_scope.
Local Open Scope Z_scope.

(** Without a comparison key the verdict is true, also when taking the
    number of the answer throws. *)
Lemma eval_condition_no_key StringToNumber Number_toString cond parsed :
  (forall k, In k condition_keys -> get_property cond k = Some JUndefined) ->
  match eval_condition StringToNumber Number_toString cond parsed with
  | Some r => r
  | None => true
  end = true.
Proof.
  intros H. unfold eval_condition.
  destruct (ToNumber StringToNumber Number_toString parsed); [|reflexivity].
  rewrite !H by (unfold condition_keys; simpl; tauto). reflexivity.
Qed.

(** X24: a display condition that names no operator does not fail open.
    For a question with a parent, no memoised verdict and a parent that is
    visible or not among the questions passed in: when the condition is
    JSON [null], reading a key of it throws and the question is visible,
    with or without an answer of the parent; when the condition is any
    other JSON value that holds none of the eight comparison keys and whose
    [parent_response_exists] is not [true] (an empty object, a misspelt
    key, a number, or [parent_response_exists: false]), the question is
    visible exactly when the parent's parsed answer is neither undefined
    nor null. *)
Theorem condition_without_operator StringToNumber Number_toString
    fuel q dc cond answers allQuestions allOptions cache :
  cache_get cache (q_id q) = None ->
  no_parent q = false ->
  q_display_condition q = Some dc ->
  JSON_parse StringToNumber dc = Some cond ->
  (parent_of allQuestions q = None
   \/ exists p c, parent_of allQuestions q = Some p
        /\ isQuestionVisible StringToNumber Number_toString fuel p answers
             allQuestions allOptions cache = Some (true, c)) ->
  (cond = JNull ->
   exists c, isQuestionVisible StringToNumber Number_toString (S fuel) q answers
               allQuestions allOptions cache = Some (true, c))
  /\ (forall flag,
        get_property cond QuestionCondition.PARENT_RES_EXISTS = Some flag ->
        flag <> JBool true ->
        (forall k, In k condition_keys -> get_property cond k = Some JUndefined) ->
        exists c, isQuestionVisible StringToNumber Number_toString (S fuel) q answers
                    allQuestions allOptions cache
                  = Some (answer_given
                            (parent_answer StringToNumber Number_toString answers q), c)).
Proof.
  intros Hc Hp Hd Hj Hv.
  pose proof (condition_present _ _ _ _ Hd Hj) as Hn.
  destruct (visible_under_visible_parent StringToNumber Number_toString fuel q
              answers allQuestions allOptions cache Hc Hp Hn Hv) as [c E].
  split.
  - intros ->. exists c. rewrite E. f_equal. f_equal.
    unfold condition_result, condition_verdict. rewrite Hd. simpl default.
    rewrite Hj. reflexivity.
  - intros flag Hf Nt Hk. exists c. rewrite E. f_equal. f_equal.
    unfold condition_result, condition_verdict, parent_answer. rewrite Hd.
    simpl default. rewrite Hj, Hf.
    set (parsed := parse_answer StringToNumber Number_toString _).
    assert (R : match match parsed with
                      | JUndefined | JNull => Some false
                      | _ => eval_condition StringToNumber Number_toString cond
                               (map_to_codes (parent_of allQuestions q) allOptions
                                  (default 0 (q_parent_question_id q)) parsed)
                      end with
                | Some r => r
                | None => true
                end = answer_given parsed).
    { destruct parsed; try reflexivity; apply eval_condition_no_key; exact Hk. }
    destruct flag as [| |[]| | | |]; try exact R.
    congruence.
Qed.

Lemma condition_without_operator_witness :
  exists c,
    isQuestionVisible no_numbers zero_text 6
      (question 7 (Some 1) (Some (dq "{'parent_response_exists': false}")) "text")
      answers_no (Some questionnaire) (Some []) (Some ∅)
    = Some (answer_given
              (parent_answer no_numbers zero_text answers_no
                 (question 7 (Some 1) (Some (dq "{'parent_response_exists': false}"))
                    "text")), c).
Proof.
  refine (proj2 (condition_without_operator no_numbers zero_text 5
                   (question 7 (Some 1) (Some (dq "{'parent_response_exists': false}"))
                      "text")
                   (dq "{'parent_response_exists': false}")
                   (JObj [("parent_response_exists", JBool false)])
                   answers_no (Some questionnaire) (Some []) (Some ∅)
                   eq_refl eq_refl eq_refl eq_refl _)
            (JBool false) eq_refl _ _).
  - right. exists q1. eexists. split; [reflexivity|]. vm_compute. reflexivity.
  - discriminate.
  - intros k Hk. unfold condition_keys in Hk. simpl in Hk.
    repeat (destruct Hk as [<-|Hk]; [reflexivity|]). contradiction.
Defined.

End Conditions.

(** ** Summaries of an entry, question by question *)

Module EntrySummaries.

Import Js Vocabulary Summaries Memo.
Local Open Scope string_scope.
Local Open Scope Z_scope.

Lemma rows_of_question w entryId q tc row :
  In row (rows_of w entryId q tc) -> row_question row = q.
Proof.
  unfold rows_of. destruct (List.filter _ (responses w)) as [|r0 rs].
  - intros [<-|[]]. reflexivity.
  - intros H. apply in_map_iff in H as (r & <- & _). reflexivity.
Qed.

Lemma entry_questions_In w entryId q :
  In q (entry_questions w entryId) -> In q (questions w).
Proof.
  unfold entry_questions. intros H. apply in_map_iff in H as (row & <- & H).
  apply mainQuery_In in H as (q & tie & ti & tc & Hq & _ & _ & _ & _ & H).
  rewrite (rows_of_question _ _ _ _ _ H). exact Hq.
Qed.

Lemma entry_questions_ids w entryId :
  question_ids_unique w -> ids_determine (entry_questions w entryId).
Proof.
  intros U a c Ha Hc E. apply entry_questions_In in Ha, Hc.
  unfold question_ids_unique in U. revert U Ha Hc.
  induction (questions w) as [|x l IH]; [contradiction|].
  simpl. intros U Ha Hc. inversion U as [|? ? Hn U']; subst.
  destruct Ha as [->|Ha], Hc as [->|Hc]; auto.
  - exfalso. apply Hn. rewrite E. apply in_map, Hc.
  - exfalso. apply Hn. rewrite <- E. apply in_map, Ha.
Qed.

Lemma entry_questions_parents w entryId :
  parents_first (questions w) -> parents_first (entry_questions w entryId).
Proof. intros PF q pid Hq. apply PF, (entry_questions_In w entryId), Hq. Qed.

Lemma flat_map_empty {A B} (f : A -> list B) l :
  (forall x, f x = []) -> flat_map f l = [].
Proof.
  intros H. induction l as [|a l IH]; [reflexivity|].
  cbn [flat_map]. rewrite H, IH. reflexivity.
Qed.

Section Entry.

Variable tz : Z.
Variable Date_parse_other : string -> option Z.
Variable StringToNumber : string -> float.
Variable Number_toString : float -> string.

Local Abbreviation summaries :=
  (getSummariesForItem tz Date_parse_other StringToNumber Number_toString).

Lemma getSummariesForItem_loop entryId w :
  (forall row, In row (mainQuery w entryId) -> row_category_name row <> "Custom") ->
  summaries entryId w
  = match answered_rows w entryId with
    | [] => Some []
    | _ =>
        collect_summaries StringToNumber Number_toString
          (S (S (List.length (entry_questions w entryId))))
          (entry_questions w entryId) (entry_questions w entryId)
          (entry_answers Date_parse_other w entryId) (entry_options w entryId) ∅
    end.
Proof.
  intros NC. unfold getSummariesForItem, answered_rows, entry_answers, entry_options,
    entry_questions, answered_rows.
  destruct (mainQuery w entryId) as [|first rest] eqn:M; [reflexivity|].
  assert (C : String.eqb (row_category_name first) "Custom" = false).
  { apply String.eqb_neq, NC. left. reflexivity. }
  rewrite C.
  destruct (List.filter has_answer (first :: rest)) as [|a l]; [reflexivity|].
  destruct (scan_answers Date_parse_other (a :: l)) as [answerMap last].
  reflexivity.
Qed.

End Entry.

(** X22: the summaries come back when parents come first.  When every
    question of the store that has a parent has a larger id than its
    parent, [getSummariesForItem] returns a list for every entry: no
    visibility check recurses without end. *)
Theorem getSummariesForItem_returns tz Date_parse_other StringToNumber Number_toString
    entryId w :
  parents_first (questions w) ->
  exists l,
    getSummariesForItem tz Date_parse_other StringToNumber Number_toString entryId w
    = Some l.
Proof.
  intros PF. unfold getSummariesForItem.
  destruct (mainQuery w entryId) as [|first rest] eqn:M; [eauto|].
  destruct (List.filter has_answer (first :: rest)) as [|a l]; [eauto|].
  destruct (scan_answers Date_parse_other (a :: l)) as [answerMap last].
  assert (L : exists l0,
            collect_summaries StringToNumber Number_toString
              (S (S (List.length (map row_question (first :: rest)))))
              (map row_question (first :: rest)) (map row_question (first :: rest))
              answerMap
              (List.filter
                 (fun o => existsb (Z.eqb (opt_question_id o))
                             (map q_id (map row_question (first :: rest)))
                           && match opt_status o with
                              | Some st => String.eqb st "active"
                              | None => false
                              end) (options w)) ∅ = Some l0).
  { apply collect_ends; [|apply incl_refl|lia].
    rewrite <- M. apply (entry_questions_parents w entryId PF). }
  destruct (String.eqb (row_category_name first) "Custom"); [|exact L].
  destruct last; [eauto|exact L].
Qed.

Lemma getSummariesForItem_returns_witness :
  exists l,
    getSummariesForItem 0 no_other_dates no_numbers zero_text 10
      (sleep_store [response 1 5 "yes" None; response 2 6 "8h" None])
    = Some l.
Proof.
  refine (getSummariesForItem_returns 0 no_other_dates no_numbers zero_text 10
            (sleep_store [response 1 5 "yes" None; response 2 6 "8h" None]) _).
  intros q pid [<-|[<-|[]]] E; inversion E. reflexivity.
Defined.

(** X21: outside the category [Custom] the summaries of an entry are
    those of its visible answered questions, in the order of the question
    ids.  When the question ids are unique, parents come first and no row
    of the main query belongs to a category named [Custom],
    [getSummariesForItem] returns, question by question in the order of the
    query, the summary of each active question of the item that has a
    non-empty answer within the entry and a non-empty template and that
    [isQuestionVisible] finds visible when run without a memo table: the
    memo table shared by the loop changes nothing. *)
Theorem entry_summaries_by_question tz Date_parse_other StringToNumber Number_toString
    entryId w :
  question_ids_unique w ->
  parents_first (questions w) ->
  (forall row, In row (mainQuery w entryId) -> row_category_name row <> "Custom") ->
  getSummariesForItem tz Date_parse_other StringToNumber Number_toString entryId w
  = Some (flat_map
            (summary_of StringToNumber Number_toString
               (entry_answers Date_parse_other w entryId) (entry_questions w entryId)
               (entry_options w entryId)
               (S (S (List.length (entry_questions w entryId)))))
            (entry_questions w entryId)).
Proof.
  intros U PF NC. rewrite getSummariesForItem_loop by exact NC.
  pose proof (entry_questions_parents w entryId PF) as PF'.
  destruct (answered_rows w entryId) as [|a l] eqn:A.
  - f_equal. symmetry. apply flat_map_empty. intros q.
    unfold summary_of, entry_answers. rewrite A. simpl fst.
    rewrite lookup_empty. reflexivity.
  - apply collect_contributions.
    + apply entry_questions_ids, U.
    + apply sound_empty.
    + apply incl_refl.
    + intros q Hq.
      destruct (plain_ends StringToNumber Number_toString
                  (entry_answers Date_parse_other w entryId) (entry_questions w entryId)
                  (Some (entry_options w entryId))
                  (S (S (List.length (entry_questions w entryId)))) q PF' Hq)
        as (v & E).
      * pose proof (rank_bound (entry_questions w entryId) q). lia.
      * rewrite E. discriminate.
Qed.

Lemma entry_summaries_by_question_witness :
  getSummariesForItem 0 no_other_dates no_numbers zero_text 10
    (sleep_store [response 1 5 "no" None; response 2 6 "8h" None])
  = Some (flat_map
            (summary_of no_numbers zero_text
               (entry_answers no_other_dates
                  (sleep_store [response 1 5 "no" None; response 2 6 "8h" None]) 10)
               (entry_questions
                  (sleep_store [response 1 5 "no" None; response 2 6 "8h" None]) 10)
               (entry_options
                  (sleep_store [response 1 5 "no" None; response 2 6 "8h" None]) 10)
               (S (S (List.length
                        (entry_questions
                           (sleep_store [response 1 5 "no" None; response 2 6 "8h" None])
                           10)))))
            (entry_questions
               (sleep_store [response 1 5 "no" None; response 2 6 "8h" None]) 10)).
Proof.
  refine (entry_summaries_by_question 0 no_other_dates no_numbers zero_text 10
            (sleep_store [response 1 5 "no" None; response 2 6 "8h" None]) _ _ _).
  - unfold question_ids_unique. simpl.
    constructor; [intros [E|[]]; discriminate E|].
    constructor; [intros []|constructor].
  - intros q pid [<-|[<-|[]]] E; inversion E. reflexivity.
  - intros row H. vm_compute in H.
    destruct H as [<-|[<-|[]]]; discriminate.
Defined.

End EntrySummaries.

(** ** Custom goals *)

Module Goals.

Import Js Vocabulary.
Local Open Scope string_scope.
Local Open Scope Z_scope.

Lemma same_but_options_refl w : same_but_options w w.
Proof. repeat split. Qed.

Lemma same_but_options_trans a c d :
  same_but_options a c -> same_but_options c d -> same_but_options a d.
Proof.
  intros (P1 & C1 & I1 & E1 & Q1 & R1) (P2 & C2 & I2 & E2 & Q2 & R2).
  repeat split; congruence.
Qed.

Lemma options_added_nil w questionId : options_added w w questionId [] [].
Proof. split; [symmetry; apply app_nil_r|]. split; [reflexivity|intros o []]. Qed.

Lemma options_added_trans a c d questionId t1 t2 n1 n2 :
  options_added a c questionId t1 n1 -> options_added c d questionId t2 n2 ->
  options_added a d questionId (t1 ++ t2)%list (n1 ++ n2)%list.
Proof.
  intros (O1 & T1 & A1) (O2 & T2 & A2). split; [|split].
  - rewrite O2, O1, app_assoc. reflexivity.
  - rewrite map_app, T1, T2. reflexivity.
  - intros o H. apply in_app_or in H as [H|H]; auto.
Qed.

Section Options.

Variable now : string.

(** A loop that inserts an option for every text of a list. *)
Lemma insert_options_added {B} (code_of : World -> string * World)
    (text_of : B -> string) questionId (l : list B) :
  (forall w, same_but_options w (snd (code_of w))
             /\ options (snd (code_of w)) = options w) ->
  forall w,
    let w' := fold_left (fun w opt => let '(code, w1) := code_of w in
                                      insert_option now questionId code (text_of opt) w1)
                l w in
    same_but_options w w'
    /\ exists news, options_added w w' questionId (map text_of l) news.
Proof.
  intros Hc. induction l as [|x l IH]; intros w; simpl.
  - split; [apply same_but_options_refl|]. exists []. apply options_added_nil.
  - destruct (Hc w) as [F O]. destruct (code_of w) as [code w1] eqn:C. simpl in F, O.
    destruct (IH (insert_option now questionId code (text_of x) w1)) as (F2 & news & A).
    split.
    + eapply same_but_options_trans; [|exact F2].
      destruct F as (P1 & C1 & I1 & E1 & Q1 & R1). repeat split; simpl; assumption.
    + exists (new_option (fresh_id (map opt_id (options w1))) questionId code (text_of x)
                now :: news).
      change (text_of x :: map text_of l) with ([text_of x] ++ map text_of l)%list.
      change (new_option (fresh_id (map opt_id (options w1))) questionId code (text_of x)
                now :: news)
        with ([new_option (fresh_id (map opt_id (options w1))) questionId code
                 (text_of x) now] ++ news)%list.
      eapply options_added_trans; [|exact A].
      split; [simpl; rewrite O; reflexivity|]. split; [reflexivity|].
      intros o [<-|[]]. split; reflexivity.
Qed.

End Options.

Section Adding.

Variable now : string.
Variable uuidv4 : nat -> string.

Lemma generateUniqueCode_options w :
  same_but_options w (snd (generateUniqueCode uuidv4 w))
  /\ options (snd (generateUniqueCode uuidv4 w)) = options w.
Proof. split; [repeat split|reflexivity]. Qed.

Lemma clean_options opts :
  List.filter (fun o => negb (String.eqb o "")
                        && negb (Nat.eqb (String.length (trim o)) 0)) opts
  = List.filter (fun o => negb (String.eqb (trim o) "")) opts.
Proof.
  apply List.filter_ext. intros o.
  destruct (String.eqb_spec o "") as [->|N]; [reflexivity|].
  destruct (trim o); reflexivity.
Qed.

(** The options of a new question. *)
Lemma add_goal_options_added questionId question w :
  same_but_options w (add_goal_options now uuidv4 questionId question w)
  /\ exists news,
       options_added w (add_goal_options now uuidv4 questionId question w) questionId
         (goal_option_texts question) news.
Proof.
  unfold add_goal_options, goal_option_texts.
  change QuestionType.BOOLEAN with "boolean". change QuestionType.MCQ with "mcq".
  change QuestionType.MSQ with "msq".
  destruct (String.eqb (cgq_type question) "boolean") eqn:B.
  - simpl. split; [repeat split|].
    eexists [_; _]. split; [simpl; rewrite <- app_assoc; reflexivity|].
    split; [reflexivity|]. intros o [<-|[<-|[]]]; split; reflexivity.
  - cbn [orb].
    assert (E : String.eqb (cgq_type question) "mcq"
                || String.eqb (cgq_type question) "msq"
                || String.eqb (cgq_type question) "mcq"
                || String.eqb (cgq_type question) "msq"
                = String.eqb (cgq_type question) "mcq"
                  || String.eqb (cgq_type question) "msq").
    { destruct (String.eqb (cgq_type question) "mcq"),
        (String.eqb (cgq_type question) "msq"); reflexivity. }
    rewrite E. clear E.
    destruct (String.eqb (cgq_type question) "mcq"
              || String.eqb (cgq_type question) "msq").
    + destruct (cgq_options question) as [opts|].
      * rewrite clean_options.
        apply (insert_options_added now (generateUniqueCode uuidv4) trim).
        apply generateUniqueCode_options.
      * split; [apply same_but_options_refl|]. exists []. apply options_added_nil.
    + split; [apply same_but_options_refl|]. exists []. apply options_added_nil.
Qed.

Local Abbreviation goal_step trackItemId :=
  (fun w question =>
     let '(questionCode, w1) := generateUniqueCode uuidv4 w in
     let '(questionId, w2) :=
       insert_question now trackItemId questionCode (cgq_text question)
         (cgq_type question) (if cgq_required question then 1 else 0) w1 in
     add_goal_options now uuidv4 questionId question w2).

Lemma goal_step_added trackItemId w question :
  same_links w (goal_step trackItemId w question)
  /\ exists newq newopts,
       questions_added w (goal_step trackItemId w question) trackItemId [question]
         [newq] newopts.
Proof.
  cbn beta. unfold generateUniqueCode, insert_question.
  set (w1 := set_tick w (S (tick w))).
  set (qid := fresh_id (map q_id (questions w1))).
  set (newq := new_question qid trackItemId (uuidv4 (tick w)) (cgq_text question)
                 (cgq_type question) (if cgq_required question then 1 else 0) now).
  set (w2 := set_questions w1 (questions w1 ++ [newq])%list).
  destruct (add_goal_options_added qid question w2)
    as ((P & C & I & E & Q & R) & news & (O & T & A)).
  split; [repeat split; assumption|].
  exists newq, news. split; [exact Q|]. split; [exact O|].
  split; [reflexivity|]. split; [reflexivity|].
  split; [intros q [<-|[]]; repeat split|].
  split; [cbn [flat_map]; rewrite app_nil_r; exact T|].
  intros o Ho. destruct (A o Ho) as [A1 A2]. split; [exact A2|].
  exists newq. split; [left; reflexivity|exact A1].
Qed.

Lemma goal_steps_added trackItemId l : forall w,
  same_links w (fold_left (goal_step trackItemId) l w)
  /\ exists newqs newopts,
       questions_added w (fold_left (goal_step trackItemId) l w) trackItemId l
         newqs newopts.
Proof.
  induction l as [|x l IH]; intros w.
  - split; [repeat split|]. exists [], []. unfold questions_added. simpl.
    rewrite !app_nil_r.
    split; [reflexivity|]. split; [reflexivity|]. split; [reflexivity|].
    split; [reflexivity|]. split; [intros ? []|]. split; [reflexivity|intros ? []].
  - cbn [fold_left].
    destruct (goal_step_added trackItemId w x)
      as ((P1 & C1 & I1 & E1 & R1) & q1 & o1 & (Q1 & O1 & T1 & Y1 & A1 & X1 & B1)).
    destruct (IH (goal_step trackItemId w x))
      as ((P2 & C2 & I2 & E2 & R2) & q2 & o2 & (Q2 & O2 & T2 & Y2 & A2 & X2 & B2)).
    split; [repeat split; congruence|].
    exists ([q1] ++ q2)%list, (o1 ++ o2)%list. unfold questions_added.
    split; [rewrite Q2, Q1, <- app_assoc; reflexivity|].
    split; [rewrite O2, O1, <- app_assoc; reflexivity|].
    split; [rewrite map_app, T1, T2; reflexivity|].
    split; [rewrite map_app, Y1, Y2; reflexivity|].
    split; [intros q H; apply in_app_or in H as [H|H]; auto|].
    split.
    + rewrite map_app, X1, X2. cbn [flat_map]. rewrite app_nil_r. reflexivity.
    + intros o H. apply in_app_or in H as [H|H].
      * destruct (B1 o H) as (S1 & q & Hq & Eq). split; [exact S1|].
        exists q. split; [apply in_or_app; left; exact Hq|exact Eq].
      * destruct (B2 o H) as (S2 & q & Hq & Eq). split; [exact S2|].
        exists q. split; [apply in_or_app; right; exact Hq|exact Eq].
Qed.

End Adding.

(** X25: what [addCustomGoal] creates.  The call fails exactly when no
    category is named [Custom], and then writes nothing.  Otherwise it
    returns a fresh item id and adds one active item of the first category
    named [Custom], with the name and frequency given; for every question
    given, in order, one active question of that item with its text and
    type, without summary template and without parent; and their options:
    [Yes] and [No] for a boolean question, the non-blank options, trimmed,
    for a choice question.  It adds no entry: the goal is not linked to the
    patient, and the patient, the user and the date of the parameters are
    not used. *)
Theorem addCustomGoal_creates now uuidv4 params w :
  match addCustomGoal now uuidv4 params w with
  | None => forall c, In c (categories w) -> cat_name c <> "Custom"
  | Some (id, w') =>
      ~ In id (map item_id (items w))
      /\ (exists category,
            List.find (fun c => String.eqb (cat_name c) "Custom") (categories w)
            = Some category
            /\ items w'
               = (items w
                  ++ [{| item_id := id; item_category_id := cat_id category;
                         item_code := uuidv4 (tick w); item_name := cg_name params;
                         item_frequency := cg_frequency params;
                         item_status := "active"; item_created_date := now;
                         item_updated_date := now |}])%list)
      /\ patients w' = patients w /\ categories w' = categories w
      /\ entries w' = entries w /\ responses w' = responses w
      /\ exists newqs newopts,
           questions_added w w' id (cg_questions params) newqs newopts
  end.
Proof.
  unfold addCustomGoal.
  destruct (List.find _ (categories w)) as [category|] eqn:F.
  - cbn beta iota zeta. unfold generateUniqueCode at 1. cbn beta iota zeta.
    set (w1 := set_tick w (S (tick w))).
    set (id := fresh_id (map item_id (items w1))).
    set (w2 := set_items w1 _).
    destruct (goal_steps_added now uuidv4 id (cg_questions params) w2)
      as ((P & C & I & E & R) & newqs & newopts & A).
    split; [apply Subscription.fresh_id_not_in|].
    split; [exists category; split; [reflexivity|exact I]|].
    split; [exact P|]. split; [exact C|]. split; [exact E|]. split; [exact R|].
    exists newqs, newopts. exact A.
  - intros c Hc. eapply find_none in F; [|exact Hc]. simpl in F.
    apply String.eqb_neq, F.
Qed.

Section Editing.

Variable now : string.
Variable uuidv4 : nat -> string.
Variable Date_now : nat -> Z.
Variable random_base36 : nat -> string.

Lemma filter_all {A} (f : A -> bool) l :
  (forall x, In x l -> f x = true) -> List.filter f l = l.
Proof.
  induction l as [|x l IH]; intros H; [reflexivity|]. simpl.
  rewrite (H x (or_introl eq_refl)), IH; [reflexivity|].
  intros y Hy. apply H. right. exact Hy.
Qed.

Lemma filter_nothing {A} (f : A -> bool) l :
  (forall x, In x l -> f x = false) -> List.filter f l = [].
Proof.
  induction l as [|x l IH]; intros H; [reflexivity|]. simpl.
  rewrite (H x (or_introl eq_refl)). apply IH.
  intros y Hy. apply H. right. exact Hy.
Qed.

(** The options after the options of a question were replaced. *)
Lemma update_question_options id q opts w :
  qu_options q = Some opts ->
  questions (update_question now uuidv4 id q w)
  = map (fun x => if q_id x =? id
                  then question_with_text x (qu_text q) (qu_type q)
                         (required_flag (qu_required q)) now
                  else x) (questions w)
  /\ items (update_question now uuidv4 id q w) = items w
  /\ exists news,
       options (update_question now uuidv4 id q w)
       = (options_but w id ++ news)%list
       /\ map opt_text news = map trim opts
       /\ forall o, In o news ->
            opt_question_id o = id /\ opt_status o = Some "active".
Proof.
  intros E. unfold update_question. rewrite E.
  set (w2 := set_options _ _).
  destruct (insert_options_added now (generateUniqueCode uuidv4) trim id opts
              (generateUniqueCode_options uuidv4) w2)
    as ((P & C & I & N & Q & R) & news & (O & T & A)).
  split; [exact Q|]. split; [exact I|]. exists news.
  split; [exact O|]. split; [exact T|exact A].
Qed.

End Editing.

(** X26: [editCustomGoal] with one update that names an existing question
    and gives options.  Whatever item the call names, every question with
    the id of the update gets the text, type and required flag given; the
    options the question had are deleted and one active option is stored
    for each option given, in order, trimmed, the blank ones too; the
    options of the other questions stay as they were. *)
Theorem editCustomGoal_replaces_options now uuidv4 Date_now random_base36
    trackItemId name id text type required opts w :
  id <> 0 ->
  let w' :=
    editCustomGoal now uuidv4 Date_now random_base36 trackItemId
      {| gu_name := name;
         gu_questions :=
           Some [{| qu_id := Some id; qu_text := text; qu_type := type;
                    qu_required := required; qu_options := Some opts |}] |} w in
  options_but w' id = options_but w id
  /\ map opt_text (options_of w' id) = map trim opts
  /\ (forall o, In o (options_of w' id) -> opt_status o = Some "active")
  /\ (forall q, In q (questions w) -> q_id q = id ->
        In (question_with_text q text type (required_flag required) now)
           (questions w')).
Proof.
  intros N w'.
  assert (exists w1, w' = update_question now uuidv4 id
                            {| qu_id := Some id; qu_text := text; qu_type := type;
                               qu_required := required; qu_options := Some opts |} w1
                     /\ options w1 = options w /\ questions w1 = questions w)
    as (w1 & -> & O1 & Q1).
  { subst w'. unfold editCustomGoal. cbn [gu_name gu_questions fold_left].
    unfold edit_question. cbn [qu_id].
    destruct (Z.eqb_spec id 0) as [->|_]; [contradiction|].
    eexists. split; [reflexivity|].
    destruct name as [name|]; [destruct (String.eqb name "")|]; split; reflexivity. }
  destruct (update_question_options now uuidv4 id
              {| qu_id := Some id; qu_text := text; qu_type := type;
                 qu_required := required; qu_options := Some opts |} opts w1 eq_refl)
    as (Q & _ & news & O & T & A).
  cbn [qu_text qu_type qu_required] in Q.
  assert (B : options_but w1 id = options_but w id)
    by (unfold options_but; rewrite O1; reflexivity).
  assert (Fy : List.filter (fun o => opt_question_id o =? id) news = news).
  { apply filter_all. intros o Ho. apply Z.eqb_eq, (A o Ho). }
  assert (Fn : List.filter (fun o => negb (opt_question_id o =? id)) news = []).
  { apply filter_nothing. intros o Ho. destruct (A o Ho) as [-> _].
    rewrite Z.eqb_refl. reflexivity. }
  assert (Oy : options_of (update_question now uuidv4 id
                             {| qu_id := Some id; qu_text := text; qu_type := type;
                                qu_required := required; qu_options := Some opts |} w1) id
               = news).
  { unfold options_of. rewrite O, List.filter_app, Fy.
    unfold options_but. rewrite filter_nothing; [reflexivity|].
    intros o Ho. apply filter_In in Ho as [_ Ho].
    destruct (opt_question_id o =? id); [discriminate Ho|reflexivity]. }
  split.
  - unfold options_but at 1. rewrite O, List.filter_app, Fn, app_nil_r.
    rewrite <- B. unfold options_but. apply filter_all.
    intros o Ho. apply filter_In in Ho as [_ Ho]. exact Ho.
  - rewrite Oy. split; [exact T|]. split; [intros o Ho; apply (A o Ho)|].
    intros q Hq Eq. rewrite Q, Q1. apply in_map_iff. exists q.
    split; [|exact Hq]. rewrite Eq, Z.eqb_refl. reflexivity.
Qed.

Lemma editCustomGoal_replaces_options_witness :
  map opt_text
    (options_of (editCustomGoal "t1" codes (fun _ => 0) codes 3
                   {| gu_name := None;
                      gu_questions :=
                        Some [{| qu_id := Some 5; qu_text := "How far?"; qu_type := "mcq";
                                 qu_required := None;
                                 qu_options := Some [" far "; "  "] |}] |} goal_store) 5)
  = ["far"; ""].
Proof.
  assert (N : 5 <> 0) by discriminate.
  exact (proj1 (proj2 (editCustomGoal_replaces_options "t1" codes (fun _ => 0) codes 3
                         None 5 "How far?" "mcq" None [" far "; "  "] goal_store N))).
Defined.
End Goals.
(** ** The short date of the linked lists *)

Module ShortDates.

Import Js Vocabulary Calendar Decimal_text DateNormalizer.
Local Open Scope string_scope.
Local Open Scope Z_scope.

(** The last two characters of a four-digit year are its last two digits. *)
Lemma year_last_digits y :
  1000 <= y <= 9999 -> slice_last2 (Z_toString y) = padStart2 (Z_toString (y mod 100)).
Proof.
  intros H.
  assert (A : forallb (fun k => String.eqb (slice_last2 (Z_toString (1000 + Z.of_nat k)))
                                  (padStart2 (Z_toString ((1000 + Z.of_nat k) mod 100))))
                (seq 0 (Z.to_nat 9000)) = true) by (vm_compute; reflexivity).
  rewrite forallb_forall in A.
  specialize (A (Z.to_nat (y - 1000))).
  replace (1000 + Z.of_nat (Z.to_nat (y - 1000))) with y in A by lia.
  apply String.eqb_eq, A, in_seq. lia.
Qed.

Lemma append_not_empty s c r : s ++ String c r <> "".
Proof. destruct s; discriminate. Qed.

Lemma formatDateMMDDYY_time tz Date_parse_other s t :
  Date_of_string Date_parse_other s = Some t ->
  formatDateMMDDYY tz Date_parse_other s
  = padStart2 (Z_toString (month_of (local_day tz t) + 1))
    ++ String "-" (padStart2 (Z_toString (date_of (local_day tz t)))
                   ++ String "-" (slice_last2 (Z_toString (year_of (local_day tz t))))).
Proof. intros E. unfold formatDateMMDDYY. rewrite E. reflexivity. Qed.

(** X27: the short date of the linked lists.  [formatDateMMDDYY] returns
    the empty text exactly for a text that is read as no date.  A text read
    as a date whose local year is from 1000 to 9999 gives [MM-DD-YY] of the
    local day, with the last two digits of the year.  So a date-only text
    [YYYY-MM-DD], which is read as midnight in UTC, is shown as that day
    where local time is UTC or ahead of it, and as the day before where
    local time is behind UTC. *)
Theorem formatDateMMDDYY_by_zone tz Date_parse_other :
  - msPerDay <= tz < msPerDay ->
  (forall s, formatDateMMDDYY tz Date_parse_other s = ""
             <-> Date_of_string Date_parse_other s = None)
  /\ (forall s t,
        Date_of_string Date_parse_other s = Some t ->
        1000 <= year_of (local_day tz t) <= 9999 ->
        formatDateMMDDYY tz Date_parse_other s = short_day (local_day tz t))
  /\ (forall y m d,
        1001 <= y <= 9999 -> 1 <= m <= 12 -> 1 <= d <= DaysInMonth y (m - 1) ->
        formatDateMMDDYY tz Date_parse_other (iso_text y m d)
        = short_day (if 0 <=? tz then MakeDay y (m - 1) d else MakeDay y (m - 1) d - 1)).
Proof.
  intros Htz.
  assert (G : forall s t,
            Date_of_string Date_parse_other s = Some t ->
            1000 <= year_of (local_day tz t) <= 9999 ->
            formatDateMMDDYY tz Date_parse_other s = short_day (local_day tz t)).
  { intros s t E Hy. rewrite (formatDateMMDDYY_time tz Date_parse_other s t E).
    rewrite (year_last_digits _ Hy). reflexivity. }
  split; [|split; [exact G|]].
  - intros s. destruct (Date_of_string Date_parse_other s) as [t|] eqn:E.
    + rewrite (formatDateMMDDYY_time tz Date_parse_other s t E).
      split; [intros H; exfalso; exact (append_not_empty _ _ _ H)|discriminate].
    + unfold formatDateMMDDYY. rewrite E. split; reflexivity.
  - intros y m d Hy Hm Hd.
    destruct (DateTexts.iso_text_read y m d ltac:(lia) Hm Hd) as (_ & Only).
    destruct (fields_MakeDay y (m - 1) d ltac:(lia) Hd) as (Fy & _).
    set (n := MakeDay y (m - 1) d) in *.
    assert (P : Date_of_string Date_parse_other (iso_text y m d) = Some (n * msPerDay)).
    { unfold Date_of_string. rewrite Only. fold n. unfold MakeDate. rewrite Z.add_0_r.
      apply (DateTexts.TimeClip_in_range 0); [unfold msPerDay; lia|].
      unfold local_day. rewrite Z.add_0_r, Day_local_midnight.
      apply day_range_of_year. lia. }
    pose proof (DateTexts.local_day_utc_midnight tz n Htz) as LD.
    rewrite (G _ _ P); rewrite LD; [reflexivity|].
    destruct (0 <=? tz); [lia|].
    pose proof (DateTexts.year_of_day_before n y Fy). lia.
Qed.

Lemma formatDateMMDDYY_by_zone_witness :
  formatDateMMDDYY utc_minus_5 no_other_dates (iso_text 2024 3 1)
  = short_day (MakeDay 2024 2 1 - 1).
Proof.
  refine (proj2 (proj2 (formatDateMMDDYY_by_zone utc_minus_5 no_other_dates _))
            2024 3 1 _ _ _).
  - unfold msPerDay, utc_minus_5. lia.
  - lia.
  - lia.
  - vm_compute. split; discriminate.
Defined.

End ShortDates.
(** ** The dashboard of a date *)

Module Dashboard.

Import Js Vocabulary.
Local Open Scope string_scope.
Local Open Scope Z_scope.

Ltac to_prop :=
  repeat match goal with
         | H : _ && _ = true |- _ => apply andb_prop in H as [? ?]
         | H : (_ =? _) = true |- _ => apply Z.eqb_eq in H
         | H : String.eqb _ _ = true |- _ => apply String.eqb_eq in H
         end.

Lemma left_join_In {A B} (l : list A) (row : option A -> list B) x :
  In x (left_join l row)
  <-> (l = [] /\ In x (row None)) \/ (exists a, In a l /\ In x (row (Some a))).
Proof.
  destruct l as [|a l].
  - simpl. split; [intros H; left; auto|intros [[_ H]|(a & [] & _)]; exact H].
  - unfold left_join. rewrite in_flat_map. split.
    + intros H. right. exact H.
    + intros [[E _]|H]; [discriminate E|exact H].
Qed.

Lemma count_distinct_same l l' :
  (forall x, In x l <-> In x l') -> count_distinct l = count_distinct l'.
Proof.
  intros H. unfold count_distinct. f_equal. apply Nat.le_antisymm.
  - apply List.NoDup_incl_length; [apply List.NoDup_nodup|].
    intros x Hx. apply nodup_In. apply H. apply nodup_In in Hx. exact Hx.
  - apply List.NoDup_incl_length; [apply List.NoDup_nodup|].
    intros x Hx. apply nodup_In. apply H. apply nodup_In in Hx. exact Hx.
Qed.

Lemma count_distinct_positive l : l <> [] -> 1 <= count_distinct l.
Proof.
  intros N. unfold count_distinct. destruct l as [|x l]; [contradiction|].
  assert (In x (nodup Z.eq_dec (x :: l))) by (apply nodup_In; left; reflexivity).
  destruct (nodup Z.eq_dec (x :: l)); [contradiction|]. simpl List.length. lia.
Qed.

Lemma filter_not_empty {A} (f : A -> bool) l x :
  In x l -> f x = true -> List.filter f l <> [].
Proof.
  intros Hx F E. assert (H : In x (List.filter f l)) by (apply filter_In; auto).
  rewrite E in H. exact H.
Qed.

Lemma not_empty_In {A} (l : list A) : l <> [] -> exists x, In x l.
Proof. destruct l as [|x l]; [contradiction|]. exists x. left. reflexivity. Qed.

Lemma active_questions_In w itemId x :
  In x (active_questions w itemId)
  <-> exists q, In q (questions w) /\ q_item_id q = itemId /\ q_status q = "active"
                /\ x = q_id q.
Proof.
  unfold active_questions. rewrite in_map_iff. split.
  - intros (q & <- & H). apply filter_In in H as [H C]. to_prop. eauto.
  - intros (q & H & I & S & ->). exists q. split; [reflexivity|].
    apply filter_In. split; [exact H|]. rewrite I, S, Z.eqb_refl. reflexivity.
Qed.

Lemma answered_questions_In w entryId x :
  In x (answered_questions w entryId)
  <-> exists r, In r (responses w) /\ resp_track_item_entry_id r = entryId
                /\ x = resp_question_id r.
Proof.
  unfold answered_questions. rewrite in_map_iff. split.
  - intros (r & <- & H). apply filter_In in H as [H C]. to_prop. eauto.
  - intros (r & H & I & ->). exists r. split; [reflexivity|].
    apply filter_In. split; [exact H|]. rewrite I, Z.eqb_refl. reflexivity.
Qed.

Section Query.

Variable w : World.
Variable patientId : Z.
Variable date : string.

Local Abbreviation joined :=
  (List.filter (progress_where w date) (progress_joins w patientId date)).

(** The rows of the joins that pass the [WHERE] clause. *)
Lemma joined_In j :
  In j joined
  <-> exists ti e q,
        j = {| pj_item := ti; pj_entry := Some e; pj_question := Some q;
               pj_response := pj_response j |}
        /\ on_dashboard w patientId date ti e
        /\ In q (questions w) /\ q_item_id q = item_id ti /\ q_status q = "active"
        /\ match pj_response j with
           | Some r => In r (responses w) /\ resp_track_item_entry_id r = entry_id e
           | None => answered_questions w (entry_id e) = []
           end.
Proof.
  split.
  - intros H. apply filter_In in H as [H W]. unfold progress_joins in H.
    apply in_flat_map in H as (ti & Hti & H).
    apply in_flat_map in H as (tc & Htc & H).
    destruct ((cat_id tc =? item_category_id ti) && String.eqb (cat_status tc) "active")
      eqn:C; [|destruct H].
    apply in_flat_map in H as (qc & Hqc & H).
    destruct ((q_item_id qc =? item_id ti) && String.eqb (q_status qc) "active")
      eqn:C2; [|destruct H].
    to_prop.
    assert (AQ : active_questions w (item_id ti) <> []).
    { intros E. assert (I : In (q_id qc) (active_questions w (item_id ti)))
        by (apply active_questions_In; eauto).
      rewrite E in I. exact I. }
    apply left_join_In in H as [[_ H]|(e & He & H)]; cbv beta in H.
    + exfalso.
      apply left_join_In in H as [[_ H]|(q & _ & H)]; cbv beta in H;
        apply left_join_In in H as [[_ H]|(r & [] & _)]; cbv beta in H;
        destruct H as [<-|[]]; unfold progress_where in W; simpl in W;
        rewrite andb_false_r in W; discriminate W.
    + apply filter_In in He as [He Ce]. to_prop.
      apply left_join_In in H as [[Eq _]|(q & Hq & H)];
        [exfalso; unfold active_questions in AQ; rewrite Eq in AQ; apply AQ; reflexivity|].
      cbv beta in H.
      apply filter_In in Hq as [Hq Cq]. to_prop.
      assert (D : pj_item j = ti /\ pj_entry j = Some e /\ pj_question j = Some q
                  /\ match pj_response j with
                     | Some r => In r (responses w)
                                 /\ resp_track_item_entry_id r = entry_id e
                     | None => answered_questions w (entry_id e) = []
                     end).
      { apply left_join_In in H as [[Er H]|(r & Hr & H)]; cbv beta in H;
          destruct H as [<-|[]]; simpl; repeat split.
        - unfold answered_questions.
          rewrite (List.filter_ext _
                     (fun r => (resp_track_item_entry_id r =? entry_id e)
                               && String.eqb (entry_date e) date)); [rewrite Er; reflexivity|].
          intros r. subst date. rewrite String.eqb_refl, andb_true_r. reflexivity.
        - apply filter_In in Hr as [Hr _]. exact Hr.
        - apply filter_In in Hr as [_ Cr]. to_prop. assumption. }
      destruct D as (D1 & D2 & D3 & D4).
      exists ti, e, q. split; [destruct j; simpl in *; congruence|].
      split; [|auto].
      unfold progress_where in W. rewrite D1, D2 in W.
      apply andb_prop in W as [Wi Ws]. apply String.eqb_eq in Wi.
      split; [exact Hti|]. split; [exact He|]. split; [exact Wi|].
      split; [exists tc; auto|]. split; [exact AQ|].
      split; [assumption|]. split; [assumption|]. split; [assumption|].
      apply orb_prop in Ws as [S|X]; [left; apply Z.eqb_eq, S|right].
      apply existsb_exists in X as (r2 & Hr2 & X). to_prop.
      intros E. assert (I : In (resp_question_id r2) (answered_questions w (entry_id e)))
        by (apply answered_questions_In; eauto).
      rewrite E in I. exact I.
  - intros (ti & e & q & Ej & D & Hq & Iq & Sq & R).
    destruct D as (Hti & He & Si & (tc & Htc & Ic & Sc) & AQ & Ie & Pe & De & Sel).
    apply filter_In. split.
    + unfold progress_joins. apply in_flat_map. exists ti. split; [exact Hti|].
      apply in_flat_map. exists tc. split; [exact Htc|].
      rewrite Ic, Sc, Z.eqb_refl, String.eqb_refl. cbn [andb].
      apply in_flat_map. exists q. split; [exact Hq|].
      rewrite Iq, Sq, Z.eqb_refl, String.eqb_refl. cbn [andb].
      apply left_join_In. right. exists e. split.
      { apply filter_In. split; [exact He|].
        rewrite Ie, Pe, De, !Z.eqb_refl, String.eqb_refl. reflexivity. }
      apply left_join_In. right. exists q. split.
      { apply filter_In. split; [exact Hq|].
        rewrite Iq, Sq, Z.eqb_refl, String.eqb_refl. reflexivity. }
      apply left_join_In. rewrite Ej. simpl pj_response.
      destruct (pj_response j) as [r|].
      * destruct R as [Hr Ir]. right. exists r. split; [|left; reflexivity].
        apply filter_In. split; [exact Hr|].
        rewrite Ir, De, Z.eqb_refl, String.eqb_refl. reflexivity.
      * left. split; [|left; reflexivity].
        unfold answered_questions in R. apply map_eq_nil in R.
        rewrite (List.filter_ext _ (fun r => resp_track_item_entry_id r =? entry_id e));
          [exact R|].
        intros r. rewrite De, String.eqb_refl, andb_true_r. reflexivity.
    + rewrite Ej. unfold progress_where. simpl. rewrite Si, String.eqb_refl. simpl.
      destruct Sel as [S|X]; [rewrite S; reflexivity|].
      apply orb_true_iff. right.
      destruct (not_empty_In _ X) as (x & Hx).
      apply answered_questions_In in Hx as (r2 & Hr2 & I2 & _).
      apply existsb_exists. exists r2. split; [exact Hr2|].
      rewrite I2, Z.eqb_refl, andb_true_r.
      apply existsb_exists. exists e. split; [exact He|].
      rewrite De, Z.eqb_refl, String.eqb_refl. reflexivity.
Qed.

Lemma joined_make ti e q ro :
  on_dashboard w patientId date ti e ->
  In q (questions w) -> q_item_id q = item_id ti -> q_status q = "active" ->
  match ro with
  | Some r => In r (responses w) /\ resp_track_item_entry_id r = entry_id e
  | None => answered_questions w (entry_id e) = []
  end ->
  In {| pj_item := ti; pj_entry := Some e; pj_question := Some q; pj_response := ro |}
     joined.
Proof.
  intros D Hq Iq Sq R. apply joined_In. exists ti, e, q.
  split; [reflexivity|]. split; [exact D|]. auto.
Qed.

Local Abbreviation group key :=
  (List.filter (fun j => if progress_key_eq_dec (progress_key j) key then true else false)
     joined).

Lemma group_In ti e j :
  In j (group (Some (entry_id e), ti, Some (entry_selected e)))
  <-> In j joined /\ progress_key j = (Some (entry_id e), ti, Some (entry_selected e)).
Proof.
  rewrite filter_In.
  destruct (progress_key_eq_dec (progress_key j)
              (Some (entry_id e), ti, Some (entry_selected e))) as [K|K].
  - split; intros [H _]; auto.
  - split; intros [_ H]; [discriminate H|contradiction].
Qed.

(** The questions counted in the group of an entry of an item. *)
Lemma group_total ti e :
  on_dashboard w patientId date ti e ->
  count_distinct
    (flat_map (fun j => match pj_question j with
                        | Some q => [q_id q]
                        | None => []
                        end)
       (group (Some (entry_id e), ti, Some (entry_selected e))))
  = count_distinct (active_questions w (item_id ti)).
Proof.
  intros D. apply count_distinct_same. intros x. rewrite in_flat_map. split.
  - intros (j & Hj & Hx). apply group_In in Hj as [Hj K].
    apply joined_In in Hj as (ti' & e' & q' & Ej & _ & Hq & Iq & Sq & _).
    rewrite Ej in K, Hx. unfold progress_key in K. simpl in K, Hx.
    injection K as _ -> _. destruct Hx as [<-|[]].
    apply active_questions_In. eauto.
  - intros Hx. apply active_questions_In in Hx as (q & Hq & Iq & Sq & ->).
    destruct (List.filter (fun r => resp_track_item_entry_id r =? entry_id e)
                (responses w)) as [|r l] eqn:F.
    + exists {| pj_item := ti; pj_entry := Some e; pj_question := Some q;
                pj_response := None |}.
      split; [|left; reflexivity]. apply group_In. split; [|reflexivity].
      apply joined_make; auto. unfold answered_questions. rewrite F. reflexivity.
    + assert (Hr : In r (List.filter (fun r => resp_track_item_entry_id r =? entry_id e)
                           (responses w))) by (rewrite F; left; reflexivity).
      apply filter_In in Hr as [Hr Ir]. apply Z.eqb_eq in Ir.
      exists {| pj_item := ti; pj_entry := Some e; pj_question := Some q;
                pj_response := Some r |}.
      split; [|left; reflexivity]. apply group_In. split; [|reflexivity].
      apply joined_make; auto.
Qed.

(** The responses counted in the group of an entry of an item. *)
Lemma group_completed ti e :
  on_dashboard w patientId date ti e ->
  count_distinct
    (flat_map (fun j => match pj_response j with
                        | Some r => [resp_question_id r]
                        | None => []
                        end)
       (group (Some (entry_id e), ti, Some (entry_selected e))))
  = count_distinct (answered_questions w (entry_id e)).
Proof.
  intros D. apply count_distinct_same. intros x. rewrite in_flat_map. split.
  - intros (j & Hj & Hx). apply group_In in Hj as [Hj K].
    apply joined_In in Hj as (ti' & e' & q' & Ej & _ & _ & _ & _ & R).
    rewrite Ej in K. unfold progress_key in K. simpl in K.
    injection K as Ee _ _.
    destruct (pj_response j) as [r|]; [|destruct Hx].
    destruct Hx as [<-|[]]. destruct R as [Hr Ir].
    apply answered_questions_In. exists r. split; [exact Hr|]. split; [congruence|reflexivity].
  - intros Hx. apply answered_questions_In in Hx as (r & Hr & Ir & ->).
    pose proof D as (_ & _ & _ & _ & AQ & _).
    destruct (not_empty_In _ AQ) as (y & Hy).
    apply active_questions_In in Hy as (q & Hq & Iq & Sq & _).
    exists {| pj_item := ti; pj_entry := Some e; pj_question := Some q;
              pj_response := Some r |}.
    split; [|left; reflexivity]. apply group_In. split; [|reflexivity].
    apply joined_make; auto.
Qed.

(** The rows of the progress query: one for every item and entry of the
    dashboard. *)
Lemma progress_rows_In row :
  In row (progress_rows w patientId date)
  <-> exists ti e, on_dashboard w patientId date ti e /\ row = dashboard_row w ti e.
Proof.
  unfold progress_rows. cbv zeta. rewrite in_map_iff. split.
  - intros (key & <- & Hk). apply nodup_In in Hk.
    apply in_map_iff in Hk as (j & <- & Hj).
    apply joined_In in Hj as (ti & e & q & Ej & D & _).
    exists ti, e. split; [exact D|].
    assert (K : progress_key j = (Some (entry_id e), ti, Some (entry_selected e)))
      by (rewrite Ej; reflexivity).
    rewrite K. cbn [fst snd].
    rewrite (group_total ti e D), (group_completed ti e D). reflexivity.
  - intros (ti & e & D & ->).
    exists (Some (entry_id e), ti, Some (entry_selected e)). split.
    + cbn [fst snd]. rewrite (group_total ti e D), (group_completed ti e D). reflexivity.
    + apply nodup_In. apply in_map_iff.
      pose proof D as (_ & _ & _ & _ & AQ & _).
      destruct (not_empty_In _ AQ) as (y & Hy).
      apply active_questions_In in Hy as (q & Hq & Iq & Sq & _).
      destruct (List.filter (fun r => resp_track_item_entry_id r =? entry_id e)
                  (responses w)) as [|r l] eqn:F.
      * exists {| pj_item := ti; pj_entry := Some e; pj_question := Some q;
                  pj_response := None |}.
        split; [reflexivity|].
        apply joined_make; auto. unfold answered_questions. rewrite F. reflexivity.
      * assert (Hr : In r (List.filter (fun r => resp_track_item_entry_id r =? entry_id e)
                             (responses w))) by (rewrite F; left; reflexivity).
        apply filter_In in Hr as [Hr Ir]. apply Z.eqb_eq in Ir.
        exists {| pj_item := ti; pj_entry := Some e; pj_question := Some q;
                  pj_response := Some r |}.
        split; [reflexivity|]. apply joined_make; auto.
Qed.

End Query.

Lemma Forall2_In_r {A B} (R : A -> B -> Prop) l l' y :
  Forall2 R l l' -> In y l' -> exists x, In x l /\ R x y.
Proof.
  induction 1 as [|a b l l' Hab _ IH]; intros Hy; [destruct Hy|].
  destruct Hy as [<-|Hy]; [exists a; split; [left; reflexivity|exact Hab]|].
  destruct (IH Hy) as (x & Hx & Rx). exists x. split; [right; exact Hx|exact Rx].
Qed.

Lemma Forall2_In_l {A B} (R : A -> B -> Prop) l l' x :
  Forall2 R l l' -> In x l -> exists y, In y l' /\ R x y.
Proof.
  induction 1 as [|a b l l' Hab _ IH]; intros Hx; [destruct Hx|].
  destruct Hx as [<-|Hx]; [exists b; split; [left; reflexivity|exact Hab]|].
  destruct (IH Hx) as (y & Hy & Ry). exists y. split; [right; exact Hy|exact Ry].
Qed.

Section Building.

Variable tz : Z.
Variable Date_parse_other : string -> option Z.
Variable StringToNumber : string -> float.
Variable Number_toString : float -> string.

Local Abbreviation summaries_of :=
  (getSummariesForItem tz Date_parse_other StringToNumber Number_toString).

(** The item shown for a row of the query. *)
Local Abbreviation shown w :=
  (fun (row : ProgressRow) (x : TrackItemWithProgress) =>
     tip_item x = pr_item row /\ tip_entry_id x = pr_entry_id row
     /\ tip_completed x = pr_completed row /\ tip_total x = pr_total row
     /\ match pr_entry_id row with
        | Some id => if id =? 0 then tip_summaries x = []
                     else summaries_of id w = Some (tip_summaries x)
        | None => tip_summaries x = []
        end).

Lemma items_with_progress_shown rows w :
  match items_with_progress tz Date_parse_other StringToNumber Number_toString rows w with
  | Some l => Forall2 (shown w) rows l
  | None => exists row id, In row rows /\ pr_entry_id row = Some id /\ id <> 0
                           /\ summaries_of id w = None
  end.
Proof.
  induction rows as [|row rows IH]; [constructor|]. cbn [items_with_progress].
  destruct (pr_entry_id row) as [id|] eqn:E.
  - destruct (Z.eqb_spec id 0) as [Z0|N0].
    + destruct (items_with_progress _ _ _ _ rows w) as [l|].
      * constructor; [|exact IH]. cbn. rewrite E. subst id. repeat split.
      * destruct IH as (r & i & H & K). exists r, i. split; [right; exact H|exact K].
    + destruct (summaries_of id w) as [s|] eqn:S.
      * destruct (items_with_progress _ _ _ _ rows w) as [l|].
        -- constructor; [|exact IH]. cbn. rewrite E.
           destruct (Z.eqb_spec id 0); [contradiction|]. repeat split. exact S.
        -- destruct IH as (r & i & H & K). exists r, i. split; [right; exact H|exact K].
      * exists row, id. split; [left; reflexivity|]. auto.
  - destruct (items_with_progress _ _ _ _ rows w) as [l|].
    + constructor; [|exact IH]. cbn. rewrite E. repeat split.
    + destruct IH as (r & i & H & K). exists r, i. split; [right; exact H|exact K].
Qed.

Lemma categories_with_items_shown cats rows w :
  match categories_with_items tz Date_parse_other StringToNumber Number_toString
          cats rows w with
  | Some result =>
      Forall2 (fun cat c =>
                 tci_category c = cat
                 /\ Forall2 (shown w)
                      (List.filter (fun r => item_category_id (pr_item r) =? cat_id cat) rows)
                      (tci_items c))
        cats result
  | None => exists row id, In row rows /\ pr_entry_id row = Some id /\ id <> 0
                           /\ summaries_of id w = None
  end.
Proof.
  induction cats as [|cat cats IH]; [constructor|]. cbn [categories_with_items].
  pose proof (items_with_progress_shown
                (List.filter (fun r => item_category_id (pr_item r) =? cat_id cat) rows) w)
    as I.
  destruct (items_with_progress _ _ _ _ _ w) as [l|].
  - destruct (categories_with_items _ _ _ _ cats rows w) as [result|].
    + constructor; [split; [reflexivity|exact I]|exact IH].
    + exact IH.
  - destruct I as (r & i & H & K). apply filter_In in H as [H _]. exists r, i. auto.
Qed.

End Building.

(** X28: what the dashboard of a date shows.
    [getTrackCategoriesWithItemsAndProgress] first ensures the entries of
    the date and then reads the store it gets.  When every summary comes
    back, the result lists the active categories in their order; every item
    shown in a category belongs to it and is on the dashboard by an entry:
    the item is active with an active question and an active category, and
    the entry is one of the item for the patient, stored under exactly the
    date text asked for, selected or holding a response.  The total of the
    item counts its active questions and is at least 1; its completed
    number counts the distinct questions with a response in the entry,
    active or not and of this item or not.  Every item that is on the
    dashboard by an entry is shown.  When a summary does not come back the
    call fails. *)
Theorem dashboard_of_date tz Date_parse_other StringToNumber Number_toString now
    patientId date w :
  let w1 := ensureSubscribedEntries tz Date_parse_other now patientId date w in
  snd (getTrackCategoriesWithItemsAndProgress tz Date_parse_other StringToNumber
         Number_toString now patientId date w) = w1
  /\ match fst (getTrackCategoriesWithItemsAndProgress tz Date_parse_other
                  StringToNumber Number_toString now patientId date w) with
     | Some result =>
         map tci_category result
         = List.filter (fun c => String.eqb (cat_status c) "active") (categories w1)
         /\ (forall c x, In c result -> In x (tci_items c) ->
               item_category_id (tip_item x) = cat_id (tci_category c)
               /\ exists e,
                    on_dashboard w1 patientId date (tip_item x) e
                    /\ tip_entry_id x = Some (entry_id e)
                    /\ tip_completed x
                       = count_distinct (answered_questions w1 (entry_id e))
                    /\ tip_total x
                       = count_distinct (active_questions w1 (item_id (tip_item x)))
                    /\ 1 <= tip_total x
                    /\ (if entry_id e =? 0 then tip_summaries x = []
                        else getSummariesForItem tz Date_parse_other StringToNumber
                               Number_toString (entry_id e) w1
                             = Some (tip_summaries x)))
         /\ (forall ti e, on_dashboard w1 patientId date ti e ->
               exists c x, In c result /\ In x (tci_items c)
                           /\ tip_item x = ti /\ tip_entry_id x = Some (entry_id e))
     | None =>
         exists ti e, on_dashboard w1 patientId date ti e /\ entry_id e <> 0
                      /\ getSummariesForItem tz Date_parse_other StringToNumber
                            Number_toString (entry_id e) w1 = None
     end.
Proof.
  intros w1. split; [reflexivity|].
  unfold getTrackCategoriesWithItemsAndProgress. cbn [fst]. fold w1.
  pose proof (categories_with_items_shown tz Date_parse_other StringToNumber
                Number_toString
                (List.filter (fun c => String.eqb (cat_status c) "active") (categories w1))
                (progress_rows w1 patientId date) w1) as C.
  destruct (categories_with_items _ _ _ _ _ _ w1) as [result|].
  - split; [|split].
    + clear - C. induction C as [|cat c cats result [E _] _ IH]; [reflexivity|].
      simpl. rewrite E, IH. reflexivity.
    + intros c x Hc Hx.
      destruct (Forall2_In_r _ _ _ _ C Hc) as (cat & _ & Ec & F).
      destruct (Forall2_In_r _ _ _ _ F Hx) as (row & Hrow & Ti & Te & Tc & Tt & Ts).
      apply filter_In in Hrow as [Hrow K]. apply Z.eqb_eq in K.
      apply progress_rows_In in Hrow as (ti & e & D & ->).
      cbn [dashboard_row pr_item pr_entry_id pr_completed pr_total] in *.
      split; [congruence|]. exists e. rewrite Ti.
      split; [exact D|]. split; [exact Te|]. split; [exact Tc|]. split; [exact Tt|].
      split; [|exact Ts].
      rewrite Tt. apply count_distinct_positive. apply D.
    + intros ti e D.
      pose proof D as (_ & _ & _ & (tc & Htc & Ic & Sc) & _).
      assert (Hcat : In tc (List.filter (fun c => String.eqb (cat_status c) "active")
                              (categories w1))).
      { apply filter_In. split; [exact Htc|]. rewrite Sc. reflexivity. }
      destruct (Forall2_In_l _ _ _ _ C Hcat) as (c & Hc & Ec & F).
      assert (Hrow : In (dashboard_row w1 ti e)
                       (List.filter (fun r => item_category_id (pr_item r) =? cat_id tc)
                          (progress_rows w1 patientId date))).
      { apply filter_In. split; [apply progress_rows_In; eauto|].
        cbn [dashboard_row pr_item]. rewrite Ic. apply Z.eqb_refl. }
      destruct (Forall2_In_l _ _ _ _ F Hrow) as (x & Hx & Ti & Te & _).
      exists c, x. auto.
  - destruct C as (row & id & Hrow & E & N & S).
    apply progress_rows_In in Hrow as (ti & e & D & ->).
    cbn [dashboard_row pr_entry_id] in E. injection E as <-.
    exists ti, e. auto.
Qed.

End Dashboard.

Module DateClaims.

Import Js Vocabulary Calendar Decimal_text DateNormalizer.
Local Open Scope string_scope.
Local Open Scope Z_scope.

(** C6, as stated, fails: with the daily frequency the text is parsed and
    printed again as [MM-DD-YYYY], so a date given in the accepted form
    [YYYY-MM-DD], or with a one-digit month or day, does not come back
    unchanged. *)
Lemma normalize_daily_not_identity :
  normalizeDateByFrequency 0 no_other_dates "2024-01-05" DAILY = "01-05-2024"
  /\ normalizeDateByFrequency 0 no_other_dates "2024-01-05" DAILY <> "2024-01-05"
  /\ normalizeDateByFrequency 0 no_other_dates "1-5-2024" DAILY = "01-05-2024"
  /\ normalizeDateByFrequency 0 no_other_dates "1-5-2024" DAILY <> "1-5-2024".
Proof. repeat split; try reflexivity; vm_compute; discriminate. Qed.

(** What the three frequencies make of a well-formed text. *)
Lemma normalize_well_formed tz other m d y :
  - msPerDay <= tz <= msPerDay ->
  1 <= m <= 12 -> 1 <= d <= DaysInMonth y (m - 1) -> 1000 <= y <= 9999 ->
  let s := fmt_date m d y in
  let n := MakeDay y (m - 1) d in
  parseMMDDYYYY tz other s = midnight tz n
  /\ local_day tz (n * msPerDay - tz) = n
  /\ normalizeDateByFrequency tz other s DAILY = s
  /\ normalizeDateByFrequency tz other s WEEKLY = fmt_day (monday_of n)
  /\ normalizeDateByFrequency tz other s MONTHLY = fmt_date m 1 y.
Proof.
  intros Htz Hm Hd Hy. cbv zeta.
  destruct (fields_MakeDay y (m - 1) d ltac:(lia) Hd) as (Ey & Emo & Eda).
  remember (MakeDay y (m - 1) d) as n eqn:En.
  assert (Hw : 100 <= year_of (monday_of n) <= 9999)
    by (apply year_of_week_before; lia).
  split; [rewrite En; apply parse_canonical; auto; lia|].
  split; [apply DateTexts.local_day_midnight|].
  split; [apply normalize_daily; auto; lia|].
  split; [|apply normalize_monthly; auto; lia].
  rewrite En. apply normalize_weekly; auto; try lia. rewrite <- En. apply Hw.
Qed.

(** C6, amended: for every text that is read as a date whose local year
    has four digits, in whatever accepted form it is written,
    normalisation is idempotent for every frequency.  The daily frequency
    gives the text [MM-DD-YYYY] of the local day of the date read, so it
    returns the text itself exactly when this is written that way; the
    weekly frequency gives the Monday of the week of that day (at most six
    days back, six days back from a Sunday) and the monthly frequency the
    first of its month.  A date of the calendar written [MM-DD-YYYY] with
    two-digit month and day is read as that day and comes back unchanged
    with the daily frequency; written [YYYY-MM-DD] it is read as midnight in
    UTC and comes back as [MM-DD-YYYY], of the same day where local time is
    UTC or ahead of it and of the day before where local time is behind. *)
Theorem normalize_date_texts tz other :
  - msPerDay <= tz <= msPerDay ->
  (forall s t,
     parseMMDDYYYY tz other s = Some t ->
     1000 <= year_of (local_day tz t) <= 9999 ->
     let n := local_day tz t in
     (forall f, normalizeDateByFrequency tz other (normalizeDateByFrequency tz other s f) f
                = normalizeDateByFrequency tz other s f)
     /\ normalizeDateByFrequency tz other s DAILY = fmt_day n
     /\ (normalizeDateByFrequency tz other s DAILY = s <-> s = fmt_day n)
     /\ normalizeDateByFrequency tz other s WEEKLY = fmt_day (monday_of n)
     /\ weekday_of (monday_of n) = 1
     /\ n - 6 <= monday_of n <= n
     /\ (weekday_of n = 0 -> monday_of n = n - 6)
     /\ normalizeDateByFrequency tz other s MONTHLY
        = fmt_date (month_of n + 1) 1 (year_of n))
  /\ (forall m d y,
        1 <= m <= 12 -> 1 <= d <= DaysInMonth y (m - 1) -> 1000 <= y <= 9999 ->
        let s := fmt_date m d y in
        let n := MakeDay y (m - 1) d in
        parseMMDDYYYY tz other s = midnight tz n
        /\ local_day tz (n * msPerDay - tz) = n
        /\ normalizeDateByFrequency tz other s DAILY = s
        /\ normalizeDateByFrequency tz other s WEEKLY = fmt_day (monday_of n)
        /\ normalizeDateByFrequency tz other s MONTHLY = fmt_date m 1 y)
  /\ (forall y m d,
        tz < msPerDay ->
        1001 <= y <= 9999 -> 1 <= m <= 12 -> 1 <= d <= DaysInMonth y (m - 1) ->
        let n := MakeDay y (m - 1) d in
        parseMMDDYYYY tz other (iso_text y m d) = Some (n * msPerDay)
        /\ normalizeDateByFrequency tz other (iso_text y m d) DAILY
           = if 0 <=? tz then fmt_date m d y else fmt_day (n - 1)).
Proof.
  intros Htz. split; [|split].
  - intros s t P Hy. cbv zeta. set (n := local_day tz t) in *.
    destruct (DateTexts.normalize_by_day tz other Htz s t P Hy) as (Nd & Nw & Nm & _).
    fold n in Nd, Nw, Nm.
    assert (Hw : 100 <= year_of (monday_of n) <= 9999)
      by (apply year_of_week_before; exact Hy).
    split.
    { intros [| |].
      - rewrite Nd.
        pose proof (DateTexts.parse_fmt_day tz other Htz n ltac:(lia)) as Pn.
        assert (Hn : 1000 <= year_of (local_day tz (n * msPerDay - tz)) <= 9999)
          by (rewrite DateTexts.local_day_midnight; exact Hy).
        destruct (DateTexts.normalize_by_day tz other Htz _ _ Pn Hn) as (Nd' & _).
        rewrite Nd', DateTexts.local_day_midnight. reflexivity.
      - rewrite Nw. apply normalize_day_weekly; auto. apply weekday_monday_of.
      - rewrite Nm. pose proof (month_of_range n) as Hm.
        pose proof (date_of_range n) as Hd.
        apply normalize_monthly; auto; try lia.
        replace (month_of n + 1 - 1) with (month_of n) by lia. lia. }
    split; [exact Nd|]. split; [rewrite Nd; split; congruence|].
    split; [exact Nw|]. split; [apply weekday_monday_of|].
    split; [apply monday_of_bounds|].
    split; [|exact Nm].
    intros W. unfold monday_of, days_since_monday. rewrite W. reflexivity.
  - intros m d y Hm Hd Hy. apply normalize_well_formed; assumption.
  - intros y m d Hlt Hy Hm Hd. cbv zeta.
    pose proof (DateTexts.iso_text_midnight tz other y m d ltac:(lia) Hm Hd) as P.
    split; [exact P|].
    destruct (fields_MakeDay y (m - 1) d ltac:(lia) Hd) as (Fy & _ & _).
    set (n := MakeDay y (m - 1) d) in *.
    pose proof (DateTexts.local_day_utc_midnight tz n ltac:(lia)) as LD.
    assert (Hn : 1000 <= year_of (local_day tz (n * msPerDay)) <= 9999).
    { rewrite LD. destruct (0 <=? tz); [lia|].
      pose proof (DateTexts.year_of_day_before n y Fy). lia. }
    destruct (DateTexts.normalize_by_day tz other Htz _ _ P Hn) as (Nd & _).
    rewrite Nd, LD. destruct (0 <=? tz); [|reflexivity].
    apply fmt_day_MakeDay; assumption.
Qed.

Lemma normalize_date_texts_witness :
  normalizeDateByFrequency utc_minus_5 no_other_dates
    (normalizeDateByFrequency utc_minus_5 no_other_dates "2024-01-05" WEEKLY) WEEKLY
  = normalizeDateByFrequency utc_minus_5 no_other_dates "2024-01-05" WEEKLY.
Proof.
  assert (H0 : - msPerDay <= utc_minus_5 <= msPerDay)
    by (unfold utc_minus_5, msPerDay; lia).
  refine (proj1 (proj1 (normalize_date_texts utc_minus_5 no_other_dates H0)
                   "2024-01-05" 1704412800000 _ _) WEEKLY).
  - vm_compute. reflexivity.
  - vm_compute. split; discriminate.
Defined.

(** C7, a failing input: 2024-01-01 is a Monday and the first of its
    month, yet where local time is behind UTC the text [2024-01-01] taken
    by the [YYYY-MM-DD] fallback is neither a weekly nor a monthly
    boundary, while the text [01-01-2024] of the same date is both. *)
Lemma boundary_test_iso_text_behind_utc :
  weekday_of (MakeDay 2024 0 1) = 1
  /\ shouldCreateEntryForDate utc_minus_5 no_other_dates "2024-01-01" WEEKLY = false
  /\ shouldCreateEntryForDate utc_minus_5 no_other_dates "2024-01-01" MONTHLY = false
  /\ shouldCreateEntryForDate utc_minus_5 no_other_dates "01-01-2024" WEEKLY = true
  /\ shouldCreateEntryForDate utc_minus_5 no_other_dates "01-01-2024" MONTHLY = true
  /\ shouldCreateEntryForDate utc_minus_5 no_other_dates "2024-01-02" WEEKLY = true
  /\ shouldCreateEntryForDate utc_minus_5 no_other_dates "2024-01-02" MONTHLY = true.
Proof. repeat split; vm_compute; reflexivity. Qed.

(** The boundary test on a well-formed text [MM-DD-YYYY]: always true for
    daily, true for weekly exactly on Mondays, true for monthly exactly on
    the first of the month. *)
Lemma boundary_test_well_formed_date tz other m d y :
  - msPerDay <= tz <= msPerDay ->
  1 <= m <= 12 -> 1 <= d <= DaysInMonth y (m - 1) -> 100 <= y <= 9999 ->
  shouldCreateEntryForDate tz other (fmt_date m d y) DAILY = true
  /\ (shouldCreateEntryForDate tz other (fmt_date m d y) WEEKLY = true
      <-> weekday_of (MakeDay y (m - 1) d) = 1)
  /\ (shouldCreateEntryForDate tz other (fmt_date m d y) MONTHLY = true <-> d = 1).
Proof.
  intros Htz Hm Hd Hy. unfold shouldCreateEntryForDate.
  rewrite parse_canonical by assumption.
  destruct (local_fields_midnight tz (MakeDay y (m - 1) d)) as (_ & _ & -> & ->).
  destruct (fields_MakeDay y (m - 1) d ltac:(lia) Hd) as (_ & _ & ->).
  split; [reflexivity|]. split.
  - destruct (weekday_of (MakeDay y (m - 1) d)) as [|[p|p|]|p];
      split; intros H; congruence.
  - destruct d as [|[p|p|]|p]; split; intros H; congruence.
Qed.

(** For every date text, valid or not, the daily frequency is always a
    boundary. *)
Lemma boundary_test_daily tz other s :
  shouldCreateEntryForDate tz other s DAILY = true.
Proof. reflexivity. Qed.

End DateClaims.

Module TemplateClaims.

Import Js Vocabulary Templates Goals.
Local Open Scope string_scope.
Local Open Scope Z_scope.

(** C3, as stated, fails: editing a custom goal with options for an
    existing question deletes the option rows the question had. *)
Lemma editCustomGoal_deletes_options :
  In old_option (options goal_store)
  /\ options (editCustomGoal "t1" codes (fun _ => 0) codes 3 new_options goal_store)
     = [new_option 1 5 "code" "New" "t1"]
  /\ ~ In old_option
         (options (editCustomGoal "t1" codes (fun _ => 0) codes 3 new_options goal_store)).
Proof.
  split; [left; reflexivity|]. split; [vm_compute; reflexivity|].
  intros [H|[]]. discriminate H.
Qed.

Section Editing.

Variable now : string.
Variable uuidv4 : nat -> string.
Variable Date_now : nat -> Z.
Variable random_base36 : nat -> string.

Local Abbreviation edit := (edit_question now uuidv4 Date_now random_base36).

Lemma stamped_code_options prefix w :
  same_but_options w (snd (stamped_code Date_now random_base36 prefix w))
  /\ options (snd (stamped_code Date_now random_base36 prefix w)) = options w.
Proof. split; [repeat split|reflexivity]. Qed.

Lemma filter_filter {A} (f g : A -> bool) l :
  List.filter f (List.filter g l) = List.filter (fun x => g x && f x) l.
Proof.
  induction l as [|x l IH]; [reflexivity|]. simpl.
  destruct (g x); simpl; [destruct (f x)|]; rewrite IH; reflexivity.
Qed.

Lemma kept_option_cons q qs o :
  kept_option (q :: qs) o = kept_option [q] o && kept_option qs o.
Proof.
  unfold kept_option, replaced_questions. cbn [flat_map]. rewrite app_nil_r.
  rewrite existsb_app, negb_orb. reflexivity.
Qed.

Lemma texts_supplied q opts (news : list ResponseOption) :
  qu_options q = Some opts ->
  map opt_text news = map trim opts ->
  (forall o, In o news ->
     opt_status o = Some "active"
     /\ forall id, qu_id q = Some id -> id <> 0%Z -> opt_question_id o = id) ->
  forall o, In o news -> supplied_option [q] o.
Proof.
  intros E T A o Ho. destruct (A o Ho) as [S I].
  split; [exact S|]. exists q, opts.
  assert (Ht : In (opt_text o) (map trim opts))
    by (rewrite <- T; apply in_map; exact Ho).
  apply in_map_iff in Ht as (text & Et & Ht).
  exists text. split; [left; reflexivity|]. split; [exact E|].
  split; [exact Ht|]. split; [symmetry; exact Et|exact I].
Qed.

(** What one question update does to the options. *)
Lemma edit_question_options trackItemId w q :
  exists news,
    options (edit trackItemId w q)
    = (List.filter (kept_option [q]) (options w) ++ news)%list
    /\ forall o, In o news -> supplied_option [q] o.
Proof.
  assert (New : (qu_id q = None \/ qu_id q = Some 0%Z) ->
                exists news,
                  options (insert_new_question now Date_now random_base36 trackItemId q w)
                  = (List.filter (kept_option [q]) (options w) ++ news)%list
                  /\ forall o, In o news -> supplied_option [q] o).
  { intros Hid.
    assert (K : List.filter (kept_option [q]) (options w) = options w).
    { apply filter_all. intros o _. unfold kept_option, replaced_questions.
      cbn [flat_map]. destruct Hid as [-> | ->]; [reflexivity|].
      destruct (qu_options q); reflexivity. }
    rewrite K. unfold insert_new_question.
    destruct (stamped_code Date_now random_base36 "Q" w) as [code w1] eqn:C.
    assert (O1 : options w1 = options w)
      by (pose proof (stamped_code_options "Q" w) as [_ H]; rewrite C in H; exact H).
    unfold insert_question. cbv zeta beta iota.
    set (qid := fresh_id (map q_id (questions w1))).
    set (w2 := set_questions w1 _).
    destruct (qu_options q) as [opts|] eqn:E.
    - destruct (insert_options_added now (stamped_code Date_now random_base36 "RESP")
                  trim qid opts (stamped_code_options "RESP") w2)
        as (_ & news & (O & T & A)).
      exists news. split; [rewrite O; simpl; rewrite O1; reflexivity|].
      apply (texts_supplied q opts news E T). intros o Ho.
      split; [apply (A o Ho)|].
      intros id Hq N. destruct Hid as [H|H]; rewrite H in Hq; congruence.
    - exists []. split; [simpl; rewrite O1, app_nil_r; reflexivity|intros o []]. }
  unfold edit_question. destruct (qu_id q) as [id|] eqn:Hid; [|apply New; auto].
  destruct (Z.eqb_spec id 0) as [->|N]; [apply New; auto|].
  destruct (qu_options q) as [opts|] eqn:E.
  - destruct (update_question_options now uuidv4 id q opts w E)
      as (_ & _ & news & O & T & A).
    exists news. split.
    + rewrite O. f_equal. unfold options_but. apply List.filter_ext. intros o.
      unfold kept_option, replaced_questions. cbn [flat_map]. rewrite Hid, E.
      destruct (Z.eqb_spec id 0); [contradiction|]. cbn [app existsb].
      rewrite orb_false_r. reflexivity.
    + apply (texts_supplied q opts news E T). intros o Ho.
      destruct (A o Ho) as [I S]. split; [exact S|]. congruence.
  - exists []. rewrite app_nil_r. split; [|intros o []].
    unfold update_question. rewrite E. simpl. symmetry. apply filter_all.
    intros o _. unfold kept_option, replaced_questions. cbn [flat_map].
    rewrite Hid, E. destruct (id =? 0); reflexivity.
Qed.

Lemma supplied_option_more qs qs' o :
  (forall q, In q qs -> In q qs') -> supplied_option qs o -> supplied_option qs' o.
Proof.
  intros H (S & q & opts & text & Hq & R). split; [exact S|].
  exists q, opts, text. split; [apply H, Hq|exact R].
Qed.

(** What a list of question updates does to the options. *)
Lemma edit_questions_options trackItemId qs : forall w,
  exists added,
    options (fold_left (edit trackItemId) qs w)
    = (List.filter (kept_option qs) (options w) ++ added)%list
    /\ forall o, In o added -> supplied_option qs o.
Proof.
  induction qs as [|q qs IH]; intros w.
  - exists []. rewrite app_nil_r. split; [|intros o []].
    simpl. symmetry. apply filter_all. reflexivity.
  - cbn [fold_left].
    destruct (edit_question_options trackItemId w q) as (news & O1 & S1).
    destruct (IH (edit trackItemId w q)) as (added & O2 & S2).
    exists (List.filter (kept_option qs) news ++ added)%list. split.
    + rewrite O2, O1, List.filter_app, filter_filter, <- app_assoc. f_equal.
      apply List.filter_ext. intros o. symmetry. apply kept_option_cons.
    + intros o Ho. apply in_app_or in Ho as [Ho|Ho].
      * apply filter_In in Ho as [Ho _].
        apply (supplied_option_more [q]); [|apply S1, Ho].
        intros x [<-|[]]. left. reflexivity.
      * apply (supplied_option_more qs); [|apply S2, Ho].
        intros x Hx. right. exact Hx.
Qed.

Lemma editCustomGoal_options trackItemId updates w :
  exists added,
    options (editCustomGoal now uuidv4 Date_now random_base36 trackItemId updates w)
    = (List.filter (kept_option (default [] (gu_questions updates))) (options w)
       ++ added)%list
    /\ forall o, In o added -> supplied_option (default [] (gu_questions updates)) o.
Proof.
  unfold editCustomGoal.
  set (w1 := match gu_name updates with Some _ => _ | None => _ end).
  assert (K : options w1 = options w).
  { unfold w1. destruct (gu_name updates) as [name|]; [|reflexivity].
    destruct (String.eqb name ""); reflexivity. }
  destruct (gu_questions updates) as [qs|].
  - destruct (edit_questions_options trackItemId qs w1) as (added & O & S).
    exists added. rewrite O, K. split; [reflexivity|exact S].
  - exists []. rewrite app_nil_r, K. split; [|intros o []].
    simpl. symmetry. apply filter_all. reflexivity.
Qed.

Lemma editCustomGoal_one_question trackItemId name id text type required opts w :
  id <> 0 ->
  exists news,
    options (editCustomGoal now uuidv4 Date_now random_base36 trackItemId
               {| gu_name := name;
                  gu_questions :=
                    Some [{| qu_id := Some id; qu_text := text; qu_type := type;
                             qu_required := required; qu_options := Some opts |}] |} w)
    = (options_but w id ++ news)%list
    /\ map opt_text news = map trim opts
    /\ forall o, In o news -> opt_question_id o = id /\ opt_status o = Some "active".
Proof.
  intros N. unfold editCustomGoal. cbn [gu_name gu_questions fold_left].
  set (w1 := match name with Some _ => _ | None => _ end).
  assert (K : options w1 = options w).
  { unfold w1. destruct name as [n|]; [|reflexivity].
    destruct (String.eqb n ""); reflexivity. }
  unfold edit_question. cbn [qu_id]. destruct (Z.eqb_spec id 0); [contradiction|].
  destruct (update_question_options now uuidv4 id
              {| qu_id := Some id; qu_text := text; qu_type := type;
                 qu_required := required; qu_options := Some opts |} opts w1 eq_refl)
    as (_ & _ & news & O & T & A).
  exists news. split; [|split; [exact T|exact A]].
  rewrite O. unfold options_but. rewrite K. reflexivity.
Qed.

Lemma removeCustomGoal_rows trackItemId patientId w :
  Forall2 (fun i i' => item_but_status i i' /\ (item_id i <> trackItemId -> i' = i))
    (items w) (items (removeCustomGoal now trackItemId patientId w))
  /\ Forall2 (fun e e' =>
                entry_but_selected e e'
                /\ (entry_track_item_id e <> trackItemId
                    \/ entry_patient_id e <> patientId -> e' = e))
       (entries w) (entries (removeCustomGoal now trackItemId patientId w))
  /\ patients (removeCustomGoal now trackItemId patientId w) = patients w
  /\ responses (removeCustomGoal now trackItemId patientId w) = responses w.
Proof.
  unfold removeCustomGoal. cbn [set_entries set_items items entries patients responses].
  split; [|split; [|split; reflexivity]].
  - induction (items w) as [|i l IH]; [constructor|]. cbn [map].
    constructor; [|exact IH].
    destruct (Z.eqb_spec (item_id i) trackItemId) as [E|E].
    + split; [repeat split|]. intros H. contradiction.
    + split; [repeat split|]. reflexivity.
  - induction (entries w) as [|e l IH]; [constructor|]. cbn [map].
    constructor; [|exact IH].
    destruct (Z.eqb_spec (entry_track_item_id e) trackItemId) as [E1|E1];
      destruct (Z.eqb_spec (entry_patient_id e) patientId) as [E2|E2]; cbn [andb];
      (split; [repeat split|]); try reflexivity.
    intros [H|H]; contradiction.
Qed.

End Editing.

(** C3, amended: every operation keeps every category, and every item
    and question row by id; every operation keeps every option row
    unchanged, except that [editCustomGoal] deletes the option rows of the
    questions for which an update names the question and gives options.
    After [editCustomGoal] the option table is the old one without the rows
    of those questions, in its order, followed by rows the call supplied:
    active rows with the trimmed text of an option of an update; and after
    one update of a question with options the table is the old one without
    the rows of that question, followed by one active row of the question
    for each option given, in order.  [removeCustomGoal] removes nothing: it
    leaves categories, questions, options, patients and responses as they
    are, changes at most status and update time of the items with the id,
    and at most [selected] and update time of the entries of the item for
    the patient. *)
Theorem template_rows_kept tz Date_parse_other now getCurrentTimestamp uuidv4
    Date_now random_base36 op w :
  templates_kept w
    (run tz Date_parse_other now getCurrentTimestamp uuidv4 Date_now random_base36 op w)
  /\ options_kept_but (replaced_by op) w
       (run tz Date_parse_other now getCurrentTimestamp uuidv4 Date_now random_base36 op w)
  /\ (forall trackItemId patientId,
        let w' := removeCustomGoal now trackItemId patientId w in
        options w' = options w /\ questions w' = questions w
        /\ categories w' = categories w /\ patients w' = patients w
        /\ responses w' = responses w
        /\ Forall2 (fun i i' => item_but_status i i'
                                /\ (item_id i <> trackItemId -> i' = i))
             (items w) (items w')
        /\ Forall2 (fun e e' =>
                      entry_but_selected e e'
                      /\ (entry_track_item_id e <> trackItemId
                          \/ entry_patient_id e <> patientId -> e' = e))
             (entries w) (entries w'))
  /\ (forall trackItemId updates,
        exists added,
          options (editCustomGoal now uuidv4 Date_now random_base36 trackItemId
                     updates w)
          = (List.filter (kept_option (default [] (gu_questions updates))) (options w)
             ++ added)%list
          /\ forall o, In o added ->
               supplied_option (default [] (gu_questions updates)) o)
  /\ (forall trackItemId name id text type required opts,
        id <> 0 ->
        exists news,
          options (editCustomGoal now uuidv4 Date_now random_base36 trackItemId
                     {| gu_name := name;
                        gu_questions :=
                          Some [{| qu_id := Some id; qu_text := text; qu_type := type;
                                   qu_required := required;
                                   qu_options := Some opts |}] |} w)
          = (options_but w id ++ news)%list
          /\ map opt_text news = map trim opts
          /\ forall o, In o news ->
               opt_question_id o = id /\ opt_status o = Some "active").
Proof.
  split; [|split; [|split; [|split]]].
  - destruct op; simpl.
    + apply ensureSubscribedEntries_kept.
    + apply saveResponse_kept.
    + apply addOptionToQuestion_kept.
    + apply addTrackItemOnDate_kept.
    + apply removeTrackItemFromDate_kept.
    + apply addCustomGoal_kept.
    + apply editCustomGoal_kept.
    + apply removeCustomGoal_kept.
  - destruct op; simpl replaced_by; simpl run.
    + apply ensureSubscribedEntries_kept.
    + apply saveResponse_kept.
    + apply addOptionToQuestion_kept.
    + apply addTrackItemOnDate_kept.
    + apply removeTrackItemFromDate_kept.
    + apply addCustomGoal_kept.
    + apply (editCustomGoal_kept now uuidv4 Date_now random_base36 trackItemId updates w).
    + apply removeCustomGoal_kept.
  - intros trackItemId patientId. cbv zeta.
    destruct (removeCustomGoal_rows now trackItemId patientId w) as (I & E & P & R).
    split; [reflexivity|]. split; [reflexivity|]. split; [reflexivity|].
    split; [exact P|]. split; [exact R|]. split; [exact I|exact E].
  - intros trackItemId updates. apply editCustomGoal_options.
  - intros trackItemId name id text type required opts N.
    apply editCustomGoal_one_question, N.
Qed.

Lemma template_rows_kept_witness :
  exists news,
    options (editCustomGoal "t1" codes (fun _ => 0) codes 3 new_options goal_store)
    = (options_but goal_store 5 ++ news)%list
    /\ map opt_text news = map trim ["New"].
Proof.
  destruct (template_rows_kept 0 no_other_dates "t1" codes codes (fun _ => 0) codes
              (EditCustomGoal 3 new_options) goal_store) as (_ & _ & _ & _ & H).
  destruct (H 3 None 5 "How far?" "mcq" None ["New"]) as (news & O & T & _);
    [discriminate|].
  exists news. split; [exact O|exact T].
Defined.

End TemplateClaims.
